(** * SensorService: a shallow embedding of services/sensorservice/SensorService.cpp

    The development follows the source file function by function.  Machine
    integers are [Z] with their wrap-around written out, the service's maps
    are stdpp [gmap]s, enums are inductive types, and every call that leaves
    the service (HAL, wakelock primitive, sockets, file system) is recorded
    in an explicit trace or answered by an explicit oracle argument. *)

From Stdlib Require Import ZArith Lia Bool.
From stdpp Require Import gmap strings list fin_maps sorting.

Local Open Scope Z_scope.

(** ** Machine integers *)

Module MachineInt.

(** Conversion of an integer to a signed [w]-bit two's complement value. *)
Definition wrap (w : Z) (x : Z) : Z :=
  (x + 2 ^ (w - 1)) mod 2 ^ w - 2 ^ (w - 1).

(** [int] on every Android ABI. *)
Definition int32 (x : Z) : Z := wrap 32 x.
(** [int64_t]. *)
Definition int64 (x : Z) : Z := wrap 64 x.

Definition in_int32 (x : Z) : Prop := - 2 ^ 31 <= x < 2 ^ 31.
Definition in_int64 (x : Z) : Prop := - 2 ^ 63 <= x < 2 ^ 63.

End MachineInt.
Import MachineInt.

(** ** Sensor descriptors and events *)

Inductive ReportingMode :=
| AREPORTING_MODE_CONTINUOUS
| AREPORTING_MODE_ON_CHANGE
| AREPORTING_MODE_ONE_SHOT
| AREPORTING_MODE_SPECIAL_TRIGGER.

(** [Sensor], the static description the service consults. *)
Record Sensor := mkSensor {
  getHandle : Z;
  getType : Z;
  getReportingMode : ReportingMode;
  isWakeUpSensor : bool;
  isDynamicSensor : bool;
  getMinDelayNs : Z;
  (** in microseconds *)
  getMaxDelay : Z;
  (** [getRequiredPermission().size()] *)
  getRequiredPermission_size : Z;
  getRequiredAppOp : Z
}.

(** [sensors_event_t], the fields the service itself reads or writes.  The
    payload union is kept as the views the service uses: [meta_data.sensor],
    the [dynamic_sensor_meta] members and the [data] array. *)
Record sensors_event_t := mkEvent {
  version : Z;
  sensor : Z;
  type : Z;
  timestamp : Z;
  meta_data_sensor : Z;
  dynamic_sensor_meta_connected : bool;
  dynamic_sensor_meta_handle : Z;
  dynamic_sensor_meta_sensor : Sensor;
  flags : Z;
  data : list Z
}.

(** [sizeof(sensors_event_t)], against which [enable] checks the [version]
    field of the event it replays. *)
Definition sizeof_sensors_event_t : Z := 104.

Definition SENSOR_TYPE_META_DATA : Z := 0.
Definition SENSOR_TYPE_ROTATION_VECTOR : Z := 11.
Definition SENSOR_TYPE_DYNAMIC_SENSOR_META : Z := 32.
Definition SENSOR_TYPE_ADDITIONAL_INFO : Z := 33.

(** A plain continuous sensor and a plain sample of it, for examples. *)
Definition plain_sensor (h : Z) : Sensor :=
  mkSensor h 1 AREPORTING_MODE_CONTINUOUS false false 0 0 0 (-1).
Definition event_at (h t : Z) : sensors_event_t :=
  mkEvent sizeof_sensors_event_t h 1 t 0 false 0 (plain_sensor 0) 0 [].

(** ** sortEventBuffer *)

Module SortEventBuffer.

(** [compar::cmp]: the 64-bit difference of the two timestamps, returned
    through the comparator's [int] result. *)
Definition cmp (l r : sensors_event_t) : Z :=
  int32 (int64 (timestamp l - timestamp r)).

(** The C library's [qsort], as the insertion pass the BSD implementation
    runs on short arrays: each element in turn moves left past every
    predecessor that the comparator ranks above it.  [sift] works on the
    already processed prefix, held in reverse. *)
Fixpoint sift (compar : sensors_event_t -> sensors_event_t -> Z)
    (x : sensors_event_t) (rprefix : list sensors_event_t) : list sensors_event_t :=
  match rprefix with
  | [] => [x]
  | y :: ys => if 0 <? compar y x then y :: sift compar x ys else x :: y :: ys
  end.

Definition qsort (compar : sensors_event_t -> sensors_event_t -> Z)
    (buffer : list sensors_event_t) : list sensors_event_t :=
  rev (fold_left (fun rprefix x => sift compar x rprefix) buffer []).

Definition sortEventBuffer (buffer : list sensors_event_t) : list sensors_event_t :=
  qsort cmp buffer.




(** What [qsort] promises of its result for a comparator that orders the
    buffer: adjacent elements are in comparator order. *)
Definition cmp_ordered (compar : sensors_event_t -> sensors_event_t -> Z)
    (out : list sensors_event_t) : Prop :=
  Sorted (fun a b => compar a b <= 0) out.

End SortEventBuffer.
Import SortEventBuffer.

(** ** threadLoop: virtual sensor expansion *)

Section VirtualSensors.

(** [SensorEventQueue::MAX_RECEIVE_BUFFER_EVENT_COUNT]. *)
Variable minBufferSize : nat.
(** [mSensors.getVirtualSensors().size()]. *)
Variable vcount : nat.
(** [mActiveVirtualSensors], in iteration order. *)
Variable mActiveVirtualSensors : list Z.
(** [getSensorInterfaceFromHandle(handle)] followed by [si->process]:
    [None] for a null interface, otherwise the sensor's [process], which
    yields an output event or nothing. *)
Variable virtualSensor : Z -> option (sensors_event_t -> option sensors_event_t).

(** The inner [for (int handle : mActiveVirtualSensors)] loop for one input
    event; [outs] are the [k] events appended so far. *)
Fixpoint processVirtual (count : nat) (ev : sensors_event_t) (handles : list Z)
    (outs : list sensors_event_t) : list sensors_event_t :=
  match handles with
  | [] => outs
  | handle :: rest =>
      if (minBufferSize <=? count + length outs)%nat then outs
      else match virtualSensor handle with
           | None => processVirtual count ev rest outs
           | Some process =>
               match process ev with
               | Some out => processVirtual count ev rest (outs ++ [out])
               | None => processVirtual count ev rest outs
               end
           end
  end.

(** The outer [for (i = 0; i < count && k < minBufferSize; i++)] loop. *)
Fixpoint expandEvents (count : nat) (events : list sensors_event_t)
    (outs : list sensors_event_t) : list sensors_event_t :=
  match events with
  | [] => outs
  | ev :: rest =>
      if (length outs <? minBufferSize)%nat
      then expandEvents count rest (processVirtual count ev mActiveVirtualSensors outs)
      else outs
  end.

(** The events synthesized for a polled batch: empty when the guards
    [count && vcount] or [!mActiveVirtualSensors.empty()] fail. *)
Definition virtualEvents (batch : list sensors_event_t) : list sensors_event_t :=
  if (negb (length batch =? 0)%nat && negb (vcount =? 0)%nat)
  then match mActiveVirtualSensors with
       | [] => []
       | _ => expandEvents (length batch) batch []
       end
  else [].

(** The "handle virtual sensors" block of [threadLoop]: the batch as it
    leaves the block.  [sortEventBuffer] runs only under [if (k)]. *)
Definition handleVirtualSensors (batch : list sensors_event_t) : list sensors_event_t :=
  match virtualEvents batch with
  | [] => batch
  | outs => sortEventBuffer (batch ++ outs)
  end.

End VirtualSensors.

(** Two virtual sensors for examples: one (handle 10) answers every sample
    with one of its own, one tick later; the other is active and never
    produces output. *)
Definition echo_sensor : Z -> option (sensors_event_t -> option sensors_event_t) :=
  fun h => if h =? 10 then Some (fun e => Some (event_at 10 (timestamp e + 1))) else None.
Definition silent_sensor : Z -> option (sensors_event_t -> option sensors_event_t) :=
  fun _ => Some (fun _ => None).

(** ** Identity: getIdFromUuid *)

Module Identity.

(** [Sensor::uuid_t], through its [i64[2]] view. *)
Record uuid_t := mkUuid { i64_0 : Z; i64_1 : Z }.

(** The [n] low bytes of [x], least significant first (the byte order of
    every Android ABI); this is what [memcpy] from an integer object reads. *)
Fixpoint le_bytes (n : nat) (x : Z) : list Z :=
  match n with
  | O => []
  | S n' => x mod 256 :: le_bytes n' (x / 256)
  end.

(** The unsigned value of a little-endian byte string. *)
Fixpoint le_value (bs : list Z) : Z :=
  match bs with
  | [] => 0
  | b :: bs' => b + 256 * le_value bs'
  end.

(** [memcpy(&id, hash, sizeof(id))] for an [int32_t id]. *)
Definition int32_of_bytes (hash : list Z) : Z := int32 (le_value (take 4 hash)).

(** [uuidAndApp]: the 16 bytes of the uuid followed by the 4 bytes of the
    calling uid. *)
Definition uuidAndApp (uuid : uuid_t) (appUserId : Z) : list Z :=
  le_bytes 8 (i64_0 uuid) ++ le_bytes 8 (i64_1 uuid) ++ le_bytes 4 appUserId.

Section GetIdFromUuid.

(** BoringSSL's [HMAC(EVP_sha256(), key, ..., data, ..., hash, &hashLen)]:
    [None] when the call returns [nullptr], otherwise the digest, whose
    length is [hashLen]. *)
Variable HMAC : list Z -> list Z -> option (list Z).

Variable sHmacGlobalKeyIsValid : bool.
Variable sHmacGlobalKey : list Z.

(** [appUserId] is [IPCThreadState::self()->getCallingUid()]. *)
Definition getIdFromUuid (uuid : uuid_t) (appUserId : Z) : Z :=
  if (i64_0 uuid =? 0) && (i64_1 uuid =? 0) then 0
  else if (i64_0 uuid =? -1) && (i64_1 uuid =? -1) then -1
  else if negb sHmacGlobalKeyIsValid then 0
  else match HMAC sHmacGlobalKey (uuidAndApp uuid appUserId) with
       | None => 0
       | Some hash =>
           if (length hash <? 4)%nat then 0
           else
             let id := int32_of_bytes hash in
             if id =? -1 then -2
             else if id =? 0 then 1
             else id
       end.

End GetIdFromUuid.

(** The 16 bytes of the uuid, its [b[16]] view. *)
Definition uuid_bytes (uuid : uuid_t) : list Z :=
  le_bytes 8 (i64_0 uuid) ++ le_bytes 8 (i64_1 uuid).

(** The spec's words, "the first 4 bytes as a signed 32-bit integer": the
    two's complement reading of the 32 bits that the bytes [b0] (lowest) to
    [b3] make up. *)
Definition spec_signed32 (b0 b1 b2 b3 : Z) : Z :=
  let u := (b0 + 2 ^ 8 * b1 + 2 ^ 16 * b2 + 2 ^ 24 * b3) mod 2 ^ 32 in
  if u <? 2 ^ 31 then u else u - 2 ^ 32.

(** The spec's words, "if the result is 0, return 1; if -1, return -2". *)
Definition spec_avoid_sentinel (id : Z) : Z :=
  if id =? 0 then 1 else if id =? -1 then -2 else id.

(** The spec's words, "uuid || caller_uid": [msg] is 20 bytes, the 16 that
    make up the two 64-bit halves of the uuid followed by the 4 that make up
    the 32-bit uid, each least significant byte first. *)
Definition spec_message (uuid : uuid_t) (uid : Z) (msg : list Z) : Prop :=
  exists a0 a1 a2 a3 a4 a5 a6 a7 b0 b1 b2 b3 b4 b5 b6 b7 c0 c1 c2 c3,
    msg = [a0; a1; a2; a3; a4; a5; a6; a7; b0; b1; b2; b3; b4; b5; b6; b7; c0; c1; c2; c3]
    /\ Forall (fun x => 0 <= x < 256) msg
    /\ a0 + 2 ^ 8 * a1 + 2 ^ 16 * a2 + 2 ^ 24 * a3 + 2 ^ 32 * a4 + 2 ^ 40 * a5
         + 2 ^ 48 * a6 + 2 ^ 56 * a7 = i64_0 uuid mod 2 ^ 64
    /\ b0 + 2 ^ 8 * b1 + 2 ^ 16 * b2 + 2 ^ 24 * b3 + 2 ^ 32 * b4 + 2 ^ 40 * b5
         + 2 ^ 48 * b6 + 2 ^ 56 * b7 = i64_1 uuid mod 2 ^ 64
    /\ c0 + 2 ^ 8 * c1 + 2 ^ 16 * c2 + 2 ^ 24 * c3 = uid mod 2 ^ 32.

(** A stand-in for the digest function in examples (it is not HMAC-SHA256):
    32 bytes taken from the data followed by the key. *)
Definition example_digest (key data : list Z) : option (list Z) :=
  Some (take 32 (data ++ key)).

End Identity.

(** ** Identity: initializeHmacKey *)

Module HmacKey.

Definition SENSOR_SERVICE_DIR : string := "/data/system/sensor_service".
Definition SENSOR_SERVICE_HMAC_KEY_FILE : string := "/data/system/sensor_service/hmac_key".
(** [sizeof(sHmacGlobalKey)]. *)
Definition sizeof_sHmacGlobalKey : Z := 128.

(** The permission bits of <sys/stat.h>. *)
Definition S_IRUSR : Z := 256.  (* 0400 *)
Definition S_IWUSR : Z := 128.  (* 0200 *)
Definition S_IXUSR : Z := 64.   (* 0100 *)
Definition S_IRWXU : Z := Z.lor S_IRUSR (Z.lor S_IWUSR S_IXUSR).

Inductive oflag := O_RDONLY | O_WRONLY | O_CREAT | O_EXCL | O_CLOEXEC.

(** The calls [initializeHmacKey] makes, in order. *)
Inductive syscall :=
| sys_open (path : string) (oflags : list oflag) (mode : option Z)
| sys_read (count : Z)
| sys_write (bytes : list Z) (count : Z)
| sys_close
| sys_mkdir (path : string) (mode : Z)
| RAND_bytes (count : Z).

(** What the environment answers to those calls. *)
Record world := mkWorld {
  (** [open(..., O_RDONLY)]: [None] for -1, otherwise the result of the
      [read] that follows and the bytes it stored. *)
  open_rdonly : option (Z * list Z);
  (** [RAND_bytes]: [None] for -1, otherwise the bytes produced. *)
  rand : option (list Z);
  (** [open(..., O_CREAT|O_EXCL)]: [None] for -1, otherwise the result of
      the [write] that follows. *)
  open_create : option Z
}.

Record outcome := mkOutcome {
  returned : bool;
  sHmacGlobalKey : list Z;
  calls : list syscall
}.

(** [overwrite old new]: [new] stored over the front of the buffer [old]. *)
Definition overwrite (old new : list Z) : list Z :=
  new ++ drop (length new) old.

Definition initializeHmacKey (w : world) (key0 : list Z) : outcome :=
  let open1 := sys_open SENSOR_SERVICE_HMAC_KEY_FILE [O_RDONLY; O_CLOEXEC] None in
  let generate (key1 : list Z) (calls1 : list syscall) : outcome :=
    match rand w with
    | None => mkOutcome false key1 (calls1 ++ [RAND_bytes sizeof_sHmacGlobalKey])
    | Some bytes =>
        let key2 := overwrite key1 bytes in
        let calls2 :=
          calls1 ++ [RAND_bytes sizeof_sHmacGlobalKey;
                     sys_mkdir SENSOR_SERVICE_DIR S_IRWXU;
                     sys_open SENSOR_SERVICE_HMAC_KEY_FILE
                       [O_WRONLY; O_CREAT; O_EXCL; O_CLOEXEC]
                       (Some (Z.lor S_IRUSR S_IWUSR))] in
        match open_create w with
        | None => mkOutcome true key2 calls2
        | Some result =>
            (* wroteKey = (result == sizeof(sHmacGlobalKey)); both branches
               only log, and the function returns true *)
            mkOutcome true key2
              (calls2 ++ [sys_write key2 sizeof_sHmacGlobalKey; sys_close])
        end
    end in
  match open_rdonly w with
  | Some (result, stored) =>
      let key1 := overwrite key0 stored in
      let calls1 := [open1; sys_read sizeof_sHmacGlobalKey; sys_close] in
      if result =? sizeof_sHmacGlobalKey
      then mkOutcome true key1 calls1
      else generate key1 calls1
  | None => generate key0 [open1]
  end.

(** The mode argument of the first [open] call that carries one (the call
    that creates the key file), when the run makes such a call. *)
Fixpoint created_mode (cs : list syscall) : option Z :=
  match cs with
  | [] => None
  | sys_open _ _ (Some m) :: _ => Some m
  | _ :: cs' => created_mode cs'
  end.

(** The key file could not be opened, or could not be read in full. *)
Definition no_persisted_key (w : world) : Prop :=
  match open_rdonly w with
  | None => True
  | Some (result, _) => result <> sizeof_sHmacGlobalKey
  end.

(** The [open] call that creates the key file. *)
Definition create_key_file : syscall :=
  sys_open SENSOR_SERVICE_HMAC_KEY_FILE [O_WRONLY; O_CREAT; O_EXCL; O_CLOEXEC]
    (Some (Z.lor S_IRUSR S_IWUSR)).

(** A world without a key file, where everything else succeeds. *)
Definition first_boot : world :=
  mkWorld None (Some (repeat 1 128%nat)) (Some 128).

End HmacKey.

(** ** Sampling-rate policy *)

Module RatePolicy.

Definition OK : Z := 0.
Definition PERMISSION_DENIED : Z := -1.
Definition ANDROID_API_S : Z := 31.

Section Adjust.

(** [SENSOR_SERVICE_CAPPED_SAMPLING_PERIOD_NS], defined in SensorService.h. *)
Variable SENSOR_SERVICE_CAPPED_SAMPLING_PERIOD_NS : Z.

(** [targetSdk] is [getTargetSdkVersion(opPackageName)] and
    [hasSamplingRatePermission] the result of [checkPermission] for
    HIGH_SAMPLING_RATE_SENSORS. *)
Definition isRateCappedBasedOnPermission (targetSdk : Z)
    (hasSamplingRatePermission : bool) : bool :=
  if (targetSdk <? ANDROID_API_S)
     || ((ANDROID_API_S <=? targetSdk) && hasSamplingRatePermission)
  then false
  else true.

(** Returns the status and the value left in [*requestedPeriodNs].
    [debuggable] is [isPackageDebuggable(opPackageName)] and [micEnabled]
    is [mMicSensorPrivacyPolicy->isSensorPrivacyEnabled()]. *)
Definition adjustSamplingPeriodBasedOnMicAndPermission (requestedPeriodNs : Z)
    (targetSdk : Z) (hasSamplingRatePermission debuggable micEnabled : bool)
    : Z * Z :=
  if SENSOR_SERVICE_CAPPED_SAMPLING_PERIOD_NS <=? requestedPeriodNs
  then (OK, requestedPeriodNs)
  else
    let shouldCapBasedOnPermission :=
      isRateCappedBasedOnPermission targetSdk hasSamplingRatePermission in
    if shouldCapBasedOnPermission then
      if debuggable
      then (PERMISSION_DENIED, SENSOR_SERVICE_CAPPED_SAMPLING_PERIOD_NS)
      else (OK, SENSOR_SERVICE_CAPPED_SAMPLING_PERIOD_NS)
    else if micEnabled then (OK, SENSOR_SERVICE_CAPPED_SAMPLING_PERIOD_NS)
    else (OK, requestedPeriodNs).

End Adjust.

End RatePolicy.

(** ** The service state *)

Module Service.

(** [status_t] values of <utils/Errors.h>. *)
Definition NO_ERROR : Z := 0.
Definition BAD_VALUE : Z := -22.
Definition INVALID_OPERATION : Z := -38.
Definition NO_INIT : Z := -19.
Definition DEAD_OBJECT : Z := -32.

Inductive Mode :=
| NORMAL
| DATA_INJECTION
| RESTRICTED
| REPLAY_DATA_INJECTION
| HAL_BYPASS_REPLAY_DATA_INJECTION.

#[global] Instance Mode_eq_dec : EqDecision Mode.
Proof. solve_decision. Defined.

#[global] Instance ReportingMode_eq_dec : EqDecision ReportingMode.
Proof. solve_decision. Defined.

(** [SensorInterface]: the description and the [isVirtual] answer; its
    [batch], [flush], [activate] and [process] calls are answered by the
    oracles below. *)
Record SensorInterface := mkSensorInterface {
  getSensor : Sensor;
  isVirtual : bool
}.

(** [SensorList::Entry]. *)
Record Entry := mkEntry {
  si : SensorInterface;
  isForDebug : bool;
  entry_isVirtual : bool;
  deviceId : Z
}.

(** Modelled from the spec: the Sensor Registry ([SensorServiceUtil::SensorList],
    SensorList.cpp is not among the sources).  A catalog of entries by handle
    together with the set of handles ever used: a handle identifies one
    sensor for the lifetime of the process and is never reused. *)
Record SensorList := mkSensorList {
  mHandleMap : gmap Z Entry;
  mUsedHandle : gset Z
}.

(** Modelled from the spec: [is_new_handle(h)]. *)
Definition isNewHandle (l : SensorList) (handle : Z) : bool :=
  bool_decide (handle ∉ mUsedHandle l).

(** Modelled from the spec: [add], which fails when the handle collides. *)
Definition SensorList_add (handle : Z) (e : Entry) (l : SensorList) : bool * SensorList :=
  if bool_decide (handle = getHandle (getSensor (si e))) && isNewHandle l handle
  then (true, mkSensorList (<[handle := e]> (mHandleMap l)) ({[handle]} ∪ mUsedHandle l))
  else (false, l).

(** Modelled from the spec: [remove]. *)
Definition SensorList_remove (handle : Z) (l : SensorList) : bool * SensorList :=
  match mHandleMap l !! handle with
  | Some _ => (true, mkSensorList (delete handle (mHandleMap l)) (mUsedHandle l))
  | None => (false, l)
  end.

(** Modelled from the spec: [lookup]. *)
Definition getInterface (l : SensorList) (handle : Z) : option SensorInterface :=
  si <$> mHandleMap l !! handle.

(** Modelled from the spec: the handle of the registry's placeholder,
    [mSensors.getNonSensor().getHandle()]. *)
Definition nonSensor_handle : Z := 0.

(** Modelled from the spec: the Recent-Event Log entry of one handle
    ([RecentEventLogger], not among the sources): the last values, newest
    first, with a staleness flag. *)
Record RecentEventLogger := mkLogger {
  mRecentEvents : list sensors_event_t;
  mIsLastEventCurrent : bool
}.

(** Modelled from the spec: [addEvent], after which the last event is
    current. *)
Definition addEvent (e : sensors_event_t) (l : RecentEventLogger) : RecentEventLogger :=
  mkLogger (e :: mRecentEvents l) true.

(** Modelled from the spec: [setLastEventStale]. *)
Definition setLastEventStale (l : RecentEventLogger) : RecentEventLogger :=
  mkLogger (mRecentEvents l) false.

(** Modelled from the spec: [populateLastEventIfCurrent], the last event
    unless it is stale. *)
Definition populateLastEventIfCurrent (l : RecentEventLogger) : option sensors_event_t :=
  if mIsLastEventCurrent l then head (mRecentEvents l) else None.

(** Modelled from the spec: the Active Sensor Record ([SensorRecord], not
    among the sources): the owning connections and the FIFO of connections
    awaiting a flush-complete event. *)
Record SensorRecord := mkSensorRecord {
  mConnections : list nat;
  mPendingFlushConnections : list nat
}.

(** Modelled from the spec: [new SensorRecord(connection)]. *)
Definition SensorRecord_new (c : nat) : SensorRecord := mkSensorRecord [c] [].

(** Modelled from the spec: [addConnection], true when the connection was
    not yet an owner. *)
Definition addConnection (c : nat) (r : SensorRecord) : bool * SensorRecord :=
  if bool_decide (c ∈ mConnections r) then (false, r)
  else (true, mkSensorRecord (mConnections r ++ [c]) (mPendingFlushConnections r)).

(** Modelled from the spec: [removeConnection], true when no owner is
    left. *)
Definition removeConnection (c : nat) (r : SensorRecord) : bool * SensorRecord :=
  let r' := mkSensorRecord (filter (fun x => x ≠ c) (mConnections r))
                           (filter (fun x => x ≠ c) (mPendingFlushConnections r)) in
  (bool_decide (mConnections r' = []), r').

(** Modelled from the spec: the FIFO of pending flush connections of
    [SensorRecord]. *)
Definition addPendingFlushConnection (c : nat) (r : SensorRecord) : SensorRecord :=
  mkSensorRecord (mConnections r) (mPendingFlushConnections r ++ [c]).

(** Modelled from the spec: [getFirstPendingFlushConnection]. *)
Definition getFirstPendingFlushConnection (r : SensorRecord) : option nat :=
  head (mPendingFlushConnections r).

(** Modelled from the spec: [removeFirstPendingFlushConnection]. *)
Definition removeFirstPendingFlushConnection (r : SensorRecord) : SensorRecord :=
  mkSensorRecord (mConnections r) (tail (mPendingFlushConnections r)).

(** Modelled from the spec: [clearAllPendingFlushConnections]. *)
Definition clearAllPendingFlushConnections (r : SensorRecord) : SensorRecord :=
  mkSensorRecord (mConnections r) [].

(** Modelled from the spec: the per-handle subscription state of an Event
    Connection. *)
Record FlushInfo := mkFlushInfo {
  mFirstFlushPending : bool;
  mPendingFlushEventsToSend : Z
}.

(** Modelled from the spec: the Event Connection ([SensorEventConnection],
    not among the sources): subscribed handles with their flush state, the
    wake-lock refcount and the app-op map. *)
Record SensorEventConnection := mkConnection {
  mPackageName : string;
  mUid : Z;
  mSensorInfo : gmap Z FlushInfo;
  mWakeLockRefCount : Z;
  mHandleToAppOp : gmap Z Z
}.

(** Modelled from the spec: a connection that has subscribed to nothing. *)
Definition newConnection : SensorEventConnection :=
  mkConnection "" 0 ∅ 0 ∅.

(** Modelled from the spec: [hasSensor]. *)
Definition hasSensor (conn : SensorEventConnection) (handle : Z) : bool :=
  bool_decide (is_Some (mSensorInfo conn !! handle)).

(** Modelled from the spec: [hasAnySensor]. *)
Definition hasAnySensor (conn : SensorEventConnection) : bool :=
  negb (bool_decide (mSensorInfo conn = ∅)).

(** Modelled from the spec: [needsWakeLock], while the refcount is positive
    the connection needs the wakelock. *)
Definition needsWakeLock (conn : SensorEventConnection) : bool :=
  0 <? mWakeLockRefCount conn.

Definition with_mSensorInfo (m : gmap Z FlushInfo) (conn : SensorEventConnection) :=
  mkConnection (mPackageName conn) (mUid conn) m (mWakeLockRefCount conn) (mHandleToAppOp conn).

Definition with_mWakeLockRefCount (n : Z) (conn : SensorEventConnection) :=
  mkConnection (mPackageName conn) (mUid conn) (mSensorInfo conn) n (mHandleToAppOp conn).

Definition with_mHandleToAppOp (m : gmap Z Z) (conn : SensorEventConnection) :=
  mkConnection (mPackageName conn) (mUid conn) (mSensorInfo conn) (mWakeLockRefCount conn) m.

(** Modelled from the spec: [addSensor], true when the handle was not yet
    subscribed. *)
Definition addSensor (handle : Z) (conn : SensorEventConnection) : bool * SensorEventConnection :=
  if hasSensor conn handle then (false, conn)
  else (true, with_mSensorInfo (<[handle := mkFlushInfo false 0]> (mSensorInfo conn)) conn).

(** Modelled from the spec: [removeSensor], true when the handle was
    subscribed. *)
Definition removeSensor (handle : Z) (conn : SensorEventConnection) : bool * SensorEventConnection :=
  (hasSensor conn handle, with_mSensorInfo (delete handle (mSensorInfo conn)) conn).

(** Modelled from the spec: [setFirstFlushPending]. *)
Definition setFirstFlushPending (handle : Z) (value : bool) (conn : SensorEventConnection) :=
  with_mSensorInfo
    (alter (fun fi => mkFlushInfo value (mPendingFlushEventsToSend fi)) handle (mSensorInfo conn))
    conn.

(** Everything the service does to the outside, in the order it does it. *)
Inductive action :=
| acquire_wake_lock
| release_wake_lock
| Looper_wake
| writeWakeLockHandled (count : Z)
| sendEvents (c : nat) (written : list sensors_event_t)
| sensor_batch (c : nat) (handle samplingPeriodNs maxBatchReportLatencyNs : Z)
| sensor_flush (c : nat) (handle : Z)
| sensor_activate (c : nat) (handle : Z) (enabled : bool)
| sensor_autoDisable (c : nat) (handle : Z)
| BatteryService_enableSensor (uid handle : Z)
| BatteryService_disableSensor (uid handle : Z)
| updateLooperRegistration (c : nat)
| handleDynamicSensorConnection (handle : Z) (connected : bool)
| cleanupDisconnectedDynamicSensor (handle : Z)
| notifyConnectionDestroyed (c : nat)
| dev_reconnect
| dev_disableAllSensors
| dev_enableAllSensors
| dev_setMode (m : Mode)
| onSensorAccessChanged (direct : nat) (hasAccess : bool)
| checkAndReportProxStateChange
| SensorRegistrationInfo (handle : Z) (packageName : string)
    (samplingPeriodNs maxBatchReportLatencyNs : Z) (activate : bool) (err : Z).

Record SensorService := mkService {
  mInitCheck : Z;
  (** the static counter of [nextRuntimeSensorHandle] *)
  nextHandle : Z;
  mSensors : SensorList;
  mRecentEvent : gmap Z RecentEventLogger;
  mActiveSensors : gmap Z SensorRecord;
  mActiveVirtualSensors : gset Z;
  (** the Event Connection objects, by identity *)
  connections : gmap nat SensorEventConnection;
  (** [mConnectionHolder.mActiveConnections] *)
  mActiveConnections : list nat;
  (** [mConnectionHolder.mDirectConnections]: uid and op package name *)
  mDirectConnections : list (Z * string);
  mWakeLockAcquired : bool;
  mCurrentOperatingMode : Mode;
  mAllowListedPackage : string;
  (** the static [sPackageTargetVersion], the cache of [getTargetSdkVersion] *)
  sPackageTargetVersion : gmap string Z;
  trace : list action
}.

Definition with_nextHandle v s :=
  mkService (mInitCheck s) v (mSensors s) (mRecentEvent s) (mActiveSensors s)
    (mActiveVirtualSensors s) (connections s) (mActiveConnections s) (mDirectConnections s)
    (mWakeLockAcquired s) (mCurrentOperatingMode s) (mAllowListedPackage s) (sPackageTargetVersion s) (trace s).
Definition with_mSensors v s :=
  mkService (mInitCheck s) (nextHandle s) v (mRecentEvent s) (mActiveSensors s)
    (mActiveVirtualSensors s) (connections s) (mActiveConnections s) (mDirectConnections s)
    (mWakeLockAcquired s) (mCurrentOperatingMode s) (mAllowListedPackage s) (sPackageTargetVersion s) (trace s).
Definition with_mRecentEvent v s :=
  mkService (mInitCheck s) (nextHandle s) (mSensors s) v (mActiveSensors s)
    (mActiveVirtualSensors s) (connections s) (mActiveConnections s) (mDirectConnections s)
    (mWakeLockAcquired s) (mCurrentOperatingMode s) (mAllowListedPackage s) (sPackageTargetVersion s) (trace s).
Definition with_mActiveSensors v s :=
  mkService (mInitCheck s) (nextHandle s) (mSensors s) (mRecentEvent s) v
    (mActiveVirtualSensors s) (connections s) (mActiveConnections s) (mDirectConnections s)
    (mWakeLockAcquired s) (mCurrentOperatingMode s) (mAllowListedPackage s) (sPackageTargetVersion s) (trace s).
Definition with_mActiveVirtualSensors v s :=
  mkService (mInitCheck s) (nextHandle s) (mSensors s) (mRecentEvent s) (mActiveSensors s)
    v (connections s) (mActiveConnections s) (mDirectConnections s)
    (mWakeLockAcquired s) (mCurrentOperatingMode s) (mAllowListedPackage s) (sPackageTargetVersion s) (trace s).
Definition with_connections v s :=
  mkService (mInitCheck s) (nextHandle s) (mSensors s) (mRecentEvent s) (mActiveSensors s)
    (mActiveVirtualSensors s) v (mActiveConnections s) (mDirectConnections s)
    (mWakeLockAcquired s) (mCurrentOperatingMode s) (mAllowListedPackage s) (sPackageTargetVersion s) (trace s).
Definition with_mActiveConnections v s :=
  mkService (mInitCheck s) (nextHandle s) (mSensors s) (mRecentEvent s) (mActiveSensors s)
    (mActiveVirtualSensors s) (connections s) v (mDirectConnections s)
    (mWakeLockAcquired s) (mCurrentOperatingMode s) (mAllowListedPackage s) (sPackageTargetVersion s) (trace s).
Definition with_mWakeLockAcquired v s :=
  mkService (mInitCheck s) (nextHandle s) (mSensors s) (mRecentEvent s) (mActiveSensors s)
    (mActiveVirtualSensors s) (connections s) (mActiveConnections s) (mDirectConnections s)
    v (mCurrentOperatingMode s) (mAllowListedPackage s) (sPackageTargetVersion s) (trace s).
Definition with_mCurrentOperatingMode v s :=
  mkService (mInitCheck s) (nextHandle s) (mSensors s) (mRecentEvent s) (mActiveSensors s)
    (mActiveVirtualSensors s) (connections s) (mActiveConnections s) (mDirectConnections s)
    (mWakeLockAcquired s) v (mAllowListedPackage s) (sPackageTargetVersion s) (trace s).
Definition with_mAllowListedPackage v s :=
  mkService (mInitCheck s) (nextHandle s) (mSensors s) (mRecentEvent s) (mActiveSensors s)
    (mActiveVirtualSensors s) (connections s) (mActiveConnections s) (mDirectConnections s)
    (mWakeLockAcquired s) (mCurrentOperatingMode s) v (sPackageTargetVersion s) (trace s).
Definition with_sPackageTargetVersion v s :=
  mkService (mInitCheck s) (nextHandle s) (mSensors s) (mRecentEvent s) (mActiveSensors s)
    (mActiveVirtualSensors s) (connections s) (mActiveConnections s) (mDirectConnections s)
    (mWakeLockAcquired s) (mCurrentOperatingMode s) (mAllowListedPackage s) v (trace s).
(** Appends one action to the trace. *)
Definition log (a : action) s :=
  mkService (mInitCheck s) (nextHandle s) (mSensors s) (mRecentEvent s) (mActiveSensors s)
    (mActiveVirtualSensors s) (connections s) (mActiveConnections s) (mDirectConnections s)
    (mWakeLockAcquired s) (mCurrentOperatingMode s) (mAllowListedPackage s) (sPackageTargetVersion s) (trace s ++ [a]).

Arguments with_nextHandle _ _ /.
Arguments with_mSensors _ _ /.
Arguments with_mRecentEvent _ _ /.
Arguments with_mActiveSensors _ _ /.
Arguments with_mActiveVirtualSensors _ _ /.
Arguments with_connections _ _ /.
Arguments with_mActiveConnections _ _ /.
Arguments with_mWakeLockAcquired _ _ /.
Arguments with_mCurrentOperatingMode _ _ /.
Arguments with_mAllowListedPackage _ _ /.
Arguments with_sPackageTargetVersion _ _ /.
Arguments log _ _ /.

(** The connection object behind an identity. *)
Definition getConn (s : SensorService) (c : nat) : SensorEventConnection :=
  default newConnection (connections s !! c).

Definition setConn (c : nat) (conn : SensorEventConnection) (s : SensorService) :=
  with_connections (<[c := conn]> (connections s)) s.

Definition getSensorInterfaceFromHandle (s : SensorService) (handle : Z) : option SensorInterface :=
  getInterface (mSensors s) handle.

(** *** Wakelock *)

Definition setWakeLockAcquiredLocked (acquire : bool) (s : SensorService) : SensorService :=
  if acquire then
    let s1 := if negb (mWakeLockAcquired s)
              then with_mWakeLockAcquired true (log acquire_wake_lock s)
              else s in
    log Looper_wake s1
  else
    if mWakeLockAcquired s
    then with_mWakeLockAcquired false (log release_wake_lock s)
    else s.

(** [connLock->getActiveConnections()]: the holder's list is the snapshot. *)
Definition getActiveConnections (s : SensorService) : list nat := mActiveConnections s.

Definition checkWakeLockStateLocked (s : SensorService) : SensorService :=
  if negb (mWakeLockAcquired s) then s
  else
    let releaseLock :=
      forallb (fun c => negb (needsWakeLock (getConn s c))) (getActiveConnections s) in
    if releaseLock then setWakeLockAcquiredLocked false s else s.

Definition isWakeUpSensorEvent (s : SensorService) (event : sensors_event_t) : bool :=
  let handle := if type event =? SENSOR_TYPE_META_DATA
                then meta_data_sensor event else sensor event in
  match getSensorInterfaceFromHandle s handle with
  | Some sensor => isWakeUpSensor (getSensor sensor)
  | None => false
  end.

(** *** Recent events *)

Fixpoint recordLastValueLocked (buffer : list sensors_event_t) (s : SensorService)
    : SensorService :=
  match buffer with
  | [] => s
  | e :: rest =>
      if (type e =? SENSOR_TYPE_META_DATA)
         || (type e =? SENSOR_TYPE_DYNAMIC_SENSOR_META)
         || (type e =? SENSOR_TYPE_ADDITIONAL_INFO)
      then recordLastValueLocked rest s
      else match mRecentEvent s !! sensor e with
           | Some logger =>
               recordLastValueLocked rest
                 (with_mRecentEvent (<[sensor e := addEvent e logger]> (mRecentEvent s)) s)
           | None => recordLastValueLocked rest s
           end
  end.

(** *** Sending to one connection *)

(** Modelled from the spec: [SensorEventConnection::sendEvents].  With a
    scratch buffer the connection filters the batch by its subscribed
    handles, a flush-complete event going only to the connection it is
    mapped to; without one (a single event synthesized for this connection)
    the buffer is written as it is.  The refcount is charged by the wake-up
    events written. *)
Definition written_events (s : SensorService) (c : nat) (scratch : bool)
    (buffer : list (sensors_event_t * option nat)) : list sensors_event_t :=
  if scratch then
    (List.filter
       (fun ed : sensors_event_t * option nat =>
          if type ed.1 =? SENSOR_TYPE_META_DATA
          then bool_decide (ed.2 = Some c)
          else hasSensor (getConn s c) (sensor ed.1))
       buffer).*1
  else buffer.*1.

(** Modelled from the spec: the write itself, logged with what was written,
    and the refcount charged for the wake-up events among it. *)
Definition connection_sendEvents (c : nat) (scratch : bool)
    (buffer : list (sensors_event_t * option nat)) (s : SensorService) : SensorService :=
  let out := written_events s c scratch buffer in
  let conn := getConn s c in
  let wake := Z.of_nat (length (List.filter (isWakeUpSensorEvent s) out)) in
  log (sendEvents c out)
      (setConn c (with_mWakeLockRefCount (mWakeLockRefCount conn + wake) conn) s).

(** [mMapFlushEventsToConnections == nullptr]. *)
Definition no_flush_map (buffer : list sensors_event_t)
    : list (sensors_event_t * option nat) :=
  map (fun e => (e, None)) buffer.

(** *** Subscription bookkeeping *)

Definition removeEventConnection (c : nat) (s : SensorService) : SensorService :=
  with_mActiveConnections (filter (fun x => x ≠ c) (mActiveConnections s)) s.

Definition addEventConnectionIfNotPresent (c : nat) (s : SensorService) : SensorService :=
  if bool_decide (c ∈ mActiveConnections s) then s
  else with_mActiveConnections (mActiveConnections s ++ [c]) s.

Definition cleanupWithoutDisableLocked (c : nat) (handle : Z) (s : SensorService)
    : Z * SensorService :=
  match mActiveSensors s !! handle with
  | Some rec =>
      (* see if this connection becomes inactive *)
      let '(removed, conn) := removeSensor handle (getConn s c) in
      let s1 := setConn c conn s in
      let s2 := if removed then log (BatteryService_disableSensor (mUid conn) handle) s1
                else s1 in
      let s3 := if negb (hasAnySensor conn)
                then removeEventConnection c (log (updateLooperRegistration c) s2)
                else s2 in
      (* see if this sensor becomes inactive *)
      let '(last, rec') := removeConnection c rec in
      let s4 := if last
                then with_mActiveVirtualSensors (mActiveVirtualSensors s3 ∖ {[handle]})
                       (with_mActiveSensors (delete handle (mActiveSensors s3)) s3)
                else with_mActiveSensors (<[handle := rec']> (mActiveSensors s3)) s3 in
      (NO_ERROR, s4)
  | None => (BAD_VALUE, s)
  end.

(** What the HAL (or the virtual sensor) answers to the three calls of
    [enable]. *)
Record EnableAnswers := mkEnableAnswers {
  batch_result : Z;
  flush_result : Z;
  activate_result : Z
}.

Definition isInjectionMode (mode : Mode) : bool :=
  bool_decide (mode = DATA_INJECTION) || bool_decide (mode = REPLAY_DATA_INJECTION)
  || bool_decide (mode = HAL_BYPASS_REPLAY_DATA_INJECTION).

(** [String8::contains] on a C string, that is, [strstr] finds an occurrence. *)
Fixpoint contains (s other : string) : bool :=
  String.prefix other s
  || match s with
     | EmptyString => false
     | String _ s' => contains s' other
     end.

Definition isAllowListedPackage (s : SensorService) (packageName : string) : bool :=
  contains packageName (mAllowListedPackage s).

Definition isOperationRestrictedLocked (s : SensorService) (opPackageName : string) : bool :=
  if bool_decide (mCurrentOperatingMode s = RESTRICTED)
  then negb (isAllowListedPackage s opPackageName)
  else false.

(** The operating-mode gate of [enable]: true when the call is refused. *)
Definition enable_refused_by_mode (s : SensorService) (packageName : string) : bool :=
  negb (bool_decide (mCurrentOperatingMode s = NORMAL))
  && negb (isInjectionMode (mCurrentOperatingMode s))
  && negb (isAllowListedPackage s packageName).

(** The replay of [enable]: the last event of the handle, if the log holds a
    current one of the right size, is sent to the connection alone, the
    wakelock being taken first for a wake-up event. *)
Definition replayRecentEvent (c : nat) (handle : Z) (s : SensorService) : SensorService :=
  match mRecentEvent s !! handle with
  | Some logger =>
      match populateLastEventIfCurrent logger with
      | Some last =>
          let event :=
            mkEvent (version last) handle (type last) (timestamp last)
              (meta_data_sensor last) (dynamic_sensor_meta_connected last)
              (dynamic_sensor_meta_handle last) (dynamic_sensor_meta_sensor last)
              (flags last) (data last) in
          if version event =? sizeof_sensors_event_t then
            let s2 := if isWakeUpSensorEvent s event && negb (mWakeLockAcquired s)
                      then setWakeLockAcquiredLocked true s else s in
            let s3 := connection_sendEvents c false (no_flush_map [event]) s2 in
            if negb (needsWakeLock (getConn s3 c)) && mWakeLockAcquired s3
            then checkWakeLockStateLocked s3
            else s3
          else s
      | None => s
      end
  | None => s
  end.

(** The first part of [enable]: the Active Sensor Record is found or made,
    and an on-change sensor's last value is replayed to a new owner. *)
Definition enable_record (c : nat) (handle : Z) (sensor : SensorInterface)
    (s : SensorService) : SensorService :=
  match mActiveSensors s !! handle with
  | None =>
      let s1 := with_mActiveSensors (<[handle := SensorRecord_new c]> (mActiveSensors s)) s in
      let s2 := if isVirtual sensor
                then with_mActiveVirtualSensors ({[handle]} ∪ mActiveVirtualSensors s1) s1
                else s1 in
      if bool_decide (getReportingMode (getSensor sensor) = AREPORTING_MODE_ON_CHANGE) then
        match mRecentEvent s2 !! handle with
        | Some logger =>
            with_mRecentEvent (<[handle := setLastEventStale logger]> (mRecentEvent s2)) s2
        | None => s2
        end
      else s2
  | Some rec =>
      let '(added, rec') := addConnection c rec in
      if added then
        let s1 := with_mActiveSensors (<[handle := rec']> (mActiveSensors s)) s in
        if bool_decide (getReportingMode (getSensor sensor) = AREPORTING_MODE_ON_CHANGE)
        then replayRecentEvent c handle s1
        else s1
      else s
  end.

(** The second part of [enable]: the handle enters the connection's
    subscription map, and the connection the holder's active list. *)
Definition enable_subscribe (c : nat) (handle : Z) (s : SensorService) : SensorService :=
  let '(added, conn) := addSensor handle (getConn s c) in
  if added
  then addEventConnectionIfNotPresent c
         (log (BatteryService_enableSensor (mUid conn) handle) (setConn c conn s))
  else s.

(** The sampling period [enable] passes on: capped by the sensor's maximum
    delay, then raised to its minimum delay. *)
Definition clampSamplingPeriod (sensor : Sensor) (samplingPeriodNs : Z) : Z :=
  (* Check maximum delay for the sensor. *)
  let maxDelayNs := getMaxDelay sensor * 1000 in
  let period1 := if (0 <? maxDelayNs) && (maxDelayNs <? samplingPeriodNs)
                 then maxDelayNs else samplingPeriodNs in
  let minDelayNs := getMinDelayNs sensor in
  if period1 <? minDelayNs then minDelayNs else period1.

(** The third part of [enable]: [batch], the first flush of a continuous
    sensor that is already active, [activate], and on success the looper and
    app-op bookkeeping.  Returns [err]. *)
Definition enable_configure (hal : EnableAnswers) (c : nat) (handle : Z)
    (sensor : SensorInterface) (period maxBatchReportLatencyNs : Z) (s : SensorService)
    : Z * SensorService :=
  let s3 := log (sensor_batch c handle period maxBatchReportLatencyNs) s in
  let err := batch_result hal in
  let numConnections :=
    match mActiveSensors s3 !! handle with
    | Some rec => length (mConnections rec)
    | None => O
    end in
  let s4 :=
    if (err =? NO_ERROR)
       && bool_decide (getReportingMode (getSensor sensor) = AREPORTING_MODE_CONTINUOUS)
       && (1 <? numConnections)%nat
    then
      let s' := setConn c (setFirstFlushPending handle true (getConn s3 c)) s3 in
      let s'' := log (sensor_flush c handle) s' in
      if flush_result hal =? NO_ERROR
      then with_mActiveSensors (alter (addPendingFlushConnection c) handle (mActiveSensors s'')) s''
      else setConn c (setFirstFlushPending handle false (getConn s'' c)) s''
    else s3 in
  let '(err, s5) :=
    if err =? NO_ERROR
    then (activate_result hal, log (sensor_activate c handle true) s4)
    else (err, s4) in
  if err =? NO_ERROR then
    let s' := log (updateLooperRegistration c) s5 in
    if (0 <? getRequiredPermission_size (getSensor sensor))
       && (0 <=? getRequiredAppOp (getSensor sensor))
    then (err, setConn c (with_mHandleToAppOp
                            (<[handle := getRequiredAppOp (getSensor sensor)]>
                               (mHandleToAppOp (getConn s' c)))
                            (getConn s' c)) s')
    else (err, s')
  else (err, s5).

(** [canAccess] is the answer of [canAccessSensor] for this call. *)
Definition enable (canAccess : bool) (hal : EnableAnswers) (c : nat) (handle : Z)
    (samplingPeriodNs maxBatchReportLatencyNs : Z) (s : SensorService)
    : Z * SensorService :=
  if negb (mInitCheck s =? NO_ERROR) then (mInitCheck s, s) else
  match getSensorInterfaceFromHandle s handle with
  | None => (BAD_VALUE, s)
  | Some sensor =>
    if negb canAccess then (BAD_VALUE, s) else
    if enable_refused_by_mode s (mPackageName (getConn s c)) then (INVALID_OPERATION, s) else
    let s1 := enable_record c handle sensor s in
    let s2 := enable_subscribe c handle s1 in
    let period := clampSamplingPeriod (getSensor sensor) samplingPeriodNs in
    let '(err, s6) :=
      enable_configure hal c handle sensor period maxBatchReportLatencyNs s2 in
    let s7 :=
      if negb (err =? NO_ERROR)
      then (* batch/activate has failed, reset our state. *)
           (cleanupWithoutDisableLocked c handle s6).2
      else s6 in
    (err, log (SensorRegistrationInfo handle (mPackageName (getConn s7 c)) period
                 maxBatchReportLatencyNs true err) s7)
  end.

(** [deactivate_result] is the answer of [sensor->activate(connection, false)]. *)
Definition disable (deactivate_result : Z) (c : nat) (handle : Z) (s : SensorService)
    : Z * SensorService :=
  if negb (mInitCheck s =? NO_ERROR) then (mInitCheck s, s) else
  let '(err, s1) := cleanupWithoutDisableLocked c handle s in
  let '(err, s2) :=
    if err =? NO_ERROR then
      match getSensorInterfaceFromHandle s1 handle with
      | Some _ => (deactivate_result, log (sensor_activate c handle false) s1)
      | None => (BAD_VALUE, s1)
      end
    else (err, s1) in
  (err, log (SensorRegistrationInfo handle (mPackageName (getConn s2 c)) 0 0 false err) s2).

Fixpoint cleanupAutoDisabledSensorLocked (c : nat) (buffer : list sensors_event_t)
    (s : SensorService) : SensorService :=
  match buffer with
  | [] => s
  | e :: rest =>
      let handle := if type e =? SENSOR_TYPE_META_DATA
                    then meta_data_sensor e else sensor e in
      let s' :=
        if hasSensor (getConn s c) handle then
          match getSensorInterfaceFromHandle s handle with
          | Some si =>
              if bool_decide (getReportingMode (getSensor si) = AREPORTING_MODE_ONE_SHOT)
              then (cleanupWithoutDisableLocked c handle
                      (log (sensor_autoDisable c handle) s)).2
              else s
          | None => s
          end
        else s in
      cleanupAutoDisabledSensorLocked c rest s'
  end.

(** *** Connection teardown *)

(** One turn of the loop of [cleanupConnection] over [mActiveSensors]. *)
Definition cleanupConnection_step (c : nat) (s : SensorService) (handle : Z)
    : SensorService :=
  let s1 :=
    if hasSensor (getConn s c) handle then
      let s' := match getSensorInterfaceFromHandle s handle with
                | Some _ => log (sensor_activate c handle false) s
                | None => s
                end in
      let '(removed, conn) := removeSensor handle (getConn s' c) in
      let s'' := setConn c conn s' in
      if removed then log (BatteryService_disableSensor (mUid conn) handle) s'' else s''
    else s in
  match mActiveSensors s1 !! handle with
  | Some rec =>
      let '(last, rec') := removeConnection c rec in
      if last
      then with_mActiveVirtualSensors (mActiveVirtualSensors s1 ∖ {[handle]})
             (with_mActiveSensors (delete handle (mActiveSensors s1)) s1)
      else with_mActiveSensors (<[handle := rec']> (mActiveSensors s1)) s1
  | None => s1
  end.

(** The keys of [mActiveSensors] in the order the [KeyedVector] holds them. *)
Definition activeSensorHandles (s : SensorService) : list Z :=
  merge_sort Z.le (map_to_list (mActiveSensors s)).*1.

Definition cleanupConnection (c : nat) (s : SensorService) : SensorService :=
  let s1 := fold_left (cleanupConnection_step c) (activeSensorHandles s) s in
  let s2 := removeEventConnection c (log (updateLooperRegistration c) s1) in
  let s3 := if needsWakeLock (getConn s2 c) then checkWakeLockStateLocked s2 else s2 in
  log (notifyConnectionDestroyed c) s3.

(** *** Registry *)

Definition registerSensor (sensor : SensorInterface) (isDebug isVirt : bool) (device : Z)
    (s : SensorService) : bool * SensorService :=
  let handle := getHandle (getSensor sensor) in
  let '(ok, l) := SensorList_add handle (mkEntry sensor isDebug isVirt device) (mSensors s) in
  if ok then
    let s1 := with_mSensors l s in
    (true, match mRecentEvent s1 !! handle with
           | None => with_mRecentEvent (<[handle := mkLogger [] false]> (mRecentEvent s1)) s1
           | Some _ => s1
           end)
  else (false, s).

(** [RuntimeSensor::DEFAULT_DEVICE_ID]. *)
Definition DEFAULT_DEVICE_ID : Z := 0.

Definition registerDynamicSensorLocked (sensor : SensorInterface) (s : SensorService)
    : bool * SensorService :=
  registerSensor sensor false false DEFAULT_DEVICE_ID s.

Definition unregisterDynamicSensorLocked (handle : Z) (s : SensorService)
    : bool * SensorService :=
  let '(ret, l) := SensorList_remove handle (mSensors s) in
  (ret, with_mRecentEvent (delete handle (mRecentEvent s)) (with_mSensors l s)).

(** [connection->removeSensor(handle)] for every connection of the snapshot. *)
Fixpoint removeSensorFromAll (handle : Z) (conns : list nat) (s : SensorService)
    : SensorService :=
  match conns with
  | [] => s
  | c :: rest =>
      removeSensorFromAll handle rest (setConn c (removeSensor handle (getConn s c)).2 s)
  end.

Definition disconnectDynamicSensor (handle : Z) (activeConnections : list nat)
    (s : SensorService) : SensorService :=
  let s1 := log (handleDynamicSensorConnection handle false) s in
  let s2 := (unregisterDynamicSensorLocked handle s1).2 in
  removeSensorFromAll handle activeConnections s2.

Section RuntimeSensors.

(** [ISensors::RUNTIME_SENSORS_HANDLE_END], a constant of the HAL interface;
    the counter starts at [ISensors::RUNTIME_SENSORS_HANDLE_BASE], see
    [initial]. *)
Variable RUNTIME_SENSORS_HANDLE_END : Z.

Definition nextRuntimeSensorHandle (s : SensorService) : Z * SensorService :=
  if nextHandle s =? RUNTIME_SENSORS_HANDLE_END then (-1, s)
  else (nextHandle s, with_nextHandle (int32 (nextHandle s + 1)) s).

(** The [while (handle == 0 || !mSensors.isNewHandle(handle))] loop of
    [registerRuntimeSensor]; a negative result is the early return.  One
    unit of [fuel] is spent per call of [nextRuntimeSensorHandle]. *)
Fixpoint pickRuntimeHandle (fuel : nat) (handle : Z) (s : SensorService)
    : option (Z * SensorService) :=
  if (handle =? 0) || negb (isNewHandle (mSensors s) handle) then
    match fuel with
    | O => None
    | S fuel' =>
        let '(h, s1) := nextRuntimeSensorHandle s in
        if h <? 0 then Some (h, s1) else pickRuntimeHandle fuel' h s1
    end
  else Some (handle, s).

(** Enough fuel for the loop: the counter can advance at most to the end
    of the range, and one more call reports exhaustion. *)
Definition runtime_fuel (s : SensorService) : nat :=
  S (Z.to_nat (RUNTIME_SENSORS_HANDLE_END - nextHandle s)).

(** [None] only if the loop ran out of fuel. *)
Definition registerRuntimeSensor (sensor : Sensor) (device : Z) (s : SensorService)
    : option (Z * SensorService) :=
  match pickRuntimeHandle (runtime_fuel s) 0 s with
  | None => None
  | Some (handle, s1) =>
      if handle <? 0 then Some (handle, s1)
      else
        (* force the handle to be consistent *)
        let runtimeSensor :=
          mkSensor handle (getType sensor) (getReportingMode sensor)
            (isWakeUpSensor sensor) (isDynamicSensor sensor) (getMinDelayNs sensor)
            (getMaxDelay sensor) (getRequiredPermission_size sensor)
            (getRequiredAppOp sensor) in
        let '(ok, s2) :=
          registerSensor (mkSensorInterface runtimeSensor false) false false device s1 in
        if ok then Some (handle, s2) else Some (nonSensor_handle, s2)
  end.

End RuntimeSensors.

(** [UNKNOWN_ERROR] of <utils/Errors.h>. *)
Definition UNKNOWN_ERROR : Z := - 2 ^ 31.

Definition unregisterRuntimeSensor (handle : Z) (s : SensorService) : Z * SensorService :=
  let '(ok, s1) := unregisterDynamicSensorLocked handle s in
  if negb ok then (UNKNOWN_ERROR, s1)
  else (NO_ERROR, removeSensorFromAll handle (getActiveConnections s1) s1).

(** *** Fan-out *)

(** Modelled from the spec: [SensorEventConnection::hasOneShotSensors]: some
    subscribed handle is a one-shot sensor. *)
Definition hasOneShotSensors (s : SensorService) (c : nat) : bool :=
  existsb
    (fun h => match getSensorInterfaceFromHandle s h with
              | Some sensor =>
                  bool_decide (getReportingMode (getSensor sensor) = AREPORTING_MODE_ONE_SHOT)
              | None => false
              end)
    (map_to_list (mSensorInfo (getConn s c))).*1.

(** The loop of [sendEventsToAllClients]; [needs] is its [needsWakeLock]. *)
Fixpoint fanout (activeConnections : list nat)
    (buffer : list (sensors_event_t * option nat)) (needs : bool) (s : SensorService)
    : bool * SensorService :=
  match activeConnections with
  | [] => (needs, s)
  | c :: rest =>
      let s1 := connection_sendEvents c true buffer s in
      let needs' := needs || needsWakeLock (getConn s1 c) in
      let s2 := if hasOneShotSensors s1 c
                then cleanupAutoDisabledSensorLocked c buffer.*1 s1
                else s1 in
      fanout rest buffer needs' s2
  end.

Definition sendEventsToAllClients (activeConnections : list nat)
    (buffer : list (sensors_event_t * option nat)) (s : SensorService) : SensorService :=
  let '(needs, s1) := fanout activeConnections buffer false s in
  if mWakeLockAcquired s1 && negb needs
  then setWakeLockAcquiredLocked false s1
  else s1.

(** *** The dispatch loop *)

(** What is fixed for the life of the dispatch thread, and the feature flags. *)
Record DispatchEnv := mkDispatchEnv {
  minBufferSize : nat;
  vcount : nat;
  (** [si->process(&out, event)] of the virtual sensor with that handle *)
  process : Z -> sensors_event_t -> option sensors_event_t;
  (** [halVersion < SENSORS_DEVICE_API_VERSION_1_0] *)
  halVersion_before_1_0 : bool;
  dynamic_sensor_hal_reconnect_handling : bool;
  sensor_service_clear_dynamic_sensor_data_at_the_end : bool;
  mDynamicMetaSensorHandle : option Z
}.

(** The answer of [device.poll]. *)
Inductive poll_result :=
| poll_events (buffer : list sensors_event_t)
| poll_dead_object (isReconnecting : bool) (dynamicSensorHandles : list Z)
| poll_failed.

Definition with_flags (f : Z) (e : sensors_event_t) : sensors_event_t :=
  mkEvent (version e) (sensor e) (type e) (timestamp e) (meta_data_sensor e)
    (dynamic_sensor_meta_connected e) (dynamic_sensor_meta_handle e)
    (dynamic_sensor_meta_sensor e) f (data e).

Definition with_data (d : list Z) (e : sensors_event_t) : sensors_event_t :=
  mkEvent (version e) (sensor e) (type e) (timestamp e) (meta_data_sensor e)
    (dynamic_sensor_meta_connected e) (dynamic_sensor_meta_handle e)
    (dynamic_sensor_meta_sensor e) (flags e) d.

Definition virtualSensorOf (env : DispatchEnv) (s : SensorService) (handle : Z)
    : option (sensors_event_t -> option sensors_event_t) :=
  match getSensorInterfaceFromHandle s handle with
  | Some _ => Some (process env handle)
  | None => None
  end.

(** The [connected] branch of the dynamic sensor meta handling in
    [threadLoop]; the boolean is the answer of [registerDynamicSensorLocked],
    false when the handle has been used. *)
Definition dynamicSensorConnected (e : sensors_event_t) (s : SensorService)
    : bool * SensorService :=
  let handle := dynamic_sensor_meta_handle e in
  if isNewHandle (mSensors s) handle then
    let d := dynamic_sensor_meta_sensor e in
    (* the dynamic sensor flag is set and the handle forced *)
    let sensor :=
      mkSensor handle (getType d) (getReportingMode d) (isWakeUpSensor d) true
        (getMinDelayNs d) (getMaxDelay d) (getRequiredPermission_size d)
        (getRequiredAppOp d) in
    registerDynamicSensorLocked (mkSensorInterface sensor false)
      (log (handleDynamicSensorConnection handle true) s)
  else (false, s).

(** The loop that maps flush-complete events to connections and handles
    dynamic sensor meta events. *)
Fixpoint mapFlushEventsToConnections (env : DispatchEnv) (activeConnections : list nat)
    (buffer : list sensors_event_t) (s : SensorService)
    : list (sensors_event_t * option nat) * SensorService :=
  match buffer with
  | [] => ([], s)
  | e :: rest =>
      let '(dest, s1) :=
        if type e =? SENSOR_TYPE_META_DATA then
          match mActiveSensors s !! meta_data_sensor e with
          | Some rec =>
              (getFirstPendingFlushConnection rec,
               with_mActiveSensors
                 (<[meta_data_sensor e := removeFirstPendingFlushConnection rec]>
                    (mActiveSensors s)) s)
          | None => (None, s)
          end
        else (None, s) in
      let s2 :=
        if type e =? SENSOR_TYPE_DYNAMIC_SENSOR_META then
          let handle := dynamic_sensor_meta_handle e in
          if dynamic_sensor_meta_connected e then (dynamicSensorConnected e s1).2
          else
            let s' := disconnectDynamicSensor handle activeConnections s1 in
            if sensor_service_clear_dynamic_sensor_data_at_the_end env
            then log (cleanupDisconnectedDynamicSensor handle) s'
            else s'
        else s1 in
      let '(mapped, s3) := mapFlushEventsToConnections env activeConnections rest s2 in
      ((e, dest) :: mapped, s3)
  end.

(** [stale] is what [mSensorEventBuffer[0]] held before. *)
Fixpoint reconnectionEvents (meta : Z) (stale : sensors_event_t)
    (activeConnections : list nat) (handles : list Z) (s : SensorService) : SensorService :=
  match handles with
  | [] => s
  | handle :: rest =>
      let e := mkEvent (version stale) meta SENSOR_TYPE_DYNAMIC_SENSOR_META (timestamp stale)
                 (meta_data_sensor stale) false handle (dynamic_sensor_meta_sensor stale)
                 (flags stale) (data stale) in
      let s1 := disconnectDynamicSensor handle activeConnections s in
      reconnectionEvents meta stale activeConnections rest
        (sendEventsToAllClients activeConnections [(e, None)] s1)
  end.

Definition handleDeviceReconnection (env : DispatchEnv) (stale : sensors_event_t)
    (handles : list Z) (s : SensorService) : SensorService :=
  let s1 :=
    if dynamic_sensor_hal_reconnect_handling env then
      match mDynamicMetaSensorHandle env with
      | Some meta => reconnectionEvents meta stale (getActiveConnections s) handles s
      | None => s
      end
    else s in
  log dev_reconnect s1.

(** One turn of the [do ... while] loop of [threadLoop]; [None] when the
    loop is left (the thread then aborts). *)
Definition threadLoop_iteration (env : DispatchEnv) (stale : sensors_event_t)
    (polled : poll_result) (s : SensorService) : option SensorService :=
  match polled with
  | poll_failed => None
  | poll_dead_object isReconnecting handles =>
      if isReconnecting then Some (handleDeviceReconnection env stale handles s) else None
  | poll_events polled_events =>
      (* Reset sensors_event_t.flags to zero for all events in the buffer. *)
      let buffer := map (with_flags 0) polled_events in
      let wakeEvents := Z.of_nat (length (List.filter (isWakeUpSensorEvent s) buffer)) in
      let s1 :=
        if 0 <? wakeEvents then
          log (writeWakeLockHandled wakeEvents)
            (if negb (mWakeLockAcquired s) then setWakeLockAcquiredLocked true s else s)
        else s in
      let s2 := recordLastValueLocked buffer s1 in
      (* handle virtual sensors *)
      let active := elements (mActiveVirtualSensors s2) in
      let outs := virtualEvents (minBufferSize env) (vcount env) active
                    (virtualSensorOf env s2) buffer in
      let s3 := recordLastValueLocked outs s2 in
      let buffer1 := handleVirtualSensors (minBufferSize env) (vcount env) active
                       (virtualSensorOf env s2) buffer in
      (* handle backward compatibility for RotationVector sensor *)
      let buffer2 :=
        if halVersion_before_1_0 env
        then map (fun e => if type e =? SENSOR_TYPE_ROTATION_VECTOR
                           then with_data (<[4%nat := -1]> (data e)) e else e) buffer1
        else buffer1 in
      let activeConnections := getActiveConnections s3 in
      let '(mapped, s4) := mapFlushEventsToConnections env activeConnections buffer2 s3 in
      Some (sendEventsToAllClients activeConnections mapped s4)
  end.

(** *** Operating modes *)

(** What the platform answers during a mode change. *)
Record ModeEnv := mkModeEnv {
  isUserBuild : bool;
  isSensorPrivacyEnabled : bool;
  isUidActive : Z -> bool;
  (** the result of [dev.setMode(mode)] *)
  setMode : Mode -> Z
}.

Definition hasSensorAccessLocked (env : ModeEnv) (s : SensorService) (uid : Z)
    (opPackageName : string) : bool :=
  negb (isSensorPrivacyEnabled env) && isUidActive env uid
  && negb (isOperationRestrictedLocked s opPackageName).

(** [conn->onSensorAccessChanged(hasAccess)] for every direct connection;
    [i] numbers the connections. *)
Fixpoint notifyDirectConnections (env : ModeEnv) (i : nat) (conns : list (Z * string))
    (s : SensorService) : SensorService :=
  match conns with
  | [] => s
  | (uid, pkg) :: rest =>
      notifyDirectConnections env (S i) rest
        (log (onSensorAccessChanged i (hasSensorAccessLocked env s uid pkg)) s)
  end.

Definition disableAllSensorsLocked (env : ModeEnv) (s : SensorService) : SensorService :=
  let s1 := notifyDirectConnections env O (mDirectConnections s) s in
  let s2 := log checkAndReportProxStateChange (log dev_disableAllSensors s1) in
  with_mActiveSensors (clearAllPendingFlushConnections <$> mActiveSensors s2) s2.

Definition enableAllSensorsLocked (env : ModeEnv) (s : SensorService) : SensorService :=
  if bool_decide (mCurrentOperatingMode s = RESTRICTED) || isSensorPrivacyEnabled env then s
  else
    let s1 := log dev_enableAllSensors s in
    log checkAndReportProxStateChange
      (notifyDirectConnections env O (mDirectConnections s1) s1).

Definition resetToNormalModeLocked (env : ModeEnv) (s : SensorService) : Z * SensorService :=
  let err := setMode env NORMAL in
  let s1 := log (dev_setMode NORMAL) s in
  if err =? NO_ERROR
  then (err, log checkAndReportProxStateChange
               (log dev_enableAllSensors (with_mCurrentOperatingMode NORMAL s1)))
  else (err, s1).

Arguments disableAllSensorsLocked : simpl never.
Arguments enableAllSensorsLocked : simpl never.
Arguments resetToNormalModeLocked : simpl never.

(** The shared tail of the three injection cases of [changeOperatingMode]. *)
Definition enterInjectionMode (env : ModeEnv) (args : list string)
    (targetOperatingMode : Mode) (s : SensorService) : Z * SensorService :=
  if bool_decide (mCurrentOperatingMode s = NORMAL) then
    let s1 := log dev_disableAllSensors s in
    let halMode := if bool_decide (targetOperatingMode = HAL_BYPASS_REPLAY_DATA_INJECTION)
                   then HAL_BYPASS_REPLAY_DATA_INJECTION else DATA_INJECTION in
    let err := setMode env halMode in
    let s2 := log (dev_setMode halMode) s1 in
    let s3 := if err =? NO_ERROR then with_mCurrentOperatingMode targetOperatingMode s2
              else s2 in
    let s4 := if negb (err =? NO_ERROR)
                 || bool_decide (targetOperatingMode = REPLAY_DATA_INJECTION)
              then log dev_enableAllSensors s3 (* Re-enable sensors. *)
              else s3 in
    (NO_ERROR, with_mAllowListedPackage (default "" (args !! 1%nat)) s4)
  else
    (* Transition to data injection mode supported only from NORMAL mode. *)
    (INVALID_OPERATION, s).

(** The [case NORMAL] of [changeOperatingMode]. *)
Definition returnToNormalMode (env : ModeEnv) (s : SensorService) : SensorService :=
  (* If currently in restricted mode, reset back to NORMAL mode else ignore. *)
  let s1 := if bool_decide (mCurrentOperatingMode s = RESTRICTED)
            then enableAllSensorsLocked env (with_mCurrentOperatingMode NORMAL s)
            else s in
  let s2 := if bool_decide (mCurrentOperatingMode s1 = REPLAY_DATA_INJECTION)
            then log dev_disableAllSensors s1 else s1 in
  let s3 := if isInjectionMode (mCurrentOperatingMode s2)
            then (resetToNormalModeLocked env s2).2 else s2 in
  with_mAllowListedPackage "" s3.

Definition changeOperatingMode (env : ModeEnv) (args : list string)
    (targetOperatingMode : Mode) (s : SensorService) : Z * SensorService :=
  if bool_decide (mCurrentOperatingMode s = targetOperatingMode) then (NO_ERROR, s)
  else if negb (bool_decide (targetOperatingMode = NORMAL)) && (length args <? 2)%nat
  then (INVALID_OPERATION, s)
  else
    match targetOperatingMode with
    | NORMAL => (NO_ERROR, returnToNormalMode env s)
    | RESTRICTED =>
        (* If in any mode other than normal, ignore. *)
        if negb (bool_decide (mCurrentOperatingMode s = NORMAL)) then (INVALID_OPERATION, s)
        else
          let s1 := disableAllSensorsLocked env (with_mCurrentOperatingMode RESTRICTED s) in
          (NO_ERROR, with_mAllowListedPackage (default "" (args !! 1%nat)) s1)
    | HAL_BYPASS_REPLAY_DATA_INJECTION
    | REPLAY_DATA_INJECTION =>
        if isUserBuild env then (INVALID_OPERATION, s)
        else enterInjectionMode env args targetOperatingMode s
    | DATA_INJECTION => enterInjectionMode env args targetOperatingMode s
    end.

(** [resetTargetSdkVersionCache], on [sPackageTargetVersion] itself. *)
Definition resetTargetSdkVersionCache (opPackageName : string)
    (cache : gmap string Z) : gmap string Z :=
  match cache !! opPackageName with
  | Some _ => delete opPackageName cache
  | None => cache
  end.

(** [requestedMode] is the [int] argument read as an enumerator, [None] when
    it is none of them; [uid] is the calling uid and [unknown_package] the
    name made up from the calling pid.  Returns the new connection, or
    [None] for [nullptr]. *)
Definition createSensorEventConnection (uid : Z) (unknown_package : string)
    (packageName : string) (requestedMode : option Mode) (opPackageName : string)
    (s : SensorService) : option nat * SensorService :=
  match requestedMode with
  | None => (None, s)
  | Some mode =>
      if negb (bool_decide (mode = NORMAL)) && negb (isInjectionMode mode) then (None, s)
      else
        let s0 :=
          with_sPackageTargetVersion
            (resetTargetSdkVersionCache opPackageName (sPackageTargetVersion s)) s in
        if bool_decide (mode = DATA_INJECTION)
           && negb (bool_decide (mCurrentOperatingMode s0 = DATA_INJECTION))
        then (None, s0)
        else if bool_decide (mode = DATA_INJECTION)
                && negb (isAllowListedPackage s0 packageName)
        then (None, s0)
        else
          let c := fresh (dom (connections s0)) in
          let connPackageName := if bool_decide (packageName = "")
                                 then unknown_package else packageName in
          let s1 := setConn c (mkConnection connPackageName uid ∅ 0 ∅) s0 in
          if isInjectionMode mode
          then (Some c, log (updateLooperRegistration c)
                          (addEventConnectionIfNotPresent c s1))
          else (Some c, s1)
  end.

(** *** Reading the trace *)

Definition is_wakelock_op (a : action) : bool :=
  match a with
  | acquire_wake_lock | release_wake_lock => true
  | _ => false
  end.

(** Whether the wakelock is held after the actions [acts], given whether it
    was held before them. *)
Fixpoint wakelock_after (held : bool) (acts : list action) : bool :=
  match acts with
  | [] => held
  | acquire_wake_lock :: rest => wakelock_after true rest
  | release_wake_lock :: rest => wakelock_after false rest
  | _ :: rest => wakelock_after held rest
  end.

(** Every [sendEvents] among [acts] happens while the wakelock is held. *)
Fixpoint sends_guarded (held : bool) (acts : list action) : bool :=
  match acts with
  | [] => true
  | acquire_wake_lock :: rest => sends_guarded true rest
  | release_wake_lock :: rest => sends_guarded false rest
  | sendEvents _ _ :: rest => held && sends_guarded held rest
  | _ :: rest => sends_guarded held rest
  end.

(** A step that leaves the wakelock alone and takes no refcount away: the
    flag is unchanged, the trace grows by actions other than acquire and
    release, and no connection's refcount drops. *)
Definition quiet (s s' : SensorService) : Prop :=
  mWakeLockAcquired s' = mWakeLockAcquired s
  /\ (exists delta, trace s' = trace s ++ delta
                   /\ forallb (fun a => negb (is_wakelock_op a)) delta = true)
  /\ (forall c, mWakeLockRefCount (getConn s c) <= mWakeLockRefCount (getConn s' c)).

(** The actions that write to the socket of a connection. *)
Definition is_send (a : action) : bool :=
  match a with
  | sendEvents _ _ => true
  | _ => false
  end.

(** A step in which nothing is sent to any connection. *)
Definition delivers_nothing (s s' : SensorService) : Prop :=
  exists delta, trace s' = trace s ++ delta
                /\ forallb (fun a => negb (is_send a)) delta = true.

(** Such a step that also leaves the Recent-Event Log as it was. *)
Definition sends_nothing (s s' : SensorService) : Prop :=
  mRecentEvent s' = mRecentEvent s /\ delivers_nothing s s'.

(** The event [enable] replays: the last event of the log with the handle
    written into its [sensor] field. *)
Definition replayed (handle : Z) (last : sensors_event_t) : sensors_event_t :=
  mkEvent (version last) handle (type last) (timestamp last)
    (meta_data_sensor last) (dynamic_sensor_meta_connected last)
    (dynamic_sensor_meta_handle last) (dynamic_sensor_meta_sensor last)
    (flags last) (data last).

(** Between [s] and [s'] one batch is sent and no more: the replayed event,
    alone, to [c].  Nothing but the wakelock acquisition comes before it, and
    that only for a wake-up event while the lock was not held, so that the
    lock is held at the send whenever the event is a wake-up event. *)
Definition replays_once (c : nat) (handle : Z) (last : sensors_event_t)
    (s s' : SensorService) : Prop :=
  exists pre post,
    trace s' = trace s ++ pre ++ sendEvents c [replayed handle last] :: post
    /\ pre = (if isWakeUpSensorEvent s (replayed handle last) && negb (mWakeLockAcquired s)
              then [acquire_wake_lock; Looper_wake] else [])
    /\ (isWakeUpSensorEvent s (replayed handle last) = true ->
        wakelock_after (mWakeLockAcquired s) pre = true)
    /\ forallb (fun a => negb (is_send a)) post = true.

(** The transitions of the operating-mode table. *)
Definition permitted_transition (from to : Mode) : Prop :=
  (from = NORMAL /\ to = RESTRICTED)
  \/ (from = NORMAL /\ isInjectionMode to = true)
  \/ ((from = RESTRICTED \/ isInjectionMode from = true) /\ to = NORMAL).

(** The requests for another mode that [changeOperatingMode] turns down. *)
Definition refused_request (env : ModeEnv) (args : list string) (cur target : Mode) : Prop :=
  (target <> NORMAL /\ (length args < 2)%nat)
  \/ (target = RESTRICTED /\ cur <> NORMAL)
  \/ ((target = REPLAY_DATA_INJECTION \/ target = HAL_BYPASS_REPLAY_DATA_INJECTION)
      /\ isUserBuild env = true)
  \/ (isInjectionMode target = true /\ cur <> NORMAL).

(** A platform for examples: a userdebug build where every HAL call succeeds. *)
Definition example_platform : ModeEnv :=
  mkModeEnv false false (fun _ => true) (fun _ => NO_ERROR).

(** The service as [onFirstRef] leaves it, before any sensor is registered;
    [base] is the first runtime sensor handle. *)
Definition initial (base : Z) : SensorService :=
  mkService NO_ERROR base (mkSensorList ∅ ∅) ∅ ∅ ∅ ∅ [] [] false NORMAL "" ∅ [].

(** *** Subscriptions and Active Sensor Records *)

(** Some Event Connection has [handle] in its subscription map. *)
Definition subscribed (s : SensorService) (handle : Z) : Prop :=
  exists c conn, connections s !! c = Some conn /\ is_Some (mSensorInfo conn !! handle).

(** An Active Sensor Record exists for a handle iff some Event Connection is
    subscribed to it. *)
Definition record_iff_subscribed (s : SensorService) : Prop :=
  forall handle, is_Some (mActiveSensors s !! handle) <-> subscribed s handle.

(** The owners of every record are exactly the connections subscribed to its
    handle, and there is at least one. *)
Definition owners_are_subscribers (s : SensorService) : Prop :=
  forall handle,
    match mActiveSensors s !! handle with
    | Some rec => mConnections rec <> []
                  /\ forall c, c ∈ mConnections rec <-> hasSensor (getConn s c) handle = true
    | None => forall c, hasSensor (getConn s c) handle = false
    end.

(** Two states with the same subscriptions and the same owners. *)
Definition same_subscriptions (s s' : SensorService) : Prop :=
  (forall c handle, hasSensor (getConn s' c) handle = hasSensor (getConn s c) handle)
  /\ (forall handle, mConnections <$> (mActiveSensors s' !! handle)
                     = mConnections <$> (mActiveSensors s !! handle)).

(** The owners [enable_record] leaves in the record of the handle. *)
Definition owners_after_enable (c : nat) (before : option SensorRecord) : list nat :=
  match before with
  | None => [c]
  | Some rec => if bool_decide (c ∈ mConnections rec) then mConnections rec
                else mConnections rec ++ [c]
  end.

(** The operations on subscriptions: [enable], [disable], the one-shot
    auto-disable after a delivery, the cleanup of a connection, and the
    creation of a connection. *)
Inductive service_op :=
| so_enable (canAccess : bool) (hal : EnableAnswers) (c : nat)
    (handle samplingPeriodNs maxBatchReportLatencyNs : Z)
| so_disable (deactivate_result : Z) (c : nat) (handle : Z)
| so_autoDisable (c : nat) (buffer : list sensors_event_t)
| so_cleanupConnection (c : nat)
| so_createSensorEventConnection (uid : Z) (unknown_package packageName : string)
    (requestedMode : option Mode) (opPackageName : string).

Definition apply_service_op (op : service_op) (s : SensorService) : SensorService :=
  match op with
  | so_enable canAccess hal c handle period latency =>
      (enable canAccess hal c handle period latency s).2
  | so_disable deactivate_result c handle => (disable deactivate_result c handle s).2
  | so_autoDisable c buffer => cleanupAutoDisabledSensorLocked c buffer s
  | so_cleanupConnection c => cleanupConnection c s
  | so_createSensorEventConnection uid unknown_package packageName requestedMode
      opPackageName =>
      (createSensorEventConnection uid unknown_package packageName requestedMode
         opPackageName s).2
  end.

(** The states those operations reach from a service without connections. *)
Inductive reachable : SensorService -> Prop :=
| reachable_init s : mActiveSensors s = ∅ -> connections s = ∅ -> reachable s
| reachable_step op s : reachable s -> reachable (apply_service_op op s).

(** *** The registry over a process lifetime *)

(** The counter of [nextRuntimeSensorHandle] stays within the range. *)
Definition counter_in_range (BASE END : Z) (s : SensorService) : Prop :=
  BASE <= nextHandle s <= END.

(** What can register or remove a sensor: the registrations of [onFirstRef]
    (hardware and virtual sensors), [registerRuntimeSensor] and
    [unregisterRuntimeSensor], and the dynamic sensor meta events of the
    dispatch loop. *)
Inductive registry_op :=
| op_registerSensor (sensor : SensorInterface) (isDebug isVirt : bool) (device : Z)
| op_registerRuntimeSensor (sensor : Sensor) (device : Z)
| op_unregisterRuntimeSensor (handle : Z)
| op_dynamicSensorConnected (e : sensors_event_t)
| op_dynamicSensorDisconnected (handle : Z).

(** One operation: the handle it assigned, if it registered a sensor, and
    the new state; [None] only if [registerRuntimeSensor] ran out of fuel. *)
Definition apply_registry_op (END : Z) (op : registry_op) (s : SensorService)
    : option (option Z * SensorService) :=
  match op with
  | op_registerSensor sensor isDebug isVirt device =>
      let '(ok, s') := registerSensor sensor isDebug isVirt device s in
      Some (if ok then Some (getHandle (getSensor sensor)) else None, s')
  | op_registerRuntimeSensor sensor device =>
      match registerRuntimeSensor END sensor device s with
      | Some (handle, s') => Some (if 0 <? handle then Some handle else None, s')
      | None => None
      end
  | op_unregisterRuntimeSensor handle => Some (None, (unregisterRuntimeSensor handle s).2)
  | op_dynamicSensorConnected e =>
      let '(ok, s') := dynamicSensorConnected e s in
      Some (if ok then Some (dynamic_sensor_meta_handle e) else None, s')
  | op_dynamicSensorDisconnected handle =>
      Some (None, disconnectDynamicSensor handle (getActiveConnections s) s)
  end.

(** A sequence of operations: the handles assigned, in order. *)
Fixpoint lifetime (END : Z) (ops : list registry_op) (s : SensorService)
    : option (list Z * SensorService) :=
  match ops with
  | [] => Some ([], s)
  | op :: rest =>
      match apply_registry_op END op s with
      | None => None
      | Some (assigned, s') =>
          match lifetime END rest s' with
          | None => None
          | Some (more, s'') =>
              Some (match assigned with Some h => h :: more | None => more end, s'')
          end
      end
  end.

(** *** Example states *)

(** Every HAL call of [enable] succeeds. *)
Definition hal_ok : EnableAnswers := mkEnableAnswers NO_ERROR NO_ERROR NO_ERROR.

(** A dispatch thread without virtual sensors. *)
Definition example_dispatch : DispatchEnv :=
  mkDispatchEnv 256 0 (fun _ _ => None) false true false (Some 99).

(** A wake-up proximity sensor (handle 2), an on-change light sensor
    (handle 7), a one-shot sensor (handle 5) and a dynamic sensor
    (handle 0x40001). *)
Definition proximity : SensorInterface :=
  mkSensorInterface (mkSensor 2 8 AREPORTING_MODE_ON_CHANGE true false 0 0 0 (-1)) false.
Definition light : SensorInterface :=
  mkSensorInterface (mkSensor 7 5 AREPORTING_MODE_ON_CHANGE false false 0 0 0 (-1)) false.
Definition significant_motion : SensorInterface :=
  mkSensorInterface (mkSensor 5 17 AREPORTING_MODE_ONE_SHOT true false 0 0 0 (-1)) false.
Definition dynamic_accel : SensorInterface :=
  mkSensorInterface (mkSensor 262145 1 AREPORTING_MODE_CONTINUOUS false true 0 0 0 (-1)) false.

(** The service with those sensors registered and nothing enabled. *)
Definition booted : SensorService :=
  (registerSensor dynamic_accel false false 0
     (registerSensor significant_motion false false 0
        (registerSensor light false false 0
           (registerSensor proximity false false 0 (initial 1593835520)).2).2).2).2.

(** Connection 1 has enabled the proximity sensor. *)
Definition proximity_enabled : SensorService :=
  (enable true hal_ok 1%nat 2 20000000 0 booted).2.

(** Connection 1 has enabled the dynamic sensor, and the dispatch loop has
    then handled the meta event that reports the sensor disconnected. *)
Definition dynamic_disconnected : sensors_event_t :=
  mkEvent sizeof_sensors_event_t 99 SENSOR_TYPE_DYNAMIC_SENSOR_META 0 0 false 262145
    (plain_sensor 0) 0 [].
Definition dynamic_enabled : SensorService :=
  (enable true hal_ok 1%nat 262145 20000000 0 booted).2.
Definition dynamic_gone : SensorService :=
  default dynamic_enabled
    (threadLoop_iteration example_dispatch (event_at 0 0)
       (poll_events [dynamic_disconnected]) dynamic_enabled).

(** Connection 1 has enabled the light sensor, and the dispatch loop has
    then delivered one value [e] of it. *)
Definition light_enabled : SensorService :=
  (enable true hal_ok 1%nat 7 20000000 0 booted).2.
Definition light_reported (e : sensors_event_t) : SensorService :=
  default light_enabled
    (threadLoop_iteration example_dispatch (event_at 0 0) (poll_events [e]) light_enabled).

(** A light value at time 50, and the same value in an event whose
    [version] field is 0. *)
Definition light_value : sensors_event_t :=
  mkEvent sizeof_sensors_event_t 7 5 50 0 false 0 (plain_sensor 0) 0 [42].
Definition light_value_unsized : sensors_event_t :=
  mkEvent 0 7 5 50 0 false 0 (plain_sensor 0) 0 [42].

(** [ISensors::RUNTIME_SENSORS_HANDLE_BASE] and [..._END] as the HAL
    interface defines them. *)
Definition AIDL_RUNTIME_SENSORS_HANDLE_BASE : Z := 1593835520.  (* 0x5F000000 *)
Definition AIDL_RUNTIME_SENSORS_HANDLE_END : Z := 1610612735.   (* 0x5FFFFFFF *)

(** A dynamic sensor meta event announcing handle [h]. *)
Definition dynamic_connected (h : Z) : sensors_event_t :=
  mkEvent sizeof_sensors_event_t 99 SENSOR_TYPE_DYNAMIC_SENSOR_META 0 0 true h
    (plain_sensor 0) 0 [].

(** A lifetime in which runtime sensors come and go while a dynamic sensor
    takes a handle of the runtime range. *)
Definition example_lifetime : list registry_op :=
  [op_registerRuntimeSensor (plain_sensor 0) 1;
   op_registerRuntimeSensor (plain_sensor 0) 1;
   op_unregisterRuntimeSensor 1593835520;
   op_registerRuntimeSensor (plain_sensor 0) 2;
   op_dynamicSensorConnected (dynamic_connected 1593835524);
   op_registerRuntimeSensor (plain_sensor 0) 2;
   op_registerRuntimeSensor (plain_sensor 0) 2;
   op_dynamicSensorDisconnected 1593835524;
   op_dynamicSensorConnected (dynamic_connected 1593835524)].

End Service.

(** ** UidPolicy *)

Module UidPolicy.

(** [SensorService::UidState]. *)
Inductive UidState := UID_STATE_ACTIVE | UID_STATE_IDLE.

(** The two containers of [UidPolicy]: the set [mActiveUids] and the map
    [mOverrideUids]. *)
Record t := mkPolicy {
  mActiveUids : gset Z;
  mOverrideUids : gmap Z bool
}.

(** What a policy operation does besides updating the containers: the calls
    of [service->onUidStateChanged(uid, state)] it makes, in order. *)
Definition notifications := list (Z * UidState).

Section Policy.

(** [FIRST_APPLICATION_UID] of android_filesystem_config.h. *)
Variable FIRST_APPLICATION_UID : Z.
(** Whether [mService.promote()] yields the service. *)
Variable service : bool.

Definition isUidActiveLocked (p : t) (uid : Z) : bool :=
  (* Non-app UIDs are considered always active *)
  if uid <? FIRST_APPLICATION_UID then true
  else match mOverrideUids p !! uid with
       | Some active => active
       | None => bool_decide (uid ∈ mActiveUids p)
       end.

Definition isUidActive (p : t) (uid : Z) : bool :=
  if uid <? FIRST_APPLICATION_UID then true
  else isUidActiveLocked p uid.

Definition notify (uid : Z) (state : UidState) : notifications :=
  if service then [(uid, state)] else [].

Definition onUidActive (uid : Z) (p : t) : t * notifications :=
  (mkPolicy ({[uid]} ∪ mActiveUids p) (mOverrideUids p), notify uid UID_STATE_ACTIVE).

Definition onUidIdle (uid : Z) (p : t) : t * notifications :=
  let deleted := bool_decide (uid ∈ mActiveUids p) in
  (mkPolicy (mActiveUids p ∖ {[uid]}) (mOverrideUids p),
   if deleted then notify uid UID_STATE_IDLE else []).

Definition onUidGone (uid : Z) (p : t) : t * notifications := onUidIdle uid p.

Definition updateOverrideUid (uid : Z) (active insert : bool) (p : t) : t * notifications :=
  let wasActive := isUidActiveLocked p uid in
  let erased := delete uid (mOverrideUids p) in
  let p' := mkPolicy (mActiveUids p)
              (if insert then <[uid := active]> erased else erased) in
  let isActive := isUidActiveLocked p' uid in
  (p', if negb (eqb wasActive isActive)
       then notify uid (if isActive then UID_STATE_ACTIVE else UID_STATE_IDLE)
       else []).

Definition addOverrideUid (uid : Z) (active : bool) (p : t) : t * notifications :=
  updateOverrideUid uid active true p.

Definition removeOverrideUid (uid : Z) (p : t) : t * notifications :=
  updateOverrideUid uid false false p.

(** The callbacks of the activity manager and the override commands. *)
Inductive op :=
| op_onUidActive (uid : Z)
| op_onUidIdle (uid : Z)
| op_onUidGone (uid : Z)
| op_addOverrideUid (uid : Z) (active : bool)
| op_removeOverrideUid (uid : Z).

Definition apply_op (o : op) (p : t) : t * notifications :=
  match o with
  | op_onUidActive uid => onUidActive uid p
  | op_onUidIdle uid => onUidIdle uid p
  | op_onUidGone uid => onUidGone uid p
  | op_addOverrideUid uid active => addOverrideUid uid active p
  | op_removeOverrideUid uid => removeOverrideUid uid p
  end.

(** A run of operations: the policy it leaves and everything it told the
    service. *)
Fixpoint run (ops : list op) (p : t) : t * notifications :=
  match ops with
  | [] => (p, [])
  | o :: rest =>
      let '(p1, n1) := apply_op o p in
      let '(p2, n2) := run rest p1 in
      (p2, n1 ++ n2)
  end.

(** The operations that set or clear the override of [uid]. *)
Definition touches_override (uid : Z) (o : op) : bool :=
  match o with
  | op_addOverrideUid u _ | op_removeOverrideUid u => bool_decide (u = uid)
  | _ => false
  end.

(** The override commands. *)
Definition is_override_op (o : op) : bool :=
  match o with
  | op_addOverrideUid _ _ | op_removeOverrideUid _ => true
  | _ => false
  end.

(** The uid an operation is about. *)
Definition uid_of (o : op) : Z :=
  match o with
  | op_onUidActive uid | op_onUidIdle uid | op_onUidGone uid
  | op_addOverrideUid uid _ | op_removeOverrideUid uid => uid
  end.

(** What the service is told about a uid that is active, or idle. *)
Definition state_of (active : bool) : UidState :=
  if active then UID_STATE_ACTIVE else UID_STATE_IDLE.

(** The state the service was last told for [uid], if it was told any. *)
Definition last_told (uid : Z) (n : notifications) : option UidState :=
  snd <$> last (List.filter (fun x => bool_decide (x.1 = uid)) n).

End Policy.

(** The policy of a fresh service. *)
Definition empty : t := mkPolicy ∅ ∅.

End UidPolicy.

(** ** Shell commands *)

Module Shell.

Import UidPolicy.

(** More [status_t] values of <utils/Errors.h>. *)
Definition PERMISSION_DENIED : Z := -1.
Definition BAD_INDEX : Z := -75.
Definition BAD_TYPE : Z := - 2 ^ 31 + 1.

(** The messages the commands print: the help text, the two complaints of
    [getUidForPackage] with what they mention, and the two answers of
    [get-uid-state]. *)
Inductive text :=
| help_text
| unknown_package_text (packageName : string)
| invalid_user_text (userId : Z)
| active_text
| idle_text.

(** What the shell commands read and write of the service: the uid policy,
    the head-tracker restriction, what the service was told, and what was
    printed to which file descriptor. *)
Record state := mkState {
  policy : UidPolicy.t;
  mHtRestricted : bool;
  told : UidPolicy.notifications;
  written : list (Z * text)
}.

Section Commands.

Variable FIRST_APPLICATION_UID : Z.
Variable service : bool.
(** [checkCallingPermission(sManageSensorsPermission, ...)]. *)
Variable hasManageSensorsPermission : bool.
(** [PermissionController::getPackageUid(packageName, 0)], an [int]. *)
Variable getPackageUid : string -> Z.
(** [atoi] and [multiuser_get_uid]. *)
Variable atoi : string -> Z.
Variable multiuser_get_uid : Z -> Z -> Z.
(** The result of [dprintf(fd, text)]. *)
Variable dprintf_result : Z -> text -> Z.

Definition dprintf (fd : Z) (text : text) (st : state) : Z * state :=
  (dprintf_result fd text,
   mkState (policy st) (mHtRestricted st) (told st) (written st ++ [(fd, text)])).

Definition printHelp (out : Z) (st : state) : Z * state := dprintf out help_text st.

(** [args[i]]; the callers check [args.size()] first. *)
Definition arg (args : list string) (i : nat) : string := default "" (args !! i).

(** The [int] that [getPackageUid] returns, stored into a [uid_t]. *)
Definition as_uid_t (x : Z) : Z := x mod 2 ^ 32.

(** Returns the status and [uid]. *)
Definition getUidForPackage (packageName : string) (userId : Z) (err : Z) (st : state)
    : Z * Z * state :=
  let uid := as_uid_t (getPackageUid packageName) in
  if uid <=? 0 then
    (Service.BAD_VALUE, uid,
     (dprintf err (unknown_package_text packageName) st).2)
  else if userId <? 0 then
    (Service.BAD_VALUE, uid, (dprintf err (invalid_user_text userId) st).2)
  else (Service.NO_ERROR, multiuser_get_uid userId uid, st).

Definition with_policy (r : UidPolicy.t * UidPolicy.notifications) (st : state) : state :=
  mkState r.1 (mHtRestricted st) (told st ++ r.2) (written st).

Definition handleSetUidState (args : list string) (err : Z) (st : state) : Z * state :=
  (* Valid arg.size() is 3 or 5, args.size() is 5 with --user option. *)
  if negb ((length args =? 3)%nat || (length args =? 5)%nat)
  then (Service.BAD_VALUE, (printHelp err st).2)
  else
    let is_active := String.eqb (arg args 2) "active" in
    if negb is_active && negb (String.eqb (arg args 2) "idle") then (Service.BAD_VALUE, st)
    else
      let userId := if (length args =? 5)%nat && String.eqb (arg args 3) "--user"
                    then atoi (arg args 4) else 0 in
      let '(status, uid, st1) := getUidForPackage (arg args 1) userId err st in
      if negb (status =? Service.NO_ERROR) then (Service.BAD_VALUE, st1)
      else
        (Service.NO_ERROR,
         with_policy (addOverrideUid FIRST_APPLICATION_UID service uid is_active (policy st1))
           st1).

Definition handleResetUidState (args : list string) (err : Z) (st : state) : Z * state :=
  (* Valid arg.size() is 2 or 4, args.size() is 4 with --user option. *)
  if negb ((length args =? 2)%nat || (length args =? 4)%nat)
  then (Service.BAD_VALUE, (printHelp err st).2)
  else
    let userId := if (length args =? 4)%nat && String.eqb (arg args 2) "--user"
                  then atoi (arg args 3) else 0 in
    let '(status, uid, st1) := getUidForPackage (arg args 1) userId err st in
    if status =? Service.BAD_VALUE then (Service.BAD_VALUE, st1)
    else
      (Service.NO_ERROR,
       with_policy (removeOverrideUid FIRST_APPLICATION_UID service uid (policy st1)) st1).

Definition handleGetUidState (args : list string) (out err : Z) (st : state) : Z * state :=
  if negb ((length args =? 2)%nat || (length args =? 4)%nat)
  then (Service.BAD_VALUE, (printHelp err st).2)
  else
    let userId := if (length args =? 4)%nat && String.eqb (arg args 2) "--user"
                  then atoi (arg args 3) else 0 in
    let '(status, uid, st1) := getUidForPackage (arg args 1) userId err st in
    if status =? Service.BAD_VALUE then (Service.BAD_VALUE, st1)
    else if isUidActive FIRST_APPLICATION_UID (policy st1) uid
    then dprintf out active_text st1
    else dprintf out idle_text st1.

Definition shellCommand (in_ out err : Z) (args : list string) (st : state) : Z * state :=
  if negb hasManageSensorsPermission then (PERMISSION_DENIED, st)
  else if (length args =? 0)%nat then (BAD_INDEX, st)
  else if (in_ =? BAD_TYPE) || (out =? BAD_TYPE) || (err =? BAD_TYPE)
  then (Service.BAD_VALUE, st)
  else if String.eqb (arg args 0) "set-uid-state" then handleSetUidState args err st
  else if String.eqb (arg args 0) "reset-uid-state" then handleResetUidState args err st
  else if String.eqb (arg args 0) "get-uid-state" then handleGetUidState args out err st
  else if String.eqb (arg args 0) "unrestrict-ht"
  then (Service.NO_ERROR, mkState (policy st) false (told st) (written st))
  else if String.eqb (arg args 0) "restrict-ht"
  then (Service.NO_ERROR, mkState (policy st) true (told st) (written st))
  else if (length args =? 1)%nat && String.eqb (arg args 0) "help"
  then (Service.NO_ERROR, (printHelp out st).2)
  else (Service.BAD_VALUE, (printHelp err st).2).

(** The trailing [--user USER_ID] option: absent, or naming a user. *)
Definition user_option (user : option string) : list string :=
  match user with
  | Some u => ["--user"; u]
  | None => []
  end.

(** The user id the handlers read from it. *)
Definition user_of (user : option string) : Z :=
  match user with
  | Some u => atoi u
  | None => 0
  end.

(** The word [set-uid-state] takes for a state. *)
Definition state_word (active : bool) : string := if active then "active" else "idle".

(** What a command printed: the text added to [fd] between [st] and [st']. *)
Definition printed (fd : Z) (st st' : state) : list text :=
  (List.filter (fun w => w.1 =? fd) (drop (length (written st)) (written st'))).*2.

End Commands.

(** Oracles for examples: every package has uid 10001 and every user option
    names user 10; [multiuser_get_uid] as the platform defines it; [dprintf]
    reports one byte written. *)
Definition example_getPackageUid : string -> Z := fun _ => 10001.
Definition example_atoi : string -> Z := fun _ => 10.
Definition example_multiuser_get_uid : Z -> Z -> Z :=
  fun userId appId => userId * 100000 + appId mod 100000.
Definition example_dprintf_result : Z -> text -> Z := fun _ _ => 1.

(** A service whose policy knows no uid, with the head tracker restricted. *)
Definition example_state : state := mkState UidPolicy.empty true [] [].

End Shell.

(** ** The target SDK cache *)

Module TargetSdk.

(** [sSensorInterfaceDescriptorPrefix]. *)
Definition sSensorInterfaceDescriptorPrefix : string := "android.frameworks.sensorservice".

(** What the lookup of the native package manager comes to: the
    [package_native] service or its interface is null, the call fails, or the
    call succeeds and stores a version. *)
Inductive pm_answer :=
| pm_unavailable
| pm_failed
| pm_ok (targetSdkVersion : Z).

(** The value [getTargetSdkVersion] is left with after the lookup. *)
Definition looked_up (a : pm_answer) : Z :=
  match a with
  | pm_ok v => v
  | pm_unavailable | pm_failed => -1
  end.

(** [sPackageTargetVersion]. *)
Abbreviation cache := (gmap string Z).

(** Returns the version, the cache, and the packages looked up with the
    package manager service during the call. *)
Definition getTargetSdkVersion (pm : string -> pm_answer) (opPackageName : string)
    (sPackageTargetVersion : cache) : Z * cache * list string :=
  let isVNDK := String.prefix sSensorInterfaceDescriptorPrefix opPackageName
                && Service.contains opPackageName "@" in
  if isVNDK then (-1, sPackageTargetVersion, [])
  else
    match sPackageTargetVersion !! opPackageName with
    | Some targetSdkVersion => (targetSdkVersion, sPackageTargetVersion, [])
    | None =>
        let targetSdkVersion := looked_up (pm opPackageName) in
        (targetSdkVersion, <[opPackageName := targetSdkVersion]> sPackageTargetVersion,
         [opPackageName])
    end.

(** [resetTargetSdkVersionCache] is the service's. *)
Abbreviation resetTargetSdkVersionCache := Service.resetTargetSdkVersionCache.

(** The descriptor names that [getTargetSdkVersion] takes for VNDK clients. *)
Definition isVNDK (opPackageName : string) : bool :=
  String.prefix sSensorInterfaceDescriptorPrefix opPackageName
  && Service.contains opPackageName "@".

(** A package manager for examples: it knows one package. *)
Definition example_pm (v : Z) : string -> pm_answer :=
  fun p => if String.eqb p "com.example.app" then pm_ok v else pm_failed.

End TargetSdk.

(** ** Proximity listeners *)

Module Proximity.

(** [status_t] values of <utils/Errors.h>. *)
Definition OK : Z := 0.
Definition ALREADY_EXISTS : Z := -17.
Definition NAME_NOT_FOUND : Z := -2.

(** A thread started by [notifyProximityStateLocked]: its sequence number,
    and the state and the listeners it was given.  A thread calls its
    listeners once every thread with a smaller sequence number has finished,
    so listeners are called in the order the threads were started. *)
Record callback_thread := mkThread {
  mySeq : Z;
  isActive : bool;
  listenersCopy : list nat
}.

(** The proximity bookkeeping of the service; listeners are named by the
    identity of the object behind the [sp<>]. *)
Record state := mkProx {
  mProxSensorHandles : list Z;
  mLastReportedProxIsActive : bool;
  mProximityActiveListeners : list nat;
  curProxCallbackSeq : Z;
  started : list callback_thread
}.

Definition notifyProximityStateLocked (isActive : bool) (listeners : list nat)
    (st : state) : state :=
  (* ++curProxCallbackSeq on a uint64 *)
  let mySeq := (curProxCallbackSeq st + 1) mod 2 ^ 64 in
  mkProx (mProxSensorHandles st) (mLastReportedProxIsActive st)
    (mProximityActiveListeners st) mySeq
    (started st ++ [mkThread mySeq isActive listeners]).

(** [isSensorActive] is [dev.isSensorActive]. *)
Definition checkAndReportProxStateChangeLocked (isSensorActive : Z -> bool) (st : state)
    : state :=
  match mProxSensorHandles st with
  | [] => st
  | _ :: _ =>
      let isActive := existsb isSensorActive (mProxSensorHandles st) in
      if negb (eqb isActive (mLastReportedProxIsActive st)) then
        let st1 := notifyProximityStateLocked isActive (mProximityActiveListeners st) st in
        mkProx (mProxSensorHandles st1) isActive (mProximityActiveListeners st1)
          (curProxCallbackSeq st1) (started st1)
      else st
  end.

(** [callback] is [None] for [nullptr]. *)
Definition addProximityActiveListener (callback : option nat) (st : state) : Z * state :=
  match callback with
  | None => (Service.BAD_VALUE, st)
  | Some cb =>
      (* Check if the callback was already added. *)
      if existsb (Nat.eqb cb) (mProximityActiveListeners st) then (ALREADY_EXISTS, st)
      else
        let st1 := mkProx (mProxSensorHandles st) (mLastReportedProxIsActive st)
                     (mProximityActiveListeners st ++ [cb]) (curProxCallbackSeq st)
                     (started st) in
        (OK, notifyProximityStateLocked (mLastReportedProxIsActive st1) [cb] st1)
  end.

(** The loop of [removeProximityActiveListener]: the first element equal to
    [cb] is erased; [None] when there is none. *)
Fixpoint erase_first (cb : nat) (listeners : list nat) : option (list nat) :=
  match listeners with
  | [] => None
  | x :: rest =>
      if Nat.eqb x cb then Some rest
      else match erase_first cb rest with
           | Some rest' => Some (x :: rest')
           | None => None
           end
  end.

Definition removeProximityActiveListener (callback : option nat) (st : state) : Z * state :=
  match callback with
  | None => (Service.BAD_VALUE, st)
  | Some cb =>
      match erase_first cb (mProximityActiveListeners st) with
      | Some listeners =>
          (OK, mkProx (mProxSensorHandles st) (mLastReportedProxIsActive st) listeners
                 (curProxCallbackSeq st) (started st))
      | None => (NAME_NOT_FOUND, st)
      end
  end.

(** The operations on the bookkeeping, with what the device answers. *)
Inductive op :=
| op_add (callback : option nat)
| op_remove (callback : option nat)
| op_check (isSensorActive : Z -> bool).

Definition apply_op (o : op) (st : state) : state :=
  match o with
  | op_add callback => (addProximityActiveListener callback st).2
  | op_remove callback => (removeProximityActiveListener callback st).2
  | op_check isSensorActive => checkAndReportProxStateChangeLocked isSensorActive st
  end.

Definition run (ops : list op) (st : state) : state := fold_left (fun st o => apply_op o st) ops st.

(** What listener [cb] was last told, if it was told anything. *)
Definition last_told (cb : nat) (threads : list callback_thread) : option bool :=
  isActive <$> last (List.filter (fun t => existsb (Nat.eqb cb) (listenersCopy t)) threads).

(** Every registered listener was last told the state the service last
    reported. *)
Definition listeners_informed (st : state) : Prop :=
  forall cb, cb ∈ mProximityActiveListeners st ->
    last_told cb (started st) = Some (mLastReportedProxIsActive st).

(** The bookkeeping as the constructor and [onFirstRef] leave it, for the
    given proximity sensors. *)
Definition initial (handles : list Z) : state := mkProx handles false [] 0 [].

End Proximity.

(** ** setOperationParameter *)

Module OperationParameter.

Section SetOperationParameter.

(** The type of the [float] values; they are only copied. *)
Variable float : Type.

(** The [AINFO_*] enumerators of sensors-base.h that the function names,
    and the capacity of [additional_info_event_t::data_float]. *)
Variable AINFO_BEGIN : Z.
Variable AINFO_END : Z.
Variable AINFO_LOCAL_GEOMAGNETIC_FIELD : Z.
Variable AINFO_LOCAL_GRAVITY : Z.
Variable AINFO_DOCK_STATE : Z.
Variable AINFO_HIGH_PERFORMANCE_MODE : Z.
Variable AINFO_MAGNETIC_FIELD_CALIBRATION : Z.
Variable AINFO_CUSTOM_START : Z.
Variable AINFO_DEBUGGING_START : Z.
Variable data_float_capacity : nat.

(** What a frame carries in the union of [additional_info_event_t]. *)
Inductive payload :=
| no_data
| data_float (floats : list float)
| data_int32 (ints : list Z).

(** A [sensors_event_t] through its [additional_info] view. *)
Record info_event := mkInfo {
  info_version : Z;
  info_sensor : Z;
  info_event_type : Z;
  info_timestamp : Z;
  info_type : Z;
  info_serial : Z;
  info_data : payload
}.

(** [checkCallingPermission(sLocationHardwarePermission, ...)]. *)
Variable hasLocationHardwarePermission : bool.
(** [elapsedRealtimeNano()]. *)
Variable now : Z.
(** [dev.injectSensorData]. *)
Variable injectSensorData : info_event -> Z.

Definition PERMISSION_DENIED : Z := -1.

(** The three frames: begin tag, payload, end tag. *)
Definition frames (handle type : Z) (data : payload) : list info_event :=
  [mkInfo sizeof_sensors_event_t handle SENSOR_TYPE_ADDITIONAL_INFO now
     AINFO_BEGIN 0 no_data;
   mkInfo sizeof_sensors_event_t handle SENSOR_TYPE_ADDITIONAL_INFO (int64 (now + 1))
     type 0 data;
   mkInfo sizeof_sensors_event_t handle SENSOR_TYPE_ADDITIONAL_INFO (int64 (now + 2))
     AINFO_END 0 no_data].

(** The last loop: the frames go to the device one by one, and the first
    failure ends the call.  Returns the status and the frames handed to the
    device. *)
Fixpoint injectAll (events : list info_event) : Z * list info_event :=
  match events with
  | [] => (Service.NO_ERROR, [])
  | e :: rest =>
      let ret := injectSensorData e in
      if negb (ret =? Service.NO_ERROR) then (ret, [e])
      else let '(status, injected) := injectAll rest in (status, e :: injected)
  end.

(** The [switch]: [Some (isFloat, isCustom, expectSize)], or [None] where
    the default case returns [BAD_VALUE]. *)
Definition classify (handle type : Z) (floats : list float) (ints : list Z)
    : option (bool * bool * nat) :=
  if type =? AINFO_LOCAL_GEOMAGNETIC_FIELD then Some (true, false, 3%nat)
  else if type =? AINFO_LOCAL_GRAVITY then Some (true, false, 1%nat)
  else if (type =? AINFO_DOCK_STATE) || (type =? AINFO_HIGH_PERFORMANCE_MODE)
          || (type =? AINFO_MAGNETIC_FIELD_CALIBRATION)
  then Some (false, false, 1%nat)
  else
    (* CUSTOM events must only contain float data; it may have variable size *)
    if (type <? AINFO_CUSTOM_START) || (AINFO_DEBUGGING_START <=? type)
       || negb (length ints =? 0)%nat
       || (data_float_capacity <? length floats)%nat
       || (handle <? 0)
    then None
    else Some (true, true, length floats).

Definition setOperationParameter (handle type : Z) (floats : list float) (ints : list Z)
    : Z * list info_event :=
  if negb hasLocationHardwarePermission then (PERMISSION_DENIED, [])
  else
    match classify handle type floats ints with
    | None => (Service.BAD_VALUE, [])
    | Some (isFloat, isCustom, expectSize) =>
        if negb isCustom && negb (handle =? -1) then (Service.BAD_VALUE, [])
        else if isFloat then
          if negb (length floats =? expectSize)%nat then (Service.BAD_VALUE, [])
          else injectAll (frames handle type (data_float (take expectSize floats)))
        else
          if negb (length ints =? expectSize)%nat then (Service.BAD_VALUE, [])
          else injectAll (frames handle type (data_int32 (take expectSize ints)))
    end.

End SetOperationParameter.

Arguments no_data {float}.
Arguments data_float {float} floats.
Arguments data_int32 {float} ints.

(** A device for examples that accepts every frame, and one that refuses
    the payload frame. *)
Definition accept_all {float} : info_event float -> Z := fun _ => Service.NO_ERROR.
Definition refuse_payload {float} : info_event float -> Z :=
  fun e => match info_data float e with
           | no_data => Service.NO_ERROR
           | _ => Service.INVALID_OPERATION
           end.

End OperationParameter.

(** ** Access checks and the remaining requests *)

Module Requests.

Import Service.

(** *** canAccessSensor *)

Section CanAccessSensor.

(** Constants of sensors-base.h, android/api-level.h,
    android_filesystem_config.h and AppOpsManager.h. *)
Variable SENSOR_TYPE_HEAD_TRACKER : Z.
Variable SENSOR_TYPE_STEP_COUNTER : Z.
Variable SENSOR_TYPE_STEP_DETECTOR : Z.
Variable ANDROID_API_P : Z.
Variable AID_SYSTEM : Z.
Variable MODE_ALLOWED : Z.

(** What the platform answers about the caller during one call. *)
Record Caller := mkCaller {
  (** [IPCThreadState::self()->getCallingUid()] *)
  callingUid : Z;
  isAudioServerOrSystemServerUid : bool;
  (** [getTargetSdkVersion(opPackageName)] *)
  targetSdkVersion : Z;
  (** [hasPermissionForSensor(sensor)] *)
  hasPermissionForSensor : bool;
  (** [sAppOpsManager.checkOp(opCode, uid, opPackageName)] *)
  checkOp : Z -> Z
}.

Definition canAccessSensor (mHtRestricted : bool) (caller : Caller) (sensor : Sensor)
    : bool :=
  if (getType sensor =? SENSOR_TYPE_HEAD_TRACKER)
     && negb (isAudioServerOrSystemServerUid caller) && mHtRestricted
  then false
  else
    (* Check if a permission is required for this sensor *)
    if getRequiredPermission_size sensor <=? 0 then true
    else
      let opCode := getRequiredAppOp sensor in
      if (0 <? targetSdkVersion caller) && (targetSdkVersion caller <=? ANDROID_API_P)
         && ((getType sensor =? SENSOR_TYPE_STEP_COUNTER)
             || (getType sensor =? SENSOR_TYPE_STEP_DETECTOR))
      then true
      else if callingUid caller =? AID_SYSTEM then true
      else if hasPermissionForSensor caller then
        if 0 <=? opCode then checkOp caller opCode =? MODE_ALLOWED else true
      else false.

End CanAccessSensor.

(** *** setEventRate *)

(** Returns the status and, when [sensor->setDelay] was called, the period
    it was called with; [setDelay_result] is what that call answers. *)
Definition setEventRate (canAccess : bool) (setDelay_result : Z) (handle ns : Z)
    (s : SensorService) : Z * option Z :=
  if negb (mInitCheck s =? NO_ERROR) then (mInitCheck s, None) else
  match getSensorInterfaceFromHandle s handle with
  | None => (BAD_VALUE, None)
  | Some sensor =>
      if negb canAccess then (BAD_VALUE, None)
      else if ns <? 0 then (BAD_VALUE, None)
      else
        let minDelayNs := getMinDelayNs (getSensor sensor) in
        let ns' := if ns <? minDelayNs then minDelayNs else ns in
        (setDelay_result, Some ns')
  end.

(** *** flushSensor *)

(** What the platform and the HAL answer during [flushSensor]. *)
Record FlushEnv := mkFlushEnv {
  (** [halVersion <= SENSORS_DEVICE_API_VERSION_1_0] *)
  halVersion_up_to_1_0 : bool;
  (** [canAccessSensor(sensor, "Tried flushing", opPackageName)] *)
  canAccess : Z -> bool;
  (** [sensor->flush(connection, handle)] *)
  sensor_flush_result : Z -> Z;
  (** whether the connection has access, for
      [incrementPendingFlushCountIfHasAccess] *)
  connectionHasAccess : bool
}.

Definition isVirtualSensor (s : SensorService) (handle : Z) : bool :=
  match getSensorInterfaceFromHandle s handle with
  | Some sensor => isVirtual sensor
  | None => false
  end.

(** Modelled from the spec: [SensorEventConnection::getActiveSensorHandles],
    the handles of the subscription map. *)
Definition getActiveSensorHandles (conn : SensorEventConnection) : list Z :=
  (map_to_list (mSensorInfo conn)).*1.

(** Modelled from the spec:
    [SensorEventConnection::incrementPendingFlushCountIfHasAccess], which
    counts one more pending flush-complete event for the handle when the
    connection has access, and reports whether it has. *)
Definition incrementPendingFlushCountIfHasAccess (hasAccess : bool) (handle : Z)
    (conn : SensorEventConnection) : bool * SensorEventConnection :=
  if hasAccess
  then (true, with_mSensorInfo
                (alter (fun fi => mkFlushInfo (mFirstFlushPending fi)
                                    (mPendingFlushEventsToSend fi + 1))
                   handle (mSensorInfo conn)) conn)
  else (false, conn).

(** One turn of the loop of [flushSensor]; [err] is carried along. *)
Definition flushSensor_step (env : FlushEnv) (c : nat) (acc : Z * SensorService)
    (handle : Z) : Z * SensorService :=
  let '(err, s) := acc in
  match getSensorInterfaceFromHandle s handle with
  | None => (err, s)
  | Some sensor =>
      if bool_decide (getReportingMode (getSensor sensor) = AREPORTING_MODE_ONE_SHOT)
      then (INVALID_OPERATION, s)
      else if halVersion_up_to_1_0 env || isVirtualSensor s handle then
        (* For older devices just increment pending flush count which will send
           a trivial flush complete event. *)
        let '(ok, conn) :=
          incrementPendingFlushCountIfHasAccess (connectionHasAccess env) handle
            (getConn s c) in
        (if ok then err else INVALID_OPERATION, setConn c conn s)
      else if negb (canAccess env handle) then (INVALID_OPERATION, s)
      else
        let err_flush := sensor_flush_result env handle in
        let s1 := log (sensor_flush c handle) s in
        let s2 := if err_flush =? NO_ERROR
                  then with_mActiveSensors
                         (alter (addPendingFlushConnection c) handle (mActiveSensors s1)) s1
                  else s1 in
        (if negb (err_flush =? NO_ERROR) then err_flush else err, s2)
  end.

Definition flushSensor (env : FlushEnv) (c : nat) (s : SensorService) : Z * SensorService :=
  if negb (mInitCheck s =? NO_ERROR) then (mInitCheck s, s)
  else fold_left (flushSensor_step env c) (getActiveSensorHandles (getConn s c))
         (NO_ERROR, s).

(** A handle that [flushSensor] flushes on the hardware, successfully. *)
Definition flushed_on_hardware (env : FlushEnv) (s : SensorService) (handle : Z) : bool :=
  match getSensorInterfaceFromHandle s handle with
  | Some sensor =>
      negb (bool_decide (getReportingMode (getSensor sensor) = AREPORTING_MODE_ONE_SHOT))
      && negb (halVersion_up_to_1_0 env || isVirtual sensor)
      && canAccess env handle
      && (sensor_flush_result env handle =? NO_ERROR)
  | None => false
  end.

(** A handle on which [flushSensor] does not fail. *)
Definition flush_succeeds (env : FlushEnv) (s : SensorService) (handle : Z) : bool :=
  match getSensorInterfaceFromHandle s handle with
  | Some sensor =>
      negb (bool_decide (getReportingMode (getSensor sensor) = AREPORTING_MODE_ONE_SHOT))
      && (if halVersion_up_to_1_0 env || isVirtual sensor
          then connectionHasAccess env
          else canAccess env handle && (sensor_flush_result env handle =? NO_ERROR))
  | None => true
  end.

(** The connections waiting for a flush-complete event of [handle]. *)
Definition pendingFlush (s : SensorService) (handle : Z) : list nat :=
  match mActiveSensors s !! handle with
  | Some rec => mPendingFlushConnections rec
  | None => []
  end.

(** Whether [e] is a flush-complete event of [handle]. *)
Definition is_flush_complete (handle : Z) (e : sensors_event_t) : bool :=
  (type e =? SENSOR_TYPE_META_DATA) && (meta_data_sensor e =? handle).

(** A flush-complete event for [handle]. *)
Definition flush_complete (handle : Z) : sensors_event_t :=
  mkEvent sizeof_sensors_event_t 0 SENSOR_TYPE_META_DATA 0 handle false 0 (plain_sensor 0) 0 [].

(** *** adjustRateLevelBasedOnMicAndPermission *)

Section AdjustRateLevel.

(** [SENSOR_SERVICE_CAPPED_SAMPLING_RATE_LEVEL], defined in SensorService.h. *)
Variable SENSOR_SERVICE_CAPPED_SAMPLING_RATE_LEVEL : Z.

(** Returns the status and the value left in [*requestedRateLevel];
    [targetSdk] and [hasSamplingRatePermission] are what
    [isRateCappedBasedOnPermission] reads, [debuggable] is
    [isPackageDebuggable(opPackageName)] and [micEnabled] is
    [mMicSensorPrivacyPolicy->isSensorPrivacyEnabled()]. *)
Definition adjustRateLevelBasedOnMicAndPermission (requestedRateLevel : Z)
    (targetSdk : Z) (hasSamplingRatePermission debuggable micEnabled : bool) : Z * Z :=
  if requestedRateLevel <=? SENSOR_SERVICE_CAPPED_SAMPLING_RATE_LEVEL
  then (RatePolicy.OK, requestedRateLevel)
  else
    let shouldCapBasedOnPermission :=
      RatePolicy.isRateCappedBasedOnPermission targetSdk hasSamplingRatePermission in
    if shouldCapBasedOnPermission then
      if debuggable
      then (RatePolicy.PERMISSION_DENIED, SENSOR_SERVICE_CAPPED_SAMPLING_RATE_LEVEL)
      else (RatePolicy.OK, SENSOR_SERVICE_CAPPED_SAMPLING_RATE_LEVEL)
    else if micEnabled then (RatePolicy.OK, SENSOR_SERVICE_CAPPED_SAMPLING_RATE_LEVEL)
    else (RatePolicy.OK, requestedRateLevel).

End AdjustRateLevel.

(** *** dump: the mode request *)

Definition getTargetOperatingMode (inputString : string) : option Mode :=
  if String.eqb inputString "restrict" then Some RESTRICTED
  else if String.eqb inputString "enable" then Some NORMAL
  else if String.eqb inputString "data_injection" then Some DATA_INJECTION
  else if String.eqb inputString "replay_data_injection" then Some REPLAY_DATA_INJECTION
  else if String.eqb inputString "hal_bypass_replay_data_injection"
  then Some HAL_BYPASS_REPLAY_DATA_INJECTION
  else None.

(** The head of [dump], before it writes its report: the permission check,
    the argument count, and the mode change the first argument may ask for.
    Returns [Some status] where [dump] returns at once with that status, and
    [None] where it goes on to write the permission denial or the report. *)
Definition dump_request (hasDumpPermission : bool) (env : ModeEnv) (args : list string)
    (s : SensorService) : option Z * SensorService :=
  if negb hasDumpPermission then (None, s)
  else if (2 <? length args)%nat then (Some INVALID_OPERATION, s)
  else
    match args with
    | [] => (None, s)
    | inputStringMode :: _ =>
        match getTargetOperatingMode inputStringMode with
        | Some targetOperatingMode =>
            let '(error, s') := changeOperatingMode env args targetOperatingMode s in
            (* Dump the latest state only if no error was encountered. *)
            if negb (error =? NO_ERROR) then (Some error, s') else (None, s')
        | None => (None, s)
        end
    end.

(** A new HAL on which every flush succeeds, for examples. *)
Definition example_flush : FlushEnv :=
  mkFlushEnv false (fun _ => true) (fun _ => NO_ERROR) true.

End Requests.

(** ** Reading what an operation did off the trace *)

Module Footprint.

Import Service.

(** Between [s] and [s'] the trace grew, and only by actions that satisfy
    [P]. *)
Definition grows_within (P : action -> bool) (s s' : SensorService) : Prop :=
  exists delta, trace s' = trace s ++ delta /\ forallb P delta = true.

(** Such a step that also leaves every connection its uid. *)
Definition acts_within (P : action -> bool) (s s' : SensorService) : Prop :=
  grows_within P s s' /\ forall c, mUid (getConn s' c) = mUid (getConn s c).

(** What [enable] may do for connection [c] and sensor [handle]: take or
    release the wakelock around a replay, send to [c], book the sensor with
    the battery service for [uid], configure and activate that sensor for
    that connection on the HAL with exactly the period [period] and the
    latency [latency], and write its registration entry. *)
Definition enable_footprint (c : nat) (handle uid period latency : Z) (a : action) : bool :=
  match a with
  | acquire_wake_lock | release_wake_lock | Looper_wake => true
  | sendEvents c' _ => bool_decide (c' = c)
  | sensor_batch c' h p l =>
      bool_decide (c' = c) && (h =? handle) && (p =? period) && (l =? latency)
  | sensor_flush c' h => bool_decide (c' = c) && (h =? handle)
  | sensor_activate c' h enabled => bool_decide (c' = c) && (h =? handle) && enabled
  | BatteryService_enableSensor u h | BatteryService_disableSensor u h =>
      (u =? uid) && (h =? handle)
  | updateLooperRegistration c' => bool_decide (c' = c)
  | SensorRegistrationInfo h _ p l activate _ =>
      (h =? handle) && (p =? period) && (l =? latency) && activate
  | _ => false
  end.

(** The connections that were sent a batch, in the order of the sends. *)
Fixpoint sent_to (acts : list action) : list nat :=
  match acts with
  | [] => []
  | sendEvents c _ :: rest => c :: sent_to rest
  | _ :: rest => sent_to rest
  end.

(** What the service holds, apart from what it did: the state with the trace
    emptied. *)
Definition forget_trace (s : SensorService) : SensorService :=
  mkService (mInitCheck s) (nextHandle s) (mSensors s) (mRecentEvent s) (mActiveSensors s)
    (mActiveVirtualSensors s) (connections s) (mActiveConnections s) (mDirectConnections s)
    (mWakeLockAcquired s) (mCurrentOperatingMode s) (mAllowListedPackage s)
    (sPackageTargetVersion s) [].

(** The commands to the device as a whole. *)
Definition is_device_command (a : action) : bool :=
  match a with
  | dev_reconnect | dev_disableAllSensors | dev_enableAllSensors | dev_setMode _ => true
  | _ => false
  end.

Definition device_commands (acts : list action) : list action :=
  List.filter is_device_command acts.

(** The handle an event is about, as [cleanupAutoDisabledSensorLocked]
    reads it. *)
Definition event_handle (e : sensors_event_t) : Z :=
  if type e =? SENSOR_TYPE_META_DATA then meta_data_sensor e else sensor e.

(** The handle is that of a registered one-shot sensor. *)
Definition is_one_shot (s : SensorService) (handle : Z) : bool :=
  match getSensorInterfaceFromHandle s handle with
  | Some si => bool_decide (getReportingMode (getSensor si) = AREPORTING_MODE_ONE_SHOT)
  | None => false
  end.

(** The sensors deactivated on the HAL for connection [c], in order. *)
Fixpoint deactivated (c : nat) (acts : list action) : list Z :=
  match acts with
  | [] => []
  | sensor_activate c' h false :: rest =>
      if bool_decide (c' = c) then h :: deactivated c rest else deactivated c rest
  | _ :: rest => deactivated c rest
  end.

(** What the service is set up with, as opposed to who is subscribed to
    what: the init status, the handle counter, the registry, the direct
    connections, the operating mode and its allowlist string. *)
Definition configuration (s : SensorService)
    : Z * Z * SensorList * list (Z * string) * Mode * string :=
  (mInitCheck s, nextHandle s, mSensors s, mDirectConnections s,
   mCurrentOperatingMode s, mAllowListedPackage s).

(** The owners of the record of [handle], none when there is no record. *)
Definition owners (s : SensorService) (handle : Z) : option (list nat) :=
  mConnections <$> (mActiveSensors s !! handle).

(** The owners left when connection [c] drops out: the record goes with its
    last owner. *)
Definition owners_without (c : nat) (before : option (list nat)) : option (list nat) :=
  match before with
  | Some l => if decide (filter (fun x => x <> c) l = []) then None
              else Some (filter (fun x => x <> c) l)
  | None => None
  end.

(** The events of a buffer that [recordLastValueLocked] records for
    [handle], in buffer order. *)
Definition recorded (handle : Z) (buffer : list sensors_event_t) : list sensors_event_t :=
  List.filter
    (fun e => negb ((type e =? SENSOR_TYPE_META_DATA)
                    || (type e =? SENSOR_TYPE_DYNAMIC_SENSOR_META)
                    || (type e =? SENSOR_TYPE_ADDITIONAL_INFO))
              && (sensor e =? handle))
    buffer.

(** The log entry after the events [events] have been added, oldest first. *)
Definition logged (events : list sensors_event_t) (logger : RecentEventLogger)
    : RecentEventLogger :=
  match events with
  | [] => logger
  | _ => mkLogger (rev events ++ mRecentEvents logger) true
  end.

(** Connection 1 has enabled the one-shot sensor, and an event of it. *)
Definition motion_enabled : SensorService :=
  (enable true hal_ok 1%nat 5 20000000 0 booted).2.
Definition motion_event : sensors_event_t :=
  mkEvent sizeof_sensors_event_t 5 17 60 0 false 0 (plain_sensor 0) 0 [1].

End Footprint.

(** ** The sensor privacy policy *)

Module SensorPrivacyPolicy.

Import Service.

(** The platform's answers with the policy's [mSensorPrivacyEnabled] set. *)
Definition with_mSensorPrivacyEnabled (enabled : bool) (env : ModeEnv) : ModeEnv :=
  mkModeEnv (isUserBuild env) enabled (isUidActive env) (setMode env).

(** [onSensorPrivacyChanged(toggleType, sensor, enabled)]; [alive] tells
    whether [mService.promote()] gives the service.  Returns the answers
    with the flag updated. *)
Definition onSensorPrivacyChanged (enabled alive : bool) (env : ModeEnv) (s : SensorService)
    : ModeEnv * SensorService :=
  let env' := with_mSensorPrivacyEnabled enabled env in
  (env',
   if alive then
     if enabled then disableAllSensorsLocked env' s else enableAllSensorsLocked env' s
   else s).

(** What the direct connections were told about their access, in order. *)
Fixpoint access_told (acts : list action) : list (nat * bool) :=
  match acts with
  | [] => []
  | onSensorAccessChanged i hasAccess :: rest => (i, hasAccess) :: access_told rest
  | _ :: rest => access_told rest
  end.

(** An action that grants no direct connection access. *)
Definition grants_no_access (a : action) : bool :=
  match a with
  | onSensorAccessChanged _ hasAccess => negb hasAccess
  | _ => true
  end.

(** A service in Normal mode with two direct connections. *)
Definition example_direct : SensorService :=
  mkService NO_ERROR 0 (mkSensorList ∅ ∅) ∅ ∅ ∅ ∅ [] [(10001, "com.a"); (10002, "com.b")]
    false NORMAL "" ∅ [].

End SensorPrivacyPolicy.

(** ** Events of runtime sensors *)

Module RuntimeEvents.

Import Service.

Definition OK : Z := 0.

(** [mRuntimeSensorEventQueue] is the list, its front first. *)
Definition sendRuntimeSensorEvent (event : sensors_event_t) (queue : list sensors_event_t)
    : Z * list sensors_event_t :=
  (OK, queue ++ [event]).

Section Process.

(** [SensorEventQueue::MAX_RECEIVE_BUFFER_EVENT_COUNT]. *)
Variable MAX_RECEIVE_BUFFER_EVENT_COUNT : nat.

(** The loop that pops the events from the queue into the buffer until the
    queue is empty or the buffer is full; [count] is the length of
    [buffer]. *)
Fixpoint popEvents (queue buffer : list sensors_event_t)
    : list sensors_event_t * list sensors_event_t :=
  match queue with
  | [] => (buffer, [])
  | event :: rest =>
      if (MAX_RECEIVE_BUFFER_EVENT_COUNT <=? length buffer)%nat then (buffer, queue)
      else popEvents rest (buffer ++ [event])
  end.

(** The loop over the active connections: the batch is sent with no scratch
    buffer and no flush map. *)
Fixpoint sendToActiveConnections (activeConnections : list nat)
    (buffer : list sensors_event_t) (s : SensorService) : SensorService :=
  match activeConnections with
  | [] => s
  | c :: rest =>
      let s1 := connection_sendEvents c false (no_flush_map buffer) s in
      let s2 := if hasOneShotSensors s1 c
                then cleanupAutoDisabledSensorLocked c buffer s1
                else s1 in
      sendToActiveConnections rest buffer s2
  end.

(** One call; [None] where the thread waits for the queue to fill.  Returns
    what is left of the queue. *)
Definition processRuntimeSensorEvents (queue : list sensors_event_t) (s : SensorService)
    : option (list sensors_event_t * SensorService) :=
  match queue with
  | [] => None
  | _ =>
      let '(buffer, queue') := popEvents queue [] in
      if (0 <? length buffer)%nat then
        let s1 := recordLastValueLocked buffer s in
        let sorted := SortEventBuffer.sortEventBuffer buffer in
        Some (queue', sendToActiveConnections (getActiveConnections s1) sorted s1)
      else Some (queue', s)
  end.

End Process.

End RuntimeEvents.


(** * Properties *)

(** ** Machine integers *)

Section MachineIntFacts.

Lemma int32_small x : in_int32 x -> int32 x = x.
Proof.
  unfold in_int32, int32, wrap. intros H.
  rewrite Z.mod_small; lia.
Qed.



Lemma int32_range x : in_int32 (int32 x).
Proof.
  unfold in_int32, int32, wrap.
  pose proof (Z.mod_pos_bound (x + 2 ^ (32 - 1)) (2 ^ 32)). lia.
Qed.

End MachineIntFacts.

(** ** sortEventBuffer and the virtual sensor block *)

Section SortFacts.

Implicit Types (buffer out : list sensors_event_t) (x y : sensors_event_t).

















(** With a comparator that ranks the later of two events first, every
    result [qsort] may produce has the later event first. *)
Lemma qsort_contract_two x y out :
  cmp x y < 0 -> 0 < cmp y x ->
  out ≡ₚ [y; x] -> cmp_ordered cmp out -> out = [x; y].
Proof.
  intros Hxy Hyx Hp Ho. symmetry in Hp.
  apply Permutation_length_2_inv in Hp as [-> | ->]; [|done].
  inversion Ho as [|? ? ? Hhd]; subst. inversion Hhd; subst. lia.
Qed.

End SortFacts.

Section VirtualSensorFacts.

Variable minBufferSize : nat.
Variable vcount : nat.
Variable mActiveVirtualSensors : list Z.
Variable virtualSensor : Z -> option (sensors_event_t -> option sensors_event_t).

Local Abbreviation synthesized :=
  (virtualEvents minBufferSize vcount mActiveVirtualSensors virtualSensor).
Local Abbreviation dispatched :=
  (handleVirtualSensors minBufferSize vcount mActiveVirtualSensors virtualSensor).




End VirtualSensorFacts.

Section SortExamples.

Local Abbreviation echo := echo_sensor.
Local Abbreviation silent := silent_sensor.

Example handleVirtualSensors_echo :
  map timestamp (handleVirtualSensors 256 1 [10] echo [event_at 7 5; event_at 7 3])
  = [3; 4; 5; 6].
Proof. reflexivity. Qed.



(** Where a timestamp difference does not fit the comparator's [int]
    result, comparator order is not timestamp order: two events
    3 * 2^30 ns apart come out later event first. *)
Example sortEventBuffer_truncated_difference :
  sortEventBuffer [event_at 7 0; event_at 7 (3 * 2 ^ 30)]
  = [event_at 7 (3 * 2 ^ 30); event_at 7 0].
Proof. vm_compute. reflexivity. Qed.

(** That does not depend on how [qsort] sorts: any rearrangement of these
    two events that is in comparator order has the later event first. *)
Example qsort_any_order_descending out :
  out ≡ₚ [event_at 7 0; event_at 7 (3 * 2 ^ 30)] -> cmp_ordered cmp out ->
  out = [event_at 7 (3 * 2 ^ 30); event_at 7 0].
Proof. apply qsort_contract_two; vm_compute; reflexivity. Qed.

End SortExamples.


(** ** getIdFromUuid *)

Section IdentityFacts.

Import Identity.

Variable HMAC : list Z -> list Z -> option (list Z).
Variable sHmacGlobalKeyIsValid : bool.
Variable sHmacGlobalKey : list Z.

Local Abbreviation id_of := (getIdFromUuid HMAC sHmacGlobalKeyIsValid sHmacGlobalKey).

Lemma le_bytes_8_zero x : in_int64 x ->
  Forall (eq 0) (le_bytes 8 x) <-> x = 0.
Proof.
  unfold in_int64. intros Hx. simpl. rewrite !Forall_cons, Forall_nil. split.
  - intros (H0 & H1 & H2 & H3 & H4 & H5 & H6 & H7 & _).
    Z.div_mod_to_equations. lia.
  - intros ->. simpl. tauto.
Qed.

Lemma le_bytes_8_ones x : in_int64 x ->
  Forall (eq 255) (le_bytes 8 x) <-> x = -1.
Proof.
  unfold in_int64. intros Hx. simpl. rewrite !Forall_cons, Forall_nil. split.
  - intros (H0 & H1 & H2 & H3 & H4 & H5 & H6 & H7 & _).
    Z.div_mod_to_equations. lia.
  - intros ->. simpl. tauto.
Qed.

(** The two sentinel uuids, read through the byte view. *)
Lemma uuid_all_zero_bytes uuid : in_int64 (i64_0 uuid) -> in_int64 (i64_1 uuid) ->
  Forall (eq 0) (uuid_bytes uuid) <-> i64_0 uuid = 0 /\ i64_1 uuid = 0.
Proof.
  intros H0 H1. unfold uuid_bytes.
  by rewrite Forall_app, le_bytes_8_zero, le_bytes_8_zero.
Qed.

Lemma uuid_all_one_bits uuid : in_int64 (i64_0 uuid) -> in_int64 (i64_1 uuid) ->
  Forall (eq 255) (uuid_bytes uuid) <-> i64_0 uuid = -1 /\ i64_1 uuid = -1.
Proof.
  intros H0 H1. unfold uuid_bytes.
  by rewrite Forall_app, le_bytes_8_ones, le_bytes_8_ones.
Qed.

(** [memcpy(&id, hash, 4)] reads the first four bytes as the spec says. *)
Lemma int32_of_bytes_signed32 b0 b1 b2 b3 rest :
  int32_of_bytes (b0 :: b1 :: b2 :: b3 :: rest) = spec_signed32 b0 b1 b2 b3.
Proof.
  unfold int32_of_bytes, spec_signed32, int32, wrap.
  change (take 4 (b0 :: b1 :: b2 :: b3 :: rest)) with [b0; b1; b2; b3].
  cbn [le_value]. change (2 ^ (32 - 1)) with 2147483648. change (2 ^ 32) with 4294967296.
  change (2 ^ 31) with 2147483648. change (2 ^ 8) with 256.
  change (2 ^ 16) with 65536. change (2 ^ 24) with 16777216.
  replace (b0 + 256 * (b1 + 256 * (b2 + 256 * (b3 + 256 * 0))))
    with (b0 + 256 * b1 + 65536 * b2 + 16777216 * b3) by lia.
  set (v := b0 + 256 * b1 + 65536 * b2 + 16777216 * b3). clearbody v.
  pose proof (Z.div_mod v 4294967296 ltac:(lia)) as E1.
  pose proof (Z.mod_pos_bound v 4294967296 ltac:(lia)) as B1.
  pose proof (Z.div_mod (v + 2147483648) 4294967296 ltac:(lia)) as E2.
  pose proof (Z.mod_pos_bound (v + 2147483648) 4294967296 ltac:(lia)) as B2.
  set (r1 := v mod 4294967296) in *. set (q1 := v / 4294967296) in *.
  set (r2 := (v + 2147483648) mod 4294967296) in *.
  set (q2 := (v + 2147483648) / 4294967296) in *.
  clearbody r1 q1 r2 q2.
  destruct (r1 <? 2147483648) eqn:E; [apply Z.ltb_lt in E|apply Z.ltb_ge in E].
  - assert (q2 = q1) by lia. lia.
  - assert (q2 = q1 + 1) by lia. lia.
Qed.

Lemma le_bytes_le_value bs :
  Forall (fun b => 0 <= b < 256) bs -> le_bytes (length bs) (le_value bs) = bs.
Proof.
  induction 1 as [|b bs Hb Hbs IH]; [done|]. cbn [length le_bytes le_value].
  rewrite <- (Z.mod_unique_pos (b + 256 * le_value bs) 256 (le_value bs) b) by lia.
  rewrite <- (Z.div_unique_pos (b + 256 * le_value bs) 256 (le_value bs) b) by lia.
  by rewrite IH.
Qed.

Lemma le_bytes_mod n x : le_bytes n (x mod 256 ^ Z.of_nat n) = le_bytes n x.
Proof.
  revert x. induction n as [|n IH]; intros x; [done|]. cbn [le_bytes].
  rewrite Nat2Z.inj_succ, Z.pow_succ_r by lia.
  assert (0 < 256 ^ Z.of_nat n) as Hpos by (apply Z.pow_pos_nonneg; lia).
  rewrite Z.rem_mul_r by lia.
  pose proof (Z.mod_pos_bound x 256 ltac:(lia)) as Hb.
  set (r := x mod 256) in *. set (y := (x / 256) mod 256 ^ Z.of_nat n). clearbody r.
  rewrite <- (Z.mod_unique_pos (r + 256 * y) 256 y r) by lia.
  rewrite <- (Z.div_unique_pos (r + 256 * y) 256 y r) by lia.
  subst y. by rewrite IH.
Qed.

(** Bytes in range that make up [x] modulo [256 ^ n] are the bytes of [x]. *)
Lemma le_bytes_unique n x bs :
  length bs = n -> Forall (fun b => 0 <= b < 256) bs ->
  le_value bs = x mod 256 ^ Z.of_nat n -> le_bytes n x = bs.
Proof.
  intros Hn Hbs Hv. rewrite <- le_bytes_mod, <- Hv, <- Hn. by apply le_bytes_le_value.
Qed.

(** The message the code hands to [HMAC] is the spec's, and the only one. *)
Lemma spec_message_uuidAndApp uuid appUserId msg :
  spec_message uuid appUserId msg <-> msg = uuidAndApp uuid appUserId.
Proof.
  assert (forall n x, Forall (fun b => 0 <= b < 256) (le_bytes n x)) as Hrange.
  { induction n as [|n IH]; intros x; cbn [le_bytes]; constructor; [|apply IH].
    apply Z.mod_pos_bound. lia. }
  assert (forall n x, le_value (le_bytes n x) = x mod 256 ^ Z.of_nat n) as Hvalue.
  { induction n as [|n IH]; intros x; cbn [le_bytes le_value].
    - by rewrite Z.mod_1_r.
    - rewrite IH, Nat2Z.inj_succ, Z.pow_succ_r by lia.
      assert (0 < 256 ^ Z.of_nat n) as Hpos by (apply Z.pow_pos_nonneg; lia).
      by rewrite Z.rem_mul_r by lia. }
  split.
  - intros (a0 & a1 & a2 & a3 & a4 & a5 & a6 & a7 & b0 & b1 & b2 & b3 & b4 & b5 & b6 & b7
            & c0 & c1 & c2 & c3 & -> & Hr & Ha & Hb & Hc).
    unfold uuidAndApp.
    assert (Forall (fun x => 0 <= x < 256) [a0; a1; a2; a3; a4; a5; a6; a7]
            /\ Forall (fun x => 0 <= x < 256) [b0; b1; b2; b3; b4; b5; b6; b7]
            /\ Forall (fun x => 0 <= x < 256) [c0; c1; c2; c3]) as (Hra & Hrb & Hrc).
    { change [a0; a1; a2; a3; a4; a5; a6; a7; b0; b1; b2; b3; b4; b5; b6; b7;
              c0; c1; c2; c3]
        with ([a0; a1; a2; a3; a4; a5; a6; a7] ++ [b0; b1; b2; b3; b4; b5; b6; b7]
              ++ [c0; c1; c2; c3]) in Hr.
      by rewrite !Forall_app in Hr. }
    rewrite (le_bytes_unique 8 (i64_0 uuid) [a0; a1; a2; a3; a4; a5; a6; a7]);
      [|done|done|cbn [le_value]; change (256 ^ Z.of_nat 8) with (2 ^ 64); lia].
    rewrite (le_bytes_unique 8 (i64_1 uuid) [b0; b1; b2; b3; b4; b5; b6; b7]);
      [|done|done|cbn [le_value]; change (256 ^ Z.of_nat 8) with (2 ^ 64); lia].
    rewrite (le_bytes_unique 4 appUserId [c0; c1; c2; c3]);
      [done|done|done|cbn [le_value]; change (256 ^ Z.of_nat 4) with (2 ^ 32); lia].
  - intros ->. unfold uuidAndApp.
    pose proof (Hvalue 8%nat (i64_0 uuid)) as Ha.
    pose proof (Hvalue 8%nat (i64_1 uuid)) as Hb.
    pose proof (Hvalue 4%nat appUserId) as Hc.
    pose proof (Hrange 8%nat (i64_0 uuid)) as Hra.
    pose proof (Hrange 8%nat (i64_1 uuid)) as Hrb.
    pose proof (Hrange 4%nat appUserId) as Hrc.
    change (256 ^ Z.of_nat 8) with (2 ^ 64) in Ha, Hb.
    change (256 ^ Z.of_nat 4) with (2 ^ 32) in Hc.
    cbn [le_bytes] in *. cbn [le_value] in Ha, Hb, Hc.
    do 20 eexists. split; [reflexivity|]. split; [by rewrite !Forall_app|].
    split; [rewrite <- Ha; lia|]. split; [rewrite <- Hb; lia|]. rewrite <- Hc. lia.
Qed.

Lemma spec_avoid_sentinel_not_sentinel id :
  spec_avoid_sentinel id <> 0 /\ spec_avoid_sentinel id <> -1.
Proof.
  unfold spec_avoid_sentinel.
  destruct (id =? 0) eqn:E0; [lia|]. destruct (id =? -1) eqn:E1; lia.
Qed.

(** C2.  The all-zero uuid maps to 0 and the all-ones uuid to -1.  For any
    other uuid, with a valid key, the function calls HMAC with the key on
    the 20 bytes uuid || caller_uid, and for a digest of at least 4 bytes (as
    the 32 bytes of HMAC-SHA256) returns its first 4 bytes read as a signed
    32-bit integer, with 0 replaced by 1 and -1 by -2; so the result is
    neither 0 nor -1. *)
Theorem getIdFromUuid_spec uuid appUserId :
  (i64_0 uuid = 0 /\ i64_1 uuid = 0 -> id_of uuid appUserId = 0)
  /\ (i64_0 uuid = -1 /\ i64_1 uuid = -1 -> id_of uuid appUserId = -1)
  /\ (exists msg, spec_message uuid appUserId msg)
  /\ (forall msg hash,
        ~ (i64_0 uuid = 0 /\ i64_1 uuid = 0) ->
        ~ (i64_0 uuid = -1 /\ i64_1 uuid = -1) ->
        sHmacGlobalKeyIsValid = true ->
        spec_message uuid appUserId msg ->
        HMAC sHmacGlobalKey msg = Some hash ->
        (4 <= length hash)%nat ->
        exists b0 b1 b2 b3 rest,
          hash = b0 :: b1 :: b2 :: b3 :: rest
          /\ id_of uuid appUserId = spec_avoid_sentinel (spec_signed32 b0 b1 b2 b3)
          /\ id_of uuid appUserId <> 0 /\ id_of uuid appUserId <> -1).
Proof.
  split; [|split; [|split]].
  - intros [H0 H1]. unfold getIdFromUuid. by rewrite H0, H1.
  - intros [H0 H1]. unfold getIdFromUuid. by rewrite H0, H1.
  - exists (uuidAndApp uuid appUserId). by apply spec_message_uuidAndApp.
  - intros msg hash Hz Ho Hv Hmsg Hh Hl. apply spec_message_uuidAndApp in Hmsg as ->.
    destruct hash as [|b0 [|b1 [|b2 [|b3 rest]]]]; cbn [length] in Hl; try lia.
    exists b0, b1, b2, b3, rest. split; [done|].
    assert (id_of uuid appUserId = spec_avoid_sentinel (spec_signed32 b0 b1 b2 b3)) as E.
    { unfold getIdFromUuid.
      destruct ((i64_0 uuid =? 0) && (i64_1 uuid =? 0)) eqn:Ez; [exfalso; lia|].
      destruct ((i64_0 uuid =? -1) && (i64_1 uuid =? -1)) eqn:Eo; [exfalso; lia|].
      rewrite Hv, Hh. cbn [negb length Nat.ltb Nat.leb]. cbv zeta.
      rewrite int32_of_bytes_signed32. unfold spec_avoid_sentinel.
      destruct (spec_signed32 b0 b1 b2 b3 =? -1) eqn:E1; [|done].
      apply Z.eqb_eq in E1. by rewrite E1. }
    rewrite E. split; [done|]. apply spec_avoid_sentinel_not_sentinel.
Qed.

(** Without a digest the function falls back to 0. *)
Lemma getIdFromUuid_HMAC_failure uuid appUserId :
  HMAC sHmacGlobalKey (uuidAndApp uuid appUserId) = None ->
  id_of uuid appUserId = 0 \/ id_of uuid appUserId = -1.
Proof.
  intros H. unfold getIdFromUuid. rewrite H.
  destruct ((i64_0 uuid =? 0) && (i64_1 uuid =? 0)); [by left|].
  destruct ((i64_0 uuid =? -1) && (i64_1 uuid =? -1)); [by right|].
  destruct (negb sHmacGlobalKeyIsValid); by left.
Qed.

End IdentityFacts.

Lemma getIdFromUuid_spec_witness :
  Identity.getIdFromUuid Identity.example_digest true (repeat 7 128%nat)
    (Identity.mkUuid 5 6) 10001 <> 0.
Proof.
  destruct (proj2 (proj2 (proj2
              (getIdFromUuid_spec Identity.example_digest true (repeat 7 128%nat)
                 (Identity.mkUuid 5 6) 10001)))
              [5; 0; 0; 0; 0; 0; 0; 0; 6; 0; 0; 0; 0; 0; 0; 0; 17; 39; 0; 0]
              [5; 0; 0; 0; 0; 0; 0; 0; 6; 0; 0; 0; 0; 0; 0; 0; 17; 39; 0; 0;
               7; 7; 7; 7; 7; 7; 7; 7; 7; 7; 7; 7])
    as (b0 & b1 & b2 & b3 & rest & _ & _ & Hne & _).
  - simpl. lia.
  - simpl. lia.
  - reflexivity.
  - do 20 eexists. split; [reflexivity|].
    split; [repeat constructor; lia|]. vm_compute. auto.
  - reflexivity.
  - simpl. lia.
  - exact Hne.
Defined.

(** In that example the id is the first four digest bytes 5, 0, 0, 0. *)
Example getIdFromUuid_example :
  Identity.getIdFromUuid Identity.example_digest true (repeat 7 128%nat)
    (Identity.mkUuid 5 6) 10001 = 5.
Proof. vm_compute. reflexivity. Qed.


(** ** adjustSamplingPeriodBasedOnMicAndPermission *)

Section RatePolicyFacts.

Import RatePolicy.

Variable SENSOR_SERVICE_CAPPED_SAMPLING_PERIOD_NS : Z.

Local Abbreviation cap := SENSOR_SERVICE_CAPPED_SAMPLING_PERIOD_NS.
Local Abbreviation adjust :=
  (adjustSamplingPeriodBasedOnMicAndPermission SENSOR_SERVICE_CAPPED_SAMPLING_PERIOD_NS).

(** A package is rate capped unless it targets a release before S or holds
    the high-sampling-rate permission. *)
Lemma isRateCappedBasedOnPermission_spec targetSdk hasSamplingRatePermission :
  isRateCappedBasedOnPermission targetSdk hasSamplingRatePermission = true
  <-> ANDROID_API_S <= targetSdk /\ hasSamplingRatePermission = false.
Proof.
  unfold isRateCappedBasedOnPermission.
  destruct (targetSdk <? ANDROID_API_S) eqn:E1, (ANDROID_API_S <=? targetSdk) eqn:E2,
    hasSamplingRatePermission; simpl; split; try discriminate; try lia; intros [? ?];
    try discriminate; lia.
Qed.

(** C8.  A requested period at or above the cap is left unchanged with OK.
    Below the cap, a rate-capped package has its period raised to the cap,
    with PERMISSION_DENIED exactly when the package is debuggable and OK
    otherwise; a package that is not rate capped, with the microphone toggle
    engaged, has its period raised to the same cap with OK. *)
Theorem adjustSamplingPeriodBasedOnMicAndPermission_spec
    requestedPeriodNs targetSdk hasSamplingRatePermission debuggable micEnabled :
  let r := adjust requestedPeriodNs targetSdk hasSamplingRatePermission debuggable micEnabled in
  let capped := isRateCappedBasedOnPermission targetSdk hasSamplingRatePermission in
  (cap <= requestedPeriodNs -> r = (OK, requestedPeriodNs))
  /\ (requestedPeriodNs < cap -> capped = true ->
       r.2 = cap
       /\ (r.1 = PERMISSION_DENIED <-> debuggable = true)
       /\ (debuggable = false -> r.1 = OK))
  /\ (requestedPeriodNs < cap -> capped = false -> micEnabled = true -> r = (OK, cap)).
Proof.
  unfold adjustSamplingPeriodBasedOnMicAndPermission. cbv zeta.
  split; [|split].
  - intros H. apply Z.leb_le in H. by rewrite H.
  - intros H Hc. apply Z.leb_gt in H. rewrite H, Hc.
    destruct debuggable; simpl; repeat split; try done; discriminate.
  - intros H Hc Hm. apply Z.leb_gt in H. by rewrite H, Hc, Hm.
Qed.

End RatePolicyFacts.

Lemma adjustSamplingPeriodBasedOnMicAndPermission_spec_witness :
  (RatePolicy.adjustSamplingPeriodBasedOnMicAndPermission 5000000 1000000 33 false true false).1
  = RatePolicy.PERMISSION_DENIED.
Proof.
  apply (adjustSamplingPeriodBasedOnMicAndPermission_spec 5000000 1000000 33 false true false).
  - lia.
  - reflexivity.
  - reflexivity.
Defined.

(** ** initializeHmacKey *)

Section HmacKeyFacts.

Import HmacKey.

Lemma created_mode_app cs1 cs2 :
  created_mode cs1 = None -> created_mode (cs1 ++ cs2) = created_mode cs2.
Proof.
  induction cs1 as [|c cs1 IH]; simpl; [done|].
  destruct c as [? ? [m|]| | | | |]; try done.
Qed.

(** C9 (as amended).  When no persisted key could be read in full and the
    random generator delivers, [initializeHmacKey] asks for exactly 128
    random bytes, which become the key, tries to create the key file
    exclusively with owner read and write permission (mode 0600), and returns
    true whatever becomes of creating and writing the file. *)
Theorem initializeHmacKey_generates w key0 bytes :
  no_persisted_key w ->
  rand w = Some bytes ->
  let o := initializeHmacKey w key0 in
  returned o = true
  /\ RAND_bytes 128 ∈ calls o
  /\ create_key_file ∈ calls o
  /\ created_mode (calls o) = Some 384
  /\ (length bytes = 128%nat -> take 128 (sHmacGlobalKey o) = bytes).
Proof.
  unfold no_persisted_key, initializeHmacKey. intros Hno Hr. cbv zeta. rewrite Hr.
  assert (forall key1, length bytes = 128%nat -> take 128 (overwrite key1 bytes) = bytes) as Hk.
  { intros key1 Hl. unfold overwrite. rewrite <- Hl. apply take_app_length. }
  destruct (open_rdonly w) as [[result stored]|].
  - apply Z.eqb_neq in Hno. rewrite Hno.
    destruct (open_create w); cbn [returned calls sHmacGlobalKey].
    + split; [done|]. split; [|split; [|split]].
      * rewrite !elem_of_app, !elem_of_cons. tauto.
      * rewrite !elem_of_app, !elem_of_cons. tauto.
      * rewrite <- app_assoc. by rewrite created_mode_app.
      * apply Hk.
    + split; [done|]. split; [|split; [|split]].
      * rewrite !elem_of_app, !elem_of_cons. tauto.
      * rewrite !elem_of_app, !elem_of_cons. tauto.
      * by rewrite created_mode_app.
      * apply Hk.
  - destruct (open_create w); cbn [returned calls sHmacGlobalKey].
    + split; [done|]. split; [|split; [|split]].
      * rewrite !elem_of_app, !elem_of_cons. tauto.
      * rewrite !elem_of_app, !elem_of_cons. tauto.
      * rewrite <- app_assoc. by rewrite created_mode_app.
      * apply Hk.
    + split; [done|]. split; [|split; [|split]].
      * rewrite !elem_of_app, !elem_of_cons. tauto.
      * rewrite !elem_of_app, !elem_of_cons. tauto.
      * by rewrite created_mode_app.
      * apply Hk.
Qed.

(** When the random generator fails the function gives up and returns false. *)
Lemma initializeHmacKey_no_random w key0 :
  no_persisted_key w -> rand w = None -> returned (initializeHmacKey w key0) = false.
Proof.
  unfold no_persisted_key, initializeHmacKey. intros Hno Hr. rewrite Hr.
  destruct (open_rdonly w) as [[result stored]|]; [|done].
  apply Z.eqb_neq in Hno. by rewrite Hno.
Qed.

(** A key file read in full is used as it is. *)
Lemma initializeHmacKey_persisted w key0 stored :
  open_rdonly w = Some (sizeof_sHmacGlobalKey, stored) ->
  length stored = 128%nat ->
  returned (initializeHmacKey w key0) = true
  /\ take 128 (sHmacGlobalKey (initializeHmacKey w key0)) = stored.
Proof.
  unfold initializeHmacKey. intros -> Hl. simpl. split; [done|].
  unfold overwrite. rewrite <- Hl. apply take_app_length.
Qed.

End HmacKeyFacts.

Lemma initializeHmacKey_generates_witness :
  HmacKey.returned (HmacKey.initializeHmacKey HmacKey.first_boot (repeat 0 128%nat)) = true.
Proof.
  apply (initializeHmacKey_generates HmacKey.first_boot (repeat 0 128%nat) (repeat 1 128%nat)).
  - exact I.
  - reflexivity.
Defined.

(** C9, as stated, fails on the file mode: on a first boot the key file is
    created with mode 0600 (384), owner read and write, not with the
    owner-read-only mode 0400 (256). *)
Lemma initializeHmacKey_mode_counterexample :
  HmacKey.created_mode
    (HmacKey.calls (HmacKey.initializeHmacKey HmacKey.first_boot (repeat 0 128%nat)))
  <> Some HmacKey.S_IRUSR.
Proof. vm_compute. discriminate. Qed.

(** ** Operating modes *)

Section ModeFacts.

Import Service.

Implicit Types (s : SensorService) (env : ModeEnv).

Lemma notifyDirectConnections_frame env i conns s :
  mCurrentOperatingMode (notifyDirectConnections env i conns s) = mCurrentOperatingMode s
  /\ mAllowListedPackage (notifyDirectConnections env i conns s) = mAllowListedPackage s.
Proof.
  revert i s. induction conns as [|[uid pkg] conns IH]; intros i s;
    cbn [notifyDirectConnections]; [done|].
  destruct (IH (S i) (log (onSensorAccessChanged i (hasSensorAccessLocked env s uid pkg)) s))
    as [-> ->]. done.
Qed.

Lemma enableAllSensorsLocked_mode env s :
  mCurrentOperatingMode (enableAllSensorsLocked env s) = mCurrentOperatingMode s.
Proof.
  unfold enableAllSensorsLocked.
  destruct (bool_decide (mCurrentOperatingMode s = RESTRICTED) || isSensorPrivacyEnabled env);
    [done|].
  change (mCurrentOperatingMode
            (notifyDirectConnections env 0 (mDirectConnections (log dev_enableAllSensors s))
               (log dev_enableAllSensors s)) = mCurrentOperatingMode s).
  by rewrite (proj1 (notifyDirectConnections_frame _ _ _ _)).
Qed.

Lemma disableAllSensorsLocked_mode env s :
  mCurrentOperatingMode (disableAllSensorsLocked env s) = mCurrentOperatingMode s.
Proof.
  unfold disableAllSensorsLocked.
  change (mCurrentOperatingMode (notifyDirectConnections env 0 (mDirectConnections s) s)
          = mCurrentOperatingMode s).
  by rewrite (proj1 (notifyDirectConnections_frame _ _ _ _)).
Qed.

Lemma resetToNormalModeLocked_mode env s :
  mCurrentOperatingMode (resetToNormalModeLocked env s).2 = NORMAL
  \/ mCurrentOperatingMode (resetToNormalModeLocked env s).2 = mCurrentOperatingMode s.
Proof.
  unfold resetToNormalModeLocked. destruct (setMode env NORMAL =? NO_ERROR); simpl; auto.
Qed.

Lemma returnToNormalMode_mode env s :
  mCurrentOperatingMode (returnToNormalMode env s) = NORMAL
  \/ mCurrentOperatingMode (returnToNormalMode env s) = mCurrentOperatingMode s.
Proof.
  unfold returnToNormalMode.
  destruct (mCurrentOperatingMode s) eqn:Hcur; simpl; rewrite ?Hcur; simpl; rewrite ?Hcur;
    cbv [isInjectionMode]; simpl.
  - by left.
  - destruct (resetToNormalModeLocked_mode env s) as [E|E]; [by left|].
    right. by rewrite E.
  - repeat (rewrite !enableAllSensorsLocked_mode; simpl). by left.
  - match goal with |- context [resetToNormalModeLocked env ?st] =>
      destruct (resetToNormalModeLocked_mode env st) as [E|E] end; [by left|].
    right. by rewrite E.
  - destruct (resetToNormalModeLocked_mode env s) as [E|E]; [by left|].
    right. by rewrite E.
Qed.

Lemma enterInjectionMode_spec env args target s :
  isInjectionMode target = true ->
  let r := enterInjectionMode env args target s in
  (mCurrentOperatingMode s = NORMAL ->
     r.1 = NO_ERROR
     /\ (mCurrentOperatingMode r.2 = target \/ mCurrentOperatingMode r.2 = NORMAL))
  /\ (mCurrentOperatingMode s <> NORMAL -> r = (INVALID_OPERATION, s)).
Proof.
  intros Ht. unfold enterInjectionMode. cbv zeta. split.
  - intros Hc. rewrite Hc. rewrite bool_decide_eq_true_2 by done.
    split; [done|].
    cbn [snd mCurrentOperatingMode with_mAllowListedPackage].
    match goal with |- context [setMode env ?m =? NO_ERROR] =>
      destruct (setMode env m =? NO_ERROR) end; simpl.
    + destruct (bool_decide (target = REPLAY_DATA_INJECTION)); simpl; auto.
    + right. exact Hc.
  - intros Hc. by rewrite bool_decide_eq_false_2.
Qed.

(** C6 (as amended).  A request for the mode the service is already in
    returns NO_ERROR and changes nothing.  A request for another mode is
    turned down with INVALID_OPERATION, leaving the state as it was, when a
    non-Normal target comes with fewer than two arguments, when Restricted or
    an injection mode is requested from a mode other than Normal, or when
    ReplayDataInjection or HalBypassReplayInjection is requested on a user
    build; every other request returns NO_ERROR and is one of Normal ->
    Restricted, Normal -> an injection mode, Restricted or an injection mode
    -> Normal.  The mode never changes except along such a transition, to
    the requested target. *)
Theorem changeOperatingMode_spec env args target s :
  let cur := mCurrentOperatingMode s in
  let r := changeOperatingMode env args target s in
  (cur = target -> r = (NO_ERROR, s))
  /\ (cur <> target -> refused_request env args cur target -> r = (INVALID_OPERATION, s))
  /\ (cur <> target -> ~ refused_request env args cur target ->
       r.1 = NO_ERROR /\ permitted_transition cur target)
  /\ (mCurrentOperatingMode r.2 <> cur ->
       mCurrentOperatingMode r.2 = target /\ permitted_transition cur target).
Proof.
  cbv zeta. unfold changeOperatingMode.
  destruct (decide (mCurrentOperatingMode s = target)) as [Heq|Hne].
  { rewrite bool_decide_eq_true_2 by done.
    split; [done|]. split; [done|]. split; [done|]. simpl. done. }
  rewrite bool_decide_eq_false_2 by done.
  destruct (decide (target <> NORMAL /\ (length args < 2)%nat)) as [[Htn Hargs]|Hok].
  { rewrite (bool_decide_eq_false_2 _ Htn). apply Nat.ltb_lt in Hargs. rewrite Hargs. simpl.
    split; [done|]. split; [done|]. split; [|done].
    intros _ Hnr. exfalso. apply Hnr. left. split; [done|]. by apply Nat.ltb_lt. }
  assert (negb (bool_decide (target = NORMAL)) && (length args <? 2)%nat = false) as ->.
  { destruct (decide (target = NORMAL)) as [->|Htn]; [done|].
    rewrite (bool_decide_eq_false_2 _ Htn). simpl. apply Nat.ltb_ge.
    destruct (decide (length args < 2)%nat); [exfalso; apply Hok; done|lia]. }
  assert (forall P : Prop, (target <> NORMAL /\ (length args < 2)%nat) \/ P -> P) as Hdrop.
  { intros P [H|H]; [by destruct Hok|done]. }
  destruct target.
  - (* NORMAL *)
    assert (mCurrentOperatingMode s = RESTRICTED
            \/ isInjectionMode (mCurrentOperatingMode s) = true) as Hfrom.
    { destruct (mCurrentOperatingMode s); simpl; auto. }
    assert (permitted_transition (mCurrentOperatingMode s) NORMAL) as Hp.
    { right. right. done. }
    split; [done|]. split.
    { intros _ Hr. apply Hdrop in Hr. destruct Hr as [[? _]|[[[?|?] _]|[? _]]]; done. }
    split; [done|].
    intros Hm. split; [|done].
    cbn [snd] in Hm |- *.
    by destruct (returnToNormalMode_mode env s) as [E|E].
  - (* DATA_INJECTION *)
    destruct (enterInjectionMode_spec env args DATA_INJECTION s eq_refl) as [Hn Hnn].
    destruct (decide (mCurrentOperatingMode s = NORMAL)) as [Hc|Hc].
    + destruct (Hn Hc) as [H1 H2]. split; [done|]. split.
      { intros _ Hr. apply Hdrop in Hr. destruct Hr as [[? ?]|[[[?|?] _]|[_ ?]]]; done. }
      split.
      { intros _ _. split; [done|]. right. left. done. }
      intros Hm. destruct H2 as [H2|H2]; [|by rewrite H2, Hc in Hm].
      split; [done|]. right. left. done.
    + rewrite (Hnn Hc). split; [done|]. split; [done|]. split; [|done].
      intros _ Hr. exfalso. apply Hr. right. right. right. done.
  - (* RESTRICTED *)
    destruct (decide (mCurrentOperatingMode s = NORMAL)) as [Hc|Hc].
    + rewrite (bool_decide_eq_true_2 _ Hc). cbn [negb fst snd].
      cbn [mCurrentOperatingMode with_mAllowListedPackage].
      rewrite disableAllSensorsLocked_mode. cbn [mCurrentOperatingMode with_mCurrentOperatingMode].
      split; [done|]. split.
      { intros _ Hr. apply Hdrop in Hr. destruct Hr as [[_ ?]|[[[?|?] _]|[? _]]]; done. }
      split.
      { intros _ _. split; [done|]. left. done. }
      intros _. split; [done|]. left. done.
    + rewrite (bool_decide_eq_false_2 _ Hc). simpl.
      split; [done|]. split; [done|]. split; [|done].
      intros _ Hr. exfalso. apply Hr. right. left. done.
  - (* REPLAY_DATA_INJECTION *)
    destruct (isUserBuild env) eqn:Hu.
    { split; [done|]. split; [done|]. split; [|done].
      intros _ Hr. exfalso. apply Hr. right. right. left. split; [by left|done]. }
    destruct (enterInjectionMode_spec env args REPLAY_DATA_INJECTION s eq_refl) as [Hn Hnn].
    destruct (decide (mCurrentOperatingMode s = NORMAL)) as [Hc|Hc].
    + destruct (Hn Hc) as [H1 H2]. split; [done|]. split.
      { intros _ Hr. apply Hdrop in Hr.
        destruct Hr as [[? ?]|[[_ ?]|[_ ?]]]; first [done|congruence]. }
      split.
      { intros _ _. split; [done|]. right. left. done. }
      intros Hm. destruct H2 as [H2|H2]; [|by rewrite H2, Hc in Hm].
      split; [done|]. right. left. done.
    + rewrite (Hnn Hc). split; [done|]. split; [done|]. split; [|done].
      intros _ Hr. exfalso. apply Hr. right. right. right. done.
  - (* HAL_BYPASS_REPLAY_DATA_INJECTION *)
    destruct (isUserBuild env) eqn:Hu.
    { split; [done|]. split; [done|]. split; [|done].
      intros _ Hr. exfalso. apply Hr. right. right. left. split; [by right|done]. }
    destruct (enterInjectionMode_spec env args HAL_BYPASS_REPLAY_DATA_INJECTION s eq_refl)
      as [Hn Hnn].
    destruct (decide (mCurrentOperatingMode s = NORMAL)) as [Hc|Hc].
    + destruct (Hn Hc) as [H1 H2]. split; [done|]. split.
      { intros _ Hr. apply Hdrop in Hr.
        destruct Hr as [[? ?]|[[_ ?]|[_ ?]]]; first [done|congruence]. }
      split.
      { intros _ _. split; [done|]. right. left. done. }
      intros Hm. destruct H2 as [H2|H2]; [|by rewrite H2, Hc in Hm].
      split; [done|]. right. left. done.
    + rewrite (Hnn Hc). split; [done|]. split; [done|]. split; [|done].
      intros _ Hr. exfalso. apply Hr. right. right. right. done.
Qed.

(** *** The allowlist *)

Lemma prefix_spec (other s : string) :
  String.prefix other s = true <-> exists post, s = other +:+ post.
Proof.
  revert s. induction other as [|a other IH]; intros s.
  - split; [|by destruct s]. intros _. by exists s.
  - destruct s as [|b s]; simpl.
    + split; [done|]. intros [post H]. discriminate.
    + destruct (Ascii.ascii_dec a b) as [->|Hab].
      * rewrite IH. split; intros [post H]; exists post.
        -- by rewrite H.
        -- by injection H.
      * split; [done|]. intros [post H]. injection H as H1 H2. by destruct Hab.
Qed.

(** [contains] is substring containment. *)
Lemma contains_spec (s other : string) :
  contains s other = true <-> exists pre post, s = pre +:+ other +:+ post.
Proof.
  induction s as [|a s IH]; cbn [contains].
  - rewrite orb_false_r, prefix_spec. split.
    + intros [post H]. by exists "", post.
    + intros [pre [post H]]. destruct pre; [by exists post|discriminate].
  - rewrite orb_true_iff, prefix_spec, IH. split.
    + intros [[post H]|[pre [post H]]].
      * by exists "", post.
      * exists (String a pre), post. simpl. by rewrite H.
    + intros [pre [post H]]. destruct pre as [|b pre]; simpl in H.
      * left. by exists post.
      * right. exists pre, post. by injection H.
Qed.

Lemma contains_empty (s : string) : contains s "" = true.
Proof. apply contains_spec. by exists "", s. Qed.

(** C10.  [isAllowListedPackage] is substring containment: it holds of a
    package name exactly when the name contains the stored allowlist string.
    So with an empty allowlist string every package passes, the
    Restricted-mode gate of [enable] refuses nobody, and in DataInjection
    mode a DataInjection connection is created for any package.  The string
    is empty initially and after every change of mode to Normal. *)
Theorem isAllowListedPackage_substring s (packageName : string) :
  (isAllowListedPackage s packageName = true
   <-> exists pre post, packageName = pre +:+ mAllowListedPackage s +:+ post)
  /\ (mAllowListedPackage s = "" ->
       isAllowListedPackage s packageName = true
       /\ enable_refused_by_mode s packageName = false
       /\ (mCurrentOperatingMode s = DATA_INJECTION ->
            forall uid unknown_package opPackageName,
              is_Some (createSensorEventConnection uid unknown_package packageName
                         (Some DATA_INJECTION) opPackageName s).1))
  /\ (forall base, mAllowListedPackage (initial base) = "")
  /\ (forall env args, mCurrentOperatingMode s <> NORMAL ->
        mAllowListedPackage (changeOperatingMode env args NORMAL s).2 = "").
Proof.
  split; [apply contains_spec|]. split; [|split; [done|]].
  - intros He.
    assert (isAllowListedPackage s packageName = true) as Ha.
    { unfold isAllowListedPackage. rewrite He. apply contains_empty. }
    split; [done|]. split.
    + unfold enable_refused_by_mode. rewrite Ha. simpl. by rewrite andb_false_r.
    + intros Hm uid unknown_package opPackageName. unfold createSensorEventConnection.
      cbv zeta. unfold isAllowListedPackage in *.
      cbn [with_sPackageTargetVersion mCurrentOperatingMode mAllowListedPackage].
      rewrite Hm, Ha. simpl. by eexists.
  - intros env args Hm. unfold changeOperatingMode.
    rewrite bool_decide_eq_false_2 by done. reflexivity.
Qed.

End ModeFacts.

Lemma changeOperatingMode_spec_witness :
  (Service.changeOperatingMode Service.example_platform ["restrict"; "com.test"]
     Service.RESTRICTED (Service.initial 0)).1 = Service.NO_ERROR.
Proof.
  apply (changeOperatingMode_spec Service.example_platform ["restrict"; "com.test"]
           Service.RESTRICTED (Service.initial 0)).
  - simpl. discriminate.
  - simpl. intros [[_ H]|[[_ H]|[[_ H]|[_ H]]]].
    + simpl in H. lia.
    + by apply H.
    + discriminate.
    + by apply H.
Defined.

(** C6, as stated, fails where the requested mode is the current one: the
    request is answered with NO_ERROR, from Normal and from Restricted
    alike, not with INVALID_OPERATION. *)
Lemma changeOperatingMode_same_mode_counterexample :
  (Service.changeOperatingMode Service.example_platform [] Service.NORMAL
     (Service.initial 0)).1 <> Service.INVALID_OPERATION
  /\ (Service.changeOperatingMode Service.example_platform ["restrict"; "com.test"]
        Service.RESTRICTED
        (Service.changeOperatingMode Service.example_platform ["restrict"; "com.test"]
           Service.RESTRICTED (Service.initial 0)).2).1 <> Service.INVALID_OPERATION.
Proof. split; vm_compute; discriminate. Qed.

Example changeOperatingMode_user_build :
  (Service.changeOperatingMode (Service.mkModeEnv true false (fun _ => true) (fun _ => 0))
     ["replay_data_injection"; "com.test"] Service.REPLAY_DATA_INJECTION
     (Service.initial 0)).1 = Service.INVALID_OPERATION.
Proof. reflexivity. Qed.

Example changeOperatingMode_restricted_to_injection :
  (Service.changeOperatingMode Service.example_platform ["data_injection"; "com.test"]
     Service.DATA_INJECTION
     (Service.changeOperatingMode Service.example_platform ["restrict"; "com.test"]
        Service.RESTRICTED (Service.initial 0)).2).1 = Service.INVALID_OPERATION.
Proof. reflexivity. Qed.

Lemma isAllowListedPackage_substring_witness :
  Service.isAllowListedPackage (Service.initial 0) "com.other" = true.
Proof.
  apply (isAllowListedPackage_substring (Service.initial 0) "com.other").
  reflexivity.
Defined.

Example isAllowListedPackage_not_equality :
  Service.contains "com.test.evil" "com.test" = true
  /\ Service.contains "com.tes" "com.test" = false.
Proof. split; reflexivity. Qed.

(** ** The wakelock in the dispatch loop *)

Section WakeLockFacts.

Import Service.

Implicit Types (s : SensorService) (c : nat) (acts delta : list action).

Lemma quiet_refl s : quiet s s.
Proof.
  split; [done|]. split; [|intros; lia].
  exists []. by rewrite app_nil_r.
Qed.

Lemma quiet_trans s1 s2 s3 : quiet s1 s2 -> quiet s2 s3 -> quiet s1 s3.
Proof.
  intros (Hw1 & (d1 & Ht1 & Hd1) & Hr1) (Hw2 & (d2 & Ht2 & Hd2) & Hr2).
  split; [congruence|]. split.
  - exists (d1 ++ d2). rewrite Ht2, Ht1, app_assoc. split; [done|].
    rewrite forallb_app. by rewrite Hd1, Hd2.
  - intros c. specialize (Hr1 c). specialize (Hr2 c). lia.
Qed.

(** A step that touches neither the flag, the trace nor the connections. *)
Lemma quiet_same s s' :
  mWakeLockAcquired s' = mWakeLockAcquired s -> trace s' = trace s ->
  connections s' = connections s -> quiet s s'.
Proof.
  intros Hw Ht Hc. split; [done|]. split.
  - exists []. by rewrite app_nil_r.
  - intros c. unfold getConn. rewrite Hc. lia.
Qed.

Lemma quiet_log a s : is_wakelock_op a = false -> quiet s (log a s).
Proof.
  intros Ha. split; [done|]. split; [|intros; simpl; unfold getConn; simpl; lia].
  exists [a]. split; [done|]. simpl. by rewrite Ha.
Qed.

Lemma getConn_setConn c conn s c' :
  getConn (setConn c conn s) c' = if decide (c = c') then conn else getConn s c'.
Proof.
  unfold getConn, setConn. simpl. rewrite lookup_insert. by destruct (decide (c = c')).
Qed.

Lemma quiet_setConn c conn s :
  mWakeLockRefCount (getConn s c) <= mWakeLockRefCount conn -> quiet s (setConn c conn s).
Proof.
  intros Hr. split; [done|]. split.
  - exists []. by rewrite app_nil_r.
  - intros c'. rewrite getConn_setConn. destruct (decide (c = c')) as [<-|]; lia.
Qed.

Lemma quiet_connection_sendEvents c scratch buffer s :
  quiet s (connection_sendEvents c scratch buffer s).
Proof.
  unfold connection_sendEvents.
  eapply quiet_trans; [apply quiet_setConn|apply quiet_log; done].
  simpl. lia.
Qed.

Lemma quiet_cleanupWithoutDisableLocked c handle s :
  quiet s (cleanupWithoutDisableLocked c handle s).2.
Proof.
  unfold cleanupWithoutDisableLocked.
  destruct (mActiveSensors s !! handle) as [rec|]; [|apply quiet_refl].
  unfold removeSensor, removeConnection. cbn [fst snd].
  set (conn := with_mSensorInfo _ _).
  set (s1 := setConn c conn s).
  assert (quiet s s1) as H1 by (apply quiet_setConn; simpl; lia).
  set (s2 := if hasSensor (getConn s c) handle then _ else s1).
  assert (quiet s1 s2) as H2.
  { subst s2. destruct (hasSensor (getConn s c) handle);
      [by apply quiet_log|apply quiet_refl]. }
  set (s3 := if negb (hasAnySensor conn) then _ else s2).
  assert (quiet s2 s3) as H3.
  { subst s3. destruct (negb (hasAnySensor conn)); [|apply quiet_refl].
    eapply quiet_trans; [by apply (quiet_log (updateLooperRegistration c))|].
    by apply quiet_same. }
  eapply quiet_trans; [exact H1|]. eapply quiet_trans; [exact H2|].
  eapply quiet_trans; [exact H3|].
  destruct (bool_decide _); by apply quiet_same.
Qed.

Lemma quiet_cleanupAutoDisabledSensorLocked c buffer s :
  quiet s (cleanupAutoDisabledSensorLocked c buffer s).
Proof.
  revert s. induction buffer as [|e rest IH]; intros s; cbn [cleanupAutoDisabledSensorLocked];
    [apply quiet_refl|].
  eapply quiet_trans; [|apply IH].
  destruct (hasSensor _ _); [|apply quiet_refl].
  destruct (getSensorInterfaceFromHandle s _) as [sensor|]; [|apply quiet_refl].
  destruct (bool_decide _); [|apply quiet_refl].
  eapply quiet_trans; [|apply quiet_cleanupWithoutDisableLocked].
  by apply quiet_log.
Qed.

Lemma quiet_fanout conns buffer needs s : quiet s (fanout conns buffer needs s).2.
Proof.
  revert needs s. induction conns as [|c rest IH]; intros needs s; cbn [fanout];
    [apply quiet_refl|].
  eapply quiet_trans; [|apply IH].
  eapply quiet_trans; [apply quiet_connection_sendEvents|].
  destruct (hasOneShotSensors _ c); [|apply quiet_refl].
  apply quiet_cleanupAutoDisabledSensorLocked.
Qed.

(** What the loop of [sendEventsToAllClients] reports was needed by some
    connection of the snapshot when the loop ended. *)
Lemma fanout_needs conns buffer needs s :
  (fanout conns buffer needs s).1 = true ->
  needs = true
  \/ exists c, c ∈ conns /\ needsWakeLock (getConn (fanout conns buffer needs s).2 c) = true.
Proof.
  revert needs s. induction conns as [|c rest IH]; intros needs s; cbn [fanout]; [by left|].
  set (s1 := connection_sendEvents c true buffer s).
  set (s2 := if hasOneShotSensors s1 c then _ else s1).
  intros H. apply IH in H as [H|(c' & Hc' & H)].
  - apply orb_true_iff in H as [H|H]; [by left|]. right. exists c. split; [left|].
    assert (quiet s1 (fanout rest buffer (needs || needsWakeLock (getConn s1 c)) s2).2) as Hq.
    { eapply quiet_trans; [|apply quiet_fanout]. subst s2.
      destruct (hasOneShotSensors s1 c); [|apply quiet_refl].
      apply quiet_cleanupAutoDisabledSensorLocked. }
    destruct Hq as (_ & _ & Hr). specialize (Hr c).
    unfold needsWakeLock in *. apply Z.ltb_lt in H. apply Z.ltb_lt. lia.
  - right. exists c'. split; [by right|done].
Qed.

Lemma recordLastValueLocked_frame buffer s :
  exists m, recordLastValueLocked buffer s = with_mRecentEvent m s.
Proof.
  revert s. induction buffer as [|e rest IH]; intros s; cbn [recordLastValueLocked].
  - exists (mRecentEvent s). by destruct s.
  - destruct (_ || _); [apply IH|].
    destruct (mRecentEvent s !! sensor e) as [logger|]; [|apply IH].
    destruct (IH (with_mRecentEvent (<[sensor e:=addEvent e logger]> (mRecentEvent s)) s))
      as [m ->]. by exists m.
Qed.

Lemma quiet_removeSensorFromAll handle conns s : quiet s (removeSensorFromAll handle conns s).
Proof.
  revert s. induction conns as [|c rest IH]; intros s; cbn [removeSensorFromAll];
    [apply quiet_refl|].
  eapply quiet_trans; [|apply IH]. apply quiet_setConn. simpl. lia.
Qed.

Lemma quiet_registerSensor sensor isDebug isVirt device s :
  quiet s (registerSensor sensor isDebug isVirt device s).2.
Proof.
  unfold registerSensor. destruct (SensorList_add _ _ _) as [[] l]; [|apply quiet_refl].
  cbn [snd]. destruct (mRecentEvent _ !! _); by apply quiet_same.
Qed.

Lemma quiet_disconnectDynamicSensor handle conns s :
  quiet s (disconnectDynamicSensor handle conns s).
Proof.
  unfold disconnectDynamicSensor.
  eapply quiet_trans; [by apply (quiet_log (handleDynamicSensorConnection handle false))|].
  eapply quiet_trans; [|apply quiet_removeSensorFromAll].
  unfold unregisterDynamicSensorLocked. destruct (SensorList_remove _ _) as [ret l].
  by apply quiet_same.
Qed.

Lemma quiet_mapFlushEventsToConnections env conns buffer s :
  quiet s (mapFlushEventsToConnections env conns buffer s).2.
Proof.
  revert s. induction buffer as [|e rest IH]; intros s; cbn [mapFlushEventsToConnections];
    [apply quiet_refl|].
  set (d := if type e =? SENSOR_TYPE_META_DATA then _ else (None, s)).
  assert (quiet s d.2) as H1.
  { subst d. destruct (type e =? SENSOR_TYPE_META_DATA); [|apply quiet_refl].
    destruct (mActiveSensors s !! _); [by apply quiet_same|apply quiet_refl]. }
  destruct d as [dest s1]. cbn [snd] in H1.
  set (s2 := if type e =? SENSOR_TYPE_DYNAMIC_SENSOR_META then _ else s1).
  assert (quiet s1 s2) as H2.
  { subst s2. destruct (type e =? SENSOR_TYPE_DYNAMIC_SENSOR_META); [|apply quiet_refl].
    destruct (dynamic_sensor_meta_connected e).
    - unfold dynamicSensorConnected. destruct (isNewHandle _ _); [|apply quiet_refl].
      unfold registerDynamicSensorLocked.
      eapply quiet_trans; [|apply quiet_registerSensor]. by apply quiet_log.
    - destruct (sensor_service_clear_dynamic_sensor_data_at_the_end env).
      + eapply quiet_trans; [apply quiet_disconnectDynamicSensor|]. by apply quiet_log.
      + apply quiet_disconnectDynamicSensor. }
  specialize (IH s2). destruct (mapFlushEventsToConnections env conns rest s2) as [mapped s3].
  cbn [snd] in *. eapply quiet_trans; [exact H1|]. by eapply quiet_trans.
Qed.

(** *** Reading traces *)

Lemma wakelock_after_app held acts1 acts2 :
  wakelock_after held (acts1 ++ acts2) = wakelock_after (wakelock_after held acts1) acts2.
Proof.
  revert held. induction acts1 as [|a acts1 IH]; intros held; [done|].
  destruct a; simpl; apply IH.
Qed.

Lemma sends_guarded_app held acts1 acts2 :
  sends_guarded held (acts1 ++ acts2)
  = sends_guarded held acts1 && sends_guarded (wakelock_after held acts1) acts2.
Proof.
  revert held. induction acts1 as [|a acts1 IH]; intros held; [done|].
  destruct a; simpl; rewrite ?IH; try done. by rewrite andb_assoc.
Qed.

Lemma wakelock_after_quiet held delta :
  forallb (fun a => negb (is_wakelock_op a)) delta = true -> wakelock_after held delta = held.
Proof.
  induction delta as [|a delta IH]; [done|]. simpl. intros H.
  apply andb_true_iff in H as [Ha H]. destruct a; try done; by apply IH.
Qed.

Lemma sends_guarded_quiet delta :
  forallb (fun a => negb (is_wakelock_op a)) delta = true -> sends_guarded true delta = true.
Proof.
  induction delta as [|a delta IH]; [done|]. simpl. intros H.
  apply andb_true_iff in H as [Ha H]. destruct a; try done; by apply IH.
Qed.

(** The checkable [sends_guarded] says what it should: at every [sendEvents]
    of the trace the wakelock is held. *)
Lemma sends_guarded_held held acts pre c written post :
  sends_guarded held acts = true -> acts = pre ++ sendEvents c written :: post ->
  wakelock_after held pre = true.
Proof.
  intros H ->. rewrite sends_guarded_app in H. apply andb_true_iff in H as [_ H].
  simpl in H. by apply andb_true_iff in H as [H _].
Qed.

(** *** sendEventsToAllClients *)

Lemma sendEventsToAllClients_spec conns buffer s :
  let s' := sendEventsToAllClients conns buffer s in
  exists dq d5,
    trace s' = trace s ++ dq ++ d5
    /\ forallb (fun a => negb (is_wakelock_op a)) dq = true
    /\ (d5 = [] \/ d5 = [release_wake_lock])
    /\ (mWakeLockAcquired s = true ->
        (forall c, c ∈ conns -> needsWakeLock (getConn s' c) = false) ->
        mWakeLockAcquired s' = false /\ d5 = [release_wake_lock]).
Proof.
  cbv zeta. unfold sendEventsToAllClients.
  pose proof (quiet_fanout conns buffer false s) as (Hw & (dq & Ht & Hq) & _).
  pose proof (fanout_needs conns buffer false s) as Hn.
  destruct (fanout conns buffer false s) as [needs s5]. cbn [fst snd] in *.
  destruct (mWakeLockAcquired s5 && negb needs) eqn:E.
  - apply andb_true_iff in E as [E1 E2].
    unfold setWakeLockAcquiredLocked. rewrite E1.
    exists dq, [release_wake_lock]. simpl. rewrite Ht, <- app_assoc.
    split; [done|]. split; [done|]. split; [by right|]. done.
  - exists dq, []. rewrite app_nil_r. split; [done|]. split; [done|]. split; [by left|].
    intros Hheld Hnone. exfalso.
    rewrite Hw, Hheld in E. simpl in E. apply negb_false_iff in E.
    destruct (Hn E) as [?|(c & Hc & Hneeds)]; [done|].
    specialize (Hnone c Hc). congruence.
Qed.

(** *** One turn of the dispatch loop *)

(** C3.  A turn of the dispatch loop on a polled batch always completes.
    When the batch holds at least one wake-up sensor event, the wakelock is
    held at every [sendEvents] of that turn, and where it was not held
    before, the turn starts by acquiring it.  When the wakelock is held
    going into the fan-out (it was held before, or the batch holds a wake-up
    event) and no connection of the snapshot needs it afterwards, the turn
    ends by releasing it. *)
Theorem threadLoop_wakelock env stale polled s :
  exists s' delta,
    threadLoop_iteration env stale (poll_events polled) s = Some s'
    /\ trace s' = trace s ++ delta
    /\ ((exists e, e ∈ polled /\ isWakeUpSensorEvent s e = true) ->
        sends_guarded (mWakeLockAcquired s) delta = true
        /\ (forall pre c written post, delta = pre ++ sendEvents c written :: post ->
              wakelock_after (mWakeLockAcquired s) pre = true)
        /\ (mWakeLockAcquired s = false -> exists rest, delta = acquire_wake_lock :: rest))
    /\ (mWakeLockAcquired s = true \/ (exists e, e ∈ polled /\ isWakeUpSensorEvent s e = true) ->
        (forall c, c ∈ getActiveConnections s -> needsWakeLock (getConn s' c) = false) ->
        mWakeLockAcquired s' = false /\ last delta = Some release_wake_lock).
Proof.
  unfold threadLoop_iteration.
  set (buffer := map (with_flags 0) polled).
  set (wakeEvents := Z.of_nat (length (List.filter (isWakeUpSensorEvent s) buffer))).
  set (s1 := if 0 <? wakeEvents then _ else s).
  assert (forall e, e ∈ polled -> isWakeUpSensorEvent s e = true -> 0 < wakeEvents) as Hwake.
  { intros e He Hw. subst wakeEvents buffer.
    assert (with_flags 0 e ∈ List.filter (isWakeUpSensorEvent s) (map (with_flags 0) polled))
      as Hin.
    { apply list_elem_of_In, filter_In. split; [|exact Hw].
      apply in_map. by apply list_elem_of_In. }
    destruct (List.filter _ _); [by apply elem_of_nil in Hin|]. simpl. lia. }
  (* the wake-up stage *)
  assert (exists d1,
    trace s1 = trace s ++ d1
    /\ connections s1 = connections s
    /\ mActiveConnections s1 = mActiveConnections s
    /\ mWakeLockAcquired s1 = mWakeLockAcquired s || (0 <? wakeEvents)
    /\ (0 < wakeEvents ->
        sends_guarded (mWakeLockAcquired s) d1 = true
        /\ wakelock_after (mWakeLockAcquired s) d1 = true
        /\ (mWakeLockAcquired s = false -> exists rest, d1 = acquire_wake_lock :: rest))
    /\ (wakeEvents <= 0 -> d1 = [])) as (d1 & Ht1 & Hc1 & Ha1 & Hf1 & Hpos & Hzero).
  { subst s1. destruct (0 <? wakeEvents) eqn:E.
    - apply Z.ltb_lt in E. unfold setWakeLockAcquiredLocked.
      destruct (mWakeLockAcquired s) eqn:Hheld; simpl.
      + exists [writeWakeLockHandled wakeEvents]. rewrite Hheld. repeat split; try done; lia.
      + exists [acquire_wake_lock; Looper_wake; writeWakeLockHandled wakeEvents].
        rewrite <- !app_assoc. repeat split; try done; try lia. intros _. by eexists.
    - apply Z.ltb_ge in E. exists []. rewrite app_nil_r, orb_false_r.
      repeat split; try done; lia. }
  (* recording the last values changes nothing else *)
  destruct (recordLastValueLocked_frame buffer s1) as [m2 ->].
  set (s2 := with_mRecentEvent m2 s1).
  set (outs := virtualEvents _ _ _ _ _).
  destruct (recordLastValueLocked_frame outs s2) as [m3 ->].
  set (s3 := with_mRecentEvent m3 s2).
  set (buffer2 := if halVersion_before_1_0 env then _ else _).
  assert (getActiveConnections s3 = getActiveConnections s) as Hconns by exact Ha1.
  (* the flush and dynamic sensor loop *)
  pose proof (quiet_mapFlushEventsToConnections env (getActiveConnections s3) buffer2 s3)
    as (Hw4 & (d4 & Ht4 & Hq4) & _).
  destruct (mapFlushEventsToConnections env (getActiveConnections s3) buffer2 s3)
    as [mapped s4]. cbn [snd] in *.
  (* the fan-out *)
  destruct (sendEventsToAllClients_spec (getActiveConnections s3) mapped s4)
    as (dq & d5 & Ht5 & Hq5 & Hd5 & Hrel).
  set (s' := sendEventsToAllClients (getActiveConnections s3) mapped s4) in *.
  exists s', (d1 ++ (d4 ++ dq) ++ d5).
  assert (forallb (fun a => negb (is_wakelock_op a)) (d4 ++ dq) = true) as Hq.
  { rewrite forallb_app. by rewrite Hq4, Hq5. }
  split; [done|]. split.
  { rewrite Ht5, Ht4. change (trace s3) with (trace s1). rewrite Ht1.
    by rewrite <- !app_assoc. }
  split.
  - intros (e & He & Hw). destruct (Hpos (Hwake e He Hw)) as (Hg1 & Hh1 & Hacq).
    assert (sends_guarded (mWakeLockAcquired s) (d1 ++ (d4 ++ dq) ++ d5) = true) as Hg.
    { rewrite sends_guarded_app, Hg1, Hh1. simpl.
      rewrite sends_guarded_app, sends_guarded_quiet by done. simpl.
      by destruct Hd5 as [-> | ->]. }
    split; [done|]. split.
    + intros pre c written post. by apply sends_guarded_held.
    + intros Hheld. destruct (Hacq Hheld) as [rest ->]. by eexists.
  - intros Hheld Hnone.
    assert (mWakeLockAcquired s4 = true) as Hheld4.
    { rewrite Hw4. change (mWakeLockAcquired s3) with (mWakeLockAcquired s1). rewrite Hf1.
      destruct Hheld as [->|(e & He & Hw)]; [done|].
      apply orb_true_iff. right. apply Z.ltb_lt. by eapply Hwake. }
    rewrite Hconns in Hrel. destruct (Hrel Hheld4 Hnone) as [Hreleased ->].
    split; [done|]. by rewrite !app_assoc, last_snoc.
Qed.

End WakeLockFacts.

Lemma threadLoop_wakelock_witness :
  exists s' delta,
    Service.threadLoop_iteration Service.example_dispatch (event_at 0 0)
      (Service.poll_events [event_at 2 30]) Service.proximity_enabled = Some s'
    /\ Service.trace s' = Service.trace Service.proximity_enabled ++ delta
    /\ Service.sends_guarded false delta = true.
Proof.
  destruct (threadLoop_wakelock Service.example_dispatch (event_at 0 0) [event_at 2 30]
              Service.proximity_enabled) as (s' & delta & Hrun & Htrace & Hwake & _).
  exists s', delta. split; [exact Hrun|]. split; [exact Htrace|].
  apply Hwake. exists (event_at 2 30). split; [left|]. vm_compute. reflexivity.
Defined.

Example threadLoop_wake_up_trace :
  option_map Service.trace
    (Service.threadLoop_iteration Service.example_dispatch (event_at 0 0)
       (Service.poll_events [event_at 2 30]) Service.proximity_enabled)
  = Some (Service.trace Service.proximity_enabled
          ++ [Service.acquire_wake_lock; Service.Looper_wake; Service.writeWakeLockHandled 1;
              Service.sendEvents 1 [event_at 2 30]]).
Proof. vm_compute. reflexivity. Qed.

(** ** Handles *)

Section HandleFacts.

Import Service.

Variable RUNTIME_SENSORS_HANDLE_BASE : Z.
Variable RUNTIME_SENSORS_HANDLE_END : Z.
Hypothesis BASE_positive : 0 < RUNTIME_SENSORS_HANDLE_BASE.
Hypothesis END_int32 : RUNTIME_SENSORS_HANDLE_END < 2 ^ 31.

Local Abbreviation BASE := RUNTIME_SENSORS_HANDLE_BASE.
Local Abbreviation END := RUNTIME_SENSORS_HANDLE_END.

Implicit Types (s : SensorService) (h handle : Z).

Local Abbreviation counter_in_range := (counter_in_range BASE END).

Lemma registerSensor_spec sensor isDebug isVirt device s :
  let handle := getHandle (getSensor sensor) in
  let r := registerSensor sensor isDebug isVirt device s in
  nextHandle r.2 = nextHandle s
  /\ (r.1 = true ->
      isNewHandle (mSensors s) handle = true
      /\ mUsedHandle (mSensors r.2) = {[handle]} ∪ mUsedHandle (mSensors s))
  /\ (r.1 = false -> r.2 = s).
Proof.
  cbv zeta. unfold registerSensor, SensorList_add.
  rewrite bool_decide_eq_true_2 by done. rewrite andb_true_l.
  destruct (isNewHandle (mSensors s) (getHandle (getSensor sensor))) eqn:E; simpl.
  - destruct (mRecentEvent s !! _); simpl; repeat split; done.
  - repeat split; done.
Qed.

Lemma pickRuntimeHandle_spec fuel handle s :
  counter_in_range s ->
  (Z.to_nat (END - nextHandle s) < fuel)%nat ->
  exists h n,
    pickRuntimeHandle END fuel handle s = Some (h, with_nextHandle n s)
    /\ (nextHandle s <= n <= END)
    /\ (h = -1
        \/ (h <> 0 /\ isNewHandle (mSensors s) h = true
            /\ ((h = handle /\ n = nextHandle s)
                \/ ((handle = 0 \/ isNewHandle (mSensors s) handle = false)
                    /\ nextHandle s <= h /\ n = h + 1
                    /\ forall k, nextHandle s <= k < h ->
                                 isNewHandle (mSensors s) k = false)))).
Proof.
  unfold counter_in_range.
  revert handle s. induction fuel as [|fuel IH]; intros handle s Hr Hf; [lia|].
  cbn [pickRuntimeHandle].
  destruct ((handle =? 0) || negb (isNewHandle (mSensors s) handle)) eqn:Hloop.
  - assert (handle = 0 \/ isNewHandle (mSensors s) handle = false) as Hskip.
    { apply orb_true_iff in Hloop as [H|H]; [left; lia|right; by apply negb_true_iff]. }
    unfold nextRuntimeSensorHandle.
    destruct (nextHandle s =? END) eqn:Hend.
    + simpl. exists (-1), (nextHandle s). split; [by destruct s|]. split; [lia|by left].
    + apply Z.eqb_neq in Hend.
      assert (int32 (nextHandle s + 1) = nextHandle s + 1) as Hint.
      { apply int32_small. unfold in_int32. lia. }
      rewrite Hint.
      assert ((nextHandle s <? 0) = false) as -> by lia.
      set (s1 := with_nextHandle (nextHandle s + 1) s).
      destruct (IH (nextHandle s) s1) as (h & n & Hp & Hn & Hh).
      { subst s1; simpl; lia. }
      { subst s1; simpl; lia. }
      exists h, n. split; [by rewrite Hp|]. subst s1. simpl in *. split; [lia|].
      destruct Hh as [->|(Hh0 & Hnew & Hh)]; [by left|]. right.
      split; [done|]. split; [done|]. right. split; [done|].
      destruct Hh as [[-> ->]|(Hsk & Hle & -> & Hall)].
      * split; [lia|]. split; [done|]. intros k Hk. lia.
      * split; [lia|]. split; [done|]. intros k Hk.
        destruct (decide (k = nextHandle s)) as [->|Hne].
        -- destruct Hsk as [H0|H0]; [lia|done].
        -- apply Hall. lia.
  - apply orb_false_iff in Hloop as [H0 Hnew]. apply negb_false_iff in Hnew.
    exists handle, (nextHandle s). split; [by destruct s|]. split; [lia|]. right.
    split; [lia|]. split; [done|]. by left.
Qed.

(** [registerRuntimeSensor] always returns.  A positive result is a handle
    taken from the counter: it lies in [BASE, END), it is new to the
    registry, every counter value passed over on the way was not, and the
    counter is left just above it. *)
Lemma registerRuntimeSensor_spec sensor device s :
  counter_in_range s ->
  exists h s',
    registerRuntimeSensor END sensor device s = Some (h, s')
    /\ (nextHandle s <= nextHandle s' <= END)
    /\ (0 < h ->
        (BASE <= h < END)
        /\ nextHandle s <= h /\ nextHandle s' = h + 1
        /\ isNewHandle (mSensors s) h = true
        /\ (forall k, nextHandle s <= k < h -> isNewHandle (mSensors s) k = false)
        /\ mUsedHandle (mSensors s') = {[h]} ∪ mUsedHandle (mSensors s))
    /\ (h <= 0 -> mUsedHandle (mSensors s') = mUsedHandle (mSensors s)).
Proof.
  intros Hr. unfold registerRuntimeSensor.
  destruct (pickRuntimeHandle_spec (runtime_fuel END s) 0 s Hr) as (h & n & -> & Hn & Hh).
  { unfold runtime_fuel. lia. }
  destruct Hh as [->|(Hh0 & Hnew & Hh)].
  { simpl. eexists _, _. split; [done|]. simpl. split; [lia|]. split; [lia|done]. }
  destruct Hh as [[-> _]|(_ & Hle & -> & Hall)]; [done|].
  unfold counter_in_range in Hr.
  assert ((h <? 0) = false) as -> by lia.
  set (si := mkSensorInterface _ false).
  pose proof (registerSensor_spec si false false device (with_nextHandle (h + 1) s))
    as (Hnext & Hok & Hfail).
  destruct (registerSensor si false false device (with_nextHandle (h + 1) s)) as [ok s2].
  cbn [fst snd] in *. simpl in Hnext, Hok.
  destruct ok.
  - destruct (Hok eq_refl) as [_ Hused].
    eexists _, _. split; [done|]. rewrite Hnext. split; [lia|]. split; [|lia].
    intros _. repeat split; try done; lia.
  - rewrite (Hfail eq_refl). eexists _, _. split; [done|]. simpl. split; [lia|].
    unfold nonSensor_handle. split; [lia|done].
Qed.

(** A dynamic sensor whose handle has been used is refused, and nothing
    changes. *)
Lemma dynamicSensorConnected_used e s :
  isNewHandle (mSensors s) (dynamic_sensor_meta_handle e) = false ->
  dynamicSensorConnected e s = (false, s).
Proof. intros H. unfold dynamicSensorConnected. by rewrite H. Qed.

Lemma removeSensorFromAll_registry handle conns s :
  mSensors (removeSensorFromAll handle conns s) = mSensors s
  /\ nextHandle (removeSensorFromAll handle conns s) = nextHandle s.
Proof.
  revert s. induction conns as [|c rest IH]; intros s; cbn [removeSensorFromAll]; [done|].
  destruct (IH (setConn c (removeSensor handle (getConn s c)).2 s)) as [-> ->]. done.
Qed.

Lemma unregisterDynamicSensorLocked_registry handle s :
  mUsedHandle (mSensors (unregisterDynamicSensorLocked handle s).2) = mUsedHandle (mSensors s)
  /\ nextHandle (unregisterDynamicSensorLocked handle s).2 = nextHandle s.
Proof.
  unfold unregisterDynamicSensorLocked, SensorList_remove.
  by destruct (mHandleMap (mSensors s) !! handle).
Qed.

(** What one operation does to the counter and to the set of used handles. *)
Lemma apply_registry_op_spec op s :
  counter_in_range s ->
  exists assigned s',
    apply_registry_op END op s = Some (assigned, s')
    /\ counter_in_range s'
    /\ match assigned with
       | Some h => (h ∉ mUsedHandle (mSensors s))
                   /\ mUsedHandle (mSensors s') = {[h]} ∪ mUsedHandle (mSensors s)
       | None => mUsedHandle (mSensors s') = mUsedHandle (mSensors s)
       end.
Proof.
  intros Hr. destruct op as [sensor isDebug isVirt device|sensor device|handle|e|handle];
    cbn [apply_registry_op].
  - pose proof (registerSensor_spec sensor isDebug isVirt device s) as (Hn & Hok & Hfail).
    destruct (registerSensor sensor isDebug isVirt device s) as [ok s']. cbn [fst snd] in *.
    eexists _, _. split; [done|]. split; [unfold counter_in_range in *; by rewrite Hn|].
    destruct ok.
    + destruct (Hok eq_refl) as [Hnew Hused]. split; [|done].
      unfold isNewHandle in Hnew. by apply bool_decide_eq_true in Hnew.
    + by rewrite (Hfail eq_refl).
  - destruct (registerRuntimeSensor_spec sensor device s Hr)
      as (h & s' & -> & Hn & Hpos & Hneg).
    eexists _, _. split; [done|]. split; [unfold counter_in_range in *; lia|].
    destruct (0 <? h) eqn:E.
    + apply Z.ltb_lt in E. destruct (Hpos E) as (_ & _ & _ & Hnew & _ & Hused).
      split; [|done]. unfold isNewHandle in Hnew. by apply bool_decide_eq_true in Hnew.
    + apply Z.ltb_ge in E. by apply Hneg.
  - eexists _, _. split; [done|]. unfold unregisterRuntimeSensor.
    pose proof (unregisterDynamicSensorLocked_registry handle s) as [Hu Hn].
    destruct (unregisterDynamicSensorLocked handle s) as [ok s1]. cbn [snd] in *.
    destruct ok; cbn [negb snd].
    + destruct (removeSensorFromAll_registry handle (getActiveConnections s1) s1) as [-> Hn'].
      unfold counter_in_range in *. by rewrite Hn', Hn.
    + unfold counter_in_range in *. by rewrite Hn.
  - unfold dynamicSensorConnected.
    destruct (isNewHandle (mSensors s) (dynamic_sensor_meta_handle e)) eqn:Hnew.
    + unfold registerDynamicSensorLocked.
      set (si := mkSensorInterface _ false).
      set (s0 := log _ s).
      pose proof (registerSensor_spec si false false DEFAULT_DEVICE_ID s0)
        as (Hn & Hok & Hfail).
      destruct (registerSensor si false false DEFAULT_DEVICE_ID s0) as [ok s'].
      cbn [fst snd] in *. eexists _, _. split; [done|].
      split; [unfold counter_in_range in *; by rewrite Hn|].
      destruct ok.
      * destruct (Hok eq_refl) as [_ Hused]. split; [|done].
        unfold isNewHandle in Hnew. by apply bool_decide_eq_true in Hnew.
      * by rewrite (Hfail eq_refl).
    + eexists _, _. split; [done|]. done.
  - eexists _, _. split; [done|]. unfold disconnectDynamicSensor.
    set (s0 := log _ s).
    pose proof (unregisterDynamicSensorLocked_registry handle s0) as [Hu Hn].
    destruct (removeSensorFromAll_registry handle (getActiveConnections s)
                (unregisterDynamicSensorLocked handle s0).2) as [-> Hn'].
    unfold counter_in_range in *. by rewrite Hn', Hn.
Qed.

(** Over any sequence of operations, the handles assigned are pairwise
    different and different from every handle used before. *)
Lemma lifetime_spec ops s :
  counter_in_range s ->
  exists assigned s',
    lifetime END ops s = Some (assigned, s')
    /\ counter_in_range s'
    /\ NoDup assigned
    /\ (forall h, h ∈ assigned -> h ∉ mUsedHandle (mSensors s))
    /\ (forall h, h ∈ mUsedHandle (mSensors s') <->
                  h ∈ assigned \/ h ∈ mUsedHandle (mSensors s)).
Proof.
  revert s. induction ops as [|op rest IH]; intros s Hr; cbn [lifetime].
  - exists [], s. split; [done|]. split; [done|]. split; [constructor|].
    split; [by intros h Hh%elem_of_nil|]. intros h. rewrite elem_of_nil. tauto.
  - destruct (apply_registry_op_spec op s Hr) as (a & s1 & -> & Hr1 & Ha).
    destruct (IH s1 Hr1) as (more & s' & -> & Hr' & Hnd & Hfresh & Hused).
    eexists _, _. split; [done|]. split; [done|].
    destruct a as [h|].
    + destruct Ha as [Hh Hu]. split; [|split].
      * constructor; [|done]. intros Hin. apply Hfresh in Hin. apply Hin.
        rewrite Hu, elem_of_union, elem_of_singleton. by left.
      * intros k [->|Hk]%elem_of_cons; [done|].
        apply Hfresh in Hk. rewrite Hu, elem_of_union in Hk. tauto.
      * intros k. rewrite Hused, Hu, elem_of_cons, elem_of_union, elem_of_singleton. tauto.
    + split; [done|]. split.
      * intros k Hk. rewrite <- Ha. by apply Hfresh.
      * intros k. by rewrite Hused, Ha.
Qed.

(** C5.  Over a process lifetime (any sequence of registrations and
    removals, starting from the empty registry) every operation returns, the
    handles assigned by successful registrations are pairwise different, and
    they are exactly the handles the registry remembers as used, so a
    removed handle is never assigned again.  A runtime sensor registration
    that succeeds takes its handle from the counter: the handle lies in
    [BASE, END), is new to the registry, every counter value passed over was
    already used, and the counter only grows.  A dynamic sensor whose
    handle is not new to the registry is refused and changes nothing. *)
Theorem handles_never_reused ops :
  BASE <= END ->
  (exists assigned s',
     lifetime END ops (initial BASE) = Some (assigned, s')
     /\ NoDup assigned
     /\ (forall h, h ∈ assigned <-> h ∈ mUsedHandle (mSensors s')))
  /\ (forall s sensor device, counter_in_range s ->
       exists h s',
         registerRuntimeSensor END sensor device s = Some (h, s')
         /\ (nextHandle s <= nextHandle s' <= END)
         /\ (0 < h ->
             (BASE <= h < END) /\ (nextHandle s <= h < nextHandle s')
             /\ isNewHandle (mSensors s) h = true
             /\ forall k, nextHandle s <= k < h -> isNewHandle (mSensors s) k = false))
  /\ (forall s e, isNewHandle (mSensors s) (dynamic_sensor_meta_handle e) = false ->
       dynamicSensorConnected e s = (false, s)).
Proof.
  intros Hrange. split; [|split].
  - destruct (lifetime_spec ops (initial BASE)) as (assigned & s' & Hl & _ & Hnd & _ & Hu).
    { unfold counter_in_range. simpl. lia. }
    exists assigned, s'. split; [done|]. split; [done|].
    intros h. rewrite Hu. simpl. rewrite elem_of_empty. tauto.
  - intros s sensor device Hr.
    destruct (registerRuntimeSensor_spec sensor device s Hr) as (h & s' & Hreg & Hn & Hpos & _).
    exists h, s'. split; [done|]. split; [done|].
    intros Hh. destruct (Hpos Hh) as (H1 & H2 & H3 & H4 & H5 & _).
    repeat split; try done; lia.
  - intros s e. apply dynamicSensorConnected_used.
Qed.

End HandleFacts.

Lemma handles_never_reused_witness :
  exists assigned s',
    Service.lifetime Service.AIDL_RUNTIME_SENSORS_HANDLE_END Service.example_lifetime
      (Service.initial Service.AIDL_RUNTIME_SENSORS_HANDLE_BASE) = Some (assigned, s')
    /\ NoDup assigned
    /\ (forall h, h ∈ assigned <-> h ∈ Service.mUsedHandle (Service.mSensors s')).
Proof.
  apply (handles_never_reused Service.AIDL_RUNTIME_SENSORS_HANDLE_BASE
           Service.AIDL_RUNTIME_SENSORS_HANDLE_END);
    unfold Service.AIDL_RUNTIME_SENSORS_HANDLE_BASE, Service.AIDL_RUNTIME_SENSORS_HANDLE_END;
    lia.
Defined.

(** The same lifetime in a range with ten handles left: the counter passes
    over the handle the dynamic sensor took, the removed handles are not
    handed out again, and the dynamic sensor cannot come back under its old
    handle. *)
Example lifetime_handles :
  option_map fst
    (Service.lifetime 1593835530 Service.example_lifetime (Service.initial 1593835520))
  = Some [1593835520; 1593835521; 1593835522; 1593835524; 1593835523; 1593835525].
Proof. vm_compute. reflexivity. Qed.

(** ** Subscriptions and Active Sensor Records *)

Section SubscriptionFacts.

Import Service.

Implicit Types (s : SensorService) (c : nat) (h handle : Z) (conn : SensorEventConnection).

Lemma hasSensor_true conn handle :
  hasSensor conn handle = true <-> is_Some (mSensorInfo conn !! handle).
Proof. unfold hasSensor. apply bool_decide_eq_true. Qed.

Lemma hasSensor_setConn c conn s c' handle :
  hasSensor (getConn (setConn c conn s) c') handle
  = if decide (c = c') then hasSensor conn handle else hasSensor (getConn s c') handle.
Proof. rewrite getConn_setConn. by destruct (decide (c = c')). Qed.

Lemma hasSensor_removeSensor h conn handle :
  hasSensor (removeSensor h conn).2 handle
  = if decide (h = handle) then false else hasSensor conn handle.
Proof.
  unfold removeSensor, hasSensor. simpl. destruct (decide (h = handle)) as [->|Hne].
  - rewrite lookup_delete_eq. apply bool_decide_eq_false_2. by intros [? ?].
  - by rewrite lookup_delete_ne.
Qed.

Lemma hasSensor_addSensor h conn handle :
  hasSensor (addSensor h conn).2 handle
  = if decide (h = handle) then true else hasSensor conn handle.
Proof.
  unfold addSensor. destruct (hasSensor conn h) eqn:E; simpl.
  - destruct (decide (h = handle)) as [->|]; done.
  - unfold hasSensor. simpl. destruct (decide (h = handle)) as [->|Hne].
    + rewrite lookup_insert_eq. by apply bool_decide_eq_true_2.
    + by rewrite lookup_insert_ne.
Qed.

Lemma hasSensor_setFirstFlushPending h value conn handle :
  hasSensor (setFirstFlushPending h value conn) handle = hasSensor conn handle.
Proof.
  unfold setFirstFlushPending, hasSensor. simpl. apply bool_decide_ext.
  rewrite lookup_alter. destruct (decide (h = handle)) as [->|]; [|done].
  destruct (mSensorInfo conn !! handle); simpl; split; intros [? ?]; by eexists.
Qed.

Lemma hasSensor_newConnection handle : hasSensor newConnection handle = false.
Proof. unfold hasSensor. simpl. apply bool_decide_eq_false_2. by intros [? ?]. Qed.

(** The claim's invariant follows from the stronger one. *)
Lemma owners_are_subscribers_record_iff s :
  owners_are_subscribers s -> record_iff_subscribed s.
Proof.
  intros Hinv handle. specialize (Hinv handle). unfold subscribed.
  destruct (mActiveSensors s !! handle) as [rec|]; split.
  - intros _. destruct Hinv as [Hne Hown].
    destruct (mConnections rec) as [|c owners] eqn:E; [done|].
    assert (hasSensor (getConn s c) handle = true) as Hc by (apply Hown; left).
    apply hasSensor_true in Hc. unfold getConn in Hc.
    destruct (connections s !! c) as [conn|] eqn:Ec; simpl in Hc.
    + by exists c, conn.
    + by destruct Hc.
  - intros _. by eexists.
  - by intros [? ?].
  - intros (c & conn & Hc & Hs). exfalso. specialize (Hinv c).
    unfold getConn in Hinv. rewrite Hc in Hinv. simpl in Hinv.
    apply hasSensor_true in Hs. congruence.
Qed.

Lemma same_subscriptions_refl s : same_subscriptions s s.
Proof. by split. Qed.

Lemma same_subscriptions_trans s1 s2 s3 :
  same_subscriptions s1 s2 -> same_subscriptions s2 s3 -> same_subscriptions s1 s3.
Proof.
  intros [H1 H2] [H3 H4]. split.
  - intros c handle. by rewrite H3, H1.
  - intros handle. by rewrite H4, H2.
Qed.

Lemma same_subscriptions_fields s s' :
  connections s' = connections s -> mActiveSensors s' = mActiveSensors s ->
  same_subscriptions s s'.
Proof. intros Hc Ha. split; intros; unfold getConn; by rewrite ?Hc, ?Ha. Qed.

Lemma same_subscriptions_setConn c conn s :
  (forall handle, hasSensor conn handle = hasSensor (getConn s c) handle) ->
  same_subscriptions s (setConn c conn s).
Proof.
  intros H. split; [|done]. intros c' handle. rewrite hasSensor_setConn.
  destruct (decide (c = c')) as [<-|]; [apply H|done].
Qed.

Lemma owners_are_subscribers_same s s' :
  same_subscriptions s s' -> owners_are_subscribers s -> owners_are_subscribers s'.
Proof.
  intros [Hc Ha] Hinv handle. specialize (Hinv handle). specialize (Ha handle).
  destruct (mActiveSensors s !! handle) as [rec|],
           (mActiveSensors s' !! handle) as [rec'|]; simpl in Ha; try done.
  - injection Ha as Ha. rewrite Ha. destruct Hinv as [Hne Hown]. split; [done|].
    intros c. by rewrite Hc.
  - intros c. by rewrite Hc.
Qed.

Lemma same_subscriptions_setWakeLockAcquiredLocked acquire s :
  same_subscriptions s (setWakeLockAcquiredLocked acquire s).
Proof.
  unfold setWakeLockAcquiredLocked.
  destruct acquire, (mWakeLockAcquired s); by apply same_subscriptions_fields.
Qed.

Lemma same_subscriptions_checkWakeLockStateLocked s :
  same_subscriptions s (checkWakeLockStateLocked s).
Proof.
  unfold checkWakeLockStateLocked.
  destruct (negb (mWakeLockAcquired s)); [apply same_subscriptions_refl|].
  destruct (forallb _ _); [|apply same_subscriptions_refl].
  apply same_subscriptions_setWakeLockAcquiredLocked.
Qed.

Lemma same_subscriptions_connection_sendEvents c scratch buffer s :
  same_subscriptions s (connection_sendEvents c scratch buffer s).
Proof.
  unfold connection_sendEvents.
  eapply same_subscriptions_trans; [apply same_subscriptions_setConn|
                                    by apply same_subscriptions_fields].
  done.
Qed.

(** What [cleanupWithoutDisableLocked] does to subscriptions and records
    when the handle has a record: the connection loses the handle, the
    record loses the connection, and the record goes when no owner is left. *)
Lemma cleanupWithoutDisableLocked_view c handle s rec :
  mActiveSensors s !! handle = Some rec ->
  let s' := (cleanupWithoutDisableLocked c handle s).2 in
  (forall c' h, hasSensor (getConn s' c') h
                = if decide (c = c' /\ handle = h) then false
                  else hasSensor (getConn s c') h)
  /\ (forall h, h <> handle -> mActiveSensors s' !! h = mActiveSensors s !! h)
  /\ mConnections <$> (mActiveSensors s' !! handle)
     = if decide (filter (fun x => x <> c) (mConnections rec) = []) then None
       else Some (filter (fun x => x <> c) (mConnections rec)).
Proof.
  intros Hrec. cbv zeta. unfold cleanupWithoutDisableLocked. rewrite Hrec.
  unfold removeConnection.
  destruct (removeSensor handle (getConn s c)) as [removed conn] eqn:Hrm.
  assert (conn = (removeSensor handle (getConn s c)).2) as Hconn by (by rewrite Hrm).
  cbn [snd].
  set (s1 := setConn c conn s).
  set (s2 := if removed then _ else s1).
  assert (connections s2 = connections s1 /\ mActiveSensors s2 = mActiveSensors s) as [Hc2 Ha2].
  { subst s2. by destruct removed. }
  set (s3 := if negb (hasAnySensor conn) then _ else s2).
  assert (connections s3 = connections s1 /\ mActiveSensors s3 = mActiveSensors s) as [Hc3 Ha3].
  { subst s3. by destruct (negb (hasAnySensor conn)). }
  assert (forall s4, connections s4 = connections s1 ->
            forall c' h, hasSensor (getConn s4 c') h
                         = if decide (c = c' /\ handle = h) then false
                           else hasSensor (getConn s c') h) as Hview.
  { intros s4 Hc4 c' h. unfold getConn. rewrite Hc4.
    fold (getConn s1 c'). subst s1. rewrite hasSensor_setConn.
    destruct (decide (c = c')) as [<-|Hne].
    - rewrite Hconn, hasSensor_removeSensor.
      destruct (decide (handle = h)) as [<-|Hne].
      + by rewrite decide_True.
      + rewrite decide_False; [done|tauto].
    - rewrite decide_False; [done|tauto]. }
  destruct (bool_decide _) eqn:Hlast.
  - apply bool_decide_eq_true in Hlast. cbn [mConnections] in Hlast.
    split; [by apply Hview|]. split.
    + intros h Hne. simpl. rewrite lookup_delete_ne by done. by rewrite Ha3.
    + simpl. rewrite lookup_delete_eq. by rewrite decide_True.
  - apply bool_decide_eq_false in Hlast. cbn [mConnections] in Hlast.
    split; [by apply Hview|]. split.
    + intros h Hne. simpl. rewrite lookup_insert_ne by done. by rewrite Ha3.
    + simpl. rewrite lookup_insert_eq. by rewrite decide_False.
Qed.

(** Dropping one subscription, and the record with its last owner, keeps
    owners and subscribers in step. *)
Lemma owners_are_subscribers_drop c handle s s' rec :
  owners_are_subscribers s ->
  mActiveSensors s !! handle = Some rec ->
  (forall c' h, hasSensor (getConn s' c') h
                = if decide (c = c' /\ handle = h) then false
                  else hasSensor (getConn s c') h) ->
  (forall h, h <> handle -> mActiveSensors s' !! h = mActiveSensors s !! h) ->
  mConnections <$> (mActiveSensors s' !! handle)
  = (if decide (filter (fun x => x <> c) (mConnections rec) = []) then None
     else Some (filter (fun x => x <> c) (mConnections rec))) ->
  owners_are_subscribers s'.
Proof.
  intros Hinv Hrec Hs Hother Hthis h. destruct (decide (h = handle)) as [->|Hne].
  - pose proof (Hinv handle) as Hh. rewrite Hrec in Hh. destruct Hh as [_ Hown].
    assert (forall c', c' ∈ filter (fun x => x <> c) (mConnections rec)
                       <-> hasSensor (getConn s' c') handle = true) as Hown'.
    { intros c'. rewrite Hs, list_elem_of_filter, Hown.
      destruct (decide (c = c' /\ handle = handle)) as [[<- _]|Hn].
      - split; [by intros [? _]|done].
      - split; [by intros [_ ?]|]. intros H. split; [|done]. intros ->. by apply Hn. }
    destruct (mActiveSensors s' !! handle) as [rec'|]; simpl in Hthis.
    + destruct (decide (filter (fun x => x <> c) (mConnections rec) = [])); [done|].
      injection Hthis as ->. done.
    + destruct (decide (filter (fun x => x <> c) (mConnections rec) = [])) as [E|]; [|done].
      intros c'. specialize (Hown' c'). rewrite E in Hown'.
      destruct (hasSensor _ handle); [|done].
      exfalso. by apply (elem_of_nil c'), Hown'.
  - rewrite (Hother h Hne). specialize (Hinv h).
    destruct (mActiveSensors s !! h) as [rec''|].
    + destruct Hinv as [Hn Hown]. split; [done|]. intros c'. rewrite Hs.
      rewrite decide_False; [done|]. intros [_ ?]. by apply Hne.
    + intros c'. rewrite Hs. rewrite decide_False; [done|]. intros [_ ?]. by apply Hne.
Qed.

Lemma owners_are_subscribers_cleanupWithoutDisableLocked c handle s :
  owners_are_subscribers s ->
  owners_are_subscribers (cleanupWithoutDisableLocked c handle s).2.
Proof.
  intros Hinv.
  destruct (mActiveSensors s !! handle) as [rec|] eqn:Hrec.
  - destruct (cleanupWithoutDisableLocked_view c handle s rec Hrec) as (Hs & Hother & Hthis).
    by eapply owners_are_subscribers_drop.
  - unfold cleanupWithoutDisableLocked. by rewrite Hrec.
Qed.

(** *** enable *)

Lemma same_subscriptions_replayRecentEvent c handle s :
  same_subscriptions s (replayRecentEvent c handle s).
Proof.
  unfold replayRecentEvent.
  destruct (mRecentEvent s !! handle) as [logger|]; [|apply same_subscriptions_refl].
  destruct (populateLastEventIfCurrent logger) as [last|]; [|apply same_subscriptions_refl].
  cbn [version]. destruct (version last =? _); [|apply same_subscriptions_refl].
  match goal with |- context [connection_sendEvents c false ?b ?s2] =>
    assert (same_subscriptions s (connection_sendEvents c false b s2)) as Hsend end.
  { eapply same_subscriptions_trans; [|apply same_subscriptions_connection_sendEvents].
    destruct (_ && _); [apply same_subscriptions_setWakeLockAcquiredLocked|
                        apply same_subscriptions_refl]. }
  destruct (negb _ && _); [|exact Hsend].
  eapply same_subscriptions_trans; [exact Hsend|].
  apply same_subscriptions_checkWakeLockStateLocked.
Qed.

Lemma enable_record_view c handle sensor s :
  let s1 := enable_record c handle sensor s in
  (forall c' h, hasSensor (getConn s1 c') h = hasSensor (getConn s c') h)
  /\ (forall h, h <> handle ->
       mConnections <$> (mActiveSensors s1 !! h) = mConnections <$> (mActiveSensors s !! h))
  /\ mConnections <$> (mActiveSensors s1 !! handle)
     = Some (owners_after_enable c (mActiveSensors s !! handle)).
Proof.
  cbv zeta. unfold enable_record, owners_after_enable.
  destruct (mActiveSensors s !! handle) as [rec|] eqn:Hrec.
  - unfold addConnection. destruct (bool_decide (c ∈ mConnections rec)) eqn:Hin.
    + split; [done|]. split; [done|]. by rewrite Hrec.
    + set (s1 := with_mActiveSensors _ s).
      assert (forall sf, same_subscriptions s1 sf ->
        (forall c' h, hasSensor (getConn sf c') h = hasSensor (getConn s c') h)
        /\ (forall h, h <> handle ->
             mConnections <$> (mActiveSensors sf !! h)
             = mConnections <$> (mActiveSensors s !! h))
        /\ mConnections <$> (mActiveSensors sf !! handle) = Some (mConnections rec ++ [c]))
        as Hfinal.
      { intros sf [Hc Ha]. split; [|split].
        - intros c' h. by rewrite Hc.
        - intros h Hne. rewrite Ha. subst s1. simpl. by rewrite lookup_insert_ne.
        - rewrite Ha. subst s1. simpl. by rewrite lookup_insert_eq. }
      destruct (bool_decide (getReportingMode _ = _));
        [apply Hfinal, same_subscriptions_replayRecentEvent
        |apply Hfinal, same_subscriptions_refl].
  - set (s1 := with_mActiveSensors _ s).
    assert (forall sf, connections sf = connections s ->
              mActiveSensors sf = <[handle:=SensorRecord_new c]> (mActiveSensors s) ->
      (forall c' h, hasSensor (getConn sf c') h = hasSensor (getConn s c') h)
      /\ (forall h, h <> handle ->
           mConnections <$> (mActiveSensors sf !! h)
           = mConnections <$> (mActiveSensors s !! h))
      /\ mConnections <$> (mActiveSensors sf !! handle) = Some [c]) as Hfinal.
    { intros sf Hc Ha. split; [|split].
      - intros c' h. unfold getConn. by rewrite Hc.
      - intros h Hne. rewrite Ha. by rewrite lookup_insert_ne.
      - rewrite Ha. by rewrite lookup_insert_eq. }
    destruct (isVirtual sensor), (bool_decide _); simpl;
      try (destruct (mRecentEvent s !! handle)); by apply Hfinal.
Qed.

Lemma enable_subscribe_view c handle s :
  let s2 := enable_subscribe c handle s in
  (forall c' h, hasSensor (getConn s2 c') h
                = if decide (c = c' /\ handle = h) then true
                  else hasSensor (getConn s c') h)
  /\ mActiveSensors s2 = mActiveSensors s.
Proof.
  cbv zeta. unfold enable_subscribe.
  pose proof (hasSensor_addSensor handle (getConn s c)) as Hadd.
  destruct (addSensor handle (getConn s c)) as [added conn] eqn:E. cbn [snd] in Hadd.
  assert (hasSensor (getConn s c) handle = negb added) as Hwas.
  { unfold addSensor in E. destruct (hasSensor (getConn s c) handle); by injection E as <- _. }
  destruct added.
  - assert (forall sf, connections sf = connections (setConn c conn s) ->
      forall c' h, hasSensor (getConn sf c') h
                   = if decide (c = c' /\ handle = h) then true
                     else hasSensor (getConn s c') h) as Hfinal.
    { intros sf Hc c' h. unfold getConn. rewrite Hc. fold (getConn (setConn c conn s) c').
      rewrite hasSensor_setConn. destruct (decide (c = c')) as [<-|Hne].
      - rewrite Hadd. destruct (decide (handle = h)) as [<-|Hne].
        + by rewrite decide_True.
        + rewrite decide_False; [done|tauto].
      - rewrite decide_False; [done|tauto]. }
    unfold addEventConnectionIfNotPresent.
    destruct (bool_decide _); (split; [by apply Hfinal|done]).
  - split; [|done]. intros c' h.
    destruct (decide (c = c' /\ handle = h)) as [[<- <-]|]; [|done]. exact Hwas.
Qed.

Lemma same_subscriptions_enable_configure hal c handle sensor period latency s :
  same_subscriptions s (enable_configure hal c handle sensor period latency s).2.
Proof.
  unfold enable_configure.
  set (s3 := log _ s).
  set (s4 := if _ && _ && _ then _ else s3).
  assert (same_subscriptions s s4) as H4.
  { subst s4. destruct (_ && _ && _); [|by apply same_subscriptions_fields].
    set (s' := setConn c _ s3).
    assert (same_subscriptions s s') as H'.
    { eapply same_subscriptions_trans; [by apply (same_subscriptions_fields s s3)|].
      apply same_subscriptions_setConn. intros h. apply hasSensor_setFirstFlushPending. }
    destruct (flush_result hal =? NO_ERROR).
    - eapply same_subscriptions_trans; [exact H'|]. split; [done|].
      intros h. simpl. rewrite lookup_alter.
      destruct (decide (handle = h)) as [->|]; [|done].
      by destruct (mActiveSensors s !! h).
    - eapply same_subscriptions_trans; [exact H'|].
      eapply same_subscriptions_trans;
        [by apply (same_subscriptions_fields s' (log (sensor_flush c handle) s'))|].
      apply same_subscriptions_setConn. intros h. apply hasSensor_setFirstFlushPending. }
  clearbody s4.
  destruct (batch_result hal =? NO_ERROR) eqn:Eb; cbn [fst snd]; rewrite ?Eb; cbn [fst snd].
  - destruct (activate_result hal =? NO_ERROR); cbn [fst snd].
    + set (s' := log (updateLooperRegistration c) _).
      assert (same_subscriptions s s') as H'.
      { eapply same_subscriptions_trans; [exact H4|]. by apply same_subscriptions_fields. }
      destruct ((0 <? getRequiredPermission_size _) && _); cbn [snd]; [|exact H'].
      eapply same_subscriptions_trans; [exact H'|]. by apply same_subscriptions_setConn.
    + eapply same_subscriptions_trans; [exact H4|]. by apply same_subscriptions_fields.
  - exact H4.
Qed.

Lemma owners_are_subscribers_enable canAccess hal c handle period latency s :
  owners_are_subscribers s ->
  owners_are_subscribers (enable canAccess hal c handle period latency s).2.
Proof.
  intros Hinv. unfold enable.
  destruct (negb (mInitCheck s =? NO_ERROR)); [done|].
  destruct (getSensorInterfaceFromHandle s handle) as [sensor|]; [|done].
  destruct (negb canAccess); [done|].
  destruct (enable_refused_by_mode _ _); [done|].
  (* the record and the subscription *)
  assert (owners_are_subscribers (enable_subscribe c handle (enable_record c handle sensor s)))
    as H2.
  { destruct (enable_record_view c handle sensor s) as (Hs1 & Ho1 & Hh1).
    destruct (enable_subscribe_view c handle (enable_record c handle sensor s)) as (Hs2 & Ha2).
    intros h. rewrite Ha2. destruct (decide (h = handle)) as [->|Hne].
    - pose proof (Hinv handle) as Hh.
      destruct (mActiveSensors (enable_record c handle sensor s) !! handle) as [rec1|];
        [|done].
      injection Hh1 as Hh1. rewrite Hh1. unfold owners_after_enable.
      destruct (mActiveSensors s !! handle) as [rec|].
      + destruct Hh as [Hne Hown]. destruct (bool_decide (c ∈ mConnections rec)) eqn:Hin.
        * apply bool_decide_eq_true in Hin. split; [done|]. intros c'.
          rewrite Hs2, Hs1. destruct (decide (c = c' /\ handle = handle)) as [[<- _]|Hn].
          -- tauto.
          -- apply Hown.
        * split; [by destruct (mConnections rec)|]. intros c'.
          rewrite Hs2, Hs1, elem_of_app, list_elem_of_singleton, Hown.
          destruct (decide (c = c' /\ handle = handle)) as [[<- _]|Hn]; [tauto|].
          split; [|tauto]. intros [?| ->]; [done|]. exfalso. by apply Hn.
      + split; [done|]. intros c'. rewrite Hs2, Hs1, list_elem_of_singleton, Hh.
        destruct (decide (c = c' /\ handle = handle)) as [[<- _]|Hn]; [tauto|].
        split; [|done]. intros ->. exfalso. by apply Hn.
    - specialize (Ho1 h Hne). specialize (Hinv h).
      destruct (mActiveSensors (enable_record c handle sensor s) !! h) as [rec1|],
               (mActiveSensors s !! h) as [rec|]; simpl in Ho1; try done.
      + injection Ho1 as ->. destruct Hinv as [Hn Hown]. split; [done|]. intros c'.
        rewrite Hs2, Hs1. rewrite decide_False; [done|]. intros [_ ?]. by apply Hne.
      + intros c'. rewrite Hs2, Hs1. rewrite decide_False; [done|].
        intros [_ ?]. by apply Hne. }
  set (s2 := enable_subscribe c handle (enable_record c handle sensor s)) in *.
  pose proof (same_subscriptions_enable_configure hal c handle sensor
                (clampSamplingPeriod (getSensor sensor) period) latency s2) as H6.
  destruct (enable_configure hal c handle sensor _ latency s2) as [err s6]. cbn [snd] in *.
  apply (owners_are_subscribers_same _ _ H6) in H2.
  eapply owners_are_subscribers_same; [by apply same_subscriptions_fields|].
  destruct (negb (err =? NO_ERROR)); [|done].
  by apply owners_are_subscribers_cleanupWithoutDisableLocked.
Qed.

(** *** disable, auto-disable, connection cleanup, connection creation *)

Lemma owners_are_subscribers_disable deactivate_result c handle s :
  owners_are_subscribers s ->
  owners_are_subscribers (disable deactivate_result c handle s).2.
Proof.
  intros Hinv. unfold disable.
  destruct (negb (mInitCheck s =? NO_ERROR)); [done|].
  pose proof (owners_are_subscribers_cleanupWithoutDisableLocked c handle s Hinv) as H1.
  destruct (cleanupWithoutDisableLocked c handle s) as [err s1]. cbn [snd] in H1.
  destruct (err =? NO_ERROR); [|by eapply owners_are_subscribers_same;
                                  [apply same_subscriptions_fields|]].
  destruct (getSensorInterfaceFromHandle s1 handle);
    (eapply owners_are_subscribers_same; [by apply same_subscriptions_fields|]);
    [|done].
  eapply owners_are_subscribers_same; [|exact H1]. by apply same_subscriptions_fields.
Qed.

Lemma owners_are_subscribers_cleanupAutoDisabledSensorLocked c buffer s :
  owners_are_subscribers s ->
  owners_are_subscribers (cleanupAutoDisabledSensorLocked c buffer s).
Proof.
  revert s. induction buffer as [|e rest IH]; intros s Hinv;
    cbn [cleanupAutoDisabledSensorLocked]; [done|].
  apply IH.
  destruct (hasSensor _ _); [|done].
  destruct (getSensorInterfaceFromHandle s _); [|done].
  destruct (bool_decide _); [|done].
  apply owners_are_subscribers_cleanupWithoutDisableLocked.
  eapply owners_are_subscribers_same; [|exact Hinv]. by apply same_subscriptions_fields.
Qed.

(** One turn of the loop of [cleanupConnection] does to the handle what
    [cleanupWithoutDisableLocked] does. *)
Lemma owners_are_subscribers_cleanupConnection_step c s handle :
  owners_are_subscribers s -> owners_are_subscribers (cleanupConnection_step c s handle).
Proof.
  intros Hinv. unfold cleanupConnection_step.
  set (s1 := if hasSensor (getConn s c) handle then _ else s).
  assert ((forall c' h, hasSensor (getConn s1 c') h
                        = if decide (c = c' /\ handle = h) then false
                          else hasSensor (getConn s c') h)
          /\ mActiveSensors s1 = mActiveSensors s) as [Hs Ha].
  { subst s1. destruct (hasSensor (getConn s c) handle) eqn:Hhas.
    - set (s' := match getSensorInterfaceFromHandle s handle with
                 | Some _ => _ | None => s end).
      assert (connections s' = connections s /\ mActiveSensors s' = mActiveSensors s)
        as [Hc' Ha'].
      { subst s'. by destruct (getSensorInterfaceFromHandle s handle). }
      assert (getConn s' c = getConn s c) as Hg by (unfold getConn; by rewrite Hc').
      rewrite Hg.
      destruct (removeSensor handle (getConn s c)) as [removed conn] eqn:Hrm.
      assert (conn = (removeSensor handle (getConn s c)).2) as Hconn by (by rewrite Hrm).
      assert (forall sf, connections sf = <[c := conn]> (connections s) ->
                forall c' h, hasSensor (getConn sf c') h
                             = if decide (c = c' /\ handle = h) then false
                               else hasSensor (getConn s c') h) as Hview.
      { intros sf Hc c' h.
        assert (getConn sf c' = if decide (c = c') then conn else getConn s c') as ->.
        { unfold getConn. rewrite Hc, lookup_insert. by destruct (decide (c = c')). }
        destruct (decide (c = c')) as [<-|Hne].
        - rewrite Hconn, hasSensor_removeSensor. destruct (decide (handle = h)) as [<-|Hne].
          + by rewrite decide_True.
          + rewrite decide_False; [done|tauto].
        - rewrite decide_False; [done|tauto]. }
      destruct removed; (split; [apply Hview; simpl; by rewrite Hc'|simpl; done]).
    - split; [|done]. intros c' h.
      destruct (decide (c = c' /\ handle = h)) as [[<- <-]|]; done. }
  clearbody s1. rewrite Ha.
  destruct (mActiveSensors s !! handle) as [rec|] eqn:Hrec.
  - unfold removeConnection. cbn [mConnections].
    destruct (bool_decide _) eqn:Hlast.
    + apply bool_decide_eq_true in Hlast.
      eapply (owners_are_subscribers_drop c handle s _ rec); [done|done|..].
      * intros c' h. rewrite <- Hs. unfold getConn. simpl. done.
      * intros h Hne. simpl. by rewrite lookup_delete_ne.
      * simpl. rewrite lookup_delete_eq. by rewrite decide_True.
    + apply bool_decide_eq_false in Hlast.
      eapply (owners_are_subscribers_drop c handle s _ rec); [done|done|..].
      * intros c' h. rewrite <- Hs. unfold getConn. simpl. done.
      * intros h Hne. simpl. by rewrite lookup_insert_ne.
      * simpl. rewrite lookup_insert_eq. by rewrite decide_False.
  - eapply owners_are_subscribers_same; [|exact Hinv]. split.
    + intros c' h. rewrite Hs. destruct (decide (c = c' /\ handle = h)) as [[<- <-]|]; [|done].
      pose proof (Hinv handle) as Hh. rewrite Hrec in Hh. symmetry. apply Hh.
    + intros h. by rewrite Ha.
Qed.

Lemma owners_are_subscribers_cleanupConnection c s :
  owners_are_subscribers s -> owners_are_subscribers (cleanupConnection c s).
Proof.
  intros Hinv. unfold cleanupConnection.
  assert (forall handles s0, owners_are_subscribers s0 ->
            owners_are_subscribers (fold_left (cleanupConnection_step c) handles s0)) as Hfold.
  { induction handles as [|h handles IH]; intros s0 H0; simpl; [done|].
    apply IH. by apply owners_are_subscribers_cleanupConnection_step. }
  specialize (Hfold (activeSensorHandles s) s Hinv).
  set (s1 := fold_left _ _ s) in *.
  set (s2 := removeEventConnection c _).
  assert (owners_are_subscribers s2) as H2.
  { eapply owners_are_subscribers_same; [|exact Hfold]. by apply same_subscriptions_fields. }
  eapply owners_are_subscribers_same; [by apply same_subscriptions_fields|].
  destruct (needsWakeLock _); [|done].
  eapply owners_are_subscribers_same; [apply same_subscriptions_checkWakeLockStateLocked|].
  done.
Qed.

Lemma owners_are_subscribers_createSensorEventConnection uid unknown_package packageName
    requestedMode opPackageName s :
  owners_are_subscribers s ->
  owners_are_subscribers
    (createSensorEventConnection uid unknown_package packageName requestedMode
       opPackageName s).2.
Proof.
  intros Hinv. unfold createSensorEventConnection.
  destruct requestedMode as [mode|]; [|done].
  destruct (_ && _); [done|]. cbv zeta.
  set (s0 := with_sPackageTargetVersion _ s).
  assert (same_subscriptions s s0) as H0 by (by apply same_subscriptions_fields).
  assert (owners_are_subscribers s0) as Hinv0 by (by eapply owners_are_subscribers_same).
  destruct (bool_decide (mode = DATA_INJECTION) && negb (bool_decide _)); [done|].
  destruct (bool_decide (mode = DATA_INJECTION) && negb (isAllowListedPackage _ _));
    [done|].
  clearbody s0. clear Hinv H0 s. rename s0 into s. rename Hinv0 into Hinv.
  set (c := fresh (dom (connections s))).
  set (s1 := setConn c _ s).
  assert (same_subscriptions s s1) as H1.
  { apply same_subscriptions_setConn. intros handle.
    assert (connections s !! c = None) as Hfresh.
    { apply not_elem_of_dom. apply is_fresh. }
    unfold getConn. rewrite Hfresh. simpl. unfold hasSensor. simpl.
    apply bool_decide_ext. split; by intros [? ?]. }
  destruct (isInjectionMode mode); cbn [snd].
  - eapply owners_are_subscribers_same; [|exact Hinv].
    eapply same_subscriptions_trans; [exact H1|].
    unfold addEventConnectionIfNotPresent. clearbody s1.
    destruct (bool_decide (c ∈ _)); by apply same_subscriptions_fields.
  - by eapply owners_are_subscribers_same.
Qed.

(** *** The invariant *)

Lemma owners_are_subscribers_initial s :
  mActiveSensors s = ∅ -> connections s = ∅ -> owners_are_subscribers s.
Proof.
  intros Ha Hc handle. rewrite Ha, lookup_empty. intros c.
  unfold getConn. rewrite Hc, lookup_empty. apply hasSensor_newConnection.
Qed.

Lemma owners_are_subscribers_apply op s :
  owners_are_subscribers s -> owners_are_subscribers (apply_service_op op s).
Proof.
  destruct op; cbn [apply_service_op].
  - apply owners_are_subscribers_enable.
  - apply owners_are_subscribers_disable.
  - apply owners_are_subscribers_cleanupAutoDisabledSensorLocked.
  - apply owners_are_subscribers_cleanupConnection.
  - apply owners_are_subscribers_createSensorEventConnection.
Qed.

(** C4 (as amended).  In every state reached from a service without
    connections through [enable], [disable], one-shot auto-disable,
    connection cleanup and connection creation, an Active Sensor Record
    exists for a handle iff some Event Connection has the handle in its
    subscription map, and the owners of the record are exactly those
    connections.  Each of these operations keeps it so: the record of a
    handle is there afterwards exactly when a subscribed connection is left,
    and [cleanupWithoutDisableLocked], through which subscriptions are
    dropped, destroys the record exactly when the connection it removes was
    the last owner. *)
Theorem record_iff_subscribed_reachable s :
  reachable s ->
  record_iff_subscribed s
  /\ owners_are_subscribers s
  /\ (forall op, record_iff_subscribed (apply_service_op op s))
  /\ (forall c handle rec, mActiveSensors s !! handle = Some rec ->
       (mActiveSensors (cleanupWithoutDisableLocked c handle s).2 !! handle = None
        <-> forall c', c' ∈ mConnections rec -> c' = c)).
Proof.
  intros Hreach.
  assert (owners_are_subscribers s) as Hinv.
  { induction Hreach as [s Ha Hc|op s _ IH].
    - by apply owners_are_subscribers_initial.
    - by apply owners_are_subscribers_apply. }
  split; [by apply owners_are_subscribers_record_iff|]. split; [done|]. split.
  - intros op. by apply owners_are_subscribers_record_iff, owners_are_subscribers_apply.
  - intros c handle rec Hrec.
    destruct (cleanupWithoutDisableLocked_view c handle s rec Hrec) as (_ & _ & Hthis).
    destruct (mActiveSensors (cleanupWithoutDisableLocked c handle s).2 !! handle) as [rec'|];
      simpl in Hthis.
    + destruct (decide (filter (fun x => x <> c) (mConnections rec) = [])) as [|Hne];
        [done|].
      split; [done|]. intros Hall. exfalso. apply Hne.
      apply elem_of_nil_inv. intros c' [Hc' Hin]%list_elem_of_filter.
      apply Hc'. by apply Hall.
    + destruct (decide (filter (fun x => x <> c) (mConnections rec) = [])) as [E|];
        [|done].
      split; [|done]. intros _ c' Hin. destruct (decide (c' = c)) as [|Hne]; [done|].
      exfalso. apply (elem_of_nil c'). rewrite <- E. by apply list_elem_of_filter.
Qed.

End SubscriptionFacts.

Lemma record_iff_subscribed_reachable_witness :
  Service.reachable
    (Service.apply_service_op
       (Service.so_enable true Service.hal_ok 1%nat 2 20000000 0) Service.booted)
  /\ Service.record_iff_subscribed
       (Service.apply_service_op
          (Service.so_enable true Service.hal_ok 1%nat 2 20000000 0) Service.booted).
Proof.
  assert (Service.reachable
            (Service.apply_service_op
               (Service.so_enable true Service.hal_ok 1%nat 2 20000000 0)
               Service.booted)) as Hreach.
  { apply Service.reachable_step.
    apply Service.reachable_init; vm_compute; reflexivity. }
  split; [exact Hreach|].
  exact (proj1 (record_iff_subscribed_reachable _ Hreach)).
Defined.

(** C4, as stated for every reachable state, fails once the dispatch loop
    handles the disconnection of a dynamic sensor: [disconnectDynamicSensor]
    takes the handle out of every connection and leaves [mActiveSensors]
    alone, so the record of the handle is still there when no connection is
    subscribed to it any more. *)
Lemma record_iff_subscribed_counterexample :
  Service.threadLoop_iteration Service.example_dispatch (event_at 0 0)
    (Service.poll_events [Service.dynamic_disconnected]) Service.dynamic_enabled
  = Some Service.dynamic_gone
  /\ is_Some (Service.mActiveSensors Service.dynamic_gone !! 262145)
  /\ ~ Service.subscribed Service.dynamic_gone 262145
  /\ ~ Service.record_iff_subscribed Service.dynamic_gone.
Proof.
  assert (is_Some (Service.mActiveSensors Service.dynamic_gone !! 262145)) as Hrec.
  { vm_compute. by eexists. }
  assert (~ Service.subscribed Service.dynamic_gone 262145) as Hsub.
  { intros (c & conn & Hc & Hs).
    assert (Service.connections Service.dynamic_gone
            = {[1%nat := Service.mkConnection "" 0 ∅ 0 ∅]}) as E
      by (vm_compute; reflexivity).
    rewrite E in Hc. apply lookup_singleton_Some in Hc as [_ <-].
    clear E Hrec. simpl in Hs. rewrite lookup_empty in Hs.
    destruct Hs as [x Hx]. discriminate Hx. }
  split; [vm_compute; reflexivity|].
  split; [done|]. split; [done|].
  intros H. apply Hsub. by apply H.
Qed.

(** ** The replay of the last value in enable *)

Section ReplayFacts.

Import Service.

Implicit Types (s : SensorService) (c : nat) (h handle : Z) (last : sensors_event_t).

Lemma delivers_nothing_refl s : delivers_nothing s s.
Proof. exists []. by rewrite app_nil_r. Qed.

Lemma delivers_nothing_trans s1 s2 s3 :
  delivers_nothing s1 s2 -> delivers_nothing s2 s3 -> delivers_nothing s1 s3.
Proof.
  intros (d1 & Ht1 & Hd1) (d2 & Ht2 & Hd2).
  exists (d1 ++ d2). rewrite Ht2, Ht1, app_assoc. split; [done|].
  rewrite forallb_app. by rewrite Hd1, Hd2.
Qed.

Lemma sends_nothing_refl s : sends_nothing s s.
Proof. split; [done|apply delivers_nothing_refl]. Qed.

Lemma sends_nothing_trans s1 s2 s3 :
  sends_nothing s1 s2 -> sends_nothing s2 s3 -> sends_nothing s1 s3.
Proof.
  intros [Hr1 Hd1] [Hr2 Hd2]. split; [congruence|].
  by eapply delivers_nothing_trans.
Qed.

(** A step that touches neither the log nor the trace. *)
Lemma sends_nothing_fields s s' :
  mRecentEvent s' = mRecentEvent s -> trace s' = trace s -> sends_nothing s s'.
Proof. intros Hr Ht. split; [done|]. exists []. by rewrite app_nil_r. Qed.

Lemma sends_nothing_log a s : is_send a = false -> sends_nothing s (log a s).
Proof.
  intros Ha. split; [done|]. exists [a]. split; [done|]. simpl. by rewrite Ha.
Qed.

Lemma sends_nothing_setWakeLockAcquiredLocked acquire s :
  sends_nothing s (setWakeLockAcquiredLocked acquire s).
Proof.
  unfold setWakeLockAcquiredLocked. destruct acquire.
  - eapply sends_nothing_trans; [|by apply sends_nothing_log].
    destruct (negb (mWakeLockAcquired s)); [|apply sends_nothing_refl].
    eapply sends_nothing_trans; [by apply (sends_nothing_log acquire_wake_lock)|].
    by apply sends_nothing_fields.
  - destruct (mWakeLockAcquired s); [|apply sends_nothing_refl].
    eapply sends_nothing_trans; [by apply (sends_nothing_log release_wake_lock)|].
    by apply sends_nothing_fields.
Qed.

Lemma sends_nothing_checkWakeLockStateLocked s :
  sends_nothing s (checkWakeLockStateLocked s).
Proof.
  unfold checkWakeLockStateLocked.
  destruct (negb (mWakeLockAcquired s)); [apply sends_nothing_refl|].
  destruct (forallb _ _); [|apply sends_nothing_refl].
  apply sends_nothing_setWakeLockAcquiredLocked.
Qed.

Lemma sends_nothing_cleanupWithoutDisableLocked c handle s :
  sends_nothing s (cleanupWithoutDisableLocked c handle s).2.
Proof.
  unfold cleanupWithoutDisableLocked.
  destruct (mActiveSensors s !! handle) as [rec|]; [|apply sends_nothing_refl].
  unfold removeSensor, removeConnection. cbn [fst snd].
  set (conn := with_mSensorInfo _ _).
  set (s1 := setConn c conn s).
  assert (sends_nothing s s1) as H1 by (by apply sends_nothing_fields).
  set (s2 := if hasSensor (getConn s c) handle then _ else s1).
  assert (sends_nothing s1 s2) as H2.
  { subst s2. destruct (hasSensor (getConn s c) handle);
      [by apply sends_nothing_log|apply sends_nothing_refl]. }
  set (s3 := if negb (hasAnySensor conn) then _ else s2).
  assert (sends_nothing s2 s3) as H3.
  { subst s3. destruct (negb (hasAnySensor conn)); [|apply sends_nothing_refl].
    eapply sends_nothing_trans;
      [by apply (sends_nothing_log (updateLooperRegistration c))|].
    by apply sends_nothing_fields. }
  eapply sends_nothing_trans; [exact H1|]. eapply sends_nothing_trans; [exact H2|].
  eapply sends_nothing_trans; [exact H3|].
  destruct (bool_decide _); by apply sends_nothing_fields.
Qed.

Lemma sends_nothing_enable_subscribe c handle s :
  sends_nothing s (enable_subscribe c handle s).
Proof.
  unfold enable_subscribe.
  destruct (addSensor handle (getConn s c)) as [[] conn]; [|apply sends_nothing_refl].
  unfold addEventConnectionIfNotPresent.
  set (s1 := log _ _).
  assert (sends_nothing s s1) as H1.
  { eapply sends_nothing_trans; [|by apply sends_nothing_log].
    by apply sends_nothing_fields. }
  destruct (bool_decide _); [exact H1|].
  eapply sends_nothing_trans; [exact H1|]. by apply sends_nothing_fields.
Qed.

Lemma sends_nothing_enable_configure hal c handle sensor period latency s :
  sends_nothing s (enable_configure hal c handle sensor period latency s).2.
Proof.
  unfold enable_configure.
  set (s3 := log _ s).
  assert (sends_nothing s s3) as H3 by (by apply sends_nothing_log).
  set (s4 := if _ && _ && _ then _ else s3).
  assert (sends_nothing s s4) as H4.
  { subst s4. destruct (_ && _ && _); [|exact H3].
    set (s' := setConn c _ s3).
    assert (sends_nothing s s') as H'.
    { eapply sends_nothing_trans; [exact H3|]. by apply sends_nothing_fields. }
    set (s'' := log (sensor_flush c handle) s').
    assert (sends_nothing s s'') as H''.
    { eapply sends_nothing_trans; [exact H'|]. by apply sends_nothing_log. }
    destruct (flush_result hal =? NO_ERROR);
      (eapply sends_nothing_trans; [exact H''|]); by apply sends_nothing_fields. }
  clearbody s4.
  destruct (batch_result hal =? NO_ERROR) eqn:Eb; cbn [fst snd]; rewrite ?Eb; cbn [fst snd].
  - set (s5 := log (sensor_activate c handle true) s4).
    assert (sends_nothing s s5) as H5.
    { eapply sends_nothing_trans; [exact H4|]. by apply sends_nothing_log. }
    destruct (activate_result hal =? NO_ERROR); cbn [fst snd]; [|exact H5].
    set (s' := log (updateLooperRegistration c) s5).
    assert (sends_nothing s s') as H'.
    { eapply sends_nothing_trans; [exact H5|]. by apply sends_nothing_log. }
    destruct ((0 <? getRequiredPermission_size _) && _); cbn [snd]; [|exact H'].
    eapply sends_nothing_trans; [exact H'|]. by apply sends_nothing_fields.
  - exact H4.
Qed.

(** What [enable] does once the record is settled, when the call is
    admitted: the subscription, the HAL calls and, should they fail, the
    cleanup.  None of it sends anything or touches the log, and on success
    the owners of the record are those [enable_record] left. *)
Lemma enable_after_record canAccess hal c handle period latency sensor s :
  mInitCheck s = NO_ERROR ->
  getSensorInterfaceFromHandle s handle = Some sensor ->
  canAccess = true ->
  enable_refused_by_mode s (mPackageName (getConn s c)) = false ->
  sends_nothing (enable_record c handle sensor s)
    (enable canAccess hal c handle period latency s).2
  /\ ((enable canAccess hal c handle period latency s).1 = NO_ERROR ->
      mConnections <$> (mActiveSensors (enable canAccess hal c handle period latency s).2
                          !! handle)
      = mConnections <$> (mActiveSensors (enable_record c handle sensor s) !! handle)).
Proof.
  intros Hinit Hsensor -> Hmode. unfold enable.
  rewrite Hinit, Hsensor, Hmode.
  change (NO_ERROR =? NO_ERROR) with true. cbn [negb].
  set (s1 := enable_record c handle sensor s).
  set (s2 := enable_subscribe c handle s1).
  assert (sends_nothing s1 s2) as H2 by apply sends_nothing_enable_subscribe.
  destruct (enable_subscribe_view c handle s1) as [_ Ha2]. fold s2 in Ha2.
  pose proof (sends_nothing_enable_configure hal c handle sensor
                (clampSamplingPeriod (getSensor sensor) period) latency s2) as H6.
  pose proof (same_subscriptions_enable_configure hal c handle sensor
                (clampSamplingPeriod (getSensor sensor) period) latency s2) as [_ Ho6].
  destruct (enable_configure hal c handle sensor _ latency s2) as [err s6].
  cbn [fst snd] in *. split.
  - eapply sends_nothing_trans; [exact H2|]. eapply sends_nothing_trans; [exact H6|].
    eapply sends_nothing_trans; [|by apply sends_nothing_log].
    destruct (negb (err =? NO_ERROR)); [|apply sends_nothing_refl].
    apply sends_nothing_cleanupWithoutDisableLocked.
  - intros ->. change (NO_ERROR =? NO_ERROR) with true. cbn [negb].
    simpl. by rewrite Ho6, Ha2.
Qed.

(** [enable_record] where the handle has no record: the record is made with
    the connection as its one owner, and the log entry of an on-change
    sensor is marked stale.  Nothing is written to the trace. *)
Lemma enable_record_fresh c handle sensor s :
  mActiveSensors s !! handle = None ->
  let s1 := enable_record c handle sensor s in
  mActiveSensors s1 !! handle = Some (SensorRecord_new c)
  /\ trace s1 = trace s
  /\ (getReportingMode (getSensor sensor) = AREPORTING_MODE_ON_CHANGE ->
      mRecentEvent s1 !! handle = setLastEventStale <$> (mRecentEvent s !! handle)).
Proof.
  intros Hrec. cbv zeta. unfold enable_record. rewrite Hrec.
  set (s1 := with_mActiveSensors _ s).
  set (s2 := if isVirtual sensor then _ else s1).
  assert (mActiveSensors s2 = <[handle := SensorRecord_new c]> (mActiveSensors s)
          /\ trace s2 = trace s /\ mRecentEvent s2 = mRecentEvent s) as (Ha & Ht & Hr).
  { subst s2. by destruct (isVirtual sensor). }
  clearbody s2.
  destruct (bool_decide (getReportingMode (getSensor sensor) = AREPORTING_MODE_ON_CHANGE))
    eqn:Hmode.
  - rewrite Hr. destruct (mRecentEvent s !! handle) as [logger|] eqn:Hl; simpl.
    + rewrite Ha, !lookup_insert, !decide_True by done. by split; [|split].
    + rewrite Ha, lookup_insert, decide_True by done. by rewrite Hr, Hl.
  - rewrite Ha, lookup_insert, decide_True by done.
    apply bool_decide_eq_false in Hmode. by split; [|split].
Qed.

Lemma replays_once_then c handle last s s1 s2 :
  replays_once c handle last s s1 -> delivers_nothing s1 s2 ->
  replays_once c handle last s s2.
Proof.
  intros (pre & post & Ht & Hpre & Hheld & Hpost) (delta & Ht2 & Hdelta).
  exists pre, (post ++ delta). split.
  - rewrite Ht2, Ht, <- !app_assoc. by rewrite <- app_comm_cons.
  - split; [done|]. split; [done|]. rewrite forallb_app. by rewrite Hpost, Hdelta.
Qed.

(** The replay itself, for a log entry that holds a current event of the
    right size. *)
Lemma replayRecentEvent_spec c handle s logger last :
  mRecentEvent s !! handle = Some logger ->
  populateLastEventIfCurrent logger = Some last ->
  version last = sizeof_sensors_event_t ->
  replays_once c handle last s (replayRecentEvent c handle s)
  /\ mRecentEvent (replayRecentEvent c handle s) = mRecentEvent s.
Proof.
  intros Hl Hp Hv. unfold replayRecentEvent. rewrite Hl, Hp. cbv zeta.
  fold (replayed handle last). set (e := replayed handle last).
  assert (version e = sizeof_sensors_event_t) as -> by done.
  rewrite Z.eqb_refl.
  set (s2 := if isWakeUpSensorEvent s e && negb (mWakeLockAcquired s) then _ else s).
  set (pre := if isWakeUpSensorEvent s e && negb (mWakeLockAcquired s)
              then [acquire_wake_lock; Looper_wake] else []).
  assert (trace s2 = trace s ++ pre /\ mRecentEvent s2 = mRecentEvent s
          /\ (isWakeUpSensorEvent s e = true ->
              wakelock_after (mWakeLockAcquired s) pre = true)) as (Ht2 & Hr2 & Hheld).
  { subst s2 pre. unfold setWakeLockAcquiredLocked.
    destruct (isWakeUpSensorEvent s e), (mWakeLockAcquired s); simpl;
      rewrite <- ?app_assoc, ?app_nil_r; done. }
  clearbody s2.
  set (s3 := connection_sendEvents c false (no_flush_map [e]) s2).
  assert (trace s3 = trace s2 ++ [sendEvents c [e]] /\ mRecentEvent s3 = mRecentEvent s2)
    as [Ht3 Hr3] by done.
  clearbody s3.
  assert (replays_once c handle last s s3) as H3.
  { exists pre, []. rewrite Ht3, Ht2, <- app_assoc. by repeat split. }
  destruct (negb (needsWakeLock (getConn s3 c)) && mWakeLockAcquired s3).
  - destruct (sends_nothing_checkWakeLockStateLocked s3) as [Hr4 Hd4]. split.
    + by eapply replays_once_then.
    + congruence.
  - split; [done|congruence].
Qed.

(** [enable_record] where the record is there and the connection is not yet
    one of its owners. *)
Lemma enable_record_replays c handle sensor s rec logger last :
  mActiveSensors s !! handle = Some rec ->
  c ∉ mConnections rec ->
  getReportingMode (getSensor sensor) = AREPORTING_MODE_ON_CHANGE ->
  mRecentEvent s !! handle = Some logger ->
  populateLastEventIfCurrent logger = Some last ->
  version last = sizeof_sensors_event_t ->
  replays_once c handle last s (enable_record c handle sensor s).
Proof.
  intros Hrec Hnew Hmode Hl Hp Hv. unfold enable_record, addConnection.
  rewrite Hrec, bool_decide_eq_false_2 by done. cbv beta iota zeta.
  rewrite bool_decide_eq_true_2 by done.
  set (s1 := with_mActiveSensors _ s).
  exact (proj1 (replayRecentEvent_spec c handle s1 logger last Hl Hp Hv)).
Qed.

(** [enable] where the handle has no record sends nothing, whatever becomes
    of the call. *)
Lemma enable_no_record_delivers_nothing canAccess hal c handle period latency s :
  mActiveSensors s !! handle = None ->
  delivers_nothing s (enable canAccess hal c handle period latency s).2.
Proof.
  intros Hrec.
  destruct (mInitCheck s =? NO_ERROR) eqn:Hinit;
    [|unfold enable; rewrite Hinit; apply delivers_nothing_refl].
  destruct (getSensorInterfaceFromHandle s handle) as [sensor|] eqn:Hsensor;
    [|unfold enable; rewrite Hinit, Hsensor; apply delivers_nothing_refl].
  destruct canAccess;
    [|unfold enable; rewrite Hinit, Hsensor; apply delivers_nothing_refl].
  destruct (enable_refused_by_mode s (mPackageName (getConn s c))) eqn:Hmode;
    [unfold enable; rewrite Hinit, Hsensor, Hmode; apply delivers_nothing_refl|].
  apply Z.eqb_eq in Hinit.
  destruct (enable_after_record true hal c handle period latency sensor s
              Hinit Hsensor eq_refl Hmode) as [[_ Hd] _].
  destruct (enable_record_fresh c handle sensor s Hrec) as (_ & Ht & _).
  eapply delivers_nothing_trans; [|exact Hd].
  exists []. by rewrite app_nil_r.
Qed.

(** [disable] by the only owner destroys the record. *)
Lemma disable_last_owner deactivate_result c handle s rec :
  mInitCheck s = NO_ERROR ->
  mActiveSensors s !! handle = Some rec ->
  (forall c', c' ∈ mConnections rec -> c' = c) ->
  mActiveSensors (disable deactivate_result c handle s).2 !! handle = None.
Proof.
  intros Hinit Hrec Hsole. unfold disable. rewrite Hinit.
  change (NO_ERROR =? NO_ERROR) with true. cbn [negb].
  destruct (cleanupWithoutDisableLocked_view c handle s rec Hrec) as (_ & _ & Hown).
  destruct (cleanupWithoutDisableLocked c handle s) as [err s1]. cbn [snd] in Hown.
  assert (filter (fun x => x <> c) (mConnections rec) = []) as Hnone.
  { destruct (filter (fun x => x <> c) (mConnections rec)) as [|x rest] eqn:E; [done|].
    assert (x ∈ filter (fun x => x <> c) (mConnections rec)) as Hx by (rewrite E; left).
    apply list_elem_of_filter in Hx as [Hx1 Hx2]. by apply Hsole in Hx2. }
  rewrite decide_True in Hown by done.
  assert (mActiveSensors s1 !! handle = None) as Hgone
    by (by destruct (mActiveSensors s1 !! handle)).
  destruct (err =? NO_ERROR); [destruct (getSensorInterfaceFromHandle s1 handle)|]; done.
Qed.

Lemma delivers_nothing_not_replays c handle last s s' :
  delivers_nothing s s' -> ~ replays_once c handle last s s'.
Proof.
  intros (delta & Ht & Hdelta) (pre & post & Ht' & _ & _ & _).
  rewrite Ht in Ht'. apply app_inv_head in Ht'. subst delta.
  rewrite forallb_app in Hdelta. simpl in Hdelta.
  by rewrite andb_false_r in Hdelta.
Qed.

(** C7 (as amended).  An admitted [enable] of an on-change sensor by
    connection [c]:
    - where the handle has no Active Sensor Record, makes one with [c] as
      its owner (it is there when the call returns [NO_ERROR]), marks the
      entry of the Recent-Event Log stale, so that the log yields no current
      event, and sends nothing;
    - where the record is there, [c] is newly added to it and the log holds
      a current event whose [version] is [sizeof(sensors_event_t)], sends
      that event once, alone and to [c], within the call itself and hence
      ahead of whatever the dispatch loop delivers afterwards, having taken
      the wakelock first when the event is a wake-up event;
    - after a [disable] by the only owner, which destroys the record, sends
      nothing. *)
Theorem enable_replays_recent_event canAccess hal c handle period latency sensor s :
  mInitCheck s = NO_ERROR ->
  getSensorInterfaceFromHandle s handle = Some sensor ->
  canAccess = true ->
  enable_refused_by_mode s (mPackageName (getConn s c)) = false ->
  getReportingMode (getSensor sensor) = AREPORTING_MODE_ON_CHANGE ->
  (mActiveSensors s !! handle = None ->
     mActiveSensors (enable_record c handle sensor s) !! handle = Some (SensorRecord_new c)
     /\ ((enable canAccess hal c handle period latency s).1 = NO_ERROR ->
         mConnections <$> (mActiveSensors (enable canAccess hal c handle period latency s).2
                             !! handle) = Some [c])
     /\ mRecentEvent (enable canAccess hal c handle period latency s).2 !! handle
        = setLastEventStale <$> (mRecentEvent s !! handle)
     /\ (mRecentEvent (enable canAccess hal c handle period latency s).2 !! handle)
          ≫= populateLastEventIfCurrent = None
     /\ delivers_nothing s (enable canAccess hal c handle period latency s).2)
  /\ (forall rec logger last,
        mActiveSensors s !! handle = Some rec ->
        c ∉ mConnections rec ->
        mRecentEvent s !! handle = Some logger ->
        populateLastEventIfCurrent logger = Some last ->
        version last = sizeof_sensors_event_t ->
        replays_once c handle last s (enable canAccess hal c handle period latency s).2)
  /\ (forall deactivate_result c0 rec,
        mActiveSensors s !! handle = Some rec ->
        (forall c', c' ∈ mConnections rec -> c' = c0) ->
        mActiveSensors (disable deactivate_result c0 handle s).2 !! handle = None
        /\ delivers_nothing (disable deactivate_result c0 handle s).2
             (enable canAccess hal c handle period latency
                (disable deactivate_result c0 handle s).2).2).
Proof.
  intros Hinit Hsensor Haccess Hgate Hmode.
  destruct (enable_after_record canAccess hal c handle period latency sensor s
              Hinit Hsensor Haccess Hgate) as [[Hlog Hrest] Howners].
  split; [|split].
  - intros Hrec.
    destruct (enable_record_fresh c handle sensor s Hrec) as (Hnew & Ht & Hstale).
    specialize (Hstale Hmode).
    split; [done|]. split; [intros Hok; by rewrite (Howners Hok), Hnew|].
    rewrite Hlog, Hstale. split; [done|]. split.
    + by destruct (mRecentEvent s !! handle).
    + by apply enable_no_record_delivers_nothing.
  - intros rec logger last Hrec Hnew Hl Hp Hv.
    eapply replays_once_then; [|exact Hrest].
    by eapply enable_record_replays.
  - intros deactivate_result c0 rec Hrec Hsole.
    pose proof (disable_last_owner deactivate_result c0 handle s rec Hinit Hrec Hsole)
      as Hgone.
    split; [done|]. by apply enable_no_record_delivers_nothing.
Qed.

End ReplayFacts.

Lemma enable_replays_recent_event_witness :
  Service.replays_once 2 7 Service.light_value
    (Service.light_reported Service.light_value)
    (Service.enable true Service.hal_ok 2%nat 7 20000000 0
       (Service.light_reported Service.light_value)).2.
Proof.
  refine (proj1 (proj2 (enable_replays_recent_event true Service.hal_ok 2%nat 7 20000000 0
                          Service.light (Service.light_reported Service.light_value)
                          _ _ _ _ _))
            (Service.mkSensorRecord [1%nat] [])
            (Service.mkLogger [Service.light_value] true) Service.light_value _ _ _ _ _);
    try (vm_compute; reflexivity).
  simpl. rewrite list_elem_of_singleton. lia.
Defined.

(** C7, as stated for every current recent event, fails for one whose
    [version] field is not [sizeof(sensors_event_t)]: connection 1 owns the
    record of the light sensor, the log holds a current value, connection 2
    is newly added by an [enable] that returns [NO_ERROR], and nothing is
    sent to it. *)
Lemma enable_replay_unsized_counterexample :
  Service.mConnections <$> (Service.mActiveSensors
                      (Service.light_reported Service.light_value_unsized) !! 7)
  = Some [1%nat]
  /\ (Service.mRecentEvent (Service.light_reported Service.light_value_unsized) !! 7)
       ≫= Service.populateLastEventIfCurrent = Some Service.light_value_unsized
  /\ (Service.enable true Service.hal_ok 2%nat 7 20000000 0
        (Service.light_reported Service.light_value_unsized)).1 = Service.NO_ERROR
  /\ Service.delivers_nothing (Service.light_reported Service.light_value_unsized)
       (Service.enable true Service.hal_ok 2%nat 7 20000000 0
          (Service.light_reported Service.light_value_unsized)).2
  /\ ~ Service.replays_once 2 7 Service.light_value_unsized
         (Service.light_reported Service.light_value_unsized)
         (Service.enable true Service.hal_ok 2%nat 7 20000000 0
            (Service.light_reported Service.light_value_unsized)).2.
Proof.
  assert (Service.delivers_nothing (Service.light_reported Service.light_value_unsized)
            (Service.enable true Service.hal_ok 2%nat 7 20000000 0
               (Service.light_reported Service.light_value_unsized)).2) as Hnone.
  { exists (drop (length (Service.trace (Service.light_reported Service.light_value_unsized)))
              (Service.trace
                 (Service.enable true Service.hal_ok 2%nat 7 20000000 0
                    (Service.light_reported Service.light_value_unsized)).2)).
    split; vm_compute; reflexivity. }
  split; [vm_compute; reflexivity|]. split; [vm_compute; reflexivity|].
  split; [vm_compute; reflexivity|]. split; [exact Hnone|].
  by apply delivers_nothing_not_replays.
Qed.

(** ** UidPolicy *)

Section UidPolicyFacts.

Import UidPolicy.

Variable FIRST_APPLICATION_UID : Z.
Variable service : bool.

Local Abbreviation active_in := (isUidActive FIRST_APPLICATION_UID).
Local Abbreviation apply := (apply_op FIRST_APPLICATION_UID service).
Local Abbreviation run_ops := (run FIRST_APPLICATION_UID service).

Implicit Types (p : t) (uid : Z) (o : op) (ops : list op).

Lemma isUidActive_app p uid :
  FIRST_APPLICATION_UID <= uid ->
  active_in p uid = match mOverrideUids p !! uid with
                    | Some active => active
                    | None => bool_decide (uid ∈ mActiveUids p)
                    end.
Proof.
  intros Huid. unfold isUidActive, isUidActiveLocked.
  by rewrite (proj2 (Z.ltb_ge _ _) Huid).
Qed.

Lemma apply_op_override o p uid :
  touches_override uid o = false ->
  mOverrideUids (apply o p).1 !! uid = mOverrideUids p !! uid.
Proof.
  destruct o as [u|u|u|u a|u]; simpl; try done; intros Hu;
    apply bool_decide_eq_false in Hu.
  - by rewrite lookup_insert_ne, lookup_delete_ne.
  - by rewrite lookup_delete_ne.
Qed.

Lemma run_override ops p uid :
  forallb (fun o => negb (touches_override uid o)) ops = true ->
  mOverrideUids (run_ops ops p).1 !! uid = mOverrideUids p !! uid.
Proof.
  revert p. induction ops as [|o ops IH]; intros p Hops; [done|].
  simpl in Hops. apply andb_true_iff in Hops as [Ho Hops].
  apply negb_true_iff in Ho. cbn [run].
  pose proof (apply_op_override o p uid Ho) as H1.
  destruct (apply o p) as [p1 n1]. specialize (IH p1 Hops).
  destruct (run_ops ops p1) as [p2 n2]. cbn [fst] in *. congruence.
Qed.

(** X1.  An override decides: once [addOverrideUid uid active] has run, an
    application uid is reported active or idle as the override says, whatever
    the activity manager reports afterwards about any uid, for as long as no
    command sets or clears the override of that uid. *)
Theorem override_outlives_callbacks p uid active ops :
  FIRST_APPLICATION_UID <= uid ->
  forallb (fun o => negb (touches_override uid o)) ops = true ->
  active_in (run_ops ops (addOverrideUid FIRST_APPLICATION_UID service uid active p).1).1 uid
  = active.
Proof.
  intros Huid Hops. rewrite isUidActive_app by done.
  rewrite run_override by done. simpl. by rewrite lookup_insert_eq.
Qed.

(** X2.  Clearing an override undoes setting it: for a uid that had no
    override, [addOverrideUid] followed by [removeOverrideUid] leaves the
    policy as it was, and the service, if it was told anything, was last told
    the state the uid had to begin with. *)
Theorem removeOverrideUid_undoes_add p uid active :
  mOverrideUids p !! uid = None ->
  let step1 := addOverrideUid FIRST_APPLICATION_UID service uid active p in
  let step2 := removeOverrideUid FIRST_APPLICATION_UID service uid step1.1 in
  step2.1 = p
  /\ (forall state, last_told uid (step1.2 ++ step2.2) = Some state ->
        state = if active_in p uid then UID_STATE_ACTIVE else UID_STATE_IDLE).
Proof.
  intros Hnone. cbv zeta. split.
  - unfold removeOverrideUid, addOverrideUid, updateOverrideUid. cbn [fst mOverrideUids mActiveUids].
    destruct p as [act ovr]. simpl in *. f_equal.
    rewrite delete_insert_eq, (delete_id ovr), (delete_id ovr); done.
  - intros state. unfold removeOverrideUid, addOverrideUid, updateOverrideUid.
    cbn [fst snd mOverrideUids mActiveUids].
    unfold isUidActive, isUidActiveLocked. cbn [mOverrideUids mActiveUids].
    rewrite !lookup_insert_eq, !lookup_delete_eq, ?Hnone.
    unfold notify, last_told.
    destruct (uid <? FIRST_APPLICATION_UID); [done|].
    destruct service, active, (bool_decide (uid ∈ mActiveUids p)); simpl;
      rewrite ?bool_decide_eq_true_2 by done; simpl; congruence.
Qed.

Lemma updateOverrideUid_told uid active insert p u :
  let r := updateOverrideUid FIRST_APPLICATION_UID service uid active insert p in
  (service = true -> List.filter (fun x => bool_decide (x.1 = u)) r.2 = [] ->
     active_in r.1 u = active_in p u)
  /\ (forall state, last_told u r.2 = Some state -> state = state_of (active_in r.1 u)).
Proof.
  cbv zeta. unfold updateOverrideUid, last_told, notify, isUidActive, isUidActiveLocked.
  cbn [fst snd mOverrideUids mActiveUids].
  set (ovr := if insert then _ else _).
  destruct (decide (uid = u)) as [->|Hne].
  - destruct (u <? FIRST_APPLICATION_UID); [by destruct service|].
    destruct (mOverrideUids p !! u) as [[]|], (ovr !! u) as [[]|],
      (bool_decide (u ∈ mActiveUids p)), service; simpl;
      rewrite ?bool_decide_eq_true_2 by done; simpl; split; intros; congruence.
  - assert (ovr !! u = mOverrideUids p !! u) as ->.
    { subst ovr. destruct insert; by rewrite ?lookup_insert_ne, lookup_delete_ne. }
    split; [done|]. intros state.
    destruct (negb _); [|done]. destruct service; [|done]. simpl.
    by rewrite bool_decide_eq_false_2.
Qed.

Lemma override_op_told o p u :
  is_override_op o = true ->
  (service = true -> List.filter (fun x => bool_decide (x.1 = u)) (apply o p).2 = [] ->
     active_in (apply o p).1 u = active_in p u)
  /\ (forall state, last_told u (apply o p).2 = Some state ->
        state = state_of (active_in (apply o p).1 u)).
Proof.
  destruct o as [uid|uid|uid|uid a|uid]; try done; intros _; apply updateOverrideUid_told.
Qed.

Lemma override_run_untold ops p u :
  service = true ->
  forallb is_override_op ops = true ->
  List.filter (fun x => bool_decide (x.1 = u)) (run_ops ops p).2 = [] ->
  active_in (run_ops ops p).1 u = active_in p u.
Proof.
  intros Hs. revert p. induction ops as [|o ops IH]; intros p Hops Hn; [done|].
  simpl in Hops. apply andb_true_iff in Hops as [Ho Hops]. cbn [run] in *.
  destruct (override_op_told o p u Ho) as [H1 _].
  destruct (apply o p) as [p1 n1]. specialize (IH p1 Hops).
  destruct (run_ops ops p1) as [p2 n2]. cbn [fst snd] in *.
  rewrite List.filter_app in Hn. apply app_nil in Hn as [Hn1 Hn2].
  rewrite IH by done. by apply H1.
Qed.

Lemma override_op_exact o p :
  is_override_op o = true ->
  (apply o p).2
  = if service && negb (eqb (active_in p (uid_of o)) (active_in (apply o p).1 (uid_of o)))
    then [(uid_of o, state_of (active_in (apply o p).1 (uid_of o)))]
    else [].
Proof.
  assert (forall uid active insert,
            let r := updateOverrideUid FIRST_APPLICATION_UID service uid active insert p in
            r.2 = if service && negb (eqb (active_in p uid) (active_in r.1 uid))
                  then [(uid, state_of (active_in r.1 uid))] else []) as Hupdate.
  { intros uid active insert. cbv zeta.
    unfold updateOverrideUid, notify, isUidActive, state_of. cbn [fst snd].
    set (was := isUidActiveLocked _ p uid). set (isA := isUidActiveLocked _ _ uid).
    assert ((uid <? FIRST_APPLICATION_UID) = true -> was = true /\ isA = true) as Hlow.
    { intros Hu. subst was isA. unfold isUidActiveLocked. by rewrite Hu. }
    clearbody was isA.
    destruct (uid <? FIRST_APPLICATION_UID).
    - destruct Hlow as [-> ->]; [done|]. by destruct service.
    - by destruct service, (negb (eqb was isA)). }
  destruct o as [uid|uid|uid|uid a|uid]; try done; intros _; apply Hupdate.
Qed.

(** X3.  Override commands keep the service informed and tell it nothing
    else.  Each [addOverrideUid] or [removeOverrideUid] makes one call of
    [onUidStateChanged], for its uid and with the state the policy now
    reports, when that state differs from the one reported before the
    command and the service can be promoted, and makes no call otherwise.
    So over any run of these commands, what the service was last told about
    a uid is the state the policy reports for it at the end, and a uid it
    was told nothing about is reported as it was before the run. *)
Theorem override_commands_keep_service_informed ops p uid :
  forallb is_override_op ops = true ->
  (forall o q, is_override_op o = true ->
     (apply o q).2
     = if service && negb (eqb (active_in q (uid_of o)) (active_in (apply o q).1 (uid_of o)))
       then [(uid_of o, state_of (active_in (apply o q).1 (uid_of o)))]
       else [])
  /\ match last_told uid (run_ops ops p).2 with
     | Some state => state = state_of (active_in (run_ops ops p).1 uid)
     | None => service = true -> active_in (run_ops ops p).1 uid = active_in p uid
     end.
Proof.
  intros Hops. split; [intros o q; apply override_op_exact|].
  revert p. induction ops as [|o ops IH]; intros p; [done|].
  simpl in Hops. apply andb_true_iff in Hops as [Ho Hops]. cbn [run] in *.
  destruct (override_op_told o p uid Ho) as [H0 H1].
  destruct (apply o p) as [p1 n1] eqn:Hstep. specialize (IH Hops p1).
  pose proof (override_run_untold ops p1 uid) as Hun.
  destruct (run_ops ops p1) as [p2 n2]. cbn [fst snd] in *.
  unfold last_told in *. rewrite List.filter_app, last_app.
  destruct (last (List.filter _ n2)) as [y|] eqn:Hlast; [exact IH|].
  cbn [fmap option_fmap option_map] in IH.
  apply last_None in Hlast.
  destruct (last (List.filter _ n1)) as [y|] eqn:Hlast1.
  - cbn [fmap option_fmap option_map].
    destruct service eqn:Hs.
    + rewrite Hun by done. by apply H1.
    + clear -Hlast1 Hstep Ho. exfalso.
      destruct o as [u|u|u|u a|u]; try done; simpl in Hstep;
        unfold updateOverrideUid, notify in Hstep; injection Hstep as _ <-;
        by destruct (negb _).
  - cbn [fmap option_fmap option_map]. intros Hs. apply last_None in Hlast1.
    rewrite IH by done. by apply H0.
Qed.

End UidPolicyFacts.

Lemma override_outlives_callbacks_witness :
  UidPolicy.isUidActive 10000
    (UidPolicy.run 10000 true
       [UidPolicy.op_onUidActive 10050; UidPolicy.op_onUidIdle 10050;
        UidPolicy.op_addOverrideUid 10051 true]
       (UidPolicy.addOverrideUid 10000 true 10050 false UidPolicy.empty).1).1 10050
  = false.
Proof.
  apply (override_outlives_callbacks 10000 true UidPolicy.empty 10050 false); [lia|].
  vm_compute. reflexivity.
Defined.

Lemma removeOverrideUid_undoes_add_witness :
  (UidPolicy.removeOverrideUid 10000 true 10050
     (UidPolicy.addOverrideUid 10000 true 10050 true UidPolicy.empty).1).1
  = UidPolicy.empty.
Proof.
  exact (proj1 (removeOverrideUid_undoes_add 10000 true UidPolicy.empty 10050 true
                  (lookup_empty 10050))).
Defined.

Lemma override_commands_keep_service_informed_witness :
  UidPolicy.last_told 10050
    (UidPolicy.run 10000 true
       [UidPolicy.op_addOverrideUid 10050 true; UidPolicy.op_removeOverrideUid 10050]
       UidPolicy.empty).2
  = Some UidPolicy.UID_STATE_IDLE
  /\ UidPolicy.UID_STATE_IDLE
     = UidPolicy.state_of
         (UidPolicy.isUidActive 10000
            (UidPolicy.run 10000 true
               [UidPolicy.op_addOverrideUid 10050 true; UidPolicy.op_removeOverrideUid 10050]
               UidPolicy.empty).1 10050).
Proof.
  split; [vm_compute; reflexivity|].
  pose proof (proj2 (override_commands_keep_service_informed 10000 true
                       [UidPolicy.op_addOverrideUid 10050 true;
                        UidPolicy.op_removeOverrideUid 10050]
                       UidPolicy.empty 10050 eq_refl)) as H.
  vm_compute in H. exact H.
Defined.

(** ** Shell commands *)

Section ShellFacts.

Import UidPolicy Shell.

Variable FIRST_APPLICATION_UID : Z.
Variable service : bool.
Variable hasManageSensorsPermission : bool.
Variable getPackageUid : string -> Z.
Variable atoi : string -> Z.
Variable multiuser_get_uid : Z -> Z -> Z.
Variable dprintf_result : Z -> text -> Z.

Local Abbreviation shell :=
  (shellCommand FIRST_APPLICATION_UID service hasManageSensorsPermission getPackageUid atoi
     multiuser_get_uid dprintf_result).
Local Abbreviation resolve := (getUidForPackage getPackageUid multiuser_get_uid dprintf_result).

Implicit Types (st : state) (args : list string).

Lemma getUidForPackage_state packageName userId err st :
  policy (resolve packageName userId err st).2 = policy st
  /\ mHtRestricted (resolve packageName userId err st).2 = mHtRestricted st
  /\ told (resolve packageName userId err st).2 = told st.
Proof.
  unfold getUidForPackage.
  destruct (_ <=? 0); [done|]. by destruct (userId <? 0).
Qed.

Lemma getUidForPackage_ok packageName userId err st :
  0 < as_uid_t (getPackageUid packageName) -> 0 <= userId ->
  resolve packageName userId err st
  = (Service.NO_ERROR, multiuser_get_uid userId (as_uid_t (getPackageUid packageName)), st).
Proof.
  intros Huid Huser. unfold getUidForPackage.
  rewrite (proj2 (Z.leb_gt _ _)) by done. by rewrite (proj2 (Z.ltb_ge _ _)).
Qed.

Lemma isUidActive_addOverrideUid p uid active :
  isUidActive FIRST_APPLICATION_UID
    (addOverrideUid FIRST_APPLICATION_UID service uid active p).1 uid
  = active || (uid <? FIRST_APPLICATION_UID).
Proof.
  unfold isUidActive, isUidActiveLocked. simpl. rewrite lookup_insert_eq.
  destruct (uid <? FIRST_APPLICATION_UID); [by rewrite orb_true_r|by rewrite orb_false_r].
Qed.

(** X4.  A command that does not return [NO_ERROR] has changed nothing of the
    service: the uid policy and the head-tracker restriction are as before,
    and the service was told nothing.  In particular a caller without the
    MANAGE_SENSORS permission, an empty argument list, a bad file descriptor,
    an unknown command, a wrong argument count, an unknown package and a
    negative user id all leave the service alone. *)
Theorem shellCommand_failure_changes_nothing in_ out err args st :
  (shell in_ out err args st).1 <> Service.NO_ERROR ->
  policy (shell in_ out err args st).2 = policy st
  /\ mHtRestricted (shell in_ out err args st).2 = mHtRestricted st
  /\ told (shell in_ out err args st).2 = told st.
Proof.
  unfold shellCommand.
  destruct (negb hasManageSensorsPermission); [done|].
  destruct (length args =? 0)%nat; [done|].
  destruct ((in_ =? BAD_TYPE) || (out =? BAD_TYPE) || (err =? BAD_TYPE)); [done|].
  destruct (String.eqb (arg args 0) "set-uid-state").
  { unfold handleSetUidState.
    destruct (negb _); [done|]. destruct (negb _ && negb _); [done|].
    match goal with |- context [resolve ?p ?u err st] =>
      pose proof (getUidForPackage_state p u err st) as Hres;
      destruct (resolve p u err st) as [[status uid] st1] end.
    cbn [snd] in Hres. by destruct (negb (status =? Service.NO_ERROR)). }
  destruct (String.eqb (arg args 0) "reset-uid-state").
  { unfold handleResetUidState.
    destruct (negb _); [done|].
    match goal with |- context [resolve ?p ?u err st] =>
      pose proof (getUidForPackage_state p u err st) as Hres;
      destruct (resolve p u err st) as [[status uid] st1] end.
    cbn [snd] in Hres. by destruct (status =? Service.BAD_VALUE). }
  destruct (String.eqb (arg args 0) "get-uid-state").
  { unfold handleGetUidState.
    destruct (negb _); [done|].
    match goal with |- context [resolve ?p ?u err st] =>
      pose proof (getUidForPackage_state p u err st) as Hres;
      destruct (resolve p u err st) as [[status uid] st1] end.
    cbn [snd] in Hres. destruct (status =? Service.BAD_VALUE); [done|].
    by destruct (isUidActive _ _ _). }
  destruct (String.eqb (arg args 0) "unrestrict-ht"); [done|].
  destruct (String.eqb (arg args 0) "restrict-ht"); [done|].
  by destruct (_ && _).
Qed.

(** X5.  [set-uid-state] is what [get-uid-state] reads back: after a
    successful [set-uid-state PACKAGE active|idle], [get-uid-state] for the
    same package and user prints the state that was set, unless the uid is
    below [FIRST_APPLICATION_UID], for which it prints "active" whatever
    was set.  Reading changes nothing. *)
Theorem set_uid_state_then_get in_ out err packageName active user st :
  hasManageSensorsPermission = true ->
  in_ <> BAD_TYPE -> out <> BAD_TYPE -> err <> BAD_TYPE ->
  0 < as_uid_t (getPackageUid packageName) ->
  0 <= user_of atoi user ->
  let uid := multiuser_get_uid (user_of atoi user) (as_uid_t (getPackageUid packageName)) in
  let set := shell in_ out err
               (["set-uid-state"; packageName; state_word active] ++ user_option user) st in
  let get := shell in_ out err (["get-uid-state"; packageName] ++ user_option user) set.2 in
  set.1 = Service.NO_ERROR
  /\ printed out set.2 get.2
     = [if active || (uid <? FIRST_APPLICATION_UID) then active_text else idle_text]
  /\ policy get.2 = policy set.2.
Proof.
  intros -> Hin Hout Herr Hpkg Huser. cbv zeta.
  apply Z.eqb_neq in Hin, Hout, Herr.
  set (uid := multiuser_get_uid _ _).
  assert (forall st0, resolve packageName (user_of atoi user) err st0
                      = (Service.NO_ERROR, uid, st0)) as Hres
    by (intros; by apply getUidForPackage_ok).
  unfold shellCommand. rewrite Hin, Hout, Herr.
  destruct user as [u|], active; cbn -[resolve isUidActive addOverrideUid];
    rewrite !Hres; cbn -[isUidActive addOverrideUid].
  all: rewrite isUidActive_addOverrideUid; split; [done|].
  all: destruct (uid <? FIRST_APPLICATION_UID); simpl;
    rewrite ?drop_app_length; simpl; rewrite ?Z.eqb_refl; done.
Qed.

End ShellFacts.

Lemma shellCommand_failure_changes_nothing_witness :
  Shell.policy
    (Shell.shellCommand 10000 true false Shell.example_getPackageUid Shell.example_atoi
       Shell.example_multiuser_get_uid Shell.example_dprintf_result 0 1 2
       ["set-uid-state"; "com.example.app"; "idle"] Shell.example_state).2
  = Shell.policy Shell.example_state.
Proof.
  apply (shellCommand_failure_changes_nothing 10000 true false Shell.example_getPackageUid
           Shell.example_atoi Shell.example_multiuser_get_uid Shell.example_dprintf_result
           0 1 2 ["set-uid-state"; "com.example.app"; "idle"] Shell.example_state).
  vm_compute. discriminate.
Defined.

Lemma set_uid_state_then_get_witness :
  Shell.printed 1
    (Shell.shellCommand 10000 true true Shell.example_getPackageUid Shell.example_atoi
       Shell.example_multiuser_get_uid Shell.example_dprintf_result 0 1 2
       (["set-uid-state"; "com.example.app"; Shell.state_word false]
          ++ Shell.user_option (Some "10")) Shell.example_state).2
    (Shell.shellCommand 10000 true true Shell.example_getPackageUid Shell.example_atoi
       Shell.example_multiuser_get_uid Shell.example_dprintf_result 0 1 2
       (["get-uid-state"; "com.example.app"] ++ Shell.user_option (Some "10"))
       (Shell.shellCommand 10000 true true Shell.example_getPackageUid Shell.example_atoi
          Shell.example_multiuser_get_uid Shell.example_dprintf_result 0 1 2
          (["set-uid-state"; "com.example.app"; Shell.state_word false]
             ++ Shell.user_option (Some "10")) Shell.example_state).2).2
  = [Shell.idle_text].
Proof.
  refine (proj1 (proj2 (set_uid_state_then_get 10000 true true Shell.example_getPackageUid
            Shell.example_atoi Shell.example_multiuser_get_uid Shell.example_dprintf_result
            0 1 2 "com.example.app" false (Some "10") Shell.example_state
            eq_refl _ _ _ _ _)));
    vm_compute; congruence.
Defined.

(** ** The target SDK cache *)

Section TargetSdkFacts.

Import TargetSdk.

Implicit Types (pm : string -> pm_answer) (c : cache).

(** X6.  The first answer sticks: once [getTargetSdkVersion] has been asked
    about a package, asking again returns the same version without another
    lookup and leaves the cache alone, whatever the package manager would
    answer by then.  A lookup that failed is thus remembered as -1. *)
Theorem getTargetSdkVersion_cached pm1 pm2 opPackageName c :
  getTargetSdkVersion pm2 opPackageName (getTargetSdkVersion pm1 opPackageName c).1.2
  = ((getTargetSdkVersion pm1 opPackageName c).1.1,
     (getTargetSdkVersion pm1 opPackageName c).1.2, []).
Proof.
  unfold getTargetSdkVersion.
  destruct (String.prefix _ _ && _); cbn [fst snd]; [done|].
  destruct (c !! opPackageName) as [v|] eqn:Hc; cbn [fst snd].
  - by rewrite Hc.
  - by rewrite lookup_insert_eq.
Qed.

(** X7.  [resetTargetSdkVersionCache] makes the next [getTargetSdkVersion]
    of that package ask the package manager again and return its present
    answer; what is cached for other packages is served as before. *)
Theorem resetTargetSdkVersionCache_refreshes pm opPackageName c :
  isVNDK opPackageName = false ->
  getTargetSdkVersion pm opPackageName (resetTargetSdkVersionCache opPackageName c)
  = (looked_up (pm opPackageName), <[opPackageName := looked_up (pm opPackageName)]> c,
     [opPackageName])
  /\ (forall pm' other, other <> opPackageName ->
        getTargetSdkVersion pm' other (resetTargetSdkVersionCache opPackageName c)
        = ((getTargetSdkVersion pm' other c).1.1,
           resetTargetSdkVersionCache opPackageName (getTargetSdkVersion pm' other c).1.2,
           (getTargetSdkVersion pm' other c).2)).
Proof.
  unfold isVNDK. intros Hv. split.
  - unfold getTargetSdkVersion, resetTargetSdkVersionCache. rewrite Hv.
    destruct (c !! opPackageName) as [v|] eqn:Hc.
    + by rewrite lookup_delete_eq, insert_delete_eq.
    + by rewrite Hc.
  - intros pm' other Hne.
    assert (resetTargetSdkVersionCache opPackageName c !! other = c !! other) as Hother.
    { unfold resetTargetSdkVersionCache. destruct (c !! opPackageName); [|done].
      by rewrite lookup_delete_ne. }
    unfold getTargetSdkVersion. clear Hv.
    destruct (String.prefix _ other && _); [done|].
    rewrite Hother. destruct (c !! other) as [v|] eqn:Hc; cbn [fst snd]; [done|].
    f_equal. f_equal. unfold resetTargetSdkVersionCache.
    rewrite lookup_insert_ne by done.
    destruct (c !! opPackageName); [|done]. by rewrite delete_insert_ne.
Qed.

End TargetSdkFacts.

Lemma resetTargetSdkVersionCache_refreshes_witness :
  TargetSdk.getTargetSdkVersion (TargetSdk.example_pm 34) "com.example.app"
    (TargetSdk.resetTargetSdkVersionCache "com.example.app" {["com.example.app" := 28]})
  = (TargetSdk.looked_up (TargetSdk.example_pm 34 "com.example.app"),
     <["com.example.app" := TargetSdk.looked_up (TargetSdk.example_pm 34 "com.example.app")]>
       {["com.example.app" := 28]},
     ["com.example.app"]).
Proof.
  apply (resetTargetSdkVersionCache_refreshes (TargetSdk.example_pm 34) "com.example.app"
           {["com.example.app" := 28]}).
  vm_compute. reflexivity.
Defined.

(** ** Proximity listeners *)

Section ProximityFacts.

Import Proximity.

Implicit Types (st : state) (cb : nat) (listeners : list nat) (o : op) (ops : list op).

Lemma existsb_eqb_elem_of cb listeners :
  existsb (Nat.eqb cb) listeners = true <-> cb ∈ listeners.
Proof.
  induction listeners as [|x rest IH]; simpl.
  - split; [done|]. by intros ?%elem_of_nil.
  - rewrite orb_true_iff, IH, elem_of_cons, Nat.eqb_eq. tauto.
Qed.

Lemma last_told_snoc cb threads t :
  last_told cb (threads ++ [t])
  = if existsb (Nat.eqb cb) (listenersCopy t) then Some (isActive t)
    else last_told cb threads.
Proof.
  unfold last_told. rewrite List.filter_app. simpl.
  destruct (existsb (Nat.eqb cb) (listenersCopy t)).
  - by rewrite last_snoc.
  - by rewrite app_nil_r.
Qed.

Lemma erase_first_spec cb listeners :
  match erase_first cb listeners with
  | Some rest => cb ∈ listeners
                 /\ (forall x, x ∈ rest -> x ∈ listeners)
                 /\ (forall x, x <> cb -> x ∈ listeners -> x ∈ rest)
                 /\ (NoDup listeners -> NoDup rest /\ cb ∉ rest)
  | None => cb ∉ listeners
  end.
Proof.
  induction listeners as [|x rest IH]; simpl; [by intros ?%elem_of_nil|].
  destruct (Nat.eqb x cb) eqn:Hx.
  - apply Nat.eqb_eq in Hx as ->. split; [left|]. split; [by right|].
    split; [by intros x Hne [?|?]%elem_of_cons|].
    intros [? ?]%NoDup_cons. done.
  - apply Nat.eqb_neq in Hx. destruct (erase_first cb rest) as [rest'|].
    + destruct IH as (Hin & Hsub & Hkeep & Hnd). split; [by right|]. split; [|split].
      * intros y [->|?]%elem_of_cons; [left|right; by apply Hsub].
      * intros y Hne [->|?]%elem_of_cons; [left|right; by apply Hkeep].
      * intros [Hnx Hrest]%NoDup_cons. destruct (Hnd Hrest) as [Hnd' Hnot].
        split.
        -- apply NoDup_cons. split; [|done]. intros ?. by apply Hnx, Hsub.
        -- intros [?|?]%elem_of_cons; [by apply Hx|done].
    + intros [?|?]%elem_of_cons; [by apply Hx|done].
Qed.

Lemma listeners_informed_apply o st :
  listeners_informed st -> listeners_informed (apply_op o st).
Proof.
  intros Hinv. destruct o as [[cb|]|[cb|]|isSensorActive]; simpl; try done.
  - destruct (existsb (Nat.eqb cb) (mProximityActiveListeners st)) eqn:Hin; [done|].
    intros cb'. simpl. rewrite last_told_snoc. simpl.
    intros [Hold| ->%list_elem_of_singleton]%elem_of_app.
    + rewrite orb_false_r. destruct (Nat.eqb cb' cb) eqn:Heq; [|by apply Hinv].
      apply Nat.eqb_eq in Heq as ->.
      apply existsb_eqb_elem_of in Hold. congruence.
    + by rewrite Nat.eqb_refl.
  - pose proof (erase_first_spec cb (mProximityActiveListeners st)) as Hspec.
    destruct (erase_first cb (mProximityActiveListeners st)) as [rest|]; [|done].
    intros cb' Hin. simpl in *. apply Hinv. by apply Hspec.
  - unfold checkAndReportProxStateChangeLocked.
    destruct (mProxSensorHandles st) as [|h handles] eqn:Hh; [done|].
    destruct (negb _); [|done].
    intros cb Hin. simpl in *. rewrite last_told_snoc. simpl.
    by rewrite (proj2 (existsb_eqb_elem_of cb _) Hin).
Qed.

(** X8.  Every registered proximity listener is up to date: in any state
    reached by adding and removing listeners and by checks of the proximity
    sensors, whatever the device answers, each registered listener was last
    told the activity state that the service last reported.  A listener is
    told the current state when it is added, and every change after that. *)
Theorem proximity_listeners_informed ops st :
  listeners_informed st -> listeners_informed (run ops st).
Proof.
  revert st. induction ops as [|o ops IH]; intros st Hinv; [done|].
  apply IH. by apply listeners_informed_apply.
Qed.

(** X9.  Listeners are registered at most once.  On a list without
    duplicates, adding a listener answers [ALREADY_EXISTS] and changes
    nothing exactly when it is registered, and otherwise registers it;
    removing one answers [NAME_NOT_FOUND] and changes nothing exactly when it
    is not registered, and otherwise unregisters it and no other; either way
    the list stays without duplicates. *)
Theorem proximity_listeners_registered_once cb st :
  NoDup (mProximityActiveListeners st) ->
  let added := addProximityActiveListener (Some cb) st in
  let removed := removeProximityActiveListener (Some cb) st in
  (added.1 = (if bool_decide (cb ∈ mProximityActiveListeners st)
              then ALREADY_EXISTS else OK)
   /\ (cb ∈ mProximityActiveListeners st -> added.2 = st)
   /\ cb ∈ mProximityActiveListeners added.2
   /\ NoDup (mProximityActiveListeners added.2))
  /\ (removed.1 = (if bool_decide (cb ∈ mProximityActiveListeners st)
                   then OK else NAME_NOT_FOUND)
      /\ (cb ∉ mProximityActiveListeners st -> removed.2 = st)
      /\ (cb ∉ mProximityActiveListeners removed.2)
      /\ (forall x, x <> cb ->
            x ∈ mProximityActiveListeners removed.2 <-> x ∈ mProximityActiveListeners st)
      /\ NoDup (mProximityActiveListeners removed.2)).
Proof.
  intros Hnd. cbv zeta. split.
  - unfold addProximityActiveListener.
    destruct (existsb (Nat.eqb cb) (mProximityActiveListeners st)) eqn:Hin.
    + apply existsb_eqb_elem_of in Hin. by rewrite bool_decide_eq_true_2.
    + assert (cb ∉ mProximityActiveListeners st) as Hnot.
      { intros ?%existsb_eqb_elem_of. congruence. }
      rewrite bool_decide_eq_false_2 by done. simpl. split; [done|]. split; [done|].
      split; [apply elem_of_app; right; left|].
      apply NoDup_app. split; [done|]. split; [|apply NoDup_singleton].
      by intros x ? ->%list_elem_of_singleton.
  - unfold removeProximityActiveListener.
    pose proof (erase_first_spec cb (mProximityActiveListeners st)) as Hspec.
    destruct (erase_first cb (mProximityActiveListeners st)) as [rest|]; simpl.
    + destruct Hspec as (Hin & Hsub & Hkeep & Hdup). destruct (Hdup Hnd) as [Hnd' Hnot].
      rewrite bool_decide_eq_true_2 by done. split; [done|]. split; [done|].
      split; [done|]. split; [|done]. intros x Hne. split; [apply Hsub|by apply Hkeep].
    + by rewrite bool_decide_eq_false_2.
Qed.

End ProximityFacts.

Lemma proximity_listeners_informed_witness :
  Proximity.listeners_informed
    (Proximity.run
       [Proximity.op_add (Some 1%nat); Proximity.op_check (fun h => h =? 8);
        Proximity.op_add (Some 2%nat); Proximity.op_remove (Some 1%nat);
        Proximity.op_check (fun _ => false)]
       (Proximity.initial [8])).
Proof.
  apply (proximity_listeners_informed _ (Proximity.initial [8])).
  intros cb Hin. by apply elem_of_nil in Hin.
Defined.

Lemma proximity_listeners_registered_once_witness :
  (Proximity.addProximityActiveListener (Some 1%nat)
     (Proximity.addProximityActiveListener (Some 1%nat) (Proximity.initial [8])).2).1
  = Proximity.ALREADY_EXISTS.
Proof.
  refine (proj1 (proj1 (proximity_listeners_registered_once 1%nat
            (Proximity.addProximityActiveListener (Some 1%nat) (Proximity.initial [8])).2
            _))).
  simpl. apply NoDup_singleton.
Defined.

(** ** setOperationParameter *)

Section OperationParameterFacts.

Import OperationParameter.

Variable float : Type.
Variable AINFO_BEGIN : Z.
Variable AINFO_END : Z.
Variable AINFO_LOCAL_GEOMAGNETIC_FIELD : Z.
Variable AINFO_LOCAL_GRAVITY : Z.
Variable AINFO_DOCK_STATE : Z.
Variable AINFO_HIGH_PERFORMANCE_MODE : Z.
Variable AINFO_MAGNETIC_FIELD_CALIBRATION : Z.
Variable AINFO_CUSTOM_START : Z.
Variable AINFO_DEBUGGING_START : Z.
Variable data_float_capacity : nat.
Variable hasLocationHardwarePermission : bool.
Variable now : Z.
Variable injectSensorData : info_event float -> Z.

Local Abbreviation set_parameter :=
  (setOperationParameter float AINFO_BEGIN AINFO_END AINFO_LOCAL_GEOMAGNETIC_FIELD
     AINFO_LOCAL_GRAVITY AINFO_DOCK_STATE AINFO_HIGH_PERFORMANCE_MODE
     AINFO_MAGNETIC_FIELD_CALIBRATION AINFO_CUSTOM_START AINFO_DEBUGGING_START
     data_float_capacity hasLocationHardwarePermission now injectSensorData).
Local Abbreviation three_frames := (frames float AINFO_BEGIN AINFO_END now).
Local Abbreviation inject_all := (injectAll float injectSensorData).

Lemma injectAll_spec events :
  (inject_all events).2 `prefix_of` events
  /\ ((inject_all events).1 = Service.NO_ERROR ->
      (inject_all events).2 = events
      /\ Forall (fun e => injectSensorData e = Service.NO_ERROR) events)
  /\ ((inject_all events).1 <> Service.NO_ERROR ->
      exists e, last (inject_all events).2 = Some e
                /\ injectSensorData e = (inject_all events).1).
Proof.
  induction events as [|e rest IH]; simpl.
  - split; [done|]. split; [done|]. by intros [].
  - destruct (injectSensorData e =? Service.NO_ERROR) eqn:He; simpl.
    + apply Z.eqb_eq in He. destruct (inject_all rest) as [status injected].
      simpl in *. destruct IH as (Hpre & Hok & Hfail). split; [|split].
      * by apply prefix_cons.
      * intros Hs. destruct (Hok Hs) as [-> Hall]. split; [done|]. by constructor.
      * intros Hs. destruct (Hfail Hs) as (e' & Hlast & He'). exists e'. split; [|done].
        destruct injected; [done|]. by rewrite last_cons_cons.
    + apply Z.eqb_neq in He. split; [by apply prefix_cons, prefix_nil|].
      split; [done|]. intros _. by exists e.
Qed.

Lemma injectAll_nonempty e rest : (inject_all (e :: rest)).2 <> [].
Proof.
  simpl. destruct (injectSensorData e =? Service.NO_ERROR); simpl;
    [by destruct (inject_all rest)|done].
Qed.

Lemma injectAll_before_last events handed e :
  (inject_all events).2 = handed ++ [e] ->
  Forall (fun e' => injectSensorData e' = Service.NO_ERROR) handed.
Proof.
  revert handed. induction events as [|e0 rest IH]; intros handed; simpl.
  - by destruct handed.
  - destruct (injectSensorData e0 =? Service.NO_ERROR) eqn:He; simpl.
    + apply Z.eqb_eq in He. destruct (inject_all rest) as [status injected]. simpl in *.
      destruct handed as [|e1 handed]; [by constructor|].
      intros [= <- Hrest]. constructor; [done|]. by apply IH.
    + destruct handed as [|e1 [|e2 handed]]; [by constructor|done|done].
Qed.

(** X10.  What reaches the device is framed: [setOperationParameter] hands
    the device nothing, or the begin tag, the payload and the end tag in that
    order and with consecutive timestamps, stopping at the first frame the
    device refuses.  It returns [NO_ERROR] only when the device accepted all
    three frames, and otherwise, once a frame was handed over, the status
    with which the device refused the last one; every frame handed over
    before the last one was accepted, and nothing is handed over only when
    the call is refused with [PERMISSION_DENIED] or [BAD_VALUE]. *)
Theorem setOperationParameter_framed handle type floats ints :
  exists data,
    (set_parameter handle type floats ints).2 `prefix_of` three_frames handle type data
    /\ ((set_parameter handle type floats ints).1 = Service.NO_ERROR ->
        (set_parameter handle type floats ints).2 = three_frames handle type data
        /\ Forall (fun e => injectSensorData e = Service.NO_ERROR)
             (three_frames handle type data))
    /\ (forall e, last (set_parameter handle type floats ints).2 = Some e ->
        injectSensorData e = (set_parameter handle type floats ints).1)
    /\ (forall handed e, (set_parameter handle type floats ints).2 = handed ++ [e] ->
        Forall (fun e' => injectSensorData e' = Service.NO_ERROR) handed
        /\ injectSensorData e = (set_parameter handle type floats ints).1)
    /\ ((set_parameter handle type floats ints).2 = [] ->
        (set_parameter handle type floats ints).1 = PERMISSION_DENIED
        \/ (set_parameter handle type floats ints).1 = Service.BAD_VALUE)
    /\ ((set_parameter handle type floats ints).2 <> [] ->
        data = data_float floats \/ data = data_int32 ints).
Proof.
  unfold setOperationParameter.
  assert (forall data st, st = PERMISSION_DENIED \/ st = Service.BAD_VALUE ->
            ([] : list (info_event float)) `prefix_of` three_frames handle type data
            /\ (st = Service.NO_ERROR ->
                [] = three_frames handle type data
                /\ Forall (fun e => injectSensorData e = Service.NO_ERROR)
                     (three_frames handle type data))
            /\ (forall e, last ([] : list (info_event float)) = Some e ->
                  injectSensorData e = st)
            /\ (forall handed e, ([] : list (info_event float)) = handed ++ [e] ->
                  Forall (fun e' => injectSensorData e' = Service.NO_ERROR) handed
                  /\ injectSensorData e = st)
            /\ (([] : list (info_event float)) = [] ->
                st = PERMISSION_DENIED \/ st = Service.BAD_VALUE)
            /\ (([] : list (info_event float)) <> [] ->
                data = data_float floats \/ data = data_int32 ints)) as Hrejected.
  { intros data st Hst. split; [apply prefix_nil|].
    split; [by intros ->; destruct Hst|]. split; [done|].
    split; [|done]. intros handed e He. by destruct handed. }
  assert (forall data,
            (inject_all (three_frames handle type data)).2
              `prefix_of` three_frames handle type data
            /\ ((inject_all (three_frames handle type data)).1 = Service.NO_ERROR ->
                (inject_all (three_frames handle type data)).2 = three_frames handle type data
                /\ Forall (fun e => injectSensorData e = Service.NO_ERROR)
                     (three_frames handle type data))
            /\ (forall e, last (inject_all (three_frames handle type data)).2 = Some e ->
                  injectSensorData e = (inject_all (three_frames handle type data)).1)
            /\ (forall handed e,
                  (inject_all (three_frames handle type data)).2 = handed ++ [e] ->
                  Forall (fun e' => injectSensorData e' = Service.NO_ERROR) handed
                  /\ injectSensorData e = (inject_all (three_frames handle type data)).1)
            /\ (inject_all (three_frames handle type data)).2 <> [])
    as Hinjected.
  { intros data. destruct (injectAll_spec (three_frames handle type data))
      as (Hpre & Hok & Hfail).
    split; [done|]. split; [done|].
    enough (forall e, last (inject_all (three_frames handle type data)).2 = Some e ->
              injectSensorData e = (inject_all (three_frames handle type data)).1) as Hl.
    { split; [done|]. split.
      - intros handed e He. split; [by eapply injectAll_before_last|].
        apply Hl. by rewrite He, last_snoc.
      - apply injectAll_nonempty. }
    intros e Hlast.
    destruct (decide ((inject_all (three_frames handle type data)).1 = Service.NO_ERROR))
      as [Hs|Hs].
    - destruct (Hok Hs) as [Heq Hall]. rewrite Hs. rewrite Heq in Hlast.
      rewrite Forall_forall in Hall. apply Hall.
      apply last_Some in Hlast as [l' ->]. apply elem_of_app. right. left.
    - destruct (Hfail Hs) as (e' & Hlast' & He'). congruence. }
  destruct (negb hasLocationHardwarePermission).
  { exists no_data. apply Hrejected. by left. }
  destruct (classify _ _ _ _ _ _ _ _ _ _ _ _ _) as [[[isFloat isCustom] expectSize]|].
  2: { exists no_data. apply Hrejected. by right. }
  destruct (negb isCustom && negb (handle =? -1)).
  { exists no_data. apply Hrejected. by right. }
  destruct isFloat.
  - destruct (length floats =? expectSize)%nat eqn:Hsize; simpl.
    + apply Nat.eqb_eq in Hsize. exists (data_float floats).
      rewrite take_ge by lia. destruct (Hinjected (data_float floats)) as (? & ? & ? & ? & ?).
      split; [done|]. split; [done|]. split; [done|]. split; [done|]. split; [done|].
      by left.
    + exists no_data. apply Hrejected. by right.
  - destruct (length ints =? expectSize)%nat eqn:Hsize; simpl.
    + apply Nat.eqb_eq in Hsize. exists (data_int32 ints).
      rewrite take_ge by lia. destruct (Hinjected (data_int32 ints)) as (? & ? & ? & ? & ?).
      split; [done|]. split; [done|]. split; [done|]. split; [done|]. split; [done|].
      by right.
    + exists no_data. apply Hrejected. by right.
Qed.

(** X11.  What [setOperationParameter] accepts: it returns [NO_ERROR] only
    to a caller with the LOCATION_HARDWARE permission, for the local
    geomagnetic field only with handle -1 and three floats, for local gravity
    only with handle -1 and one float, for the dock state, the high
    performance mode and the magnetic field calibration only with handle -1
    and one int, and for any other type only if the type lies in the custom
    range, the handle is not negative, there are no ints and the floats fit
    the event. *)
Theorem setOperationParameter_accepts handle type floats ints :
  NoDup [AINFO_LOCAL_GEOMAGNETIC_FIELD; AINFO_LOCAL_GRAVITY; AINFO_DOCK_STATE;
         AINFO_HIGH_PERFORMANCE_MODE; AINFO_MAGNETIC_FIELD_CALIBRATION] ->
  (set_parameter handle type floats ints).1 = Service.NO_ERROR ->
  hasLocationHardwarePermission = true
  /\ (type = AINFO_LOCAL_GEOMAGNETIC_FIELD -> handle = -1 /\ length floats = 3%nat)
  /\ (type = AINFO_LOCAL_GRAVITY -> handle = -1 /\ length floats = 1%nat)
  /\ (type ∈ [AINFO_DOCK_STATE; AINFO_HIGH_PERFORMANCE_MODE;
              AINFO_MAGNETIC_FIELD_CALIBRATION] -> handle = -1 /\ length ints = 1%nat)
  /\ (type ∉ [AINFO_LOCAL_GEOMAGNETIC_FIELD; AINFO_LOCAL_GRAVITY; AINFO_DOCK_STATE;
              AINFO_HIGH_PERFORMANCE_MODE; AINFO_MAGNETIC_FIELD_CALIBRATION] ->
      AINFO_CUSTOM_START <= type < AINFO_DEBUGGING_START
      /\ 0 <= handle /\ ints = [] /\ (length floats <= data_float_capacity)%nat).
Proof.
  intros Hdistinct. repeat (apply NoDup_cons in Hdistinct as [? Hdistinct]).
  repeat match goal with H : _ ∉ _ |- _ => rewrite !not_elem_of_cons in H end.
  unfold setOperationParameter, classify.
  destruct hasLocationHardwarePermission; [|done]. cbn [negb].
  rewrite !not_elem_of_cons, !elem_of_cons, !elem_of_nil.
  destruct (type =? AINFO_LOCAL_GEOMAGNETIC_FIELD) eqn:E1;
    [|destruct (type =? AINFO_LOCAL_GRAVITY) eqn:E2;
      [|destruct (type =? AINFO_DOCK_STATE) eqn:E3,
                 (type =? AINFO_HIGH_PERFORMANCE_MODE) eqn:E4,
                 (type =? AINFO_MAGNETIC_FIELD_CALIBRATION) eqn:E5]];
    cbn [orb negb andb];
    rewrite ?Z.eqb_eq, ?Z.eqb_neq in *.
  all: repeat match goal with
       | |- context [if ?b then _ else _] => destruct b eqn:?
       end; cbn [fst]; intros Hs; try discriminate Hs.
  all: rewrite ?negb_true_iff, ?negb_false_iff, ?orb_false_iff in *.
  all: repeat match goal with H : _ /\ _ |- _ => destruct H end.
  all: rewrite ?negb_true_iff, ?negb_false_iff, ?Z.eqb_eq, ?Z.eqb_neq, ?Z.ltb_ge, ?Z.leb_gt,
         ?Nat.eqb_eq, ?Nat.ltb_ge in *.
  all: try (assert (ints = []) by (by destruct ints)).
  all: intuition (try lia).
Qed.


End OperationParameterFacts.

Lemma setOperationParameter_accepts_witness :
  (OperationParameter.setOperationParameter Z 0 1 196608 196609 196610 196611 196612
     268435456 1073741824 14 true 1000 OperationParameter.accept_all
     (-1) 196609 [981] []).1 = Service.NO_ERROR
  /\ (-1 = -1 /\ length [981] = 1%nat).
Proof.
  split; [vm_compute; reflexivity|].
  apply (setOperationParameter_accepts Z 0 1 196608 196609 196610 196611 196612
           268435456 1073741824 14 true 1000 OperationParameter.accept_all
           (-1) 196609 [981] []).
  - apply (bool_decide_unpack (NoDup [196608; 196609; 196610; 196611; 196612])).
    vm_compute. exact I.
  - vm_compute. reflexivity.
  - reflexivity.
Defined.

(** ** flushSensor *)

Section FlushFacts.

Import Service Requests.

Implicit Types (s : SensorService) (c : nat) (h handle : Z) (env : FlushEnv).

Lemma flushSensor_step_view env c err s handle :
  let r := flushSensor_step env c (err, s) handle in
  mSensors r.2 = mSensors s
  /\ (r.1 = NO_ERROR <-> err = NO_ERROR /\ flush_succeeds env s handle = true)
  /\ (forall h, pendingFlush r.2 h
                = pendingFlush s h
                  ++ (if bool_decide (h = handle) && flushed_on_hardware env s h
                         && bool_decide (is_Some (mActiveSensors s !! h))
                      then [c] else []))
  /\ (forall h, is_Some (mActiveSensors r.2 !! h) <-> is_Some (mActiveSensors s !! h)).
Proof.
  cbv zeta.
  assert (flushed_on_hardware env s handle = false ->
          forall s', mActiveSensors s' = mActiveSensors s ->
          (forall h, pendingFlush s' h
                     = pendingFlush s h
                       ++ (if bool_decide (h = handle) && flushed_on_hardware env s h
                              && bool_decide (is_Some (mActiveSensors s !! h))
                           then [c] else []))
          /\ (forall h, is_Some (mActiveSensors s' !! h) <-> is_Some (mActiveSensors s !! h)))
    as Hno.
  { intros Hf s' Ha. split; [|by rewrite Ha]. intros h. unfold pendingFlush. rewrite Ha.
    destruct (bool_decide (h = handle)) eqn:Hh; [|by rewrite app_nil_r].
    apply bool_decide_eq_true in Hh as ->. by rewrite Hf, app_nil_r. }
  unfold flushSensor_step.
  unfold flush_succeeds, flushed_on_hardware, isVirtualSensor in *.
  destruct (getSensorInterfaceFromHandle s handle) as [sensor|] eqn:Hsensor.
  2: { split; [done|]. split; [tauto|]. by apply Hno. }
  destruct (bool_decide (getReportingMode (getSensor sensor) = AREPORTING_MODE_ONE_SHOT))
    eqn:Hshot.
  { cbn [negb andb fst snd] in *. split; [done|].
    split; [split; [done|by intros [_ ?]]|]. by apply Hno. }
  cbn [negb andb] in *.
  destruct (halVersion_up_to_1_0 env || isVirtual sensor) eqn:Hold.
  { unfold incrementPendingFlushCountIfHasAccess. cbn [negb andb] in *.
    destruct (connectionHasAccess env); cbn [fst snd];
      (split; [done|]); (split; [split; [first [tauto|done]|by intros [? ?]]|]);
      by apply Hno. }
  cbn [negb andb] in *.
  destruct (canAccess env handle) eqn:Hacc; cbn [negb andb] in *.
  2: { split; [done|]. split; [split; [done|by intros [_ ?]]|]. by apply Hno. }
  destruct (sensor_flush_result env handle =? NO_ERROR) eqn:Hres; cbn [negb fst snd].
  - split; [done|]. split; [tauto|]. clear Hno. split.
    2: { intros h. simpl. rewrite lookup_alter.
         destruct (decide (handle = h)) as [<-|]; [|done]. by rewrite fmap_is_Some. }
    intros h. unfold pendingFlush at 1. simpl.
    rewrite lookup_alter.
    destruct (decide (handle = h)) as [<-|Hne].
    + rewrite bool_decide_eq_true_2, Hsensor, Hshot, Hold, Hacc, Hres by done.
      cbn [negb andb].
      unfold pendingFlush.
      destruct (mActiveSensors s !! handle) as [rec|] eqn:Hrec; simpl; [|done].
      by rewrite ?bool_decide_eq_true_2 by (by eexists).
    + rewrite bool_decide_eq_false_2 by done. by rewrite app_nil_r.
  - apply Z.eqb_neq in Hres. split; [done|]. split; [split; [done|by intros [_ ?]]|].
    by apply Hno.
Qed.

Lemma flush_succeeds_mSensors env s s' h :
  mSensors s' = mSensors s ->
  flush_succeeds env s' h = flush_succeeds env s h
  /\ flushed_on_hardware env s' h = flushed_on_hardware env s h.
Proof.
  intros Hs. unfold flush_succeeds, flushed_on_hardware, getSensorInterfaceFromHandle.
  by rewrite Hs.
Qed.

Lemma flushSensor_fold env c handles err s :
  NoDup handles ->
  let r := fold_left (flushSensor_step env c) handles (err, s) in
  mSensors r.2 = mSensors s
  /\ (r.1 = NO_ERROR <->
      err = NO_ERROR /\ forall h, h ∈ handles -> flush_succeeds env s h = true)
  /\ (forall h, pendingFlush r.2 h
                = pendingFlush s h
                  ++ (if bool_decide (h ∈ handles) && flushed_on_hardware env s h
                         && bool_decide (is_Some (mActiveSensors s !! h))
                      then [c] else [])).
Proof.
  revert err s. induction handles as [|handle rest IH]; intros err s Hnd; cbv zeta.
  - simpl. split; [done|]. split.
    + split; [|tauto]. intros ->. split; [done|]. by intros h ?%elem_of_nil.
    + intros h. by rewrite app_nil_r.
  - apply NoDup_cons in Hnd as [Hnot Hnd]. cbn [fold_left].
    destruct (flushSensor_step_view env c err s handle) as (Hs1 & He1 & Hp1 & Ha1).
    destruct (flushSensor_step env c (err, s) handle) as [err1 s1]. cbn [fst snd] in *.
    destruct (IH err1 s1 Hnd) as (Hs & He & Hp). split; [congruence|]. split.
    + rewrite He, He1. split.
      * intros [[-> Hh] Hrest]. split; [done|].
        intros h [->|Hin]%elem_of_cons; [done|].
        rewrite <- (proj1 (flush_succeeds_mSensors env s s1 h Hs1)). by apply Hrest.
      * intros [-> Hall]. split; [split; [done|apply Hall; left]|].
        intros h Hin. rewrite (proj1 (flush_succeeds_mSensors env s s1 h Hs1)).
        apply Hall. by right.
    + intros h. rewrite Hp, Hp1, <- app_assoc. f_equal.
      rewrite (proj2 (flush_succeeds_mSensors env s s1 h Hs1)).
      rewrite (bool_decide_ext _ _ (Ha1 h)).
      destruct (decide (h = handle)) as [->|Hne].
      * rewrite bool_decide_eq_true_2 by done.
        rewrite (bool_decide_eq_false_2 (handle ∈ rest)) by done.
        rewrite (bool_decide_eq_true_2 (handle ∈ handle :: rest)) by left.
        simpl. by rewrite app_nil_r.
      * rewrite (bool_decide_eq_false_2 (h = handle)) by done. simpl.
        rewrite (bool_decide_ext (h ∈ handle :: rest) (h ∈ rest)); [done|].
        rewrite elem_of_cons. tauto.
Qed.

Lemma getActiveSensorHandles_spec c s :
  NoDup (getActiveSensorHandles (getConn s c))
  /\ forall h, h ∈ getActiveSensorHandles (getConn s c) <-> hasSensor (getConn s c) h = true.
Proof.
  unfold getActiveSensorHandles. split; [apply NoDup_fst_map_to_list|].
  intros h. unfold hasSensor. rewrite bool_decide_eq_true, list_elem_of_fmap. split.
  - intros ([h' fi] & -> & Hin). apply elem_of_map_to_list in Hin. by eexists.
  - intros [fi Hfi]. exists (h, fi). split; [done|]. by apply elem_of_map_to_list.
Qed.

(** X12.  [flushSensor] tries every sensor of the connection and fails if
    any of them fails.  On an uninitialised service it returns [mInitCheck]
    and does nothing.  Otherwise it returns [NO_ERROR] exactly when no
    subscribed sensor is one-shot and, for each, the pending-flush count could
    be raised (old HAL or virtual sensor) or the sensor is accessible and its
    HAL flush succeeded; and whatever the status, the connection joins the
    pending-flush queue of exactly those of its sensors with an Active Sensor
    Record whose HAL flush succeeded, once each, at the tail. *)
Theorem flushSensor_spec env c s :
  (mInitCheck s <> NO_ERROR -> flushSensor env c s = (mInitCheck s, s))
  /\ (mInitCheck s = NO_ERROR ->
      ((flushSensor env c s).1 = NO_ERROR <->
       forall h, hasSensor (getConn s c) h = true -> flush_succeeds env s h = true)
      /\ (forall h, pendingFlush (flushSensor env c s).2 h
                    = pendingFlush s h
                      ++ (if hasSensor (getConn s c) h && flushed_on_hardware env s h
                             && bool_decide (is_Some (mActiveSensors s !! h))
                          then [c] else []))).
Proof.
  unfold flushSensor. split.
  - intros Hinit. by rewrite (proj2 (Z.eqb_neq _ _) Hinit).
  - intros ->. change (NO_ERROR =? NO_ERROR) with true. cbn [negb].
    destruct (getActiveSensorHandles_spec c s) as [Hnd Hin].
    destruct (flushSensor_fold env c _ NO_ERROR s Hnd) as (_ & He & Hp). split.
    + rewrite He. split.
      * intros [_ Hall] h Hh. by apply Hall, Hin.
      * intros Hall. split; [done|]. intros h Hh. by apply Hall, Hin.
    + intros h. rewrite Hp. f_equal.
      destruct (hasSensor (getConn s c) h) eqn:Hh.
      * by rewrite bool_decide_eq_true_2 by (by apply Hin).
      * rewrite bool_decide_eq_false_2; [done|]. rewrite Hin. congruence.
Qed.

Lemma mActiveSensors_removeSensorFromAll handle conns s :
  mActiveSensors (removeSensorFromAll handle conns s) = mActiveSensors s.
Proof.
  revert s. induction conns as [|c0 rest IH]; intros s; cbn [removeSensorFromAll]; [done|].
  by rewrite IH.
Qed.

Lemma mActiveSensors_registerSensor sensor isDebug isVirt device s :
  mActiveSensors (registerSensor sensor isDebug isVirt device s).2 = mActiveSensors s.
Proof.
  unfold registerSensor. destruct (SensorList_add _ _ _) as [[] l]; [|done].
  cbn [snd]. by destruct (mRecentEvent _ !! _).
Qed.

(** The queue of flush waiters of [h] is what the loop pops from. *)
Lemma pop_pending_flush (queue : list nat) n :
  head queue :: (take n (Some <$> tail queue) ++ replicate (n - length (tail queue)) None)
  = take (S n) (Some <$> queue) ++ replicate (S n - length queue) None.
Proof.
  destruct queue as [|x queue]; simpl; [|done]. by rewrite take_nil, Nat.sub_0_r.
Qed.

Lemma mapFlushEventsToConnections_routed denv conns buffer h s :
  let mapped := (mapFlushEventsToConnections denv conns buffer s).1 in
  let n := length (List.filter (is_flush_complete h) buffer) in
  mapped.*1 = buffer
  /\ Forall (fun x => (type x.1 =? SENSOR_TYPE_META_DATA) = false -> x.2 = None) mapped
  /\ (List.filter (fun x => is_flush_complete h x.1) mapped).*2
     = take n (Some <$> pendingFlush s h) ++ replicate (n - length (pendingFlush s h)) None.
Proof.
  cbv zeta. revert s. induction buffer as [|e rest IH]; intros s.
  { done. }
  cbn [mapFlushEventsToConnections].
  set (d := if type e =? SENSOR_TYPE_META_DATA then _ else (None, s)).
  assert (((type e =? SENSOR_TYPE_META_DATA) = false -> d.1 = None)
          /\ (is_flush_complete h e = true -> d.1 = head (pendingFlush s h))
          /\ pendingFlush d.2 h
             = (if is_flush_complete h e then tail (pendingFlush s h)
                else pendingFlush s h)) as (Hother & Hhead & Hqueue).
  { subst d. unfold is_flush_complete.
    destruct (type e =? SENSOR_TYPE_META_DATA); [|done]. cbn [andb].
    split; [done|]. unfold pendingFlush.
    destruct (meta_data_sensor e =? h) eqn:Hh;
      [apply Z.eqb_eq in Hh as ->|apply Z.eqb_neq in Hh].
    - destruct (mActiveSensors s !! h) as [rec|] eqn:Hrec; cbn [fst snd]; [|by rewrite Hrec].
      split; [done|]. simpl. by rewrite lookup_insert_eq.
    - split; [done|].
      destruct (mActiveSensors s !! meta_data_sensor e) as [rec|]; cbn [snd]; [|done].
      simpl. by rewrite lookup_insert_ne. }
  destruct d as [dest s1]. cbn [fst snd] in Hother, Hhead, Hqueue.
  set (s2 := if type e =? SENSOR_TYPE_DYNAMIC_SENSOR_META then _ else s1).
  assert (mActiveSensors s2 = mActiveSensors s1) as Hkept.
  { subst s2. destruct (type e =? SENSOR_TYPE_DYNAMIC_SENSOR_META); [|done].
    destruct (dynamic_sensor_meta_connected e).
    - unfold dynamicSensorConnected. destruct (isNewHandle _ _); [|done].
      unfold registerDynamicSensorLocked. by rewrite mActiveSensors_registerSensor.
    - assert (mActiveSensors (disconnectDynamicSensor (dynamic_sensor_meta_handle e) conns s1)
              = mActiveSensors s1) as Hdis.
      { unfold disconnectDynamicSensor. cbv zeta.
        rewrite mActiveSensors_removeSensorFromAll.
        unfold unregisterDynamicSensorLocked. by destruct (SensorList_remove _ _). }
      by destruct (sensor_service_clear_dynamic_sensor_data_at_the_end denv). }
  assert (pendingFlush s2 h = pendingFlush s1 h) as Hq2
    by (unfold pendingFlush; by rewrite Hkept).
  clearbody s2. destruct (IH s2) as (Hfst & Hnone & Hrouted).
  destruct (mapFlushEventsToConnections denv conns rest s2) as [mapped s3].
  cbn [fst snd] in *. split; [by rewrite fmap_cons, Hfst|].
  split; [by constructor|].
  cbn [List.filter fst]. rewrite Hq2, Hqueue in Hrouted.
  destruct (is_flush_complete h e) eqn:Hfc.
  - cbn [length]. rewrite fmap_cons, Hrouted. cbn [snd]. rewrite Hhead by done.
    apply pop_pending_flush.
  - exact Hrouted.
Qed.

(** X13.  Flush pairing.  After [flushSensor] by a connection, for each of
    its sensors that was flushed on the HAL and has an Active Sensor Record,
    the flush-complete events of that sensor in the batch the dispatch loop
    reads next, wherever they stand among the other events of the batch
    (samples, flush-complete events of other sensors, dynamic sensor meta
    events), are mapped first to the connections that were already waiting,
    in the order they asked, then to this connection, and any further ones
    to nobody; no event that is not a flush-complete event is mapped to a
    connection. *)
Theorem flush_complete_routed env denv conns c s h buffer :
  mInitCheck s = NO_ERROR ->
  hasSensor (getConn s c) h = true ->
  flushed_on_hardware env s h = true ->
  is_Some (mActiveSensors s !! h) ->
  let mapped := (mapFlushEventsToConnections denv conns buffer (flushSensor env c s).2).1 in
  let n := length (List.filter (is_flush_complete h) buffer) in
  mapped.*1 = buffer
  /\ Forall (fun x => (type x.1 =? SENSOR_TYPE_META_DATA) = false -> x.2 = None) mapped
  /\ (List.filter (fun x => is_flush_complete h x.1) mapped).*2
     = take n (Some <$> (pendingFlush s h ++ [c]))
       ++ replicate (n - length (pendingFlush s h ++ [c])) None.
Proof.
  intros Hinit Hsub Hflushed Hrec. cbv zeta.
  destruct (mapFlushEventsToConnections_routed denv conns buffer h (flushSensor env c s).2)
    as (Hfst & Hnone & Hrouted).
  split; [done|]. split; [done|]. rewrite Hrouted.
  unfold flushSensor. rewrite Hinit. change (NO_ERROR =? NO_ERROR) with true. cbn [negb].
  destruct (getActiveSensorHandles_spec c s) as [Hnd Hin].
  destruct (flushSensor_fold env c _ NO_ERROR s Hnd) as (_ & _ & Hp).
  rewrite Hp, Hflushed.
  rewrite (bool_decide_eq_true_2 (h ∈ _)) by (by apply Hin).
  by rewrite bool_decide_eq_true_2.
Qed.

End FlushFacts.

Lemma flushSensor_spec_witness :
  Requests.pendingFlush
    (Requests.flushSensor Requests.example_flush 1%nat Service.dynamic_enabled).2 262145
  = Requests.pendingFlush Service.dynamic_enabled 262145
    ++ (if Service.hasSensor (Service.getConn Service.dynamic_enabled 1%nat) 262145
           && Requests.flushed_on_hardware Requests.example_flush Service.dynamic_enabled
                262145
           && bool_decide
                (is_Some (Service.mActiveSensors Service.dynamic_enabled !! 262145))
        then [1%nat] else []).
Proof.
  refine (proj2 (proj2 (flushSensor_spec Requests.example_flush 1%nat
                          Service.dynamic_enabled) _) 262145).
  vm_compute. reflexivity.
Defined.

Lemma flush_complete_routed_witness :
  (List.filter (fun x => Requests.is_flush_complete 262145 x.1)
     (Service.mapFlushEventsToConnections Service.example_dispatch [1%nat]
        [Requests.flush_complete 262145; event_at 262145 5; Requests.flush_complete 7;
         Requests.flush_complete 262145]
        (Requests.flushSensor Requests.example_flush 1%nat Service.dynamic_enabled).2).1).*2
  = take 2 (Some <$> (Requests.pendingFlush Service.dynamic_enabled 262145 ++ [1%nat]))
    ++ replicate
         (2 - length (Requests.pendingFlush Service.dynamic_enabled 262145 ++ [1%nat])) None.
Proof.
  refine (proj2 (proj2
            (flush_complete_routed Requests.example_flush Service.example_dispatch [1%nat]
               1%nat Service.dynamic_enabled 262145
               [Requests.flush_complete 262145; event_at 262145 5; Requests.flush_complete 7;
                Requests.flush_complete 262145] _ _ _ _))).
  - vm_compute. reflexivity.
  - vm_compute. reflexivity.
  - vm_compute. reflexivity.
  - vm_compute. by eexists.
Defined.

Example flush_complete_routed_example :
  (Service.mapFlushEventsToConnections Service.example_dispatch [1%nat]
     [Requests.flush_complete 262145; event_at 262145 5; Requests.flush_complete 7;
      Requests.flush_complete 262145]
     (Requests.flushSensor Requests.example_flush 1%nat Service.dynamic_enabled).2).1.*2
  = [Some 1%nat; None; None; None].
Proof. vm_compute. reflexivity. Qed.

(** ** What enable and disable do, and to whom *)

Section FootprintFacts.

Import Service Footprint.

Implicit Types (s : SensorService) (c : nat) (h handle : Z) (P : action -> bool).

Lemma acts_within_refl P s : acts_within P s s.
Proof. split; [|done]. exists []. by rewrite app_nil_r. Qed.

Lemma acts_within_trans P s1 s2 s3 :
  acts_within P s1 s2 -> acts_within P s2 s3 -> acts_within P s1 s3.
Proof.
  intros [(d1 & Ht1 & Hd1) Hu1] [(d2 & Ht2 & Hd2) Hu2]. split.
  - exists (d1 ++ d2). rewrite Ht2, Ht1, app_assoc. split; [done|].
    rewrite forallb_app. by rewrite Hd1, Hd2.
  - intros c. by rewrite Hu2, Hu1.
Qed.

Lemma acts_within_fields P s s' :
  trace s' = trace s -> connections s' = connections s -> acts_within P s s'.
Proof.
  intros Ht Hc. split.
  - exists []. by rewrite app_nil_r.
  - intros c. unfold getConn. by rewrite Hc.
Qed.

Lemma acts_within_log P a s : P a = true -> acts_within P s (log a s).
Proof.
  intros Ha. split; [|done]. exists [a]. split; [done|]. simpl. by rewrite Ha.
Qed.

Lemma acts_within_setConn P c conn s :
  mUid conn = mUid (getConn s c) -> acts_within P s (setConn c conn s).
Proof.
  intros Hu. split.
  - exists []. by rewrite app_nil_r.
  - intros c'. rewrite getConn_setConn. by destruct (decide (c = c')) as [<-|].
Qed.

Lemma acts_within_setWakeLockAcquiredLocked P acquire s :
  P acquire_wake_lock = true -> P release_wake_lock = true -> P Looper_wake = true ->
  acts_within P s (setWakeLockAcquiredLocked acquire s).
Proof.
  intros Ha Hr Hl. unfold setWakeLockAcquiredLocked. destruct acquire.
  - eapply acts_within_trans; [|by apply acts_within_log].
    destruct (negb (mWakeLockAcquired s)); [|apply acts_within_refl].
    eapply acts_within_trans; [by apply (acts_within_log P acquire_wake_lock)|].
    by apply acts_within_fields.
  - destruct (mWakeLockAcquired s); [|apply acts_within_refl].
    eapply acts_within_trans; [by apply (acts_within_log P release_wake_lock)|].
    by apply acts_within_fields.
Qed.

Lemma acts_within_checkWakeLockStateLocked P s :
  P acquire_wake_lock = true -> P release_wake_lock = true -> P Looper_wake = true ->
  acts_within P s (checkWakeLockStateLocked s).
Proof.
  intros Ha Hr Hl. unfold checkWakeLockStateLocked.
  destruct (negb (mWakeLockAcquired s)); [apply acts_within_refl|].
  destruct (forallb _ _); [|apply acts_within_refl].
  by apply acts_within_setWakeLockAcquiredLocked.
Qed.

Lemma acts_within_connection_sendEvents P c scratch buffer s :
  (forall written, P (sendEvents c written) = true) ->
  acts_within P s (connection_sendEvents c scratch buffer s).
Proof.
  intros Hsend. unfold connection_sendEvents.
  eapply acts_within_trans; [|by apply acts_within_log].
  by apply acts_within_setConn.
Qed.

Lemma acts_within_cleanupWithoutDisableLocked P c handle s :
  P (BatteryService_disableSensor (mUid (getConn s c)) handle) = true ->
  P (updateLooperRegistration c) = true ->
  acts_within P s (cleanupWithoutDisableLocked c handle s).2.
Proof.
  intros Hb Hl. unfold cleanupWithoutDisableLocked.
  destruct (mActiveSensors s !! handle) as [rec|]; [|apply acts_within_refl].
  unfold removeSensor, removeConnection. cbn [fst snd].
  set (conn := with_mSensorInfo _ _).
  set (s1 := setConn c conn s).
  assert (acts_within P s s1) as H1 by (by apply acts_within_setConn).
  set (s2 := if hasSensor (getConn s c) handle then _ else s1).
  assert (acts_within P s1 s2) as H2.
  { subst s2. destruct (hasSensor (getConn s c) handle);
      [by apply acts_within_log|apply acts_within_refl]. }
  set (s3 := if negb (hasAnySensor conn) then _ else s2).
  assert (acts_within P s2 s3) as H3.
  { subst s3. destruct (negb (hasAnySensor conn)); [|apply acts_within_refl].
    eapply acts_within_trans; [by apply (acts_within_log P (updateLooperRegistration c))|].
    by apply acts_within_fields. }
  eapply acts_within_trans; [exact H1|]. eapply acts_within_trans; [exact H2|].
  eapply acts_within_trans; [exact H3|].
  destruct (bool_decide _); by apply acts_within_fields.
Qed.

Lemma enable_footprint_facts c handle uid period latency :
  let P := enable_footprint c handle uid period latency in
  P acquire_wake_lock = true /\ P release_wake_lock = true /\ P Looper_wake = true
  /\ (forall written, P (sendEvents c written) = true)
  /\ P (BatteryService_enableSensor uid handle) = true
  /\ P (BatteryService_disableSensor uid handle) = true
  /\ P (sensor_batch c handle period latency) = true
  /\ P (sensor_flush c handle) = true
  /\ P (sensor_activate c handle true) = true
  /\ P (updateLooperRegistration c) = true
  /\ (forall pkg err, P (SensorRegistrationInfo handle pkg period latency true err) = true).
Proof.
  cbv zeta. simpl. rewrite !Z.eqb_refl, bool_decide_eq_true_2 by done. by repeat split.
Qed.

Lemma acts_within_replayRecentEvent c handle uid period latency s :
  acts_within (enable_footprint c handle uid period latency) s (replayRecentEvent c handle s).
Proof.
  destruct (enable_footprint_facts c handle uid period latency)
    as (Ha & Hr & Hl & Hsend & _).
  unfold replayRecentEvent.
  destruct (mRecentEvent s !! handle) as [logger|]; [|apply acts_within_refl].
  destruct (populateLastEventIfCurrent logger) as [last|]; [|apply acts_within_refl].
  cbn [version]. destruct (version last =? _); [|apply acts_within_refl].
  match goal with |- context [connection_sendEvents c false ?b ?s2] =>
    assert (acts_within (enable_footprint c handle uid period latency) s
              (connection_sendEvents c false b s2)) as Hsent end.
  { eapply acts_within_trans; [|by apply acts_within_connection_sendEvents].
    destruct (_ && _); [by apply acts_within_setWakeLockAcquiredLocked|
                        apply acts_within_refl]. }
  destruct (negb _ && _); [|exact Hsent].
  eapply acts_within_trans; [exact Hsent|].
  by apply acts_within_checkWakeLockStateLocked.
Qed.

Lemma acts_within_enable_record c handle uid period latency sensor s :
  acts_within (enable_footprint c handle uid period latency) s
    (enable_record c handle sensor s).
Proof.
  unfold enable_record.
  destruct (mActiveSensors s !! handle) as [rec|].
  - destruct (addConnection c rec) as [[] rec']; [|apply acts_within_refl].
    set (s1 := with_mActiveSensors _ s).
    assert (acts_within (enable_footprint c handle uid period latency) s s1) as H1
      by (by apply acts_within_fields).
    destruct (bool_decide _); [|exact H1].
    eapply acts_within_trans; [exact H1|]. apply acts_within_replayRecentEvent.
  - set (s1 := with_mActiveSensors _ s).
    set (s2 := if isVirtual sensor then _ else s1).
    assert (acts_within (enable_footprint c handle uid period latency) s s2) as H2.
    { subst s2. destruct (isVirtual sensor); by apply acts_within_fields. }
    destruct (bool_decide _); [|exact H2].
    destruct (mRecentEvent s2 !! handle); [|exact H2].
    eapply acts_within_trans; [exact H2|]. by apply acts_within_fields.
Qed.

Lemma acts_within_enable_subscribe c handle period latency s :
  acts_within (enable_footprint c handle (mUid (getConn s c)) period latency) s
    (enable_subscribe c handle s).
Proof.
  destruct (enable_footprint_facts c handle (mUid (getConn s c)) period latency)
    as (_ & _ & _ & _ & Hb & _).
  unfold enable_subscribe, addSensor.
  destruct (hasSensor (getConn s c) handle); [apply acts_within_refl|].
  set (conn := with_mSensorInfo _ _).
  unfold addEventConnectionIfNotPresent.
  set (s1 := log _ _).
  assert (acts_within (enable_footprint c handle (mUid (getConn s c)) period latency) s s1)
    as H1.
  { eapply acts_within_trans; [by apply (acts_within_setConn _ c conn)|].
    by apply acts_within_log. }
  destruct (bool_decide _); [exact H1|].
  eapply acts_within_trans; [exact H1|]. by apply acts_within_fields.
Qed.

Lemma acts_within_enable_configure hal c handle uid sensor period latency s :
  acts_within (enable_footprint c handle uid period latency) s
    (enable_configure hal c handle sensor period latency s).2.
Proof.
  destruct (enable_footprint_facts c handle uid period latency)
    as (_ & _ & _ & _ & _ & _ & Hbatch & Hflush & Hact & Hloop & _).
  set (P := enable_footprint c handle uid period latency) in *.
  unfold enable_configure.
  set (s3 := log _ s).
  assert (acts_within P s s3) as H3 by (by apply acts_within_log).
  set (s4 := if _ && _ && _ then _ else s3).
  assert (acts_within P s s4) as H4.
  { subst s4. destruct (_ && _ && _); [|exact H3].
    set (s' := setConn c _ s3).
    assert (acts_within P s s') as H'.
    { eapply acts_within_trans; [exact H3|]. by apply acts_within_setConn. }
    set (s'' := log (sensor_flush c handle) s').
    assert (acts_within P s s'') as H''.
    { eapply acts_within_trans; [exact H'|]. by apply acts_within_log. }
    destruct (flush_result hal =? NO_ERROR);
      (eapply acts_within_trans; [exact H''|]);
      [by apply acts_within_fields|by apply acts_within_setConn]. }
  clearbody s4.
  destruct (batch_result hal =? NO_ERROR) eqn:Eb; cbn [fst snd]; rewrite ?Eb; cbn [fst snd].
  - set (s5 := log (sensor_activate c handle true) s4).
    assert (acts_within P s s5) as H5.
    { eapply acts_within_trans; [exact H4|]. by apply acts_within_log. }
    destruct (activate_result hal =? NO_ERROR); cbn [fst snd]; [|exact H5].
    set (s' := log (updateLooperRegistration c) s5).
    assert (acts_within P s s') as H'.
    { eapply acts_within_trans; [exact H5|]. by apply acts_within_log. }
    destruct ((0 <? getRequiredPermission_size _) && _); cbn [snd]; [|exact H'].
    eapply acts_within_trans; [exact H'|]. by apply acts_within_setConn.
  - exact H4.
Qed.

(** X14.  [enable] acts for its own connection and sensor only.  Whatever
    the outcome, everything [enable(connection, handle, ...)] does to the
    outside is: taking and releasing the wakelock around a replay, sending to
    this connection, booking this sensor for this connection's uid with the
    battery service, [batch], [flush] and [activate(true)] of this sensor for
    this connection, the looper registration of this connection, and its
    registration entry.  [batch] is called with the requested latency and
    the requested period clamped to the sensor's delays, and no connection's
    uid changes. *)
Theorem enable_acts_for_its_sensor canAccess hal c handle period latency s :
  acts_within
    (enable_footprint c handle (mUid (getConn s c))
       (match getSensorInterfaceFromHandle s handle with
        | Some sensor => clampSamplingPeriod (getSensor sensor) period
        | None => period
        end) latency)
    s (enable canAccess hal c handle period latency s).2.
Proof.
  unfold enable.
  destruct (negb (mInitCheck s =? NO_ERROR)); [apply acts_within_refl|].
  destruct (getSensorInterfaceFromHandle s handle) as [sensor|]; [|apply acts_within_refl].
  destruct (negb canAccess); [apply acts_within_refl|].
  destruct (enable_refused_by_mode _ _); [apply acts_within_refl|].
  set (clamped := clampSamplingPeriod (getSensor sensor) period).
  set (uid := mUid (getConn s c)).
  set (P := enable_footprint c handle uid clamped latency).
  destruct (enable_footprint_facts c handle uid clamped latency)
    as (_ & _ & _ & _ & _ & Hdis & _ & _ & _ & Hloop & Hreg).
  set (s1 := enable_record c handle sensor s).
  assert (acts_within P s s1) as H1 by apply acts_within_enable_record.
  assert (mUid (getConn s1 c) = uid) as Hu1 by apply H1.
  set (s2 := enable_subscribe c handle s1).
  assert (acts_within P s s2) as H2.
  { eapply acts_within_trans; [exact H1|]. subst P. rewrite <- Hu1.
    apply acts_within_enable_subscribe. }
  pose proof (acts_within_enable_configure hal c handle uid sensor clamped latency s2) as H6.
  fold P in H6.
  destruct (enable_configure hal c handle sensor clamped latency s2) as [err s6].
  cbn [fst snd] in *.
  assert (acts_within P s s6) as H6' by (by eapply acts_within_trans).
  eapply acts_within_trans; [|by apply acts_within_log].
  destruct (negb (err =? NO_ERROR)); [|exact H6'].
  eapply acts_within_trans; [exact H6'|].
  assert (mUid (getConn s6 c) = uid) as Hu6 by apply H6'.
  apply acts_within_cleanupWithoutDisableLocked; [by rewrite Hu6|done].
Qed.

(** X15.  Sampling periods are clamped before they reach a sensor.  The
    period [enable] passes to [batch] is never below the sensor's minimum
    delay, is the requested period whenever that lies within the sensor's
    delays, and does not exceed the maximum delay of a sensor that has one
    not below its minimum delay.  [setEventRate] calls [setDelay] only on an
    initialised service, for a registered and accessible sensor and a
    period that is not negative, and then with the larger of the requested
    period and the minimum delay; otherwise it returns [mInitCheck] or
    [BAD_VALUE] without a call. *)
Theorem sampling_period_clamped sensor period canAccess setDelay_result handle s :
  (let clamped := clampSamplingPeriod sensor period in
   let maxDelayNs := getMaxDelay sensor * 1000 in
   getMinDelayNs sensor <= clamped
   /\ (getMinDelayNs sensor <= period -> (maxDelayNs <= 0 \/ period <= maxDelayNs) ->
       clamped = period)
   /\ (0 < maxDelayNs -> getMinDelayNs sensor <= maxDelayNs -> clamped <= maxDelayNs))
  /\ match Requests.setEventRate canAccess setDelay_result handle period s with
     | (status, Some ns) =>
         status = setDelay_result /\ mInitCheck s = NO_ERROR /\ canAccess = true
         /\ 0 <= period
         /\ exists si, getSensorInterfaceFromHandle s handle = Some si
                       /\ ns = Z.max period (getMinDelayNs (getSensor si))
     | (status, None) => status = mInitCheck s \/ status = BAD_VALUE
     end.
Proof.
  split.
  - cbv zeta. unfold clampSamplingPeriod.
    destruct ((0 <? getMaxDelay sensor * 1000) && (getMaxDelay sensor * 1000 <? period))
      eqn:Hmax.
    + apply andb_true_iff in Hmax as [H1%Z.ltb_lt H2%Z.ltb_lt].
      destruct (getMaxDelay sensor * 1000 <? getMinDelayNs sensor) eqn:Hmin;
        [apply Z.ltb_lt in Hmin|apply Z.ltb_ge in Hmin]; lia.
    + apply andb_false_iff in Hmax.
      destruct (period <? getMinDelayNs sensor) eqn:Hmin;
        [apply Z.ltb_lt in Hmin|apply Z.ltb_ge in Hmin];
        destruct Hmax as [H1%Z.ltb_ge|H2%Z.ltb_ge]; lia.
  - unfold Requests.setEventRate.
    destruct (mInitCheck s =? NO_ERROR) eqn:Hinit; cbn [negb]; [|by left].
    apply Z.eqb_eq in Hinit.
    destruct (getSensorInterfaceFromHandle s handle) as [si|]; [|by right].
    destruct canAccess; cbn [negb]; [|by right].
    destruct (period <? 0) eqn:Hneg; [by right|]. apply Z.ltb_ge in Hneg.
    split; [done|]. split; [done|]. split; [done|]. split; [done|].
    exists si. split; [done|].
    destruct (period <? getMinDelayNs (getSensor si)) eqn:Hmin;
      [apply Z.ltb_lt in Hmin|apply Z.ltb_ge in Hmin]; lia.
Qed.

End FootprintFacts.

(** ** The rate level of direct channels *)

Section RateLevelFacts.

Import RatePolicy.

Variable cap : Z.

Local Abbreviation adjustLevel := (Requests.adjustRateLevelBasedOnMicAndPermission cap).

(** X16.  Rate levels are only ever lowered, and lowered to the cap alone.
    The level [adjustRateLevelBasedOnMicAndPermission] leaves is the smaller
    of the requested level and the cap for a package that targets API 31 or
    later without the HIGH_SAMPLING_RATE_SENSORS permission, and for any
    package while the microphone toggle is engaged; every other request
    keeps its level.  The status is [PERMISSION_DENIED] exactly when a
    debuggable package of the first kind asked for more than the cap, and
    [OK] otherwise; the level is capped in that case too. *)
Theorem adjustRateLevel_caps level targetSdk hasSamplingRatePermission debuggable micEnabled :
  let r := adjustLevel level targetSdk hasSamplingRatePermission debuggable micEnabled in
  let restricted :=
    bool_decide (ANDROID_API_S <= targetSdk) && negb hasSamplingRatePermission in
  r.2 = (if restricted || micEnabled then Z.min level cap else level)
  /\ (r.1 = PERMISSION_DENIED <-> cap < level /\ restricted = true /\ debuggable = true)
  /\ (r.1 <> PERMISSION_DENIED -> r.1 = OK).
Proof.
  cbv zeta. unfold Requests.adjustRateLevelBasedOnMicAndPermission,
    isRateCappedBasedOnPermission.
  destruct (level <=? cap) eqn:Hle; [apply Z.leb_le in Hle|apply Z.leb_gt in Hle].
  - cbn [fst snd]. split; [|split].
    + destruct (_ || micEnabled); [lia|done].
    + split; [discriminate|]. lia.
    + done.
  - assert ((targetSdk <? ANDROID_API_S) = negb (bool_decide (ANDROID_API_S <= targetSdk)))
      as ->.
    { destruct (decide (ANDROID_API_S <= targetSdk)) as [H|H].
      - rewrite bool_decide_eq_true_2 by done. apply Z.ltb_ge. lia.
      - rewrite bool_decide_eq_false_2 by done. apply Z.ltb_lt. lia. }
    assert ((ANDROID_API_S <=? targetSdk) = bool_decide (ANDROID_API_S <= targetSdk)) as ->.
    { destruct (decide (ANDROID_API_S <= targetSdk)) as [H|H].
      - rewrite bool_decide_eq_true_2 by done. by apply Z.leb_le.
      - rewrite bool_decide_eq_false_2 by done. apply Z.leb_gt. lia. }
    destruct (bool_decide (ANDROID_API_S <= targetSdk)), hasSamplingRatePermission,
      debuggable, micEnabled; cbn; repeat split; try done; try lia; try discriminate;
      try (by intros (_ & ? & _)); try (by intros (_ & _ & ?)).
Qed.

End RateLevelFacts.

(** ** dump and the operating mode *)

Section DumpFacts.

Import Service Requests Footprint.

Implicit Types (s : SensorService) (env : ModeEnv).

Lemma forget_trace_log a s : forget_trace (log a s) = forget_trace s.
Proof. done. Qed.

Lemma device_commands_app acts1 acts2 :
  device_commands (acts1 ++ acts2) = device_commands acts1 ++ device_commands acts2.
Proof. apply List.filter_app. Qed.

Lemma notifyDirectConnections_silent env i conns s :
  forget_trace (notifyDirectConnections env i conns s) = forget_trace s
  /\ device_commands (trace (notifyDirectConnections env i conns s))
     = device_commands (trace s).
Proof.
  revert i s. induction conns as [|[uid pkg] conns IH]; intros i s;
    cbn [notifyDirectConnections]; [done|].
  destruct (IH (S i) (log (onSensorAccessChanged i (hasSensorAccessLocked env s uid pkg)) s))
    as [-> ->].
  split; [done|]. cbn [log trace]. rewrite device_commands_app. cbn. by rewrite app_nil_r.
Qed.

Lemma disableAllSensorsLocked_view env s :
  forget_trace (disableAllSensorsLocked env s)
  = forget_trace (with_mActiveSensors (clearAllPendingFlushConnections <$> mActiveSensors s) s)
  /\ device_commands (trace (disableAllSensorsLocked env s))
     = device_commands (trace s) ++ [dev_disableAllSensors].
Proof.
  unfold disableAllSensorsLocked. cbv zeta.
  destruct (notifyDirectConnections_silent env 0 (mDirectConnections s) s) as [Hf Ht].
  set (s1 := notifyDirectConnections env 0 (mDirectConnections s) s) in *.
  split.
  - change (with_mActiveSensors
              (clearAllPendingFlushConnections <$> mActiveSensors (forget_trace s1))
              (forget_trace s1)
            = with_mActiveSensors
                (clearAllPendingFlushConnections <$> mActiveSensors (forget_trace s))
                (forget_trace s)).
    by rewrite Hf.
  - change (device_commands
              ((trace s1 ++ [dev_disableAllSensors]) ++ [checkAndReportProxStateChange])
            = device_commands (trace s) ++ [dev_disableAllSensors]).
    rewrite !device_commands_app, Ht. cbn. by rewrite app_nil_r.
Qed.

Lemma enableAllSensorsLocked_view env s :
  mCurrentOperatingMode s <> RESTRICTED ->
  forget_trace (enableAllSensorsLocked env s) = forget_trace s
  /\ device_commands (trace (enableAllSensorsLocked env s))
     = device_commands (trace s)
       ++ (if isSensorPrivacyEnabled env then [] else [dev_enableAllSensors]).
Proof.
  intros Hmode. unfold enableAllSensorsLocked. rewrite bool_decide_eq_false_2 by done.
  destruct (isSensorPrivacyEnabled env); cbn [orb]; [by rewrite app_nil_r|]. cbv zeta.
  set (s1 := log dev_enableAllSensors s).
  destruct (notifyDirectConnections_silent env 0 (mDirectConnections s1) s1) as [Hf Ht].
  set (s2 := notifyDirectConnections env 0 (mDirectConnections s1) s1) in *.
  split.
  - by rewrite forget_trace_log, Hf.
  - change (trace (log checkAndReportProxStateChange s2))
      with (trace s2 ++ [checkAndReportProxStateChange]).
    rewrite device_commands_app, Ht.
    change (trace s1) with (trace s ++ [dev_enableAllSensors]).
    rewrite device_commands_app. cbn. by rewrite app_nil_r.
Qed.

Lemma notifyDirectConnections_trace env i conns s :
  trace (notifyDirectConnections env i conns s)
  = trace s
    ++ imap (fun k conn =>
               onSensorAccessChanged (i + k) (hasSensorAccessLocked env s conn.1 conn.2))
         conns.
Proof.
  revert i s. induction conns as [|[uid pkg] conns IH]; intros i s;
    cbn [notifyDirectConnections]; [by rewrite app_nil_r|].
  rewrite IH. cbn [log trace]. rewrite <- app_assoc. f_equal.
  cbn [app imap fst snd]. rewrite Nat.add_0_r. f_equal.
  apply imap_ext. intros k [uid' pkg'] _. cbn. f_equal. lia.
Qed.

(** The calls [disableAllSensorsLocked] makes, in order: the notices to the
    direct connections, the command to the device, the proximity check. *)
Lemma disableAllSensorsLocked_trace env s :
  trace (disableAllSensorsLocked env s)
  = trace s
    ++ imap (fun k conn =>
               onSensorAccessChanged k (hasSensorAccessLocked env s conn.1 conn.2))
         (mDirectConnections s)
    ++ [dev_disableAllSensors; checkAndReportProxStateChange].
Proof.
  unfold disableAllSensorsLocked. cbv zeta.
  cbn [log trace with_mActiveSensors]. rewrite <- !app_assoc.
  by rewrite notifyDirectConnections_trace, <- app_assoc.
Qed.

(** The calls [enableAllSensorsLocked] makes, in order: the command to the
    device, the notices to the direct connections, the proximity check. *)
Lemma enableAllSensorsLocked_trace env s :
  mCurrentOperatingMode s <> RESTRICTED ->
  trace (enableAllSensorsLocked env s)
  = trace s
    ++ (if isSensorPrivacyEnabled env then []
        else [dev_enableAllSensors]
             ++ imap (fun k conn =>
                        onSensorAccessChanged k (hasSensorAccessLocked env s conn.1 conn.2))
                  (mDirectConnections s)
             ++ [checkAndReportProxStateChange]).
Proof.
  intros Hmode. unfold enableAllSensorsLocked. rewrite bool_decide_eq_false_2 by done.
  destruct (isSensorPrivacyEnabled env); cbn [orb]; [by rewrite app_nil_r|]. cbv zeta.
  set (s1 := log dev_enableAllSensors s).
  change (trace (notifyDirectConnections env 0 (mDirectConnections s) s1)
          ++ [checkAndReportProxStateChange]
          = trace s
            ++ [dev_enableAllSensors]
            ++ imap (fun k conn =>
                       onSensorAccessChanged k (hasSensorAccessLocked env s conn.1 conn.2))
                 (mDirectConnections s)
            ++ [checkAndReportProxStateChange]).
  rewrite notifyDirectConnections_trace. subst s1. cbn [log trace].
  by rewrite <- !app_assoc.
Qed.

(** Outside Restricted mode and sensor privacy, access goes by the uid. *)
Lemma hasSensorAccessLocked_normal env s uid pkg :
  mCurrentOperatingMode s <> RESTRICTED ->
  isSensorPrivacyEnabled env = false ->
  hasSensorAccessLocked env s uid pkg = isUidActive env uid.
Proof.
  intros Hmode Hpriv. unfold hasSensorAccessLocked, isOperationRestrictedLocked.
  rewrite Hpriv, (bool_decide_eq_false_2 _ Hmode). by rewrite andb_true_r.
Qed.



(** Every refusal of [changeOperatingMode] leaves the service as it was. *)
Lemma changeOperatingMode_status env args target s :
  (changeOperatingMode env args target s).1 = NO_ERROR
  \/ changeOperatingMode env args target s = (INVALID_OPERATION, s).
Proof.
  unfold changeOperatingMode.
  destruct (bool_decide (mCurrentOperatingMode s = target)); [by left|].
  destruct (negb (bool_decide (target = NORMAL)) && (length args <? 2)%nat); [by right|].
  assert ((enterInjectionMode env args target s).1 = NO_ERROR
          \/ enterInjectionMode env args target s = (INVALID_OPERATION, s)) as Hinj.
  { unfold enterInjectionMode.
    destruct (bool_decide (mCurrentOperatingMode s = NORMAL)); [by left|by right]. }
  destruct target; try done.
  - by left.
  - destruct (negb (bool_decide (mCurrentOperatingMode s = NORMAL))); [by right|by left].
  - destruct (isUserBuild env); [by right|done].
  - destruct (isUserBuild env); [by right|done].
Qed.

Lemma getTargetOperatingMode_words word :
  is_Some (getTargetOperatingMode word)
  <-> word ∈ ["restrict"; "enable"; "data_injection"; "replay_data_injection";
              "hal_bypass_replay_data_injection"].
Proof.
  unfold getTargetOperatingMode. rewrite !elem_of_cons, elem_of_nil.
  repeat match goal with
         | |- context [String.eqb word ?w] =>
             destruct (String.eqb_spec word w) as [->|?]; [split; [tauto|by eexists]|]
         end.
  split; [by intros [? ?]|]. intros H. exfalso. tauto.
Qed.

(** X17.  [dump] changes the service only on request and with the DUMP
    permission.  The state is touched only when the caller holds the
    permission, passes at most two arguments, and the first is one of the
    five mode words and names a mode other than the current one; [dump] then
    goes on to its report.  Whenever [dump] returns early the status is
    [INVALID_OPERATION] and nothing has changed: more than two arguments, or
    a mode change that was turned down. *)
Theorem dump_request_guarded hasDumpPermission env args s :
  let r := dump_request hasDumpPermission env args s in
  (r.2 <> s ->
     hasDumpPermission = true /\ (length args <= 2)%nat /\ r.1 = None
     /\ exists word target,
          args !! 0%nat = Some word /\ getTargetOperatingMode word = Some target
          /\ word ∈ ["restrict"; "enable"; "data_injection"; "replay_data_injection";
                     "hal_bypass_replay_data_injection"]
          /\ mCurrentOperatingMode s <> target)
  /\ (forall status, r.1 = Some status -> status = INVALID_OPERATION /\ r.2 = s).
Proof.
  cbv zeta. unfold dump_request.
  destruct hasDumpPermission; cbn [negb]; [|done].
  destruct (2 <? length args)%nat eqn:Hlen.
  { split; [done|]. by intros ? [= <-]. }
  apply Nat.ltb_ge in Hlen.
  destruct args as [|word rest]; [done|].
  destruct (getTargetOperatingMode word) as [target|] eqn:Hword; [|done].
  pose proof (changeOperatingMode_status env (word :: rest) target s) as Hstatus.
  assert (mCurrentOperatingMode s = target ->
          changeOperatingMode env (word :: rest) target s = (NO_ERROR, s)) as Hsame.
  { intros H. unfold changeOperatingMode. by rewrite bool_decide_eq_true_2. }
  destruct (changeOperatingMode env (word :: rest) target s) as [error s'].
  cbn [fst snd] in *. destruct Hstatus as [->|[= -> ->]].
  - change (NO_ERROR =? NO_ERROR) with true. cbn [negb fst snd]. split; [|done].
    intros Hchanged. split; [done|]. split; [done|]. split; [done|].
    exists word, target. split; [done|]. split; [done|]. split.
    + apply getTargetOperatingMode_words. by rewrite Hword.
    + intros H. apply Hchanged. by injection (Hsame H).
  - change (INVALID_OPERATION =? NO_ERROR) with false. cbn [negb fst snd]. split; [done|].
    by intros ? [= <-].
Qed.



End DumpFacts.


(** ** Who may use a sensor *)

Section AccessFacts.

Import Service Requests.

Variable SENSOR_TYPE_HEAD_TRACKER : Z.
Variable SENSOR_TYPE_STEP_COUNTER : Z.
Variable SENSOR_TYPE_STEP_DETECTOR : Z.
Variable ANDROID_API_P : Z.
Variable AID_SYSTEM : Z.
Variable MODE_ALLOWED : Z.

Variable FIRST_APPLICATION_UID : Z.
Variable service : bool.
Variable hasManageSensorsPermission : bool.
Variable getPackageUid : string -> Z.
Variable atoi : string -> Z.
Variable multiuser_get_uid : Z -> Z -> Z.
Variable dprintf_result : Z -> Shell.text -> Z.

Local Abbreviation shell :=
  (Shell.shellCommand FIRST_APPLICATION_UID service hasManageSensorsPermission getPackageUid
     atoi multiuser_get_uid dprintf_result).
Local Abbreviation canAccess :=
  (canAccessSensor SENSOR_TYPE_HEAD_TRACKER SENSOR_TYPE_STEP_COUNTER
     SENSOR_TYPE_STEP_DETECTOR ANDROID_API_P AID_SYSTEM MODE_ALLOWED).

Implicit Types (s : SensorService) (st : Shell.state) (caller : Caller) (sensor : Sensor).

Lemma shellCommand_ht in_ out err args st word :
  hasManageSensorsPermission = true ->
  in_ <> Shell.BAD_TYPE -> out <> Shell.BAD_TYPE -> err <> Shell.BAD_TYPE ->
  args !! 0%nat = Some word ->
  word = "restrict-ht" \/ word = "unrestrict-ht" ->
  shell in_ out err args st
  = (NO_ERROR,
     Shell.mkState (Shell.policy st) (String.eqb word "restrict-ht") (Shell.told st)
       (Shell.written st)).
Proof.
  intros -> Hin Hout Herr Hword Hw. unfold Shell.shellCommand. cbn [negb].
  destruct args as [|w rest]; [done|]. injection Hword as ->. cbn [length Nat.eqb].
  rewrite (proj2 (Z.eqb_neq _ _) Hin), (proj2 (Z.eqb_neq _ _) Hout),
    (proj2 (Z.eqb_neq _ _) Herr). cbn [orb].
  unfold Shell.arg. cbn [lookup list_lookup default]. by destruct Hw as [->| ->].
Qed.

(** X19.  The head-tracker restriction.  After the shell command
    [restrict-ht], a caller that is neither the audio server nor the system
    server cannot access a sensor of the head-tracker type, whatever
    permissions it holds: [canAccessSensor] answers false, so [enable] of
    such a sensor fails and changes nothing, and [setEventRate] never reaches
    [setDelay].  After [unrestrict-ht] such a caller is treated as the
    system callers are.  The restriction touches nothing else: for the audio
    and system servers, and for sensors of any other type, the answer does
    not depend on it, and a sensor that requires no permission is then
    accessible. *)
Theorem head_tracker_restriction in_ out err args args' st caller sensor :
  hasManageSensorsPermission = true ->
  in_ <> Shell.BAD_TYPE -> out <> Shell.BAD_TYPE -> err <> Shell.BAD_TYPE ->
  args !! 0%nat = Some "restrict-ht" ->
  args' !! 0%nat = Some "unrestrict-ht" ->
  let restricted := Shell.mHtRestricted (shell in_ out err args st).2 in
  let lifted := Shell.mHtRestricted (shell in_ out err args' st).2 in
  let as_system :=
    mkCaller (callingUid caller) true (targetSdkVersion caller)
      (hasPermissionForSensor caller) (checkOp caller) in
  (getType sensor = SENSOR_TYPE_HEAD_TRACKER ->
   isAudioServerOrSystemServerUid caller = false ->
   canAccess restricted caller sensor = false
   /\ (forall hal c handle period latency s si,
         getSensorInterfaceFromHandle s handle = Some si -> getSensor si = sensor ->
         (enable (canAccess restricted caller sensor) hal c handle period latency s).1
           <> NO_ERROR
         /\ (enable (canAccess restricted caller sensor) hal c handle period latency s).2 = s)
   /\ (forall setDelay_result handle period s,
         (setEventRate (canAccess restricted caller sensor) setDelay_result handle period s).2
         = None))
  /\ canAccess lifted caller sensor = canAccess restricted as_system sensor
  /\ (getType sensor <> SENSOR_TYPE_HEAD_TRACKER
      \/ isAudioServerOrSystemServerUid caller = true ->
      canAccess restricted caller sensor = canAccess lifted caller sensor
      /\ (getRequiredPermission_size sensor <= 0 ->
          canAccess restricted caller sensor = true)).
Proof.
  intros Hperm Hin Hout Herr Hargs Hargs'. cbv zeta.
  rewrite (shellCommand_ht in_ out err args st _ Hperm Hin Hout Herr Hargs) by auto.
  rewrite (shellCommand_ht in_ out err args' st _ Hperm Hin Hout Herr Hargs') by auto.
  cbn [snd Shell.mHtRestricted].
  change ("restrict-ht" =? "restrict-ht")%string with true.
  change ("unrestrict-ht" =? "restrict-ht")%string with false.
  split; [|split].
  - intros Htype Hcaller.
    assert (canAccess true caller sensor = false) as ->.
    { unfold canAccessSensor. rewrite Htype, Z.eqb_refl, Hcaller. done. }
    split; [done|]. split.
    + intros hal c handle period latency s si Hsi _. unfold enable. rewrite Hsi.
      destruct (negb (mInitCheck s =? NO_ERROR)) eqn:Hinit; [|done].
      split; [|done]. cbn [fst]. by apply negb_true_iff, Z.eqb_neq in Hinit.
    + intros setDelay_result handle period s. unfold setEventRate.
      destruct (negb (mInitCheck s =? NO_ERROR)); [done|].
      by destruct (getSensorInterfaceFromHandle s handle).
  - unfold canAccessSensor. cbn [isAudioServerOrSystemServerUid targetSdkVersion callingUid
      hasPermissionForSensor checkOp negb]. by rewrite !andb_false_r.
  - intros Hother.
    assert ((getType sensor =? SENSOR_TYPE_HEAD_TRACKER)
            && negb (isAudioServerOrSystemServerUid caller) = false) as Hfree.
    { destruct Hother as [H%Z.eqb_neq| ->]; [by rewrite H|by rewrite andb_false_r]. }
    unfold canAccessSensor. rewrite Hfree. cbn [andb]. split; [done|].
    intros Hsize%Z.leb_le. by rewrite Hsize.
Qed.

End AccessFacts.

Lemma head_tracker_restriction_witness :
  Requests.canAccessSensor 37 19 18 28 1000 0
    (Shell.mHtRestricted
       (Shell.shellCommand 10000 true true Shell.example_getPackageUid Shell.example_atoi
          Shell.example_multiuser_get_uid Shell.example_dprintf_result 0 1 2
          ["restrict-ht"] Shell.example_state).2)
    (Requests.mkCaller 10001 false 34 true (fun _ => 0))
    (mkSensor 7 37 AREPORTING_MODE_CONTINUOUS false false 0 0 0 (-1))
  = false.
Proof.
  refine (proj1 (proj1 (head_tracker_restriction 37 19 18 28 1000 0 10000 true true
            Shell.example_getPackageUid Shell.example_atoi Shell.example_multiuser_get_uid
            Shell.example_dprintf_result 0 1 2 ["restrict-ht"] ["unrestrict-ht"]
            Shell.example_state (Requests.mkCaller 10001 false 34 true (fun _ => 0))
            (mkSensor 7 37 AREPORTING_MODE_CONTINUOUS false false 0 0 0 (-1))
            eq_refl _ _ _ eq_refl eq_refl) eq_refl eq_refl));
    vm_compute; congruence.
Defined.

(** ** Subscriptions: what enable, disable and cleanupConnection leave *)

Section SubscriptionFacts.

Import Service Footprint.

Implicit Types (s : SensorService) (c : nat) (h handle : Z).

Lemma configuration_eq s s' :
  configuration s' = configuration s ->
  mInitCheck s' = mInitCheck s /\ mSensors s' = mSensors s
  /\ mCurrentOperatingMode s' = mCurrentOperatingMode s
  /\ mAllowListedPackage s' = mAllowListedPackage s.
Proof. unfold configuration. by intros [= ? ? ? ? ? ?]. Qed.

Lemma configuration_setWakeLockAcquiredLocked acquire s :
  configuration (setWakeLockAcquiredLocked acquire s) = configuration s.
Proof.
  unfold setWakeLockAcquiredLocked.
  destruct acquire, (mWakeLockAcquired s); done.
Qed.

Lemma configuration_checkWakeLockStateLocked s :
  configuration (checkWakeLockStateLocked s) = configuration s.
Proof.
  unfold checkWakeLockStateLocked. destruct (negb _); [done|].
  destruct (forallb _ _); [|done]. apply configuration_setWakeLockAcquiredLocked.
Qed.

Lemma configuration_connection_sendEvents c scratch buffer s :
  configuration (connection_sendEvents c scratch buffer s) = configuration s.
Proof. done. Qed.

Lemma configuration_replayRecentEvent c handle s :
  configuration (replayRecentEvent c handle s) = configuration s.
Proof.
  unfold replayRecentEvent.
  destruct (mRecentEvent s !! handle) as [logger|]; [|done].
  destruct (populateLastEventIfCurrent logger) as [last|]; [|done]. cbv zeta.
  destruct (_ =? sizeof_sensors_event_t); [|done].
  set (s2 := if _ && _ then _ else s).
  assert (configuration s2 = configuration s) as H2.
  { subst s2. destruct (_ && _); [apply configuration_setWakeLockAcquiredLocked|done]. }
  clearbody s2.
  destruct (negb (needsWakeLock _) && _);
    [rewrite configuration_checkWakeLockStateLocked|]; exact H2.
Qed.

Lemma configuration_enable_record c handle sensor s :
  configuration (enable_record c handle sensor s) = configuration s.
Proof.
  unfold enable_record. destruct (mActiveSensors s !! handle) as [rec|].
  - destruct (addConnection c rec) as [[] rec']; [|done].
    destruct (bool_decide _); [|done]. by rewrite configuration_replayRecentEvent.
  - cbv zeta. destruct (isVirtual sensor), (bool_decide _); cbn [mRecentEvent];
      try done; by destruct (mRecentEvent _ !! handle).
Qed.

Lemma configuration_enable_subscribe c handle s :
  configuration (enable_subscribe c handle s) = configuration s.
Proof.
  unfold enable_subscribe. destruct (addSensor handle (getConn s c)) as [[] conn]; [|done].
  unfold addEventConnectionIfNotPresent. by destruct (bool_decide _).
Qed.

Lemma configuration_enable_configure hal c handle sensor period latency s :
  configuration (enable_configure hal c handle sensor period latency s).2 = configuration s.
Proof.
  unfold enable_configure. cbv zeta.
  set (s4 := if _ && _ && _ then _ else _).
  assert (configuration s4 = configuration s) as H4.
  { subst s4. destruct (_ && _ && _); [|done]. by destruct (flush_result hal =? NO_ERROR). }
  clearbody s4.
  destruct (batch_result hal =? NO_ERROR) eqn:Hb.
  - destruct (activate_result hal =? NO_ERROR); [|exact H4].
    by destruct ((0 <? _) && _).
  - by rewrite Hb.
Qed.

Lemma configuration_cleanupWithoutDisableLocked c handle s :
  configuration (cleanupWithoutDisableLocked c handle s).2 = configuration s.
Proof.
  unfold cleanupWithoutDisableLocked.
  destruct (mActiveSensors s !! handle) as [rec|]; [|done].
  unfold removeSensor, removeConnection.
  destruct (hasSensor _ _), (negb _), (bool_decide _); done.
Qed.

Lemma configuration_enable canAccess hal c handle period latency s :
  configuration (enable canAccess hal c handle period latency s).2 = configuration s.
Proof.
  unfold enable.
  destruct (negb (mInitCheck s =? NO_ERROR)); [done|].
  destruct (getSensorInterfaceFromHandle s handle) as [sensor|]; [|done].
  destruct (negb canAccess); [done|].
  destruct (enable_refused_by_mode _ _); [done|].
  set (s2 := enable_subscribe c handle (enable_record c handle sensor s)).
  assert (configuration s2 = configuration s) as H2.
  { subst s2. by rewrite configuration_enable_subscribe, configuration_enable_record. }
  pose proof (configuration_enable_configure hal c handle sensor
                (clampSamplingPeriod (getSensor sensor) period) latency s2) as H6.
  destruct (enable_configure hal c handle sensor _ latency s2) as [err s6]. cbn [fst snd] in *.
  change (configuration (if negb (err =? NO_ERROR)
                         then (cleanupWithoutDisableLocked c handle s6).2 else s6)
          = configuration s).
  destruct (negb (err =? NO_ERROR)); [rewrite configuration_cleanupWithoutDisableLocked|];
    congruence.
Qed.

Lemma configuration_disable deactivate_result c handle s :
  configuration (disable deactivate_result c handle s).2 = configuration s.
Proof.
  unfold disable.
  destruct (negb (mInitCheck s =? NO_ERROR)); [done|].
  pose proof (configuration_cleanupWithoutDisableLocked c handle s) as H1.
  destruct (cleanupWithoutDisableLocked c handle s) as [err s1]. cbn [snd] in H1.
  destruct (err =? NO_ERROR); [|exact H1].
  by destruct (getSensorInterfaceFromHandle s1 handle).
Qed.

Lemma enable_configure_status hal c handle sensor period latency s :
  (enable_configure hal c handle sensor period latency s).1
  = if batch_result hal =? NO_ERROR then activate_result hal else batch_result hal.
Proof.
  unfold enable_configure. cbv zeta.
  destruct (batch_result hal =? NO_ERROR) eqn:Hb.
  - destruct (activate_result hal =? NO_ERROR) eqn:Ha; [|done].
    destruct ((0 <? _) && _); cbn [fst]; by apply Z.eqb_eq in Ha.
  - by rewrite Hb.
Qed.

Lemma filter_ne_snoc c (l : list nat) :
  filter (fun x => x <> c) (l ++ [c]) = filter (fun x => x <> c) l.
Proof.
  rewrite filter_app. rewrite (filter_cons_False (fun x => x <> c)) by (intros H; by apply H).
  by rewrite filter_nil, app_nil_r.
Qed.

Lemma owners_without_after_enable c (before : option SensorRecord) :
  owners_without c (Some (owners_after_enable c before))
  = owners_without c (mConnections <$> before).
Proof.
  unfold owners_without, owners_after_enable. destruct before as [rec|]; cbn [fmap option_fmap option_map].
  - destruct (bool_decide (c ∈ mConnections rec)); [done|]. by rewrite filter_ne_snoc.
  - rewrite (filter_cons_False (fun x => x <> c)) by (intros H; by apply H).
    rewrite filter_nil. by rewrite decide_True.
Qed.

(** When [enable] gets as far as the HAL: the state [s6] in which the HAL
    has answered, and what follows it. *)
Lemma enable_reaches_hal canAccess hal c handle period latency sensor s :
  mInitCheck s = NO_ERROR ->
  getSensorInterfaceFromHandle s handle = Some sensor ->
  canAccess = true ->
  enable_refused_by_mode s (mPackageName (getConn s c)) = false ->
  let status :=
    if batch_result hal =? NO_ERROR then activate_result hal else batch_result hal in
  exists s6 entry,
    enable canAccess hal c handle period latency s
    = (status, log entry (if negb (status =? NO_ERROR)
                          then (cleanupWithoutDisableLocked c handle s6).2 else s6))
    /\ (forall c' h, hasSensor (getConn s6 c') h
                     = if decide (c = c' /\ handle = h) then true
                       else hasSensor (getConn s c') h)
    /\ (forall h, h <> handle -> owners s6 h = owners s h)
    /\ owners s6 handle = Some (owners_after_enable c (mActiveSensors s !! handle)).
Proof.
  intros Hinit Hsensor -> Hmode. cbv zeta. unfold enable.
  rewrite Hinit, Hsensor, Hmode. change (NO_ERROR =? NO_ERROR) with true. cbn [negb].
  destruct (enable_record_view c handle sensor s) as (Hs1 & Ho1 & Hh1).
  set (s1 := enable_record c handle sensor s) in *.
  destruct (enable_subscribe_view c handle s1) as (Hs2 & Ha2).
  set (s2 := enable_subscribe c handle s1) in *.
  set (clamped := clampSamplingPeriod (getSensor sensor) period).
  destruct (same_subscriptions_enable_configure hal c handle sensor clamped latency s2)
    as [Hs6 Ho6].
  pose proof (enable_configure_status hal c handle sensor clamped latency s2) as Hstatus.
  destruct (enable_configure hal c handle sensor clamped latency s2) as [err s6].
  cbn [fst snd] in *. subst err.
  assert (forall h, owners s6 h = owners s1 h) as Ho.
  { intros h. unfold owners. by rewrite Ho6, Ha2. }
  eexists s6, _. split; [reflexivity|]. split; [|split].
  - intros c' h. rewrite Hs6, Hs2. by destruct (decide _).
  - intros h Hne. rewrite Ho. by apply Ho1.
  - by rewrite Ho.
Qed.

(** X20.  What a call of [enable] that gets as far as the HAL leaves behind.
    The status is that of [batch] if it failed and that of [activate]
    otherwise; a failing first flush does not fail the call.  On success
    the connection is subscribed to the sensor and is among the owners of
    its Active Sensor Record, added last if it was not one already.  On
    failure the connection is not subscribed and not an owner, also when it
    was both before the call, and the record is gone if no owner is left.
    No other subscription and no other record's owners change. *)
Theorem enable_subscription_outcome canAccess hal c handle period latency sensor s :
  mInitCheck s = NO_ERROR ->
  getSensorInterfaceFromHandle s handle = Some sensor ->
  canAccess = true ->
  enable_refused_by_mode s (mPackageName (getConn s c)) = false ->
  let r := enable canAccess hal c handle period latency s in
  let status :=
    if batch_result hal =? NO_ERROR then activate_result hal else batch_result hal in
  r.1 = status
  /\ (forall c' h, ~ (c' = c /\ h = handle) ->
        hasSensor (getConn r.2 c') h = hasSensor (getConn s c') h)
  /\ (forall h, h <> handle -> owners r.2 h = owners s h)
  /\ (status = NO_ERROR ->
        hasSensor (getConn r.2 c) handle = true
        /\ owners r.2 handle = Some (owners_after_enable c (mActiveSensors s !! handle)))
  /\ (status <> NO_ERROR ->
        hasSensor (getConn r.2 c) handle = false
        /\ owners r.2 handle = owners_without c (owners s handle)).
Proof.
  intros Hinit Hsensor Hacc Hmode. cbv zeta.
  destruct (enable_reaches_hal canAccess hal c handle period latency sensor s
              Hinit Hsensor Hacc Hmode) as (s6 & entry & -> & Hs & Ho & Hh).
  set (status := if batch_result hal =? NO_ERROR then activate_result hal
                 else batch_result hal).
  split; [done|]. cbn [snd].
  set (s7 := if negb (status =? NO_ERROR) then _ else s6).
  enough ((forall c' h, ~ (c' = c /\ h = handle) ->
             hasSensor (getConn s7 c') h = hasSensor (getConn s c') h)
          /\ (forall h, h <> handle -> owners s7 h = owners s h)
          /\ (status = NO_ERROR ->
                hasSensor (getConn s7 c) handle = true
                /\ owners s7 handle
                   = Some (owners_after_enable c (mActiveSensors s !! handle)))
          /\ (status <> NO_ERROR ->
                hasSensor (getConn s7 c) handle = false
                /\ owners s7 handle = owners_without c (owners s handle))) as H by exact H.
  subst s7. destruct (status =? NO_ERROR) eqn:Hok; cbn [negb];
    [apply Z.eqb_eq in Hok|apply Z.eqb_neq in Hok].
  - split; [|split; [|split]]; [| | |done].
    + intros c' h Hne. rewrite Hs. rewrite decide_False; [done|]. intros [<- <-]. by apply Hne.
    + done.
    + intros _. split; [rewrite Hs; by rewrite decide_True|done].
  - unfold owners in Hh.
    destruct (mActiveSensors s6 !! handle) as [rec6|] eqn:Hrec6; [|done].
    injection Hh as Hh.
    destruct (cleanupWithoutDisableLocked_view c handle s6 rec6 Hrec6) as (Hs7 & Ha7 & Hh7).
    split; [|split; [|split]]; [| |done|].
    + intros c' h Hne. rewrite Hs7, Hs.
      rewrite !decide_False; [done|..]; intros [<- <-]; by apply Hne.
    + intros h Hne. unfold owners. rewrite Ha7 by done. by apply Ho.
    + intros _. split; [rewrite Hs7; by rewrite decide_True|].
      unfold owners at 1. rewrite Hh7, Hh.
      exact (owners_without_after_enable c (mActiveSensors s !! handle)).
Qed.

Lemma owners_without_stranger c (l : list nat) :
  l <> [] -> c ∉ l -> owners_without c (Some l) = Some l.
Proof.
  intros Hne Hc. unfold owners_without.
  assert (filter (fun x => x <> c) l = l) as ->.
  { clear Hne. induction l as [|x l IH]; [done|].
    apply not_elem_of_cons in Hc as [Hx Hl].
    rewrite filter_cons_True by done. by rewrite IH. }
  by rewrite decide_False.
Qed.

(** X21.  [enable] followed by [disable] is a round trip.  Where every
    record's owners are its subscribers, a connection that enables a sensor
    it was not subscribed to, with the HAL accepting, and then disables it,
    leaves every connection's subscriptions and every record's owners as
    they were before the two calls, and the configuration of the service
    untouched; [disable] returns what [activate(false)] answered. *)
Theorem enable_then_disable_restores canAccess hal deactivate_result c handle period latency
    sensor s :
  mInitCheck s = NO_ERROR ->
  getSensorInterfaceFromHandle s handle = Some sensor ->
  canAccess = true ->
  enable_refused_by_mode s (mPackageName (getConn s c)) = false ->
  owners_are_subscribers s ->
  hasSensor (getConn s c) handle = false ->
  batch_result hal = NO_ERROR -> activate_result hal = NO_ERROR ->
  let r1 := enable canAccess hal c handle period latency s in
  let r2 := disable deactivate_result c handle r1.2 in
  r1.1 = NO_ERROR /\ r2.1 = deactivate_result
  /\ same_subscriptions s r2.2
  /\ configuration r2.2 = configuration s.
Proof.
  intros Hinit Hsensor Hacc Hmode Hinv Hnew Hbatch Hactivate. cbv zeta.
  pose proof (configuration_enable canAccess hal c handle period latency s) as Hc1.
  destruct (enable_reaches_hal canAccess hal c handle period latency sensor s
              Hinit Hsensor Hacc Hmode) as (s6 & entry & Heq & Hs & Ho & Hh).
  assert ((if batch_result hal =? NO_ERROR then activate_result hal else batch_result hal)
          = NO_ERROR) as Hstatus by (by rewrite Hbatch, Hactivate).
  rewrite Hstatus in Heq. change (negb (NO_ERROR =? NO_ERROR)) with false in Heq.
  cbv iota in Heq. rewrite Heq in *. cbn [fst snd] in *. clear Heq.
  split; [done|].
  set (s1 := log entry s6) in *.
  assert (mInitCheck s1 = NO_ERROR /\ mSensors s1 = mSensors s) as [Hinit1 Hreg1].
  { destruct (configuration_eq _ _ Hc1) as (-> & -> & _). done. }
  unfold owners in Hh.
  destruct (mActiveSensors s6 !! handle) as [rec6|] eqn:Hrec6; [|done].
  injection Hh as Hh.
  destruct (cleanupWithoutDisableLocked_view c handle s1 rec6 Hrec6) as (Hs7 & Ha7 & Hh7).
  pose proof (configuration_cleanupWithoutDisableLocked c handle s1) as Hc7.
  unfold disable. rewrite Hinit1. change (NO_ERROR =? NO_ERROR) with true. cbn [negb].
  assert ((cleanupWithoutDisableLocked c handle s1).1 = NO_ERROR) as Herr.
  { unfold cleanupWithoutDisableLocked. change (mActiveSensors s1) with (mActiveSensors s6).
    rewrite Hrec6. by destruct (removeSensor _ _), (removeConnection _ _). }
  destruct (cleanupWithoutDisableLocked c handle s1) as [err s7]. cbn [fst snd] in *.
  subst err. change (NO_ERROR =? NO_ERROR) with true. cbv iota.
  assert (getSensorInterfaceFromHandle s7 handle = Some sensor) as ->.
  { unfold getSensorInterfaceFromHandle in *.
    destruct (configuration_eq _ _ Hc7) as (_ & -> & _). by rewrite Hreg1. }
  cbn [fst snd]. split; [done|]. split; [|by rewrite <- Hc1, <- Hc7].
  split.
  - intros c' h.
    change (hasSensor (getConn s7 c') h = hasSensor (getConn s c') h).
    rewrite Hs7. change (getConn s1 c') with (getConn s6 c'). rewrite Hs.
    destruct (decide (c = c' /\ handle = h)) as [[<- <-]|]; done.
  - intros h.
    change (mConnections <$> mActiveSensors s7 !! h = mConnections <$> mActiveSensors s !! h).
    destruct (decide (h = handle)) as [->|Hne].
    + rewrite Hh7, Hh. fold (owners_without c (Some (owners_after_enable c
                                                      (mActiveSensors s !! handle)))).
      rewrite owners_without_after_enable.
      pose proof (Hinv handle) as Hrec.
      destruct (mActiveSensors s !! handle) as [rec|]; [|done].
      destruct Hrec as [Hne Hown]. apply owners_without_stranger; [done|].
      rewrite Hown. congruence.
    + rewrite Ha7 by done. by apply Ho.
Qed.

(** *** cleanupConnection *)

Lemma deactivated_app c acts1 acts2 :
  deactivated c (acts1 ++ acts2) = deactivated c acts1 ++ deactivated c acts2.
Proof.
  induction acts1 as [|a acts1 IH]; [done|].
  destruct a; cbn [app deactivated]; try done.
  destruct enabled; [done|]. destruct (bool_decide _); [|done]. by rewrite IH.
Qed.

Lemma owners_without_idemp c before :
  owners_without c (owners_without c before) = owners_without c before.
Proof.
  unfold owners_without. destruct before as [l|]; [|done].
  destruct (decide (filter (fun x => x <> c) l = [])) as [|Hne]; [done|].
  rewrite list_filter_filter.
  assert (filter (fun x => x <> c /\ x <> c) l = filter (fun x => x <> c) l) as ->.
  { apply list_filter_iff. tauto. }
  by rewrite decide_False.
Qed.

(** One turn of the loop: the handle leaves the connection, the connection
    the record, and the sensor is deactivated for it if the connection had
    it and it is registered. *)
Lemma cleanupConnection_step_view c s handle :
  let s' := cleanupConnection_step c s handle in
  (forall c' h, hasSensor (getConn s' c') h
                = if decide (c = c' /\ handle = h) then false
                  else hasSensor (getConn s c') h)
  /\ (forall h, owners s' h
                = if decide (h = handle) then owners_without c (owners s h) else owners s h)
  /\ mActiveConnections s' = mActiveConnections s
  /\ configuration s' = configuration s
  /\ exists delta,
       trace s' = trace s ++ delta
       /\ deactivated c delta
          = if hasSensor (getConn s c) handle
               && bool_decide (is_Some (getSensorInterfaceFromHandle s handle))
            then [handle] else [].
Proof.
  cbv zeta. unfold cleanupConnection_step.
  set (s1 := if hasSensor (getConn s c) handle then _ else s).
  assert ((forall c' h, hasSensor (getConn s1 c') h
                        = if decide (c = c' /\ handle = h) then false
                          else hasSensor (getConn s c') h)
          /\ mActiveSensors s1 = mActiveSensors s
          /\ mActiveConnections s1 = mActiveConnections s
          /\ configuration s1 = configuration s
          /\ exists delta,
               trace s1 = trace s ++ delta
               /\ deactivated c delta
                  = if hasSensor (getConn s c) handle
                       && bool_decide (is_Some (getSensorInterfaceFromHandle s handle))
                    then [handle] else []) as (Hs & Ha & Hl & Hc & Ht).
  { subst s1. destruct (hasSensor (getConn s c) handle) eqn:Hhas; cbn [andb].
    - set (s' := match getSensorInterfaceFromHandle s handle with
                 | Some _ => _ | None => s end).
      assert (connections s' = connections s /\ mActiveSensors s' = mActiveSensors s
              /\ mActiveConnections s' = mActiveConnections s
              /\ configuration s' = configuration s
              /\ exists delta,
                   trace s' = trace s ++ delta
                   /\ deactivated c delta
                      = if bool_decide (is_Some (getSensorInterfaceFromHandle s handle))
                        then [handle] else [])
        as (Hc' & Ha' & Hl' & Hcfg' & delta' & Ht' & Hd').
      { subst s'. destruct (getSensorInterfaceFromHandle s handle) as [si|].
        - repeat (split; [done|]). exists [sensor_activate c handle false].
          split; [done|]. rewrite bool_decide_eq_true_2 by (by eexists).
          cbn. by rewrite bool_decide_eq_true_2.
        - repeat (split; [done|]). exists []. rewrite app_nil_r. split; [done|].
          rewrite bool_decide_eq_false_2; [done|]. by intros [? ?]. }
      assert (getConn s' c = getConn s c) as Hg by (unfold getConn; by rewrite Hc').
      rewrite Hg. unfold removeSensor. rewrite Hhas.
      set (conn := with_mSensorInfo _ _).
      assert (conn = (removeSensor handle (getConn s c)).2) as Hconn by done.
      split; [|split; [|split; [|split]]]; [|done|done|done|].
      + intros c' h.
        change (hasSensor (default newConnection (<[c := conn]> (connections s') !! c')) h
                = if decide (c = c' /\ handle = h) then false
                  else hasSensor (getConn s c') h).
        rewrite Hc', lookup_insert. destruct (decide (c = c')) as [<-|Hne].
        * change (default newConnection (Some conn)) with conn.
          rewrite Hconn, hasSensor_removeSensor.
          destruct (decide (handle = h)) as [<-|Hne].
          -- by rewrite decide_True.
          -- rewrite decide_False; [done|tauto].
        * rewrite decide_False; [done|tauto].
      + exists (delta' ++ [BatteryService_disableSensor (mUid conn) handle]). split.
        * cbn [log trace setConn with_connections]. by rewrite Ht', app_assoc.
        * rewrite deactivated_app, Hd'. cbn. by rewrite app_nil_r.
    - split; [|split; [done|split; [done|split; [done|]]]].
      + intros c' h. destruct (decide (c = c' /\ handle = h)) as [[<- <-]|]; done.
      + exists []. by rewrite app_nil_r. }
  clearbody s1.
  assert (forall sf, mActiveSensors sf !! handle
                       = (fun rec : SensorRecord =>
                            mkSensorRecord (filter (fun x => x <> c) (mConnections rec))
                              (filter (fun x => x <> c) (mPendingFlushConnections rec)))
                         <$> mActiveSensors s1 !! handle
                     \/ (mActiveSensors sf !! handle = None
                         /\ owners_without c (owners s handle) = None) ->
                     (forall h, h <> handle ->
                        mActiveSensors sf !! h = mActiveSensors s1 !! h) ->
                     owners_without c (owners s handle) <> None
                     \/ mActiveSensors sf !! handle = None ->
                     forall h, owners sf h
                               = if decide (h = handle) then owners_without c (owners s h)
                                 else owners s h) as Hown.
  { intros sf Hat Hother Hlast h. unfold owners at 1.
    destruct (decide (h = handle)) as [->|Hne].
    - destruct Hat as [Hat|[Hat Hnone]]; [|by rewrite Hat, Hnone].
      rewrite Hat, Ha. unfold owners, owners_without.
      destruct (mActiveSensors s !! handle) as [rec|] eqn:Hrec; cbn; [|done].
      destruct (decide _) as [Hempty|]; [|done].
      destruct Hlast as [Hlast|Hlast]; [|by rewrite Hat, Ha, Hrec in Hlast].
      exfalso. apply Hlast. unfold owners, owners_without. rewrite Hrec. cbn.
      by rewrite decide_True.
    - rewrite Hother by done. by rewrite Ha. }
  destruct (mActiveSensors s1 !! handle) as [rec|] eqn:Hrec.
  - unfold removeConnection. cbn [mConnections].
    assert (owners s handle = Some (mConnections rec)) as Hbefore.
    { unfold owners. by rewrite <- Ha, Hrec. }
    destruct (bool_decide (filter _ _ = [])) eqn:Hlast;
      [apply bool_decide_eq_true in Hlast|apply bool_decide_eq_false in Hlast].
    + split; [exact Hs|]. split; [|done].
      apply Hown.
      * right. cbn. rewrite lookup_delete_eq. split; [done|]. rewrite Hbefore.
        unfold owners_without. by rewrite decide_True.
      * intros h Hne. cbn. by rewrite lookup_delete_ne.
      * right. cbn. by rewrite lookup_delete_eq.
    + split; [exact Hs|]. split; [|done].
      apply Hown.
      * left. cbn. by rewrite lookup_insert_eq.
      * intros h Hne. cbn. by rewrite lookup_insert_ne.
      * left. rewrite Hbefore. unfold owners_without. by rewrite decide_False.
  - split; [exact Hs|]. split; [|done].
    apply Hown.
    + right. split; [done|]. unfold owners. by rewrite <- Ha, Hrec.
    + done.
    + by right.
Qed.

Lemma cleanupConnection_fold c handles s :
  let s' := fold_left (cleanupConnection_step c) handles s in
  (forall c' h, hasSensor (getConn s' c') h
                = if decide (c = c' /\ h ∈ handles) then false
                  else hasSensor (getConn s c') h)
  /\ (forall h, owners s' h
                = if decide (h ∈ handles) then owners_without c (owners s h) else owners s h)
  /\ mActiveConnections s' = mActiveConnections s
  /\ configuration s' = configuration s
  /\ exists delta,
       trace s' = trace s ++ delta
       /\ forall h, h ∈ deactivated c delta
                    <-> h ∈ handles /\ hasSensor (getConn s c) h = true
                        /\ is_Some (getSensorInterfaceFromHandle s h).
Proof.
  revert s. induction handles as [|h0 handles IH]; intros s; cbv zeta.
  - cbn [fold_left]. split; [|split; [|split; [done|split; [done|]]]].
    + intros c' h. rewrite decide_False; [done|]. intros [_ H]. by apply elem_of_nil in H.
    + intros h. rewrite decide_False; [done|]. apply not_elem_of_nil.
    + exists []. rewrite app_nil_r. split; [done|]. intros h. cbn. rewrite !elem_of_nil. tauto.
  - cbn [fold_left].
    destruct (cleanupConnection_step_view c s h0) as (Hs1 & Ho1 & Hl1 & Hc1 & d1 & Ht1 & Hd1).
    set (s1 := cleanupConnection_step c s h0) in *.
    destruct (IH s1) as (Hs & Ho & Hl & Hc & d & Ht & Hd).
    split; [|split; [|split; [congruence|split; [congruence|]]]].
    + intros c' h. rewrite Hs, Hs1.
      destruct (decide (c = c' /\ h ∈ handles)) as [[<- Hin]|Hn].
      * rewrite decide_True; [done|]. split; [done|]. by apply elem_of_cons; right.
      * destruct (decide (c = c' /\ h0 = h)) as [[<- <-]|Hn'].
        -- rewrite decide_True; [done|]. split; [done|]. by apply elem_of_cons; left.
        -- rewrite decide_False; [done|]. intros [<- [->|Hin]%elem_of_cons]; tauto.
    + intros h. rewrite Ho, !Ho1.
      destruct (decide (h ∈ handles)) as [Hin|Hn], (decide (h = h0)) as [->|Hne].
      * rewrite decide_True by (by apply elem_of_cons; left). apply owners_without_idemp.
      * by rewrite decide_True by (by apply elem_of_cons; right).
      * by rewrite decide_True by (by apply elem_of_cons; left).
      * rewrite decide_False; [done|]. intros [?|?]%elem_of_cons; done.
    + exists (d1 ++ d). split; [by rewrite Ht, Ht1, app_assoc|].
      intros h. rewrite deactivated_app, elem_of_app, Hd, Hd1, Hs1, elem_of_cons.
      assert (getSensorInterfaceFromHandle s1 h = getSensorInterfaceFromHandle s h) as ->.
      { unfold getSensorInterfaceFromHandle.
        by destruct (configuration_eq _ _ Hc1) as (_ & -> & _). }
      destruct (hasSensor (getConn s c) h0) eqn:Hhas0;
        destruct (bool_decide (is_Some (getSensorInterfaceFromHandle s h0))) eqn:Hreg0;
        cbn [andb]; rewrite ?list_elem_of_singleton, ?elem_of_nil;
        [apply bool_decide_eq_true in Hreg0|apply bool_decide_eq_false in Hreg0| |];
        (destruct (decide (c = c /\ h0 = h)) as [[_ <-]|Hn];
         [|assert (h <> h0) by (intros ->; by apply Hn)]);
        try tauto; try (rewrite Hhas0; intuition congruence).
Qed.

Lemma activeSensorHandles_spec s h :
  h ∈ activeSensorHandles s <-> is_Some (mActiveSensors s !! h).
Proof.
  unfold activeSensorHandles. rewrite merge_sort_Permutation, list_elem_of_fmap. split.
  - intros ([h' rec] & -> & Hin). apply elem_of_map_to_list in Hin. by eexists.
  - intros [rec Hrec]. exists (h, rec). split; [done|]. by apply elem_of_map_to_list.
Qed.

Lemma checkWakeLockStateLocked_view s :
  connections (checkWakeLockStateLocked s) = connections s
  /\ mActiveSensors (checkWakeLockStateLocked s) = mActiveSensors s
  /\ mActiveConnections (checkWakeLockStateLocked s) = mActiveConnections s
  /\ exists delta, trace (checkWakeLockStateLocked s) = trace s ++ delta
                   /\ forall c, deactivated c delta = [].
Proof.
  unfold checkWakeLockStateLocked.
  assert (exists delta : list action, trace s = trace s ++ delta
                                      /\ forall c, deactivated c delta = []) as Hnil.
  { exists []. by rewrite app_nil_r. }
  destruct (negb (mWakeLockAcquired s)) eqn:Hheld; [done|].
  destruct (forallb _ _); [|done].
  unfold setWakeLockAcquiredLocked. destruct (mWakeLockAcquired s); [|done].
  repeat (split; [done|]). by exists [release_wake_lock].
Qed.

(** X22.  A destroyed connection leaves nothing behind.  Where every
    record's owners are its subscribers, [cleanupConnection] leaves the
    connection subscribed to no sensor, among the owners of no Active Sensor
    Record (a record goes with its last owner) and out of the active
    connections; on the HAL exactly its registered sensors are deactivated
    for it; the last thing done is the notification that the connection is
    destroyed.  The subscriptions of the other connections and the
    configuration of the service stay as they were. *)
Theorem cleanupConnection_leaves_nothing c s :
  owners_are_subscribers s ->
  let s' := cleanupConnection c s in
  (forall h, hasSensor (getConn s' c) h = false)
  /\ (forall h, owners s' h = owners_without c (owners s h))
  /\ mActiveConnections s' = filter (fun x => x <> c) (mActiveConnections s)
  /\ (forall c' h, c' <> c -> hasSensor (getConn s' c') h = hasSensor (getConn s c') h)
  /\ configuration s' = configuration s
  /\ exists delta,
       trace s' = trace s ++ delta
       /\ last delta = Some (notifyConnectionDestroyed c)
       /\ forall h, h ∈ deactivated c delta
                    <-> hasSensor (getConn s c) h = true
                        /\ is_Some (getSensorInterfaceFromHandle s h).
Proof.
  intros Hinv. cbv zeta. unfold cleanupConnection. cbv zeta.
  destruct (cleanupConnection_fold c (activeSensorHandles s) s)
    as (Hs1 & Ho1 & Hl1 & Hc1 & d1 & Ht1 & Hd1).
  set (s1 := fold_left (cleanupConnection_step c) (activeSensorHandles s) s) in *.
  set (s2 := removeEventConnection c (log (updateLooperRegistration c) s1)).
  set (s3 := if needsWakeLock (getConn s2 c) then checkWakeLockStateLocked s2 else s2).
  assert (connections s3 = connections s1 /\ mActiveSensors s3 = mActiveSensors s1
          /\ mActiveConnections s3 = filter (fun x => x <> c) (mActiveConnections s1)
          /\ configuration s3 = configuration s1
          /\ exists delta, trace s3 = trace s1 ++ delta
                           /\ forall c', deactivated c' delta = [])
    as (Hconn3 & Ha3 & Hl3 & Hc3 & d3 & Ht3 & Hd3).
  { subst s3. destruct (needsWakeLock (getConn s2 c)).
    - destruct (checkWakeLockStateLocked_view s2) as (-> & -> & -> & d & -> & Hd).
      rewrite configuration_checkWakeLockStateLocked.
      repeat (split; [done|]). exists ([updateLooperRegistration c] ++ d).
      split; [by rewrite app_assoc|]. intros c'. by rewrite deactivated_app, Hd.
    - repeat (split; [done|]). by exists [updateLooperRegistration c]. }
  clearbody s3.
  assert (forall c' h, hasSensor (getConn s3 c') h = hasSensor (getConn s1 c') h) as Hhas3.
  { intros c' h. unfold getConn. by rewrite Hconn3. }
  assert (forall h, is_Some (mActiveSensors s !! h) \/ hasSensor (getConn s c) h = false)
    as Hcover.
  { intros h. pose proof (Hinv h) as Hh.
    destruct (mActiveSensors s !! h); [left; by eexists|by right]. }
  split; [|split; [|split; [|split; [|split]]]].
  - intros h. change (hasSensor (getConn s3 c) h = false). rewrite Hhas3, Hs1.
    destruct (decide _) as [|Hn]; [done|].
    destruct (Hcover h) as [Hrec|Hnone]; [|done].
    exfalso. apply Hn. split; [done|]. by apply activeSensorHandles_spec.
  - intros h. change (mConnections <$> mActiveSensors s3 !! h = owners_without c (owners s h)).
    rewrite Ha3. fold (owners s1 h). rewrite Ho1.
    destruct (decide _) as [|Hn]; [done|].
    rewrite activeSensorHandles_spec in Hn. unfold owners.
    destruct (mActiveSensors s !! h); [exfalso; apply Hn; by eexists|done].
  - change (mActiveConnections s3 = filter (fun x => x <> c) (mActiveConnections s)).
    by rewrite Hl3, Hl1.
  - intros c' h Hne. change (hasSensor (getConn s3 c') h = hasSensor (getConn s c') h).
    rewrite Hhas3, Hs1. rewrite decide_False; [done|]. intros [<- _]. done.
  - change (configuration s3 = configuration s). by rewrite Hc3.
  - exists (d1 ++ d3 ++ [notifyConnectionDestroyed c]). split; [|split].
    + cbn [log trace]. by rewrite Ht3, Ht1, !app_assoc.
    + by rewrite !app_assoc, last_snoc.
    + intros h. rewrite !deactivated_app, Hd3, app_nil_l, elem_of_app, Hd1.
      cbn. rewrite elem_of_nil. rewrite activeSensorHandles_spec.
      split; [tauto|]. intros [Hhas Hreg]. left. split; [|done].
      destruct (Hcover h) as [?|Hnone]; [done|congruence].
Qed.

End SubscriptionFacts.

Lemma enable_subscription_outcome_witness :
  Service.hasSensor
    (Service.getConn
       (Service.enable true (Service.mkEnableAnswers 0 0 (-22)) 1%nat 262145 20000000 0
          Service.dynamic_enabled).2 1%nat) 262145
  = false.
Proof.
  refine (proj1 (proj2 (proj2 (proj2 (proj2
            (enable_subscription_outcome true (Service.mkEnableAnswers 0 0 (-22)) 1%nat
               262145 20000000 0 Service.dynamic_accel Service.dynamic_enabled
               _ _ eq_refl _)))) _));
    vm_compute; congruence.
Defined.

Lemma enable_then_disable_restores_witness :
  Footprint.configuration
    (Service.disable 0 1%nat 7
       (Service.enable true Service.hal_ok 1%nat 7 20000000 0 Service.booted).2).2
  = Footprint.configuration Service.booted.
Proof.
  refine (proj2 (proj2 (proj2
            (enable_then_disable_restores true Service.hal_ok 0 1%nat 7 20000000 0
               Service.light Service.booted _ _ eq_refl _ _ _ eq_refl eq_refl))));
    first [apply owners_are_subscribers_initial; vm_compute; reflexivity
          |vm_compute; reflexivity].
Defined.

Lemma cleanupConnection_leaves_nothing_witness :
  Service.hasSensor
    (Service.getConn (Service.cleanupConnection 1%nat Service.dynamic_enabled) 1%nat) 262145
  = false.
Proof.
  refine (proj1 (cleanupConnection_leaves_nothing 1%nat Service.dynamic_enabled _) 262145).
  unfold Service.dynamic_enabled.
  apply owners_are_subscribers_enable, owners_are_subscribers_initial; vm_compute; reflexivity.
Defined.

(** ** What a dispatched batch does to the subscriptions, and who gets it *)

Section DispatchFacts.

Import Service Footprint.

Implicit Types (s : SensorService) (c : nat) (h handle : Z).

Lemma is_one_shot_configuration s s' :
  configuration s' = configuration s -> forall h, is_one_shot s' h = is_one_shot s h.
Proof.
  intros [= _ _ Hreg _ _ _] h. unfold is_one_shot, getSensorInterfaceFromHandle.
  by rewrite Hreg.
Qed.

Lemma configuration_cleanupAutoDisabledSensorLocked c buffer s :
  configuration (cleanupAutoDisabledSensorLocked c buffer s) = configuration s.
Proof.
  revert s. induction buffer as [|e rest IH]; intros s;
    cbn [cleanupAutoDisabledSensorLocked]; [done|].
  rewrite IH. destruct (hasSensor _ _); [|done].
  destruct (getSensorInterfaceFromHandle s _); [|done].
  destruct (bool_decide _); [|done].
  unfold cleanupWithoutDisableLocked. cbn [log mActiveSensors].
  destruct (mActiveSensors s !! _) as [rec|]; [|done].
  unfold removeSensor, removeConnection.
  destruct (hasSensor _ _), (negb _), (bool_decide _); done.
Qed.

(** [cleanupAutoDisabledSensorLocked] takes from the connection the one-shot
    sensors that have an event in the buffer, and nothing else from anyone. *)
Lemma cleanupAutoDisabledSensorLocked_view c buffer s :
  owners_are_subscribers s ->
  let s' := cleanupAutoDisabledSensorLocked c buffer s in
  owners_are_subscribers s'
  /\ forall c' h,
       hasSensor (getConn s' c') h
       = hasSensor (getConn s c') h
         && negb (bool_decide (c' = c) && is_one_shot s h
                  && bool_decide (h ∈ event_handle <$> buffer)).
Proof.
  revert s. induction buffer as [|e rest IH]; intros s Hinv; cbv zeta.
  - split; [done|]. intros c' h. cbn [fmap list_fmap].
    rewrite (bool_decide_eq_false_2 (h ∈ [])) by apply not_elem_of_nil.
    by rewrite !andb_false_r, andb_true_r.
  - cbn [cleanupAutoDisabledSensorLocked]. fold (event_handle e).
    set (handle := event_handle e).
    set (s1 := if hasSensor (getConn s c) handle then _ else s).
    assert (owners_are_subscribers s1
            /\ configuration s1 = configuration s
            /\ forall c' h,
                 hasSensor (getConn s1 c') h
                 = hasSensor (getConn s c') h
                   && negb (bool_decide (c' = c) && is_one_shot s h
                            && bool_decide (h = handle))) as (Hinv1 & Hc1 & Hs1).
    { subst s1. unfold is_one_shot.
      assert (forall c' h, (forall si, getSensorInterfaceFromHandle s handle = Some si ->
                              hasSensor (getConn s c) handle = true ->
                              getReportingMode (getSensor si) <> AREPORTING_MODE_ONE_SHOT) ->
                hasSensor (getConn s c') h
                = hasSensor (getConn s c') h
                  && negb (bool_decide (c' = c)
                           && match getSensorInterfaceFromHandle s h with
                              | Some si => bool_decide (getReportingMode (getSensor si)
                                                        = AREPORTING_MODE_ONE_SHOT)
                              | None => false
                              end && bool_decide (h = handle))) as Hsame.
      { intros c' h Hnot. destruct (decide (h = handle)) as [->|Hne];
          [|by rewrite (bool_decide_eq_false_2 _ Hne), !andb_false_r, andb_true_r].
        destruct (decide (c' = c)) as [->|Hne];
          [|by rewrite (bool_decide_eq_false_2 _ Hne), andb_true_r].
        destruct (hasSensor (getConn s c) handle) eqn:Hhas; [|done].
        destruct (getSensorInterfaceFromHandle s handle) as [si|];
          [|by rewrite andb_false_r].
        rewrite (bool_decide_eq_false_2 (getReportingMode _ = _)) by (by apply Hnot).
        by rewrite andb_false_r. }
      destruct (hasSensor (getConn s c) handle) eqn:Hhas;
        [|split; [done|split; [done|]]; intros c' h; apply Hsame; congruence].
      destruct (getSensorInterfaceFromHandle s handle) as [si|] eqn:Hsi;
        [|split; [done|split; [done|]]; intros c' h; apply Hsame; congruence].
      destruct (bool_decide (getReportingMode (getSensor si) = AREPORTING_MODE_ONE_SHOT))
        eqn:Hshot;
        [apply bool_decide_eq_true in Hshot
        |apply bool_decide_eq_false in Hshot; split; [done|split; [done|]];
         intros c' h; apply Hsame; congruence].
      set (s0 := log (sensor_autoDisable c handle) s).
      assert (owners_are_subscribers s0) as Hinv0.
      { eapply owners_are_subscribers_same; [|exact Hinv]. by apply same_subscriptions_fields. }
      split; [by apply owners_are_subscribers_cleanupWithoutDisableLocked|].
      split; [by rewrite configuration_cleanupWithoutDisableLocked|].
      pose proof (Hinv handle) as Hrec.
      destruct (mActiveSensors s !! handle) as [rec|] eqn:Hlook;
        [|by rewrite Hrec in Hhas].
      destruct (cleanupWithoutDisableLocked_view c handle s0 rec Hlook) as (Hview & _ & _).
      intros c' h. rewrite Hview. change (getConn s0 c') with (getConn s c').
      destruct (decide (c = c' /\ handle = h)) as [[<- <-]|Hn].
      - rewrite Hhas, Hsi, !bool_decide_eq_true_2 by done. done.
      - destruct (decide (c' = c)) as [->|Hne];
          [|by rewrite (bool_decide_eq_false_2 _ Hne), andb_true_r].
        rewrite (bool_decide_eq_false_2 (h = handle)) by (intros ->; by apply Hn).
        by rewrite andb_false_r, andb_true_r. }
    clearbody s1. destruct (IH s1 Hinv1) as [Hinv' Hs']. split; [exact Hinv'|].
    intros c' h. rewrite Hs', Hs1, (is_one_shot_configuration _ _ Hc1).
    cbn [fmap list_fmap]. fold (event_handle <$> rest).
    destruct (hasSensor (getConn s c') h); [|done]. cbn [andb].
    destruct (decide (h = handle)) as [->|Hne].
    + rewrite (bool_decide_eq_true_2 (handle = handle)) by done.
      rewrite (bool_decide_eq_true_2 (handle ∈ handle :: _)) by (by apply elem_of_cons; left).
      destruct (bool_decide (c' = c)), (is_one_shot s handle),
        (bool_decide (handle ∈ event_handle <$> rest)); done.
    + rewrite (bool_decide_eq_false_2 (h = handle)) by done.
      rewrite andb_false_r. cbn [negb andb].
      assert (bool_decide (h ∈ event_handle e :: (event_handle <$> rest))
              = bool_decide (h ∈ event_handle <$> rest)) as ->; [|done].
      apply bool_decide_ext. rewrite elem_of_cons. fold handle. tauto.
Qed.

Lemma hasOneShotSensors_false s c h :
  hasOneShotSensors s c = false -> hasSensor (getConn s c) h = true ->
  is_one_shot s h = false.
Proof.
  unfold hasOneShotSensors, hasSensor, is_one_shot. intros Hnone Hhas.
  apply bool_decide_eq_true in Hhas as [fi Hfi].
  destruct (getSensorInterfaceFromHandle s h) as [si|] eqn:Hsi; [|done].
  destruct (bool_decide _) eqn:Hshot; [|done]. exfalso.
  assert (existsb
            (fun h => match getSensorInterfaceFromHandle s h with
                      | Some sensor =>
                          bool_decide (getReportingMode (getSensor sensor)
                                       = AREPORTING_MODE_ONE_SHOT)
                      | None => false
                      end) (map_to_list (mSensorInfo (getConn s c))).*1 = true) as Hex.
  { apply existsb_exists. exists h. split; [|by rewrite Hsi].
    apply list_elem_of_In, list_elem_of_fmap. exists (h, fi). split; [done|].
    by apply elem_of_map_to_list. }
  congruence.
Qed.

Lemma fanout_view conns buffer needs s :
  owners_are_subscribers s ->
  let s' := (fanout conns buffer needs s).2 in
  owners_are_subscribers s'
  /\ configuration s' = configuration s
  /\ forall c' h,
       hasSensor (getConn s' c') h
       = hasSensor (getConn s c') h
         && negb (bool_decide (c' ∈ conns) && is_one_shot s h
                  && bool_decide (h ∈ event_handle <$> buffer.*1)).
Proof.
  revert needs s. induction conns as [|c rest IH]; intros needs s Hinv; cbv zeta.
  - cbn [fanout snd]. split; [done|]. split; [done|]. intros c' h.
    rewrite (bool_decide_eq_false_2 (c' ∈ [])) by apply not_elem_of_nil.
    by rewrite andb_true_r.
  - cbn [fanout].
    set (s1 := connection_sendEvents c true buffer s).
    destruct (same_subscriptions_connection_sendEvents c true buffer s) as [Hsame1 Hown1].
    fold s1 in Hsame1, Hown1.
    assert (owners_are_subscribers s1) as Hinv1.
    { eapply owners_are_subscribers_same; [|exact Hinv]. by split. }
    assert (configuration s1 = configuration s) as Hc1 by done.
    set (s2 := if hasOneShotSensors s1 c then _ else s1).
    assert (owners_are_subscribers s2
            /\ configuration s2 = configuration s
            /\ forall c' h,
                 hasSensor (getConn s2 c') h
                 = hasSensor (getConn s c') h
                   && negb (bool_decide (c' = c) && is_one_shot s h
                            && bool_decide (h ∈ event_handle <$> buffer.*1)))
      as (Hinv2 & Hc2 & Hs2).
    { subst s2. destruct (hasOneShotSensors s1 c) eqn:Hany.
      - destruct (cleanupAutoDisabledSensorLocked_view c buffer.*1 s1 Hinv1) as [Hi Hv].
        split; [exact Hi|]. split; [by rewrite configuration_cleanupAutoDisabledSensorLocked|].
        intros c' h. by rewrite Hv, Hsame1, (is_one_shot_configuration _ _ Hc1).
      - split; [done|]. split; [done|]. intros c' h. rewrite Hsame1.
        destruct (hasSensor (getConn s c') h) eqn:Hhas; [|done]. cbn [andb].
        destruct (decide (c' = c)) as [->|Hne];
          [|by rewrite (bool_decide_eq_false_2 _ Hne)].
        rewrite <- (is_one_shot_configuration _ _ Hc1).
        rewrite (hasOneShotSensors_false s1 c h Hany) by (by rewrite Hsame1).
        by rewrite andb_false_r. }
    clearbody s2. destruct (IH (needs || needsWakeLock (getConn s1 c)) s2 Hinv2)
      as (Hinv' & Hc' & Hs').
    split; [exact Hinv'|]. split; [congruence|].
    intros c' h. rewrite Hs', Hs2, (is_one_shot_configuration _ _ Hc2).
    assert (bool_decide (c' ∈ c :: rest) = bool_decide (c' = c) || bool_decide (c' ∈ rest))
      as ->.
    { destruct (decide (c' = c)) as [->|Hne].
      - rewrite (bool_decide_eq_true_2 (c = c)) by done.
        by rewrite (bool_decide_eq_true_2 (c ∈ c :: rest)) by (by apply elem_of_cons; left).
      - rewrite (bool_decide_eq_false_2 (c' = c)) by done. cbn [orb].
        apply bool_decide_ext. rewrite elem_of_cons. tauto. }
    destruct (hasSensor (getConn s c') h), (bool_decide (c' = c)), (bool_decide (c' ∈ rest)),
      (is_one_shot s h), (bool_decide (h ∈ event_handle <$> buffer.*1)); done.
Qed.

(** X23.  One-shot sensors fire once.  Where every record's owners are its
    subscribers, after [sendEventsToAllClients] has sent a batch, no
    connection of the snapshot is subscribed any more to a registered
    one-shot sensor that has an event in the batch; every other
    subscription is exactly as it was, none is added, and the owners are
    still the subscribers.  The configuration of the service is
    untouched. *)
Theorem one_shot_sensors_fire_once conns buffer s :
  owners_are_subscribers s ->
  let s' := sendEventsToAllClients conns buffer s in
  (forall c h,
     hasSensor (getConn s' c) h
     = hasSensor (getConn s c) h
       && negb (bool_decide (c ∈ conns) && is_one_shot s h
                && bool_decide (h ∈ event_handle <$> buffer.*1)))
  /\ owners_are_subscribers s'
  /\ configuration s' = configuration s.
Proof.
  intros Hinv. cbv zeta. unfold sendEventsToAllClients.
  destruct (fanout_view conns buffer false s Hinv) as (Hinv1 & Hc1 & Hs1).
  destruct (fanout conns buffer false s) as [needs s1]. cbn [snd] in *.
  destruct (mWakeLockAcquired s1 && negb needs); [|done].
  unfold setWakeLockAcquiredLocked. destruct (mWakeLockAcquired s1); [|done].
  split; [exact Hs1|]. split; [|exact Hc1].
  eapply owners_are_subscribers_same; [|exact Hinv1]. by apply same_subscriptions_fields.
Qed.

(** *** Who is sent what *)

Lemma sent_to_app acts1 acts2 : sent_to (acts1 ++ acts2) = sent_to acts1 ++ sent_to acts2.
Proof.
  induction acts1 as [|a acts1 IH]; [done|]. destruct a; cbn [app sent_to]; try done.
  by rewrite IH.
Qed.

Lemma delivers_nothing_sent_to s s' :
  delivers_nothing s s' ->
  exists delta, trace s' = trace s ++ delta /\ sent_to delta = []
                /\ forall c written, sendEvents c written ∉ delta.
Proof.
  intros (delta & Ht & Hq). exists delta. split; [done|]. clear Ht.
  induction delta as [|a delta IH]; [split; [done|]; intros ? ?; apply not_elem_of_nil|].
  cbn [forallb] in Hq. apply andb_true_iff in Hq as [Ha Hq]. destruct (IH Hq) as [IH1 IH2].
  split.
  - destruct a; cbn [sent_to]; done.
  - intros c written [<-|Hin]%elem_of_cons; [done|]. by apply (IH2 c written).
Qed.

Lemma sends_nothing_cleanupAutoDisabledSensorLocked c buffer s :
  sends_nothing s (cleanupAutoDisabledSensorLocked c buffer s).
Proof.
  revert s. induction buffer as [|e rest IH]; intros s;
    cbn [cleanupAutoDisabledSensorLocked]; [apply sends_nothing_refl|].
  eapply sends_nothing_trans; [|apply IH].
  destruct (hasSensor _ _); [|apply sends_nothing_refl].
  destruct (getSensorInterfaceFromHandle s _); [|apply sends_nothing_refl].
  destruct (bool_decide _); [|apply sends_nothing_refl].
  eapply sends_nothing_trans; [|apply sends_nothing_cleanupWithoutDisableLocked].
  by apply sends_nothing_log.
Qed.

(** Auto-disable never subscribes anybody. *)
Lemma cleanupAutoDisabledSensorLocked_shrinks c buffer s c' h :
  hasSensor (getConn (cleanupAutoDisabledSensorLocked c buffer s) c') h = true ->
  hasSensor (getConn s c') h = true.
Proof.
  revert s. induction buffer as [|e rest IH]; intros s;
    cbn [cleanupAutoDisabledSensorLocked]; [done|].
  intros H%IH. revert H.
  destruct (hasSensor (getConn s c) _); [|done].
  destruct (getSensorInterfaceFromHandle s _); [|done].
  destruct (bool_decide _); [|done].
  set (handle := if type e =? SENSOR_TYPE_META_DATA then _ else _).
  set (st := log (sensor_autoDisable c handle) s).
  destruct (mActiveSensors st !! handle) as [rec|] eqn:Hrec.
  - destruct (cleanupWithoutDisableLocked_view c handle st rec Hrec) as (Hview & _ & _).
    rewrite Hview. by destruct (decide _).
  - unfold cleanupWithoutDisableLocked. by rewrite Hrec.
Qed.

Lemma written_events_spec s c buffer e :
  e ∈ written_events s c true buffer ->
  exists dest, (e, dest) ∈ buffer
               /\ if type e =? SENSOR_TYPE_META_DATA then dest = Some c
                  else hasSensor (getConn s c) (sensor e) = true.
Proof.
  unfold written_events. intros ([e' dest] & -> & Hin)%list_elem_of_fmap.
  apply list_elem_of_In, List.filter_In in Hin as [Hin Hkeep]. apply list_elem_of_In in Hin.
  exists dest. split; [done|]. cbn [fst snd] in *.
  destruct (type e' =? SENSOR_TYPE_META_DATA); [by apply bool_decide_eq_true in Hkeep|done].
Qed.

Lemma fanout_sends conns buffer needs s :
  let s' := (fanout conns buffer needs s).2 in
  (forall c h, hasSensor (getConn s' c) h = true -> hasSensor (getConn s c) h = true)
  /\ exists delta,
       trace s' = trace s ++ delta
       /\ sent_to delta = conns
       /\ forall c written e,
            sendEvents c written ∈ delta -> e ∈ written ->
            exists dest, (e, dest) ∈ buffer
                         /\ if type e =? SENSOR_TYPE_META_DATA then dest = Some c
                            else hasSensor (getConn s c) (sensor e) = true.
Proof.
  revert needs s. induction conns as [|c rest IH]; intros needs s; cbv zeta.
  - cbn [fanout snd]. split; [done|]. exists []. rewrite app_nil_r. split; [done|].
    split; [done|]. intros c written e H. by apply elem_of_nil in H.
  - cbn [fanout].
    set (s1 := connection_sendEvents c true buffer s).
    destruct (same_subscriptions_connection_sendEvents c true buffer s) as [Hsame1 _].
    fold s1 in Hsame1.
    set (s2 := if hasOneShotSensors s1 c then _ else s1).
    assert (delivers_nothing s1 s2
            /\ forall c' h, hasSensor (getConn s2 c') h = true ->
                            hasSensor (getConn s c') h = true) as [Hq2 Hs2].
    { subst s2. destruct (hasOneShotSensors s1 c).
      - split; [apply sends_nothing_cleanupAutoDisabledSensorLocked|].
        intros c' h H%cleanupAutoDisabledSensorLocked_shrinks. by rewrite <- Hsame1.
      - split; [apply delivers_nothing_refl|]. intros c' h. by rewrite Hsame1. }
    clearbody s2.
    destruct (delivers_nothing_sent_to _ _ Hq2) as (d2 & Ht2 & Hsent2 & Hnone2).
    destruct (IH (needs || needsWakeLock (getConn s1 c)) s2) as (Hs' & d & Ht & Hsent & Hd).
    split; [intros c' h H; by apply Hs2, Hs'|].
    exists ([sendEvents c (written_events s c true buffer)] ++ d2 ++ d).
    split; [|split].
    + rewrite Ht, Ht2. subst s1. cbn [connection_sendEvents log trace setConn with_connections].
      by rewrite <- !app_assoc.
    + rewrite !sent_to_app, Hsent2, Hsent. done.
    + intros c' written e [Hin|[Hin|Hin]%elem_of_app]%elem_of_app He.
      * apply list_elem_of_singleton in Hin as [= -> ->]. by apply written_events_spec.
      * by apply Hnone2 in Hin.
      * destruct (Hd c' written e Hin He) as (dest & Hbuf & Hok). exists dest.
        split; [done|]. destruct (type e =? SENSOR_TYPE_META_DATA); [done|]. by apply Hs2.
Qed.

(** X24.  A batch goes to every connection of the snapshot once, in the
    order of the snapshot, and nobody is sent what they did not ask for.
    During [sendEventsToAllClients] there is exactly one [sendEvents] per
    connection of the snapshot, in its order; every event written to a
    connection is an event of the batch, and is either a flush-complete
    event mapped to that connection or an event of a sensor the connection
    was subscribed to when the call began. *)
Theorem batch_delivery_respects_subscriptions conns buffer s :
  exists delta,
    trace (sendEventsToAllClients conns buffer s) = trace s ++ delta
    /\ sent_to delta = conns
    /\ forall c written e,
         sendEvents c written ∈ delta -> e ∈ written ->
         exists dest, (e, dest) ∈ buffer
                      /\ if type e =? SENSOR_TYPE_META_DATA then dest = Some c
                         else hasSensor (getConn s c) (sensor e) = true.
Proof.
  unfold sendEventsToAllClients.
  destruct (fanout_sends conns buffer false s) as (_ & d & Ht & Hsent & Hd).
  destruct (fanout conns buffer false s) as [needs s1]. cbn [snd] in *.
  destruct (mWakeLockAcquired s1 && negb needs).
  - destruct (delivers_nothing_sent_to s1 (setWakeLockAcquiredLocked false s1))
      as (d' & Ht' & Hsent' & Hnone'); [apply sends_nothing_setWakeLockAcquiredLocked|].
    exists (d ++ d'). split; [by rewrite Ht', Ht, app_assoc|]. split.
    + by rewrite sent_to_app, Hsent', app_nil_r.
    + intros c written e [Hin|Hin]%elem_of_app He; [by eapply Hd|by apply Hnone' in Hin].
  - by exists d.
Qed.

End DispatchFacts.

Lemma one_shot_sensors_fire_once_witness :
  Service.owners_are_subscribers
    (Service.sendEventsToAllClients [1%nat] [(Footprint.motion_event, None)]
       Footprint.motion_enabled).
Proof.
  refine (proj1 (proj2 (one_shot_sensors_fire_once [1%nat] [(Footprint.motion_event, None)]
                          Footprint.motion_enabled _))).
  unfold Footprint.motion_enabled.
  apply owners_are_subscribers_enable, owners_are_subscribers_initial; vm_compute; reflexivity.
Defined.

(** In that example the subscription is gone after the delivery. *)
Example one_shot_sensors_fire_once_example :
  Service.hasSensor (Service.getConn Footprint.motion_enabled 1%nat) 5 = true
  /\ Service.hasSensor
       (Service.getConn
          (Service.sendEventsToAllClients [1%nat] [(Footprint.motion_event, None)]
             Footprint.motion_enabled) 1%nat) 5 = false.
Proof. vm_compute. done. Qed.

(** ** Creating connections, and what client requests never touch *)

Section ConnectionFacts.

Import Service Footprint.

Implicit Types (s : SensorService) (c : nat).

(** Decides the comparisons of two given modes in the goal. *)
Ltac decide_modes :=
  repeat match goal with
         | |- context [bool_decide (@eq Mode ?a ?b)] =>
             let v := eval vm_compute in (bool_decide (a = b)) in
             match v with
             | true => change (bool_decide (a = b)) with true
             | false => change (bool_decide (a = b)) with false
             end
         | |- context [isInjectionMode ?m] =>
             let v := eval vm_compute in (isInjectionMode m) in
             match v with
             | true => change (isInjectionMode m) with true
             | false => change (isInjectionMode m) with false
             end
         end.

Lemma resetTargetSdkVersionCache_lookup opPackageName (cache : gmap string Z) p :
  resetTargetSdkVersionCache opPackageName cache !! p
  = if bool_decide (p = opPackageName) then None else cache !! p.
Proof.
  unfold resetTargetSdkVersionCache.
  destruct (decide (p = opPackageName)) as [->|Hne].
  - rewrite bool_decide_eq_true_2 by done.
    destruct (cache !! opPackageName) eqn:E; [apply lookup_delete_eq|done].
  - rewrite bool_decide_eq_false_2 by done.
    destruct (cache !! opPackageName); [by apply lookup_delete_ne|done].
Qed.

(** X25.  [createSensorEventConnection].  The call returns no connection
    exactly when the requested mode is neither Normal nor an injection mode,
    or when it is DataInjection while the service is not in DataInjection
    mode or the package is not allowlisted; the two replay injection modes
    are not gated by the mode of the service.  A call refused for its mode
    changes nothing.  Every other call, refused or not, drops the cached
    target SDK version of [opPackageName] and leaves the other cached
    versions as they were; a refused DataInjection request changes nothing
    but that.  A connection that is returned is a new one: it was no
    connection before, it carries the caller's uid and the package name, or
    the made-up name when that is empty, and it is subscribed to nothing; no
    other connection and no Active Sensor Record changes, and the new
    connection joins the active connections exactly when it is created for
    an injection mode. *)
Theorem createSensorEventConnection_spec uid unknown_package packageName requestedMode
    opPackageName s :
  let r := createSensorEventConnection uid unknown_package packageName requestedMode
             opPackageName s in
  let invalid := requestedMode = None \/ requestedMode = Some RESTRICTED in
  (r.1 = None <->
     invalid
     \/ (requestedMode = Some DATA_INJECTION
         /\ (mCurrentOperatingMode s <> DATA_INJECTION
             \/ isAllowListedPackage s packageName = false)))
  /\ (invalid -> r = (None, s))
  /\ (~ invalid ->
        (forall p, sPackageTargetVersion r.2 !! p
                   = if bool_decide (p = opPackageName) then None
                     else sPackageTargetVersion s !! p)
        /\ (r.1 = None ->
              r.2 = with_sPackageTargetVersion (sPackageTargetVersion r.2) s))
  /\ (forall c, r.1 = Some c ->
        connections s !! c = None
        /\ connections r.2
           = <[c := mkConnection (if bool_decide (packageName = "") then unknown_package
                                  else packageName) uid ∅ 0 ∅]> (connections s)
        /\ (forall h, hasSensor (getConn r.2 c) h = false)
        /\ mActiveSensors r.2 = mActiveSensors s
        /\ configuration r.2 = configuration s
        /\ (forall c', c' ∈ mActiveConnections r.2
                       <-> c' ∈ mActiveConnections s
                           \/ (c' = c /\ exists mode, requestedMode = Some mode
                                                      /\ isInjectionMode mode = true))).
Proof.
  cbv zeta. unfold createSensorEventConnection.
  destruct requestedMode as [mode|].
  2:{ cbn [fst snd]. split; [split; [by left; left|done]|]. split; [done|].
      split; [|done]. intros H. exfalso. apply H. by left. }
  set (s0 := with_sPackageTargetVersion _ s).
  assert (forall p, sPackageTargetVersion s0 !! p
                    = if bool_decide (p = opPackageName) then None
                      else sPackageTargetVersion s !! p) as Hcache.
  { intros p. apply resetTargetSdkVersionCache_lookup. }
  assert (s0 = with_sPackageTargetVersion (sPackageTargetVersion s0) s) as Hs0 by done.
  change (mCurrentOperatingMode s0) with (mCurrentOperatingMode s).
  change (isAllowListedPackage s0 packageName) with (isAllowListedPackage s packageName).
  change (connections s0) with (connections s).
  set (c := fresh (dom (connections s))).
  assert (connections s !! c = None) as Hfresh.
  { apply not_elem_of_dom. apply is_fresh. }
  set (conn := mkConnection _ uid ∅ 0 ∅).
  assert (forall st, connections st = <[c := conn]> (connections s) ->
            forall h, hasSensor (getConn st c) h = false) as Hnew.
  { intros st Hst h. unfold getConn. rewrite Hst, lookup_insert_eq.
    change (default newConnection (Some conn)) with conn. unfold hasSensor, conn. cbn [mSensorInfo]. apply bool_decide_eq_false_2.
    rewrite lookup_empty. by intros [? ?]. }
  set (sn := setConn c conn s0).
  assert (connections sn = <[c := conn]> (connections s)
          /\ mActiveSensors sn = mActiveSensors s
          /\ configuration sn = configuration s
          /\ mActiveConnections sn = mActiveConnections s
          /\ sPackageTargetVersion sn = sPackageTargetVersion s0)
    as (Hconn_n & Hrec_n & Hcfg_n & Hactive_n & Hcache_n) by done.
  set (si := log (updateLooperRegistration c) (addEventConnectionIfNotPresent c sn)).
  assert (connections si = <[c := conn]> (connections s)
          /\ mActiveSensors si = mActiveSensors s
          /\ configuration si = configuration s
          /\ sPackageTargetVersion si = sPackageTargetVersion s0
          /\ forall c', c' ∈ mActiveConnections si <-> c' ∈ mActiveConnections s \/ c' = c)
    as (Hconn & Hrec & Hcfg & Hcache_i & Hactive).
  { subst si sn. unfold addEventConnectionIfNotPresent.
    cbn [setConn with_connections mActiveConnections].
    destruct (bool_decide (c ∈ mActiveConnections s0)) eqn:Hin.
    - repeat (split; [done|]). apply bool_decide_eq_true in Hin.
      intros c'. split; [by left|]. by intros [?| ->].
    - repeat (split; [done|]). intros c'.
      change (c' ∈ mActiveConnections s ++ [c] <-> c' ∈ mActiveConnections s \/ c' = c).
      by rewrite elem_of_app, list_elem_of_singleton. }
  assert (forall md c0,
            isInjectionMode md = true -> Some c = Some c0 ->
            connections s !! c0 = None
            /\ connections si = <[c0 := conn]> (connections s)
            /\ (forall h, hasSensor (getConn si c0) h = false)
            /\ mActiveSensors si = mActiveSensors s
            /\ configuration si = configuration s
            /\ (forall c', c' ∈ mActiveConnections si
                           <-> c' ∈ mActiveConnections s
                               \/ (c' = c0 /\ exists m, Some md = Some m
                                                         /\ isInjectionMode m = true)))
    as Hinjection.
  { intros md c0 Hmode [= <-]. split; [done|]. split; [done|].
    split; [by apply Hnew|]. split; [done|]. split; [done|].
    intros c'. rewrite Hactive. split; [|tauto]. intros [?| ->]; [by left|right].
    split; [done|]. by exists md. }
  assert (forall p, sPackageTargetVersion si !! p
                    = if bool_decide (p = opPackageName) then None
                      else sPackageTargetVersion s !! p) as Hcache_si
    by (by rewrite Hcache_i).
  assert (forall p, sPackageTargetVersion sn !! p
                    = if bool_decide (p = opPackageName) then None
                      else sPackageTargetVersion s !! p) as Hcache_sn
    by (by rewrite Hcache_n).
  clearbody si sn s0.
  destruct mode; decide_modes; cbn [negb andb]; cbv iota.
  - (* NORMAL *)
    cbn [fst snd].
    split; [split; [done|]; intros [[?|?]|[? _]]; done|]. split; [by intros [?|?]|].
    split; [done|].
    intros c0 [= <-]. split; [done|]. split; [done|]. split; [by apply Hnew|].
    split; [done|]. split; [done|].
    intros c'. rewrite Hactive_n. split; [tauto|].
    intros [?|[_ (m & [= <-] & ?)]]; done.
  - (* DATA_INJECTION *)
    destruct (decide (mCurrentOperatingMode s = DATA_INJECTION)) as [Hdi|Hdi].
    + rewrite (bool_decide_eq_true_2 _ Hdi). cbn [negb].
      destruct (isAllowListedPackage s packageName) eqn:Hallow; cbn [negb fst snd].
      * split; [split; [done|]; intros [[?|?]|[_ [?|?]]]; done|].
        split; [by intros [?|?]|]. split; [done|].
        intros c0. by apply Hinjection.
      * split; [split; [|done]; intros _; right; auto|].
        split; [by intros [?|?]|]. done.
    + rewrite (bool_decide_eq_false_2 _ Hdi). cbn [negb fst snd].
      split; [split; [|done]; intros _; right; auto|].
      split; [by intros [?|?]|]. done.
  - (* RESTRICTED *)
    cbn [fst snd]. split; [split; [|done]; intros _; left; by right|].
    split; [done|]. split; [|done]. intros H. exfalso. apply H. by right.
  - (* REPLAY_DATA_INJECTION *)
    cbn [fst snd].
    split; [split; [done|]; intros [[?|?]|[? _]]; done|]. split; [by intros [?|?]|].
    split; [done|].
    intros c0. by apply Hinjection.
  - (* HAL_BYPASS_REPLAY_DATA_INJECTION *)
    cbn [fst snd].
    split; [split; [done|]; intros [[?|?]|[? _]]; done|]. split; [by intros [?|?]|].
    split; [done|].
    intros c0. by apply Hinjection.
Qed.

Lemma configuration_cleanupConnection c s :
  configuration (cleanupConnection c s) = configuration s.
Proof.
  unfold cleanupConnection. cbv zeta.
  destruct (cleanupConnection_fold c (activeSensorHandles s) s) as (_ & _ & _ & Hc & _).
  set (s1 := fold_left (cleanupConnection_step c) (activeSensorHandles s) s) in *.
  set (s2 := removeEventConnection c (log (updateLooperRegistration c) s1)).
  change (configuration (if needsWakeLock (getConn s2 c) then checkWakeLockStateLocked s2
                         else s2) = configuration s).
  destruct (needsWakeLock (getConn s2 c));
    [rewrite configuration_checkWakeLockStateLocked|]; exact Hc.
Qed.

Lemma configuration_createSensorEventConnection uid unknown_package packageName
    requestedMode opPackageName s :
  configuration
    (createSensorEventConnection uid unknown_package packageName requestedMode
       opPackageName s).2
  = configuration s.
Proof.
  unfold createSensorEventConnection. destruct requestedMode as [mode|]; [|done].
  destruct (negb _ && negb _); [done|]. cbv zeta.
  destruct (_ && negb (bool_decide _)); [done|].
  destruct (_ && negb (isAllowListedPackage _ _)); [done|].
  destruct (isInjectionMode mode); [|done].
  unfold addEventConnectionIfNotPresent. by destruct (bool_decide _).
Qed.

(** X26.  Client requests never reconfigure the service.  Whatever
    sequence of [enable], [disable], one-shot auto-disable,
    [cleanupConnection] and [createSensorEventConnection] calls is made, with
    whatever arguments and HAL answers, the init status, the registry of
    sensors, the runtime handle counter, the direct connections, the
    operating mode and the allowlist string are afterwards what they were. *)
Theorem client_requests_keep_configuration (ops : list service_op) s :
  configuration (fold_left (fun st op => apply_service_op op st) ops s) = configuration s.
Proof.
  revert s. induction ops as [|op ops IH]; intros s; [done|].
  cbn [fold_left]. rewrite IH. destruct op; cbn [apply_service_op].
  - apply configuration_enable.
  - apply configuration_disable.
  - apply configuration_cleanupAutoDisabledSensorLocked.
  - apply configuration_cleanupConnection.
  - apply configuration_createSensorEventConnection.
Qed.

End ConnectionFacts.

(** ** Sensor privacy *)

Section PrivacyFacts.

Import Service Footprint SensorPrivacyPolicy.

Implicit Types (s : SensorService) (env : ModeEnv) (P : action -> bool).

Lemma grows_within_refl P s : grows_within P s s.
Proof. exists []. by rewrite app_nil_r. Qed.

Lemma grows_within_trans P s1 s2 s3 :
  grows_within P s1 s2 -> grows_within P s2 s3 -> grows_within P s1 s3.
Proof.
  intros (d1 & Ht1 & Hd1) (d2 & Ht2 & Hd2). exists (d1 ++ d2).
  rewrite Ht2, Ht1, app_assoc. split; [done|]. rewrite forallb_app. by rewrite Hd1, Hd2.
Qed.

Lemma grows_within_log P a s : P a = true -> grows_within P s (log a s).
Proof. intros Ha. exists [a]. split; [done|]. cbn. by rewrite Ha. Qed.

Lemma grows_within_fields P s s' : trace s' = trace s -> grows_within P s s'.
Proof. intros Ht. exists []. by rewrite app_nil_r. Qed.

Lemma hasSensorAccessLocked_privacy env s uid pkg :
  isSensorPrivacyEnabled env = true -> hasSensorAccessLocked env s uid pkg = false.
Proof. intros H. unfold hasSensorAccessLocked. by rewrite H. Qed.

Lemma notifyDirectConnections_grants_nothing env i conns s :
  isSensorPrivacyEnabled env = true ->
  grows_within grants_no_access s (notifyDirectConnections env i conns s).
Proof.
  intros Hpriv. revert i s. induction conns as [|[uid pkg] conns IH]; intros i s;
    cbn [notifyDirectConnections]; [apply grows_within_refl|].
  eapply grows_within_trans; [|apply IH]. apply grows_within_log.
  cbn. by rewrite hasSensorAccessLocked_privacy.
Qed.

Lemma disableAllSensorsLocked_grants_nothing env s :
  isSensorPrivacyEnabled env = true ->
  grows_within grants_no_access s (disableAllSensorsLocked env s).
Proof.
  intros Hpriv. unfold disableAllSensorsLocked. cbv zeta.
  eapply grows_within_trans; [by apply (notifyDirectConnections_grants_nothing env 0)|].
  eapply grows_within_trans; [by apply (grows_within_log _ dev_disableAllSensors)|].
  eapply grows_within_trans; [by apply (grows_within_log _ checkAndReportProxStateChange)|].
  by apply grows_within_fields.
Qed.

Lemma enableAllSensorsLocked_privacy env s :
  isSensorPrivacyEnabled env = true -> enableAllSensorsLocked env s = s.
Proof. intros H. unfold enableAllSensorsLocked. by rewrite H, orb_true_r. Qed.

(** X27.  What the sensor privacy toggle does.  Turning sensor privacy on
    makes these calls, in this order: a notice to every direct connection
    that it has no access, the command to the device to disable all sensors,
    and one call of [checkAndReportProxStateChangeLocked]; it empties every
    pending-flush queue and leaves the sensors, recent events, owners of the
    Active Sensor Records, connections, wake lock, operating mode and
    allowlist as they were.  Turning it off does nothing at all in
    Restricted mode; in any other mode it tells the device to enable all
    sensors, tells every direct connection that it has access exactly if its
    uid is active, calls [checkAndReportProxStateChangeLocked] once, and
    leaves those fields and the queues as they were.  If the service is
    gone, only the flag changes.  What the proximity check does to the
    proximity report is not part of this statement: the report is not among
    the fields compared, only the call is recorded. *)
Theorem sensor_privacy_toggle enabled alive env s :
  let r := onSensorPrivacyChanged enabled alive env s in
  isSensorPrivacyEnabled r.1 = enabled
  /\ (alive = false -> r.2 = s)
  /\ (alive = true -> enabled = true ->
        trace r.2
        = trace s
          ++ imap (fun i _ => onSensorAccessChanged i false) (mDirectConnections s)
          ++ [dev_disableAllSensors; checkAndReportProxStateChange]
        /\ forget_trace r.2
           = forget_trace
               (with_mActiveSensors
                  (clearAllPendingFlushConnections <$> mActiveSensors s) s))
  /\ (alive = true -> enabled = false ->
        if bool_decide (mCurrentOperatingMode s = RESTRICTED) then r.2 = s
        else
          trace r.2
          = trace s
            ++ [dev_enableAllSensors]
            ++ imap (fun i conn => onSensorAccessChanged i (isUidActive env conn.1))
                 (mDirectConnections s)
            ++ [checkAndReportProxStateChange]
          /\ forget_trace r.2 = forget_trace s).
Proof.
  cbv zeta. unfold onSensorPrivacyChanged. cbn [fst snd]. split; [done|].
  split; [by intros ->|]. split.
  - intros -> ->. set (env' := with_mSensorPrivacyEnabled true env).
    destruct (disableAllSensorsLocked_view env' s) as [Hf _]. split; [|done].
    by rewrite disableAllSensorsLocked_trace.
  - intros -> ->. set (env' := with_mSensorPrivacyEnabled false env).
    destruct (decide (mCurrentOperatingMode s = RESTRICTED)) as [Hmode|Hmode].
    + rewrite (bool_decide_eq_true_2 _ Hmode). unfold enableAllSensorsLocked.
      by rewrite (bool_decide_eq_true_2 _ Hmode).
    + rewrite (bool_decide_eq_false_2 _ Hmode).
      destruct (enableAllSensorsLocked_view env' s Hmode) as [Hf _]. split; [|done].
      rewrite enableAllSensorsLocked_trace by done.
      change (isSensorPrivacyEnabled env') with false. cbv iota.
      f_equal. f_equal. f_equal. apply imap_ext. intros i [uid pkg] _. cbn [fst snd].
      f_equal. by rewrite hasSensorAccessLocked_normal.
Qed.

(** X28.  Under sensor privacy no direct connection is granted access.
    While sensor privacy is on, [hasSensorAccessLocked] is false for every
    uid and package, no change of the operating mode and no
    [disableAllSensorsLocked] tells a direct connection that it has access,
    and [enableAllSensorsLocked] does nothing. *)
Theorem sensor_privacy_grants_nothing env args target s :
  isSensorPrivacyEnabled env = true ->
  (forall uid pkg, hasSensorAccessLocked env s uid pkg = false)
  /\ grows_within grants_no_access s (changeOperatingMode env args target s).2
  /\ grows_within grants_no_access s (disableAllSensorsLocked env s)
  /\ enableAllSensorsLocked env s = s.
Proof.
  intros Hpriv. split; [intros uid pkg; by apply hasSensorAccessLocked_privacy|].
  split; [|split; [by apply disableAllSensorsLocked_grants_nothing
                  |by apply enableAllSensorsLocked_privacy]].
  assert (forall st, grows_within grants_no_access st (resetToNormalModeLocked env st).2)
    as Hreset.
  { intros st. unfold resetToNormalModeLocked. cbv zeta.
    eapply grows_within_trans; [by apply (grows_within_log _ (dev_setMode NORMAL))|].
    destruct (setMode env NORMAL =? NO_ERROR); cbn [snd]; [|apply grows_within_refl].
    eapply grows_within_trans;
      [apply (grows_within_fields _ _ (with_mCurrentOperatingMode NORMAL
                                           (log (dev_setMode NORMAL) st))); done|].
    eapply grows_within_trans; [by apply (grows_within_log _ dev_enableAllSensors)|].
    by apply grows_within_log. }
  assert (grows_within grants_no_access s (enterInjectionMode env args target s).2)
    as Hinject.
  { unfold enterInjectionMode.
    destruct (bool_decide (mCurrentOperatingMode s = NORMAL)); [|apply grows_within_refl].
    cbv zeta. cbn [snd].
    set (halMode := if bool_decide (target = HAL_BYPASS_REPLAY_DATA_INJECTION) then _ else _).
    set (s2 := log (dev_setMode halMode) (log dev_disableAllSensors s)).
    assert (grows_within grants_no_access s s2) as H2.
    { eapply grows_within_trans; [by apply (grows_within_log _ dev_disableAllSensors)|].
      by apply grows_within_log. }
    clearbody s2.
    set (s3 := if setMode env halMode =? NO_ERROR then _ else s2).
    assert (grows_within grants_no_access s s3) as H3.
    { subst s3. destruct (setMode env halMode =? NO_ERROR); [|exact H2].
      eapply grows_within_trans; [exact H2|]. by apply grows_within_fields. }
    clearbody s3.
    set (s4 := if _ || _ then _ else s3).
    assert (grows_within grants_no_access s s4) as H4.
    { subst s4. destruct (_ || _); [|exact H3].
      eapply grows_within_trans; [exact H3|]. by apply grows_within_log. }
    eapply grows_within_trans; [exact H4|]. by apply grows_within_fields. }
  unfold changeOperatingMode.
  destruct (bool_decide (mCurrentOperatingMode s = target)); [apply grows_within_refl|].
  destruct (negb _ && _); [apply grows_within_refl|].
  destruct target.
  - cbn [snd]. unfold returnToNormalMode. cbv zeta.
    set (s1 := if bool_decide (mCurrentOperatingMode s = RESTRICTED) then _ else s).
    assert (grows_within grants_no_access s s1) as H1.
    { subst s1. destruct (bool_decide _); [|apply grows_within_refl].
      rewrite enableAllSensorsLocked_privacy by done. by apply grows_within_fields. }
    clearbody s1.
    set (s2 := if bool_decide (mCurrentOperatingMode s1 = REPLAY_DATA_INJECTION)
               then _ else s1).
    assert (grows_within grants_no_access s s2) as H2.
    { subst s2. destruct (bool_decide _); [|exact H1].
      eapply grows_within_trans; [exact H1|]. by apply grows_within_log. }
    clearbody s2.
    set (s3 := if isInjectionMode (mCurrentOperatingMode s2) then _ else s2).
    assert (grows_within grants_no_access s s3) as H3.
    { subst s3. destruct (isInjectionMode _); [|exact H2].
      eapply grows_within_trans; [exact H2|]. apply Hreset. }
    eapply grows_within_trans; [exact H3|]. by apply grows_within_fields.
  - exact Hinject.
  - destruct (negb _); [apply grows_within_refl|]. cbn [snd].
    eapply grows_within_trans;
      [apply (grows_within_fields _ _ (with_mCurrentOperatingMode RESTRICTED s)); done|].
    eapply grows_within_trans; [by apply disableAllSensorsLocked_grants_nothing|].
    by apply grows_within_fields.
  - destruct (isUserBuild env); [apply grows_within_refl|exact Hinject].
  - destruct (isUserBuild env); [apply grows_within_refl|exact Hinject].
Qed.

End PrivacyFacts.

Lemma sensor_privacy_grants_nothing_witness :
  Footprint.grows_within SensorPrivacyPolicy.grants_no_access
    SensorPrivacyPolicy.example_direct
    (Service.changeOperatingMode
       (SensorPrivacyPolicy.with_mSensorPrivacyEnabled true Service.example_platform)
       ["restrict"; "com.a"] Service.RESTRICTED SensorPrivacyPolicy.example_direct).2.
Proof.
  refine (proj1 (proj2 (sensor_privacy_grants_nothing
                          (SensorPrivacyPolicy.with_mSensorPrivacyEnabled true
                             Service.example_platform)
                          ["restrict"; "com.a"] Service.RESTRICTED
                          SensorPrivacyPolicy.example_direct _))).
  vm_compute. reflexivity.
Defined.

(** In that example the two direct connections are told they have no
    access. *)
Example sensor_privacy_grants_nothing_example :
  SensorPrivacyPolicy.access_told
    (Service.trace
       (Service.changeOperatingMode
          (SensorPrivacyPolicy.with_mSensorPrivacyEnabled true Service.example_platform)
          ["restrict"; "com.a"] Service.RESTRICTED SensorPrivacyPolicy.example_direct).2)
  = [(0%nat, false); (1%nat, false)].
Proof. vm_compute. reflexivity. Qed.

(** ** Events of runtime sensors *)

Section RuntimeEventFacts.

Import Service Footprint RuntimeEvents.

Variable MAX : nat.

Implicit Types (s : SensorService) (c : nat) (queue buffer : list sensors_event_t).

Lemma popEvents_spec queue buffer :
  popEvents MAX queue buffer
  = (buffer ++ take (MAX - length buffer) queue, drop (MAX - length buffer) queue).
Proof.
  revert buffer. induction queue as [|e rest IH]; intros buffer; cbn [popEvents].
  - by rewrite take_nil, drop_nil, app_nil_r.
  - destruct (MAX <=? length buffer)%nat eqn:Hfull;
      [apply Nat.leb_le in Hfull|apply Nat.leb_gt in Hfull].
    + replace (MAX - length buffer)%nat with 0%nat by lia. by rewrite app_nil_r.
    + rewrite IH, length_app. cbn [length].
      replace (MAX - length buffer)%nat with (S (MAX - (length buffer + 1))) by lia.
      cbn [take drop]. by rewrite <- app_assoc.
Qed.

Lemma no_flush_map_events buffer : (no_flush_map buffer).*1 = buffer.
Proof.
  unfold no_flush_map. induction buffer as [|e rest IH]; [done|]. cbn. by rewrite IH.
Qed.

Lemma quiet_sendToActiveConnections conns buffer s :
  quiet s (sendToActiveConnections conns buffer s).
Proof.
  revert s. induction conns as [|c rest IH]; intros s; cbn [sendToActiveConnections];
    [apply quiet_refl|].
  eapply quiet_trans; [|apply IH].
  eapply quiet_trans; [apply quiet_connection_sendEvents|].
  destruct (hasOneShotSensors _ c); [|apply quiet_refl].
  apply quiet_cleanupAutoDisabledSensorLocked.
Qed.

Lemma sendToActiveConnections_sends conns buffer s :
  exists delta,
    trace (sendToActiveConnections conns buffer s) = trace s ++ delta
    /\ sent_to delta = conns
    /\ forall c written, sendEvents c written ∈ delta -> written = buffer.
Proof.
  revert s. induction conns as [|c rest IH]; intros s; cbn [sendToActiveConnections].
  - exists []. rewrite app_nil_r. split; [done|]. split; [done|].
    intros c written H. by apply elem_of_nil in H.
  - set (s1 := connection_sendEvents c false (no_flush_map buffer) s).
    set (s2 := if hasOneShotSensors s1 c then _ else s1).
    assert (delivers_nothing s1 s2) as Hq2.
    { subst s2. destruct (hasOneShotSensors s1 c); [|apply delivers_nothing_refl].
      apply sends_nothing_cleanupAutoDisabledSensorLocked. }
    clearbody s2.
    destruct (delivers_nothing_sent_to _ _ Hq2) as (d2 & Ht2 & Hsent2 & Hnone2).
    destruct (IH s2) as (d & Ht & Hsent & Hd).
    exists ([sendEvents c buffer] ++ d2 ++ d). split; [|split].
    + rewrite Ht, Ht2. subst s1. unfold connection_sendEvents, written_events.
      rewrite no_flush_map_events. cbn [log trace setConn with_connections].
      by rewrite <- !app_assoc.
    + by rewrite !sent_to_app, Hsent2, Hsent.
    + intros c' written [Hin|[Hin|Hin]%elem_of_app]%elem_of_app.
      * by apply list_elem_of_singleton in Hin as [= _ ->].
      * by apply Hnone2 in Hin.
      * by eapply Hd.
Qed.

(** X29.  Events of runtime sensors are handed on in the order they were
    queued, in bounded batches.  [processRuntimeSensorEvents] waits exactly
    when the queue is empty.  Otherwise it takes the first
    [MAX_RECEIVE_BUFFER_EVENT_COUNT] events off the queue, or all of them if
    there are fewer, and leaves the rest queued in their order;
    [sendEvents] is called once for every active connection, in order, each
    time with that whole batch sorted by [sortEventBuffer] and with no
    scratch buffer, and for nobody else.  The wakelock is neither taken nor
    released, whatever the batch holds. *)
Theorem runtime_events_delivered queue s :
  let batch := take MAX queue in
  match processRuntimeSensorEvents MAX queue s with
  | None => queue = []
  | Some (queue', s') =>
      queue <> [] /\ queue' = drop MAX queue
      /\ quiet s s'
      /\ exists delta,
           trace s' = trace s ++ delta
           /\ sent_to delta = (if bool_decide (batch = []) then []
                               else getActiveConnections s)
           /\ forall c written,
                sendEvents c written ∈ delta ->
                written = SortEventBuffer.sortEventBuffer batch
  end.
Proof.
  cbv zeta. unfold processRuntimeSensorEvents.
  destruct queue as [|e rest] eqn:Hqueue; [done|]. rewrite <- Hqueue.
  rewrite popEvents_spec. cbn [length app]. rewrite Nat.sub_0_r.
  assert (queue <> []) as Hne by (by rewrite Hqueue). clear Hqueue.
  destruct (0 <? length (take MAX queue))%nat eqn:Hcount;
    [apply Nat.ltb_lt in Hcount|apply Nat.ltb_ge in Hcount].
  - split; [done|]. split; [done|].
    destruct (recordLastValueLocked_frame (take MAX queue) s) as [m Hrec].
    rewrite Hrec. set (s1 := with_mRecentEvent m s).
    split.
    + eapply quiet_trans; [|apply quiet_sendToActiveConnections]. by apply quiet_same.
    + destruct (sendToActiveConnections_sends (getActiveConnections s1)
                  (SortEventBuffer.sortEventBuffer (take MAX queue)) s1)
        as (delta & Ht & Hsent & Hd).
      exists delta. split; [exact Ht|]. split; [|exact Hd].
      rewrite bool_decide_eq_false_2; [exact Hsent|].
      intros Hnil. rewrite Hnil in Hcount. cbn in Hcount. lia.
  - split; [done|]. split; [done|]. split; [apply quiet_refl|].
    exists []. rewrite app_nil_r. split; [done|]. split.
    + rewrite bool_decide_eq_true_2; [done|]. by destruct (take MAX queue); [|cbn in Hcount; lia].
    + intros c written H. by apply elem_of_nil in H.
Qed.

End RuntimeEventFacts.

(** ** The Recent-Event Log *)

Section RecentEventFacts.

Import Service Footprint.

Implicit Types (s : SensorService) (h handle : Z) (buffer : list sensors_event_t).

Lemma logged_addEvent e events logger :
  logged events (addEvent e logger) = logged (e :: events) logger.
Proof.
  unfold logged, addEvent. cbn [mRecentEvents rev].
  destruct events as [|e' events]; [done|]. by rewrite <- !app_assoc.
Qed.

Lemma recordLastValueLocked_lookup buffer s h :
  mRecentEvent (recordLastValueLocked buffer s) !! h
  = logged (recorded h buffer) <$> mRecentEvent s !! h.
Proof.
  revert s. induction buffer as [|e rest IH]; intros s; cbn [recordLastValueLocked].
  - cbn. by destruct (mRecentEvent s !! h).
  - unfold recorded. cbn [List.filter]. fold (recorded h rest).
    destruct ((type e =? SENSOR_TYPE_META_DATA)
              || (type e =? SENSOR_TYPE_DYNAMIC_SENSOR_META)
              || (type e =? SENSOR_TYPE_ADDITIONAL_INFO)); cbn [negb andb]; [apply IH|].
    destruct (mRecentEvent s !! sensor e) as [logger|] eqn:Hlog.
    + rewrite IH. cbn [with_mRecentEvent mRecentEvent].
      destruct (sensor e =? h) eqn:Hh; [apply Z.eqb_eq in Hh|apply Z.eqb_neq in Hh].
      * subst h. rewrite lookup_insert_eq, Hlog. cbn. by rewrite logged_addEvent.
      * by rewrite lookup_insert_ne.
    + rewrite IH. destruct (sensor e =? h) eqn:Hh; [apply Z.eqb_eq in Hh|done].
      subst h. by rewrite Hlog.
Qed.

(** X30.  What [recordLastValueLocked] leaves in the Recent-Event Log.  It
    changes nothing but the log, and never adds or drops the entry of a
    handle.  The entry of a handle takes the events of the buffer that
    carry that handle, in buffer order, flush-complete, dynamic-sensor-meta
    and additional-info events apart; when there is at least one, the entry
    becomes current and its last value is the last such event of the
    buffer, which is then what a replay would send; when there is none, the
    entry is unchanged, staleness included. *)
Theorem recordLastValueLocked_spec buffer s :
  let s' := recordLastValueLocked buffer s in
  (exists m, s' = with_mRecentEvent m s)
  /\ (forall h, mRecentEvent s' !! h = logged (recorded h buffer) <$> mRecentEvent s !! h)
  /\ (forall h logger,
        mRecentEvent s !! h = Some logger ->
        (mRecentEvent s' !! h) ≫= populateLastEventIfCurrent
        = match last (recorded h buffer) with
          | Some e => Some e
          | None => populateLastEventIfCurrent logger
          end).
Proof.
  cbv zeta. split; [apply recordLastValueLocked_frame|].
  split; [intros h; apply recordLastValueLocked_lookup|].
  intros h logger Hlog. rewrite recordLastValueLocked_lookup, Hlog.
  cbn [fmap option_fmap option_map mbind option_bind].
  generalize (recorded h buffer). intros l.
  destruct l as [|x l _] using rev_ind; [done|].
  rewrite last_snoc. unfold logged.
  destruct (l ++ [x]) as [|y l'] eqn:Hl; [by destruct l|]. rewrite <- Hl.
  unfold populateLastEventIfCurrent. cbn [mIsLastEventCurrent mRecentEvents].
  by rewrite rev_app_distr.
Qed.

End RecentEventFacts.
